(* ===== verification/_CoqProject ===== *)
-Q . S2P
Prelude.v
GoUnicode.v
GoStrings.v
GoErr.v
Regex.v
Fields.v
Attributes.v
Util.v
VolumeIDs.v
CsiCommon.v
Predicates.v
ContainerNames.v
MountOptions.v
MountSafety.v
Metrics.v
Locks.v
Effects.v
World.v
Azcopy.v
Proxy.v
NetURL.v
InlineServer.v
Auth.v
Containers.v
Subnets.v
CreateVolume.v
Parameters.v
Controller.v
Mounts.v
Node.v
DriverInit.v
Interference.v
VolumeLocks.v
Toy.v
Frames.v
Server.v
Counters.v
MountTable.v
ControllerSafety.v
Accounts.v
AccountTypes.v
SearchCache.v
Lifecycle.v
NodeSafety.v
InlineVolumes.v
AuthSafety.v
StageSafety.v
SubnetSafety.v
DriverSafety.v
Startup.v
Logging.v
Privileges.v
