(* ===== verification/Prelude.v ===== *)
(** * A verification library of the Azure Blob Storage CSI driver

    The driver is a gRPC server that a Kubernetes node or controller calls.  One program, [src/pkg/blobplugin], is both the
    controller service (CreateVolume makes a container in a storage account, DeleteVolume deletes it) and the node service
    (NodeStageVolume mounts the container with blobfuse or NFS, NodePublishVolume bind mounts it for a pod).  A second
    program, [src/pkg/blobfuse-proxy], runs on the host and starts blobfuse on behalf of the first one.  This library
    translates the code of both into executable definitions, under the names of the source, and proves what makes them
    correct.

    ** How a Go function is translated

    A pure function is a function; one that returns [(T, error)] is a function into [result T] (GoErr).  A function that
    reads or changes the driver, or calls the outside, is a computation [io (st W) T] (Effects, World): it takes the state
    of the driver and the outside world [W] and gives a result and the new state.  [return ..., err] is [throw], a deferred
    call [defer], an error that the code inspects itself [attempt].  A panic or a fatal error is a thrown error with the
    text of the Go runtime; no code recovers from one, but the callers of the two functions that can panic under a handler
    treat it here as they treat any error: NodeStageVolume would go on with a target that is mounted already when the key
    vault answered without a value ([getKeyVaultSecretContent]), where the program ends.  The state [st W] (World) holds what the Driver struct of [pkg/blob/blob.go] changes: the set of volume locks,
    the map of volumes to accounts, the five timed caches, and the samples of [pkg/metrics/metrics.go].  What the repository
    calls but does not contain (Azure clients, the Kubernetes API, processes, files, mounts, the clock) is the type class
    [Ops W]: one operation per call, of which nothing is assumed.  A theorem about a handler holds for every instance; the
    witnesses use the instance of Toy.  The start-up uses the class [Host] in the same way, the log the class [Json].

    Go's strings are byte sequences that some functions read as UTF-8 (GoUnicode, GoStrings: ToLower, EqualFold, TrimSpace,
    Fields, Split, Sprintf, ParseBool, ParseUint and so on, with their corner cases); regular expressions are matched by
    derivatives (Regex).  A Go map is a [gmap], and a range over it follows the type class [RangeOrder], any order that
    lists the entries once (Attributes): a result that depends on the random order of Go shows as a dependence on the
    instance.  Integers of a fixed width are [Z] with their wrap-around ([wrap_signed], the sizes of Util).

    ** The files

    Strings, errors and effects: Prelude, GoUnicode, GoStrings, GoErr, Regex, Effects.

    Data and small functions: Fields (the constants of [pkg/blob/blob.go]), Attributes (maps of attributes, [setKeyValueInMap],
    [ValidateVolumeAttributeKeys]), Util ([pkg/util/util.go]: sizes, tags, arguments), VolumeIDs ([GetContainerInfo] and the
    format that CreateVolume prints), CsiCommon ([pkg/csi-common]), Predicates (supported values), ContainerNames
    ([getValidContainerName], [ValidateContainerName]), MountOptions (the pipeline from the mountOptions attribute to the
    arguments of blobfuse), NetURL and InlineServer ([normalizeInlineVolumeServer] with net/url), Metrics
    ([pkg/metrics/metrics.go]), Azcopy (job queries of [pkg/util/util.go]), Proxy ([pkg/blobfuse-proxy/server/server.go]).

    The driver: World (state, [Ops], locks, caches, metrics around a body), Auth ([GetAuthEnv] and the account keys),
    Containers (create, delete, copy, roll back), Subnets ([updateSubnetServiceEndpoints] of [pkg/blob/azure.go]), CreateVolume
    and Controller ([pkg/blob/controllerserver.go]), Mounts and Node ([pkg/blob/nodeserver.go]), DriverInit ([NewDriver],
    identity, version, proxy monitor), Startup ([GetCloudProvider], [GetKubeClient], [Listen], [Run], both main functions),
    Logging ([LogGRPC]).

    Concurrency: Locks (Module LockMap: LockEntry and UnlockEntry of [pkg/util/util.go], one instruction at a time) and
    VolumeLocks (the same for [pkg/blob/volume_lock.go]).  In World, TryAcquire and Release are single steps; VolumeLocks
    proves that the instructions refine them.  The handlers are run one after the other; what another handler can do in
    between is covered where a theorem speaks of every state.

    Proof libraries: Interference (a computation that behaves the same in two outsides that differ in one call never makes
    that call), Frames (the class [Frame] of relations that every operation respects, by the hint database [locks]; the
    relations [later] of Frames and [silent] of Counters are instances), Toy (a concrete outside).

    ** What is proved

    - Inline volumes (InlineVolumes, InlineServer, MountSafety).  Whatever attributes the author of a pod writes, in
      whatever letter case, the driver's identity is not used to list account keys; only allowed options of his reach
      the arguments of blobfuse; a server attribute names the account that is authorized.
    - Provisioning (ControllerSafety, Accounts, AccountTypes, SearchCache, Lifecycle, Parameters).  What CreateVolume
      answers; a rejected request does nothing, but for the subnets of an NFS request that the account checks reject;
      the options of every account asked for are well typed; an account from the search cache was found for the same
      demands; a retried request answers the same volume; DeleteVolume of an answered identifier deletes the container
      that was created and no other; a container that the user named is never deleted by a rollback, and a rollback
      deletes only when there is no copy job; the retries are bounded; the order of the storage class parameters does
      not matter when they are unambiguous.
    - Separation of the services (Privileges).  No node RPC makes a call that changes the cloud or creates a secret,
      or starts a process other than blobfuse, and no controller RPC one that mounts or changes files, or starts a
      process other than azcopy.
    - Locks (Locks, VolumeLocks, Server).  Mutual exclusion, no deadlock, refinement of a lock per entry, every call
      comes to its end, the one data race; the refinement of the atomic locks; no RPC leaks a lock on any path; a
      locked volume answers Aborted.
    - Metrics (Counters, Accounts, DriverSafety).  An RPC is counted at most once, as a success exactly when it
      answers without an error, mock mounts apart.
    - Mounting (MountTable, NodeSafety, StageSafety, AuthSafety).  Publishing, unpublishing and unstaging refine a
      table of mount points, against the interface [MountTable] of the host, for clean paths; success of a blobfuse
      mount means that the target was seen mounted; publishing never unmounts; read-only volumes are mounted
      read-only; which credentials are used, and where they come from.
    - Names, formats and parsers (VolumeIDs, ContainerNames, Azcopy, Proxy, Regex).  Round trips and exact
      characterizations.
    - Start-up and logging (Startup, Logging).  When the start-up ends in an error and when in a panic; the service
      account tokens of a request never reach the log.
    - Numbers (DriverSafety).  Sizes are rounded up exactly below the bound at which 64 bits wrap around.

    The theorems also show where code and intention part; see the comments at subnet_cache_confusion, LockMap_race,
    nil_clientset_panics, GetCloudProvider_result, parameters_order_dependent, tokenizer_drops_options,
    passthrough_extra_argument, wait_for_job_not_found, cached_account_not_remembered, aznfs_lists_keys and
    NewDriver_options.

    ** Bounds and fuel

    Recursion is structural wherever the code's is.  Loops that wait have the number of rounds that the code gives them:
    ExponentialBackoff runs the steps of [getBackOff] (the retries of the configuration, at least one), the poll of a copy
    [azcopy_polls] rounds (its timeout in minutes at three polls a minute), waitForMount [waitForMountTicks] rounds (110
    seconds at 50 a second); running out is the timeout that the code returns.  The proxy monitor runs for a number of
    ticks that is an argument.  The parser of IPv6 addresses has the eight fields of an address as fuel, and the tokenizers
    consume their input.  LockMap has no bound on goroutines or calls; its termination is by a measure on the state.

    ** What is not modelled

    Durations: a timeout is an event of the outside, and sleeping is nothing.  The serving of gRPC and HTTP, the parsing of
    flags and the setup of the logger: [Host] serves until it ends.  Log lines other than those of LogGRPC.  The latency of
    a metric.  Cancellation of a context.  The generated code of [pkg/blobfuse-proxy/pb], the stubs of
    [nodeserver_windows.go], the mocks [fake_mount.go] and [util_mock.go].  Vendored code, except the timed cache, the
    backoff and JoinMountOptions, which are translated where the driver relies on them; JSON, YAML and INI are
    interfaces. *)

From stdpp Require Export base gmap list strings pretty sorting.
From Stdlib Require Export ZArith Lia Ascii.
From stdpp Require Import options.

(** ** Prelude: shared notation, automation and generic lemmas *)

Declare Scope go_scope.
Delimit Scope go_scope with go.

(** Rewriting and resolution databases of the development: [go] holds the lemmas that close the common side conditions,
    [go_rw] the equations that normalise Go string and list operations. *)
Create HintDb go.
Create Rewrite HintDb go_rw.

(** ** Tactics *)

(** Invert a hypothesis and clean the context. *)
Ltac invert H := inversion H; simplify_eq/=; clear H.

(** Split every [match] and [if] of the goal or of a hypothesis, keeping the equations. *)
Ltac split_match :=
  match goal with
  | |- context [match ?x with _ => _ end] => destruct x eqn:?
  | H : context [match ?x with _ => _ end] |- _ => destruct x eqn:?
  end.
Ltac split_matches := repeat (split_match; simplify_eq/=).

(** Turn boolean connectives of the context into propositions. *)
Ltac bools :=
  repeat match goal with
  | H : (_ && _)%bool = true |- _ => apply andb_true_iff in H as [? ?]
  | H : (_ && _)%bool = false |- _ => apply andb_false_iff in H
  | H : (_ || _)%bool = false |- _ => apply orb_false_iff in H as [? ?]
  | H : (_ || _)%bool = true |- _ => apply orb_true_iff in H
  | H : negb _ = true |- _ => apply negb_true_iff in H
  | H : negb _ = false |- _ => apply negb_false_iff in H
  | H : bool_decide _ = true |- _ => apply bool_decide_eq_true in H
  | H : bool_decide _ = false |- _ => apply bool_decide_eq_false in H
  end.

(** ** Lists *)

Lemma existsb_false_Forall {A} (p : A → bool) (l : list A) :
  existsb p l = false ↔ Forall (λ x, p x = false) l.
Proof.
  induction l as [|x l IH]; simpl; [by split|].
  rewrite orb_false_iff, IH, Forall_cons. done.
Qed.

Lemma forallb_true_Forall {A} (p : A → bool) (l : list A) :
  forallb p l = true ↔ Forall (λ x, p x = true) l.
Proof.
  induction l as [|x l IH]; simpl; [by split|].
  by rewrite andb_true_iff, IH, Forall_cons.
Qed.

Lemma existsb_app_false {A} (p : A → bool) (l k : list A) :
  existsb p (l ++ k) = false ↔ existsb p l = false ∧ existsb p k = false.
Proof. rewrite existsb_app. apply orb_false_iff. Qed.

Lemma filter_all {A} (P : A → Prop) `{∀ x, Decision (P x)} (l : list A) : Forall P l → filter P l = l.
Proof. induction 1 as [|x l Hx _ IH]; [done|]. rewrite filter_cons_True by done. by rewrite IH. Qed.

(** The last element that satisfies [p], as a Go loop that keeps overwriting a variable finds it. *)
Fixpoint find_last {A} (p : A → bool) (l : list A) : option A :=
  match l with
  | [] => None
  | x :: l => match find_last p l with
              | Some y => Some y
              | None => if p x then Some x else None
              end
  end.

(** The first element that satisfies [p], as a Go loop that returns finds it. *)
Fixpoint find_first {A} (p : A → bool) (l : list A) : option A :=
  match l with
  | [] => None
  | x :: l => if p x then Some x else find_first p l
  end.

Lemma find_last_Some {A} (p : A → bool) (l : list A) x :
  find_last p l = Some x → x ∈ l ∧ p x = true.
Proof.
  induction l as [|y l IH]; simpl; [done|]. intros H. split_matches.
  - destruct IH as [? ?]; [done|]. split; [by right|done].
  - split; [by left|done].
Qed.

Lemma find_last_None {A} (p : A → bool) (l : list A) :
  find_last p l = None ↔ ∀ x, x ∈ l → p x = false.
Proof.
  induction l as [|y l IH]; simpl.
  { split; [|done]. intros _ x Hx. by apply not_elem_of_nil in Hx. }
  split.
  - intros H. split_matches. intros x [->|?]%elem_of_cons; [done|]. by apply IH.
  - intros H. rewrite (proj2 IH); [|intros x ?; apply H; by right].
    by rewrite (H y) by left.
Qed.

Lemma find_first_Some {A} (p : A → bool) (l : list A) x :
  find_first p l = Some x → x ∈ l ∧ p x = true.
Proof.
  induction l as [|y l IH]; simpl; [done|]. intros H. split_matches.
  - split; [by left|done].
  - destruct IH as [? ?]; [done|]. split; [by right|done].
Qed.

Lemma find_first_None {A} (p : A → bool) (l : list A) :
  find_first p l = None ↔ ∀ x, x ∈ l → p x = false.
Proof.
  induction l as [|y l IH]; simpl.
  { split; [|done]. intros _ x Hx. by apply not_elem_of_nil in Hx. }
  split.
  - intros H. split_matches. intros x [->|?]%elem_of_cons; [done|]. by apply IH.
  - intros H. rewrite (H y) by left. apply IH. intros x ?. apply H. by right.
Qed.

(** ** Integers of a fixed width *)

(** The value of the w-bit two's complement integer congruent to [z], for [w = 32, 64]. *)
Definition wrap_signed (w z : Z) : Z :=
  let m := (z mod 2 ^ w)%Z in if (m <? 2 ^ (w - 1))%Z then m else (m - 2 ^ w)%Z.

Definition int64_min : Z := (- 2 ^ 63)%Z.
Definition int64_max : Z := (2 ^ 63 - 1)%Z.
Definition in_int64 (z : Z) : Prop := (int64_min ≤ z ≤ int64_max)%Z.

#[export] Instance in_int64_dec z : Decision (in_int64 z).
Proof. unfold in_int64. apply _. Defined.

Lemma wrap_signed_64_range z : in_int64 (wrap_signed 64 z).
Proof.
  unfold in_int64, wrap_signed, int64_min, int64_max.
  pose proof (Z.mod_pos_bound z (2 ^ 64) eq_refl).
  destruct (Z.ltb_spec (z mod 2 ^ 64) (2 ^ (64 - 1))); lia.
Qed.

Lemma wrap_signed_64_id z : in_int64 z → wrap_signed 64 z = z.
Proof.
  unfold in_int64, wrap_signed, int64_min, int64_max. intros H.
  destruct (decide (0 ≤ z)%Z).
  - rewrite Z.mod_small by lia. destruct (Z.ltb_spec z (2 ^ (64 - 1))); lia.
  - assert (z mod 2 ^ 64 = z + 2 ^ 64)%Z as ->.
    { symmetry. apply (Z.mod_unique _ _ (-1)); lia. }
    destruct (Z.ltb_spec (z + 2 ^ 64) (2 ^ (64 - 1))); lia.
Qed.

#[export] Hint Resolve wrap_signed_64_range wrap_signed_64_id : go.
