(* ===== verification/GoUnicode.v ===== *)
(** * GoUnicode: UTF-8 and the Unicode functions of Go's standard library

    A Go string is a sequence of bytes, which [range], [strings.ToLower], [strings.EqualFold], [strings.TrimSpace] and
    their kin read as UTF-8.  A byte that starts no valid encoding reads as U+FFFD and is one byte wide
    (utf8.DecodeRuneInString), so [runes] keeps the bytes of every rune beside its value.  The case tables are those of
    the Unicode version of Go's [unicode] package, written as arithmetic ranges. *)
From S2P Require Import Prelude.
From Stdlib Require Strings.String.
From stdpp Require Import options.

(** Appending computes on a constructor. *)
#[global] Arguments Stdlib.Strings.String.append !_ _ /.

Abbreviation chars := Stdlib.Strings.String.list_ascii_of_string.
Abbreviation of_chars := Stdlib.Strings.String.string_of_list_ascii.
Abbreviation slen := Stdlib.Strings.String.length.

Definition byte_val (c : ascii) : N := N_of_ascii c.

(** ** Decoding and encoding *)

Definition rune_error : N := 65533.

(** A decoded rune with the bytes it was read from. *)
Record chunk := Chunk { c_rune : N; c_bytes : string }.

Definition in_range (lo hi b : N) : bool := (lo <=? b)%N && (b <=? hi)%N.
Definition cont (b : N) : bool := in_range 128 191 b.

(** The valid two, three and four byte encodings (utf8.acceptRanges). *)
Definition valid2 (b0 b1 : N) : bool := in_range 194 223 b0 && cont b1.
Definition valid3 (b0 b1 b2 : N) : bool :=
  ((N.eqb b0 224 && in_range 160 191 b1) || (in_range 225 236 b0 && cont b1)
   || (N.eqb b0 237 && in_range 128 159 b1) || (in_range 238 239 b0 && cont b1)) && cont b2.
Definition valid4 (b0 b1 b2 b3 : N) : bool :=
  ((N.eqb b0 240 && in_range 144 191 b1) || (in_range 241 243 b0 && cont b1)
   || (N.eqb b0 244 && in_range 128 143 b1)) && cont b2 && cont b3.

Definition rune2 (b0 b1 : N) : N := ((b0 - 192) * 64 + (b1 - 128))%N.
Definition rune3 (b0 b1 b2 : N) : N := ((b0 - 224) * 4096 + (b1 - 128) * 64 + (b2 - 128))%N.
Definition rune4 (b0 b1 b2 b3 : N) : N :=
  ((b0 - 240) * 262144 + (b1 - 128) * 4096 + (b2 - 128) * 64 + (b3 - 128))%N.

(** The runes of a string, as [for _, r := range s] visits them. *)
Fixpoint runes (s : string) : list chunk :=
  match s with
  | EmptyString => []
  | String c0 s1 =>
    let b0 := byte_val c0 in
    if (b0 <? 128)%N then Chunk b0 (String c0 EmptyString) :: runes s1 else
    match s1 with
    | EmptyString => Chunk rune_error (String c0 EmptyString) :: runes s1
    | String c1 s2 =>
      let b1 := byte_val c1 in
      if valid2 b0 b1 then Chunk (rune2 b0 b1) (String c0 (String c1 EmptyString)) :: runes s2 else
      match s2 with
      | EmptyString => Chunk rune_error (String c0 EmptyString) :: runes s1
      | String c2 s3 =>
        let b2 := byte_val c2 in
        if valid3 b0 b1 b2
        then Chunk (rune3 b0 b1 b2) (String c0 (String c1 (String c2 EmptyString))) :: runes s3 else
        match s3 with
        | EmptyString => Chunk rune_error (String c0 EmptyString) :: runes s1
        | String c3 s4 =>
          let b3 := byte_val c3 in
          if valid4 b0 b1 b2 b3
          then Chunk (rune4 b0 b1 b2 b3) (String c0 (String c1 (String c2 (String c3 EmptyString)))) :: runes s4
          else Chunk rune_error (String c0 EmptyString) :: runes s1
        end
      end
    end
  end.

Definition byte_of (n : N) : ascii := ascii_of_N n.

(** utf8.AppendRune, for the runes a decoder or a case table yields. *)
Definition encode_rune (r : N) : string :=
  if (r <? 128)%N then String (byte_of r) EmptyString
  else if (r <? 2048)%N
  then String (byte_of (192 + r / 64)) (String (byte_of (128 + r mod 64)) EmptyString)
  else if (r <? 65536)%N
  then String (byte_of (224 + r / 4096)) (String (byte_of (128 + (r / 64) mod 64))
         (String (byte_of (128 + r mod 64)) EmptyString))
  else String (byte_of (240 + r / 262144)) (String (byte_of (128 + (r / 4096) mod 64))
         (String (byte_of (128 + (r / 64) mod 64)) (String (byte_of (128 + r mod 64)) EmptyString))).

Definition concat_str (l : list string) : string := foldr (λ a b, a +:+ b) EmptyString l.
Definition chunks_str (l : list chunk) : string := concat_str (c_bytes <$> l).

(** ** Case tables *)

(** A range [(lo, hi, stride, delta)] maps the runes [lo, lo + stride, ..., hi] to themselves plus [delta]. *)
Definition case_range : Type := N * N * N * Z.

Definition in_case_range (r : N) (cr : case_range) : bool :=
  let '(lo, hi, st, _) := cr in in_range lo hi r && N.eqb ((r - lo) mod st) 0.

Definition map_case (t : list case_range) (r : N) : N :=
  match find_first (in_case_range r) t with
  | Some (_, _, _, d) => Z.to_N (Z.of_N r + d)
  | None => r
  end.

(** unicode.ToLower outside ASCII. *)
Definition lower_table : list case_range := Eval cbv in
  [(192, 214, 1, (32)%Z); (216, 222, 1, (32)%Z); (256, 302, 2, (1)%Z); (304, 304, 1, (-199)%Z);
   (306, 310, 2, (1)%Z); (313, 327, 2, (1)%Z); (330, 374, 2, (1)%Z); (376, 376, 1, (-121)%Z);
   (377, 381, 2, (1)%Z); (385, 385, 1, (210)%Z); (386, 388, 2, (1)%Z); (390, 390, 1, (206)%Z);
   (391, 391, 1, (1)%Z); (393, 394, 1, (205)%Z); (395, 395, 1, (1)%Z); (398, 398, 1, (79)%Z);
   (399, 399, 1, (202)%Z); (400, 400, 1, (203)%Z); (401, 401, 1, (1)%Z); (403, 403, 1, (205)%Z);
   (404, 404, 1, (207)%Z); (406, 406, 1, (211)%Z); (407, 407, 1, (209)%Z); (408, 408, 1, (1)%Z);
   (412, 412, 1, (211)%Z); (413, 413, 1, (213)%Z); (415, 415, 1, (214)%Z); (416, 420, 2, (1)%Z);
   (422, 422, 1, (218)%Z); (423, 423, 1, (1)%Z); (425, 425, 1, (218)%Z); (428, 428, 1, (1)%Z);
   (430, 430, 1, (218)%Z); (431, 431, 1, (1)%Z); (433, 434, 1, (217)%Z); (435, 437, 2, (1)%Z);
   (439, 439, 1, (219)%Z); (440, 440, 1, (1)%Z); (444, 444, 1, (1)%Z); (452, 452, 1, (2)%Z);
   (453, 453, 1, (1)%Z); (455, 455, 1, (2)%Z); (456, 456, 1, (1)%Z); (458, 458, 1, (2)%Z);
   (459, 475, 2, (1)%Z); (478, 494, 2, (1)%Z); (497, 497, 1, (2)%Z); (498, 500, 2, (1)%Z);
   (502, 502, 1, (-97)%Z); (503, 503, 1, (-56)%Z); (504, 542, 2, (1)%Z); (544, 544, 1, (-130)%Z);
   (546, 562, 2, (1)%Z); (570, 570, 1, (10795)%Z); (571, 571, 1, (1)%Z); (573, 573, 1, (-163)%Z);
   (574, 574, 1, (10792)%Z); (577, 577, 1, (1)%Z); (579, 579, 1, (-195)%Z); (580, 580, 1, (69)%Z);
   (581, 581, 1, (71)%Z); (582, 590, 2, (1)%Z); (880, 882, 2, (1)%Z); (886, 886, 1, (1)%Z);
   (895, 895, 1, (116)%Z); (902, 902, 1, (38)%Z); (904, 906, 1, (37)%Z); (908, 908, 1, (64)%Z);
   (910, 911, 1, (63)%Z); (913, 929, 1, (32)%Z); (931, 939, 1, (32)%Z); (975, 975, 1, (8)%Z);
   (984, 1006, 2, (1)%Z); (1012, 1012, 1, (-60)%Z); (1015, 1015, 1, (1)%Z); (1017, 1017, 1, (-7)%Z);
   (1018, 1018, 1, (1)%Z); (1021, 1023, 1, (-130)%Z); (1024, 1039, 1, (80)%Z); (1040, 1071, 1, (32)%Z);
   (1120, 1152, 2, (1)%Z); (1162, 1214, 2, (1)%Z); (1216, 1216, 1, (15)%Z); (1217, 1229, 2, (1)%Z);
   (1232, 1326, 2, (1)%Z); (1329, 1366, 1, (48)%Z); (4256, 4293, 1, (7264)%Z); (4295, 4295, 1, (7264)%Z);
   (4301, 4301, 1, (7264)%Z); (5024, 5103, 1, (38864)%Z); (5104, 5109, 1, (8)%Z); (7312, 7354, 1, (-3008)%Z);
   (7357, 7359, 1, (-3008)%Z); (7680, 7828, 2, (1)%Z); (7838, 7838, 1, (-7615)%Z); (7840, 7934, 2, (1)%Z);
   (7944, 7951, 1, (-8)%Z); (7960, 7965, 1, (-8)%Z); (7976, 7983, 1, (-8)%Z); (7992, 7999, 1, (-8)%Z);
   (8008, 8013, 1, (-8)%Z); (8025, 8031, 2, (-8)%Z); (8040, 8047, 1, (-8)%Z); (8072, 8079, 1, (-8)%Z);
   (8088, 8095, 1, (-8)%Z); (8104, 8111, 1, (-8)%Z); (8120, 8121, 1, (-8)%Z); (8122, 8123, 1, (-74)%Z);
   (8124, 8124, 1, (-9)%Z); (8136, 8139, 1, (-86)%Z); (8140, 8140, 1, (-9)%Z); (8152, 8153, 1, (-8)%Z);
   (8154, 8155, 1, (-100)%Z); (8168, 8169, 1, (-8)%Z); (8170, 8171, 1, (-112)%Z); (8172, 8172, 1, (-7)%Z);
   (8184, 8185, 1, (-128)%Z); (8186, 8187, 1, (-126)%Z); (8188, 8188, 1, (-9)%Z); (8486, 8486, 1, (-7517)%Z);
   (8490, 8490, 1, (-8383)%Z); (8491, 8491, 1, (-8262)%Z); (8498, 8498, 1, (28)%Z); (8544, 8559, 1, (16)%Z);
   (8579, 8579, 1, (1)%Z); (9398, 9423, 1, (26)%Z); (11264, 11311, 1, (48)%Z); (11360, 11360, 1, (1)%Z);
   (11362, 11362, 1, (-10743)%Z); (11363, 11363, 1, (-3814)%Z); (11364, 11364, 1, (-10727)%Z); (11367, 11371, 2, (1)%Z);
   (11373, 11373, 1, (-10780)%Z); (11374, 11374, 1, (-10749)%Z); (11375, 11375, 1, (-10783)%Z); (11376, 11376, 1, (-10782)%Z);
   (11378, 11378, 1, (1)%Z); (11381, 11381, 1, (1)%Z); (11390, 11391, 1, (-10815)%Z); (11392, 11490, 2, (1)%Z);
   (11499, 11501, 2, (1)%Z); (11506, 11506, 1, (1)%Z); (42560, 42604, 2, (1)%Z); (42624, 42650, 2, (1)%Z);
   (42786, 42798, 2, (1)%Z); (42802, 42862, 2, (1)%Z); (42873, 42875, 2, (1)%Z); (42877, 42877, 1, (-35332)%Z);
   (42878, 42886, 2, (1)%Z); (42891, 42891, 1, (1)%Z); (42893, 42893, 1, (-42280)%Z); (42896, 42898, 2, (1)%Z);
   (42902, 42920, 2, (1)%Z); (42922, 42922, 1, (-42308)%Z); (42923, 42923, 1, (-42319)%Z); (42924, 42924, 1, (-42315)%Z);
   (42925, 42925, 1, (-42305)%Z); (42926, 42926, 1, (-42308)%Z); (42928, 42928, 1, (-42258)%Z); (42929, 42929, 1, (-42282)%Z);
   (42930, 42930, 1, (-42261)%Z); (42931, 42931, 1, (928)%Z); (42932, 42946, 2, (1)%Z); (42948, 42948, 1, (-48)%Z);
   (42949, 42949, 1, (-42307)%Z); (42950, 42950, 1, (-35384)%Z); (42951, 42953, 2, (1)%Z); (42960, 42960, 1, (1)%Z);
   (42966, 42968, 2, (1)%Z); (42997, 42997, 1, (1)%Z); (65313, 65338, 1, (32)%Z); (66560, 66599, 1, (40)%Z);
   (66736, 66771, 1, (40)%Z); (66928, 66938, 1, (39)%Z); (66940, 66954, 1, (39)%Z); (66956, 66962, 1, (39)%Z);
   (66964, 66965, 1, (39)%Z); (68736, 68786, 1, (64)%Z); (71840, 71871, 1, (32)%Z); (93760, 93791, 1, (32)%Z);
   (125184, 125217, 1, (34)%Z)]%N.

(** The representative of the simple case folding orbit of a rune outside ASCII (unicode.SimpleFold). *)
Definition fold_table : list case_range := Eval cbv in
  [(181, 181, 1, (775)%Z); (192, 214, 1, (32)%Z); (216, 222, 1, (32)%Z); (256, 302, 2, (1)%Z);
   (306, 310, 2, (1)%Z); (313, 327, 2, (1)%Z); (330, 374, 2, (1)%Z); (376, 376, 1, (-121)%Z);
   (377, 381, 2, (1)%Z); (383, 383, 1, (-268)%Z); (385, 385, 1, (210)%Z); (386, 388, 2, (1)%Z);
   (390, 390, 1, (206)%Z); (391, 391, 1, (1)%Z); (393, 394, 1, (205)%Z); (395, 395, 1, (1)%Z);
   (398, 398, 1, (79)%Z); (399, 399, 1, (202)%Z); (400, 400, 1, (203)%Z); (401, 401, 1, (1)%Z);
   (403, 403, 1, (205)%Z); (404, 404, 1, (207)%Z); (406, 406, 1, (211)%Z); (407, 407, 1, (209)%Z);
   (408, 408, 1, (1)%Z); (412, 412, 1, (211)%Z); (413, 413, 1, (213)%Z); (415, 415, 1, (214)%Z);
   (416, 420, 2, (1)%Z); (422, 422, 1, (218)%Z); (423, 423, 1, (1)%Z); (425, 425, 1, (218)%Z);
   (428, 428, 1, (1)%Z); (430, 430, 1, (218)%Z); (431, 431, 1, (1)%Z); (433, 434, 1, (217)%Z);
   (435, 437, 2, (1)%Z); (439, 439, 1, (219)%Z); (440, 440, 1, (1)%Z); (444, 444, 1, (1)%Z);
   (452, 452, 1, (2)%Z); (453, 453, 1, (1)%Z); (455, 455, 1, (2)%Z); (456, 456, 1, (1)%Z);
   (458, 458, 1, (2)%Z); (459, 475, 2, (1)%Z); (478, 494, 2, (1)%Z); (497, 497, 1, (2)%Z);
   (498, 500, 2, (1)%Z); (502, 502, 1, (-97)%Z); (503, 503, 1, (-56)%Z); (504, 542, 2, (1)%Z);
   (544, 544, 1, (-130)%Z); (546, 562, 2, (1)%Z); (570, 570, 1, (10795)%Z); (571, 571, 1, (1)%Z);
   (573, 573, 1, (-163)%Z); (574, 574, 1, (10792)%Z); (577, 577, 1, (1)%Z); (579, 579, 1, (-195)%Z);
   (580, 580, 1, (69)%Z); (581, 581, 1, (71)%Z); (582, 590, 2, (1)%Z); (837, 837, 1, (116)%Z);
   (880, 882, 2, (1)%Z); (886, 886, 1, (1)%Z); (895, 895, 1, (116)%Z); (902, 902, 1, (38)%Z);
   (904, 906, 1, (37)%Z); (908, 908, 1, (64)%Z); (910, 911, 1, (63)%Z); (913, 929, 1, (32)%Z);
   (931, 939, 1, (32)%Z); (962, 962, 1, (1)%Z); (975, 975, 1, (8)%Z); (976, 976, 1, (-30)%Z);
   (977, 977, 1, (-25)%Z); (981, 981, 1, (-15)%Z); (982, 982, 1, (-22)%Z); (984, 1006, 2, (1)%Z);
   (1008, 1008, 1, (-54)%Z); (1009, 1009, 1, (-48)%Z); (1012, 1012, 1, (-60)%Z); (1013, 1013, 1, (-64)%Z);
   (1015, 1015, 1, (1)%Z); (1017, 1017, 1, (-7)%Z); (1018, 1018, 1, (1)%Z); (1021, 1023, 1, (-130)%Z);
   (1024, 1039, 1, (80)%Z); (1040, 1071, 1, (32)%Z); (1120, 1152, 2, (1)%Z); (1162, 1214, 2, (1)%Z);
   (1216, 1216, 1, (15)%Z); (1217, 1229, 2, (1)%Z); (1232, 1326, 2, (1)%Z); (1329, 1366, 1, (48)%Z);
   (4256, 4293, 1, (7264)%Z); (4295, 4295, 1, (7264)%Z); (4301, 4301, 1, (7264)%Z); (5112, 5117, 1, (-8)%Z);
   (7296, 7296, 1, (-6222)%Z); (7297, 7297, 1, (-6221)%Z); (7298, 7298, 1, (-6212)%Z); (7299, 7300, 1, (-6210)%Z);
   (7301, 7301, 1, (-6211)%Z); (7302, 7302, 1, (-6204)%Z); (7303, 7303, 1, (-6180)%Z); (7304, 7304, 1, (35267)%Z);
   (7312, 7354, 1, (-3008)%Z); (7357, 7359, 1, (-3008)%Z); (7680, 7828, 2, (1)%Z); (7835, 7835, 1, (-58)%Z);
   (7838, 7838, 1, (-7615)%Z); (7840, 7934, 2, (1)%Z); (7944, 7951, 1, (-8)%Z); (7960, 7965, 1, (-8)%Z);
   (7976, 7983, 1, (-8)%Z); (7992, 7999, 1, (-8)%Z); (8008, 8013, 1, (-8)%Z); (8025, 8031, 2, (-8)%Z);
   (8040, 8047, 1, (-8)%Z); (8072, 8079, 1, (-8)%Z); (8088, 8095, 1, (-8)%Z); (8104, 8111, 1, (-8)%Z);
   (8120, 8121, 1, (-8)%Z); (8122, 8123, 1, (-74)%Z); (8124, 8124, 1, (-9)%Z); (8126, 8126, 1, (-7173)%Z);
   (8136, 8139, 1, (-86)%Z); (8140, 8140, 1, (-9)%Z); (8152, 8153, 1, (-8)%Z); (8154, 8155, 1, (-100)%Z);
   (8168, 8169, 1, (-8)%Z); (8170, 8171, 1, (-112)%Z); (8172, 8172, 1, (-7)%Z); (8184, 8185, 1, (-128)%Z);
   (8186, 8187, 1, (-126)%Z); (8188, 8188, 1, (-9)%Z); (8486, 8486, 1, (-7517)%Z); (8490, 8490, 1, (-8383)%Z);
   (8491, 8491, 1, (-8262)%Z); (8498, 8498, 1, (28)%Z); (8544, 8559, 1, (16)%Z); (8579, 8579, 1, (1)%Z);
   (9398, 9423, 1, (26)%Z); (11264, 11311, 1, (48)%Z); (11360, 11360, 1, (1)%Z); (11362, 11362, 1, (-10743)%Z);
   (11363, 11363, 1, (-3814)%Z); (11364, 11364, 1, (-10727)%Z); (11367, 11371, 2, (1)%Z); (11373, 11373, 1, (-10780)%Z);
   (11374, 11374, 1, (-10749)%Z); (11375, 11375, 1, (-10783)%Z); (11376, 11376, 1, (-10782)%Z); (11378, 11378, 1, (1)%Z);
   (11381, 11381, 1, (1)%Z); (11390, 11391, 1, (-10815)%Z); (11392, 11490, 2, (1)%Z); (11499, 11501, 2, (1)%Z);
   (11506, 11506, 1, (1)%Z); (42560, 42604, 2, (1)%Z); (42624, 42650, 2, (1)%Z); (42786, 42798, 2, (1)%Z);
   (42802, 42862, 2, (1)%Z); (42873, 42875, 2, (1)%Z); (42877, 42877, 1, (-35332)%Z); (42878, 42886, 2, (1)%Z);
   (42891, 42891, 1, (1)%Z); (42893, 42893, 1, (-42280)%Z); (42896, 42898, 2, (1)%Z); (42902, 42920, 2, (1)%Z);
   (42922, 42922, 1, (-42308)%Z); (42923, 42923, 1, (-42319)%Z); (42924, 42924, 1, (-42315)%Z); (42925, 42925, 1, (-42305)%Z);
   (42926, 42926, 1, (-42308)%Z); (42928, 42928, 1, (-42258)%Z); (42929, 42929, 1, (-42282)%Z); (42930, 42930, 1, (-42261)%Z);
   (42931, 42931, 1, (928)%Z); (42932, 42946, 2, (1)%Z); (42948, 42948, 1, (-48)%Z); (42949, 42949, 1, (-42307)%Z);
   (42950, 42950, 1, (-35384)%Z); (42951, 42953, 2, (1)%Z); (42960, 42960, 1, (1)%Z); (42966, 42968, 2, (1)%Z);
   (42997, 42997, 1, (1)%Z); (43888, 43967, 1, (-38864)%Z); (65313, 65338, 1, (32)%Z); (66560, 66599, 1, (40)%Z);
   (66736, 66771, 1, (40)%Z); (66928, 66938, 1, (39)%Z); (66940, 66954, 1, (39)%Z); (66956, 66962, 1, (39)%Z);
   (66964, 66965, 1, (39)%Z); (68736, 68786, 1, (64)%Z); (71840, 71871, 1, (32)%Z); (93760, 93791, 1, (32)%Z);
   (125184, 125217, 1, (34)%Z)]%N.

Definition ascii_lower (r : N) : N := if in_range 65 90 r then (r + 32)%N else r.
Definition rune_lower (r : N) : N := if (r <? 128)%N then ascii_lower r else map_case lower_table r.
Definition rune_fold (r : N) : N := if (r <? 128)%N then ascii_lower r else map_case fold_table r.

(** unicode.IsSpace. *)
Definition is_space (r : N) : bool :=
  in_range 9 13 r || N.eqb r 32 || N.eqb r 133 || N.eqb r 160 || N.eqb r 5760 || in_range 8192 8202 r
  || N.eqb r 8232 || N.eqb r 8233 || N.eqb r 8239 || N.eqb r 8287 || N.eqb r 12288.

(** ** The string functions that read runes *)

(** strings.ToLower. *)
Definition ToLower (s : string) : string := concat_str ((λ c, encode_rune (rune_lower (c_rune c))) <$> runes s).

(** strings.EqualFold. *)
Definition fold_key (s : string) : list N := (λ c, rune_fold (c_rune c)) <$> runes s.
Definition EqualFold (a b : string) : bool := bool_decide (fold_key a = fold_key b).

Fixpoint drop_while {A} (p : A → bool) (l : list A) : list A :=
  match l with [] => [] | x :: l' => if p x then drop_while p l' else l end.
Definition drop_while_end {A} (p : A → bool) (l : list A) : list A := reverse (drop_while p (reverse l)).

Definition space_chunk (c : chunk) : bool := is_space (c_rune c).

(** strings.TrimSpace. *)
Definition TrimSpace (s : string) : string :=
  chunks_str (drop_while_end space_chunk (drop_while space_chunk (runes s))).

(** [strings.IndexFunc(s, unicode.IsSpace) >= 0]. *)
Definition HasSpace (s : string) : bool := existsb space_chunk (runes s).

(** strings.Fields: the maximal runs of runes that are not spaces. *)
Fixpoint fields_go (cur : list chunk) (l : list chunk) : list string :=
  match l with
  | [] => if decide (cur = []) then [] else [chunks_str cur]
  | c :: l' =>
    if space_chunk c
    then (if decide (cur = []) then [] else [chunks_str cur]) ++ fields_go [] l'
    else fields_go (cur ++ [c]) l'
  end.

Definition Fields (s : string) : list string := fields_go [] (runes s).

(** ** Strings as lists of bytes *)

Definition is_ascii (s : string) : bool := forallb (λ c, (byte_val c <? 128)%N) (chars s).

Lemma chars_app a b : chars (a +:+ b) = chars a ++ chars b.
Proof. induction a as [|c a IH]; simpl; [done|]. by rewrite IH. Qed.

Lemma of_chars_chars s : of_chars (chars s) = s.
Proof. apply Stdlib.Strings.String.string_of_list_ascii_of_string. Qed.

Lemma chars_of_chars l : chars (of_chars l) = l.
Proof. apply Stdlib.Strings.String.list_ascii_of_string_of_list_ascii. Qed.

#[export] Instance chars_inj : Inj (=) (=) Stdlib.Strings.String.list_ascii_of_string.
Proof. intros a b H. by rewrite <- (of_chars_chars a), <- (of_chars_chars b), H. Qed.

Lemma length_chars s : length (chars s) = slen s.
Proof. induction s; simpl; auto. Qed.

Lemma slen_app a b : slen (a +:+ b) = slen a + slen b.
Proof. rewrite <- !length_chars, chars_app, length_app. done. Qed.

Lemma str_app_nil_r (s : string) : s +:+ "" = s.
Proof. apply (inj chars). rewrite chars_app. simpl. by rewrite app_nil_r. Qed.

Lemma str_app_assoc (a b c : string) : a +:+ b +:+ c = (a +:+ b) +:+ c.
Proof. apply (inj chars). rewrite !chars_app. by rewrite app_assoc. Qed.

(** Prove an equation between concatenations. *)
Ltac str_assoc :=
  apply (inj chars); repeat first [rewrite chars_app | progress simpl];
  repeat rewrite <- app_assoc; simpl; try done.

Lemma is_ascii_cons c s : is_ascii (String c s) = ((byte_val c <? 128)%N && is_ascii s)%bool.
Proof. done. Qed.

Lemma is_ascii_app a b : is_ascii (a +:+ b) = (is_ascii a && is_ascii b)%bool.
Proof. unfold is_ascii. by rewrite chars_app, forallb_app. Qed.

Lemma byte_val_lt c : (byte_val c < 256)%N.
Proof. apply N_ascii_bounded. Qed.

Lemma byte_of_val c : byte_of (byte_val c) = c.
Proof. apply ascii_N_embedding. Qed.

Lemma byte_val_inj c d : byte_val c = byte_val d → c = d.
Proof. intros H. by rewrite <- (byte_of_val c), <- (byte_of_val d), H. Qed.

Lemma byte_val_of n : (n < 256)%N → byte_val (byte_of n) = n.
Proof. apply N_ascii_embedding. Qed.

#[export] Hint Rewrite chars_app slen_app str_app_nil_r is_ascii_cons is_ascii_app byte_of_val : go_rw.
#[export] Hint Resolve byte_val_lt : go.

(** ** Decoding *)

Definition ascii_chunk (c : ascii) : chunk := Chunk (byte_val c) (String c EmptyString).

Lemma runes_cons_ascii c s : (byte_val c <? 128)%N = true → runes (String c s) = ascii_chunk c :: runes s.
Proof. intros H. simpl. by rewrite H. Qed.

Lemma runes_ascii s : is_ascii s = true → runes s = ascii_chunk <$> chars s.
Proof.
  induction s as [|c s IH]; [done|]. rewrite is_ascii_cons. intros [Hc Hs]%andb_true_iff.
  rewrite runes_cons_ascii by done. by rewrite IH.
Qed.

Lemma concat_str_app l k : concat_str (l ++ k) = concat_str l +:+ concat_str k.
Proof. induction l as [|x l IH]; [done|]. simpl. by rewrite IH, str_app_assoc. Qed.

Lemma chunks_str_app l k : chunks_str (l ++ k) = chunks_str l +:+ chunks_str k.
Proof. unfold chunks_str. by rewrite fmap_app, concat_str_app. Qed.

Lemma chunks_str_cons c l : chunks_str (c :: l) = c_bytes c +:+ chunks_str l.
Proof. done. Qed.

(** An induction on the steps of the decoder: a step is one ASCII byte, one bad byte, or a valid longer encoding. *)
Lemma runes_ind (P : string → list chunk → Prop) :
  P EmptyString [] →
  (∀ c s, (byte_val c <? 128)%N = true → P s (runes s) → P (String c s) (ascii_chunk c :: runes s)) →
  (∀ c s, (byte_val c <? 128)%N = false → P s (runes s) →
     P (String c s) (Chunk rune_error (String c EmptyString) :: runes s)) →
  (∀ t r s, t ≠ EmptyString → Forall (λ c, (128 ≤ byte_val c)%N) (chars t) → (128 ≤ r)%N →
     P s (runes s) → P (t +:+ s) (Chunk r t :: runes s)) →
  ∀ s, P s (runes s).
Proof.
  intros Hnil Hasc Hbad Hmulti s.
  induction s as [s IH] using (induction_ltof1 _ slen). unfold ltof in IH.
  destruct s as [|c0 s1]; [done|].
  destruct (byte_val c0 <? 128)%N eqn:E0.
  { rewrite runes_cons_ascii by done. apply Hasc; [done|]. apply IH. simpl. lia. }
  assert (P (String c0 s1) (Chunk rune_error (String c0 EmptyString) :: runes s1)) as Hb.
  { apply Hbad; [done|]. apply IH. simpl. lia. }
  cbn [runes]. rewrite E0. apply N.ltb_ge in E0.
  destruct s1 as [|c1 s2]; [done|].
  destruct (valid2 _ _) eqn:E2.
  { apply (Hmulti (String c0 (String c1 EmptyString))); [done| | |apply IH; simpl; lia];
      unfold valid2, cont, in_range, rune2 in *; bools; rewrite !N.leb_le in *.
    - repeat constructor; lia.
    - lia. }
  destruct s2 as [|c2 s3]; [done|].
  destruct (valid3 _ _ _) eqn:E3.
  { apply (Hmulti (String c0 (String c1 (String c2 EmptyString)))); [done| | |apply IH; simpl; lia];
      unfold valid3, cont, in_range, rune3 in *; bools; rewrite !N.leb_le in *;
      repeat match goal with H : _ ∨ _ |- _ => destruct H; bools end;
      rewrite ?N.leb_le, ?N.eqb_eq in *; repeat constructor; lia. }
  destruct s3 as [|c3 s4]; [done|].
  destruct (valid4 _ _ _ _) eqn:E4; [|done].
  apply (Hmulti (String c0 (String c1 (String c2 (String c3 EmptyString)))));
    [done| | |apply IH; simpl; lia];
    unfold valid4, cont, in_range, rune4 in *; bools; rewrite !N.leb_le in *;
    repeat match goal with H : _ ∨ _ |- _ => destruct H; bools end;
    rewrite ?N.leb_le, ?N.eqb_eq in *; repeat constructor; lia.
Qed.

(** Decoding loses no byte. *)
Lemma chunks_str_runes s : chunks_str (runes s) = s.
Proof.
  apply (runes_ind (λ s l, chunks_str l = s)); [done|..]; intros; rewrite chunks_str_cons;
    match goal with H : chunks_str _ = _ |- _ => by rewrite H end.
Qed.

(** An ASCII byte of a string is a rune of its own. *)
Lemma ascii_byte_rune s c : c ∈ chars s → (byte_val c < 128)%N → ascii_chunk c ∈ runes s.
Proof.
  intros Hin Hc. revert Hin. apply (runes_ind (λ s l, c ∈ chars s → ascii_chunk c ∈ l)); clear s.
  - intros H. by apply not_elem_of_nil in H.
  - intros d s _ IH [->|H]%elem_of_cons; [by left|]. right. by apply IH.
  - intros d s Hd IH [->|H]%elem_of_cons; [apply N.ltb_ge in Hd; lia|]. right. by apply IH.
  - intros t r s _ Ht _ IH. rewrite chars_app. intros [H|H]%elem_of_app.
    + rewrite Forall_forall in Ht. specialize (Ht c H). lia.
    + right. by apply IH.
Qed.

(** A string without Unicode white space holds no ASCII white space byte. *)
Lemma HasSpace_false_byte s c : HasSpace s = false → c ∈ chars s → (byte_val c < 128)%N → is_space (byte_val c) = false.
Proof.
  intros H Hin Hc. apply existsb_false_Forall in H. rewrite Forall_forall in H.
  apply (H (ascii_chunk c)). by apply ascii_byte_rune.
Qed.

(** ** Decoding and concatenation

    An ASCII byte always starts a rune, so decoding can stop in front of it. *)
Lemma valid2_high b0 b1 : valid2 b0 b1 = true → (128 ≤ b1)%N.
Proof. unfold valid2, cont, in_range. intros H. bools. rewrite N.leb_le in *. lia. Qed.

Lemma valid3_high b0 b1 b2 : valid3 b0 b1 b2 = true → (128 ≤ b1)%N ∧ (128 ≤ b2)%N.
Proof.
  unfold valid3, cont, in_range. intros H. bools.
  repeat match goal with H : _ ∨ _ |- _ => destruct H; bools end; rewrite ?N.leb_le in *; lia.
Qed.

Lemma valid4_high b0 b1 b2 b3 : valid4 b0 b1 b2 b3 = true → (128 ≤ b1)%N ∧ (128 ≤ b2)%N ∧ (128 ≤ b3)%N.
Proof.
  unfold valid4, cont, in_range. intros H. bools.
  repeat match goal with H : _ ∨ _ |- _ => destruct H; bools end; rewrite ?N.leb_le in *; lia.
Qed.

Ltac kill_valid :=
  repeat match goal with
  | |- context [if valid2 ?a ?b then _ else _] =>
    let E := fresh in destruct (valid2 a b) eqn:E; [try (apply valid2_high in E; lia)|]
  | |- context [if valid3 ?a ?b ?c then _ else _] =>
    let E := fresh in destruct (valid3 a b c) eqn:E; [try (apply valid3_high in E; lia)|]
  | |- context [if valid4 ?a ?b ?c ?d then _ else _] =>
    let E := fresh in destruct (valid4 a b c d) eqn:E; [try (apply valid4_high in E; lia)|]
  end.

Lemma runes_cons_high c0 s1 :
  (byte_val c0 <? 128)%N = false →
  runes (String c0 s1) =
  let b0 := byte_val c0 in
  let bad := Chunk rune_error (String c0 EmptyString) :: runes s1 in
  match s1 with
  | EmptyString => bad
  | String c1 s2 =>
    let b1 := byte_val c1 in
    if valid2 b0 b1 then Chunk (rune2 b0 b1) (String c0 (String c1 EmptyString)) :: runes s2 else
    match s2 with
    | EmptyString => bad
    | String c2 s3 =>
      let b2 := byte_val c2 in
      if valid3 b0 b1 b2
      then Chunk (rune3 b0 b1 b2) (String c0 (String c1 (String c2 EmptyString))) :: runes s3 else
      match s3 with
      | EmptyString => bad
      | String c3 s4 =>
        let b3 := byte_val c3 in
        if valid4 b0 b1 b2 b3
        then Chunk (rune4 b0 b1 b2 b3) (String c0 (String c1 (String c2 (String c3 EmptyString)))) :: runes s4
        else bad
      end
    end
  end.
Proof. intros H. cbn [runes]. by rewrite H. Qed.

Lemma runes_app_ascii a c s : (byte_val c < 128)%N → runes (a +:+ String c s) = runes a ++ runes (String c s).
Proof.
  intros Hc. induction a as [a IH] using (induction_ltof1 _ slen). unfold ltof in IH.
  destruct a as [|c0 a1]; [done|].
  assert (runes (a1 +:+ String c s) = runes a1 ++ runes (String c s)) as IH1 by (apply IH; simpl; lia).
  change (String c0 a1 +:+ String c s) with (String c0 (a1 +:+ String c s)).
  destruct (byte_val c0 <? 128)%N eqn:E0; [rewrite !runes_cons_ascii by done; by rewrite IH1|].
  destruct a1 as [|c1 a2].
  { rewrite (runes_cons_high c0 ("" +:+ String c s)), (runes_cons_high c0 "") by done. cbn [String.append]. destruct s as [|s1 [|s2 s]]; cbn zeta; kill_valid; reflexivity. }
  assert (runes (a2 +:+ String c s) = runes a2 ++ runes (String c s)) as IH2 by (apply IH; simpl; lia).
  change (String c1 a2 +:+ String c s) with (String c1 (a2 +:+ String c s)) in *.
  rewrite (runes_cons_high c0 (String c1 (a2 +:+ String c s))), (runes_cons_high c0 (String c1 a2)) by done.
  cbn zeta iota. destruct (valid2 _ _); [by rewrite IH2|].
  destruct a2 as [|c2 a3].
  { cbn [String.append]. destruct s as [|s1 s]; cbn [String.append] in *; kill_valid; by rewrite ?IH1. }
  assert (runes (a3 +:+ String c s) = runes a3 ++ runes (String c s)) as IH3 by (apply IH; simpl; lia).
  change (String c2 a3 +:+ String c s) with (String c2 (a3 +:+ String c s)) in *.
  cbn iota. destruct (valid3 _ _ _); [by rewrite IH3|].
  destruct a3 as [|c3 a4].
  { cbn [String.append]. cbn [String.append] in *; kill_valid; by rewrite ?IH1. }
  assert (runes (a4 +:+ String c s) = runes a4 ++ runes (String c s)) as IH4 by (apply IH; simpl; lia).
  change (String c3 a4 +:+ String c s) with (String c3 (a4 +:+ String c s)) in *.
  cbn iota. destruct (valid4 _ _ _ _); [by rewrite IH4|by rewrite IH1].
Qed.

Lemma HasSpace_app_ascii a c s :
  (byte_val c < 128)%N → HasSpace (a +:+ String c s) = HasSpace a || HasSpace (String c s).
Proof. intros H. unfold HasSpace. by rewrite runes_app_ascii, existsb_app. Qed.

Lemma HasSpace_cons c s : (byte_val c < 128)%N → HasSpace (String c s) = is_space (byte_val c) || HasSpace s.
Proof. intros H. unfold HasSpace. rewrite runes_cons_ascii by by apply N.ltb_lt. done. Qed.

(** ** Case mapping of ASCII strings *)

Definition char_lower (c : ascii) : ascii := byte_of (ascii_lower (byte_val c)).

Lemma ascii_lower_lt r : (r < 128)%N → (ascii_lower r < 128)%N.
Proof.
  unfold ascii_lower, in_range. intros H. destruct (_ && _)%bool eqn:E; [|done].
  bools. rewrite N.leb_le in *. lia.
Qed.

Lemma ascii_lower_idemp r : ascii_lower (ascii_lower r) = ascii_lower r.
Proof.
  unfold ascii_lower at 2 3, in_range. destruct (_ && _)%bool eqn:E; unfold ascii_lower, in_range; rewrite ?E; [|done].
  bools. rewrite N.leb_le in *. replace (r + 32 <=? 90)%N with false; [by rewrite andb_false_r|].
  symmetry. apply N.leb_gt. lia.
Qed.

Lemma char_lower_val c : (byte_val c < 128)%N → byte_val (char_lower c) = ascii_lower (byte_val c).
Proof. intros H. apply byte_val_of. pose proof (ascii_lower_lt _ H). lia. Qed.

Lemma is_ascii_Forall s : is_ascii s = true ↔ Forall (λ c, (byte_val c < 128)%N) (chars s).
Proof.
  unfold is_ascii. rewrite forallb_true_Forall. apply Forall_iff. intros c. apply N.ltb_lt.
Qed.

Lemma encode_rune_ascii r : (r < 128)%N → encode_rune r = String (byte_of r) EmptyString.
Proof. intros H. unfold encode_rune. apply N.ltb_lt in H. by rewrite H. Qed.

Lemma ToLower_ascii s : is_ascii s = true → ToLower s = of_chars (char_lower <$> chars s).
Proof.
  intros H. unfold ToLower. rewrite runes_ascii by done.
  apply is_ascii_Forall in H. induction H as [|c l Hc _ IH]; [done|].
  rewrite !fmap_cons. cbn [ascii_chunk c_rune].
  unfold rune_lower. rewrite (proj2 (N.ltb_lt _ _) Hc), encode_rune_ascii by (by apply ascii_lower_lt).
  exact (f_equal (String (char_lower c)) IH).
Qed.

Lemma chars_ToLower s : is_ascii s = true → chars (ToLower s) = char_lower <$> chars s.
Proof. intros H. rewrite ToLower_ascii by done. apply chars_of_chars. Qed.

Lemma is_ascii_ToLower s : is_ascii s = true → is_ascii (ToLower s) = true.
Proof.
  intros H. pose proof H as H'. rewrite is_ascii_Forall in H |- *. rewrite chars_ToLower by done.
  apply Forall_fmap. eapply Forall_impl; [exact H|]. simpl. intros c Hc.
  rewrite char_lower_val by done. by apply ascii_lower_lt.
Qed.

Lemma ToLower_idemp s : is_ascii s = true → ToLower (ToLower s) = ToLower s.
Proof.
  intros H. apply (inj chars). rewrite !chars_ToLower by auto using is_ascii_ToLower.
  apply is_ascii_Forall in H. induction H as [|c l Hc _ IH]; [done|]. rewrite !fmap_cons, IH. f_equal.
  apply byte_val_inj. rewrite !char_lower_val; [apply ascii_lower_idemp|done|].
  rewrite char_lower_val by done. by apply ascii_lower_lt.
Qed.

Lemma slen_ToLower s : is_ascii s = true → slen (ToLower s) = slen s.
Proof. intros H. rewrite <- !length_chars, chars_ToLower by done. apply length_fmap. Qed.

Lemma fold_key_ascii s : is_ascii s = true → fold_key s = byte_val <$> chars (ToLower s).
Proof.
  intros H. rewrite chars_ToLower by done. unfold fold_key. rewrite runes_ascii by done.
  apply is_ascii_Forall in H. induction H as [|c l Hc _ IH]; [done|].
  rewrite !fmap_cons, IH. f_equal. rewrite char_lower_val by done. simpl. unfold rune_fold.
  by rewrite (proj2 (N.ltb_lt _ _) Hc).
Qed.

#[export] Instance byte_val_Inj : Inj (=) (=) byte_val.
Proof. exact byte_val_inj. Qed.

(** On ASCII strings the case folding comparison is equality of the lower case forms. *)
Lemma EqualFold_ascii a b :
  is_ascii a = true → is_ascii b = true → EqualFold a b = bool_decide (ToLower a = ToLower b).
Proof.
  intros Ha Hb. unfold EqualFold. rewrite !fold_key_ascii by done. apply bool_decide_ext. split; [|by intros ->].
  intros H. apply (inj chars). apply (inj (fmap byte_val)), H.
Qed.

Lemma EqualFold_refl a : EqualFold a a = true.
Proof. unfold EqualFold. by apply bool_decide_eq_true. Qed.

Lemma EqualFold_sym a b : EqualFold a b = EqualFold b a.
Proof. apply bool_decide_ext. split; congruence. Qed.

Lemma EqualFold_trans a b c : EqualFold a b = true → EqualFold b c = true → EqualFold a c = true.
Proof. unfold EqualFold. rewrite !bool_decide_eq_true. congruence. Qed.

#[export] Hint Resolve is_ascii_ToLower EqualFold_refl : go.

(** U+212A and U+017F are letters that fold to ASCII letters. *)
Example fold_kelvin : EqualFold "K" (encode_rune 8490) = true.
Proof. vm_compute. reflexivity. Qed.
Example fold_long_s : (EqualFold "s" (encode_rune 383), bool_decide (ToLower (encode_rune 383) = "s")) = (true, false).
Proof. vm_compute. reflexivity. Qed.
Example lower_kelvin : ToLower (encode_rune 8490 +:+ "EY") = "key".
Proof. vm_compute. reflexivity. Qed.
Example trim_space_ex : TrimSpace (" " +:+ encode_rune 160 +:+ "a b" +:+ encode_rune 8195 +:+ " ") = "a b".
Proof. vm_compute. reflexivity. Qed.
Example fields_ex : Fields "  -o  ro x " = ["-o"; "ro"; "x"].
Proof. vm_compute. reflexivity. Qed.
