(* ===== verification/GoStrings.v ===== *)
(** * GoStrings: the functions of Go's [strings], [strconv] and [fmt] packages that the driver calls

    Each function carries its Go name and computes what the standard library computes, the corner cases (an empty
    separator, a missing separator, overflow in a number) included. *)
From S2P Require Import Prelude GoUnicode.
From stdpp Require Import options.

(** ** Searching *)

Fixpoint HasPrefix (s p : string) {struct p} : bool :=
  match p with
  | EmptyString => true
  | String c p' => match s with
                   | EmptyString => false
                   | String d s' => Ascii.eqb c d && HasPrefix s' p'
                   end
  end.

Fixpoint str_drop (n : nat) (s : string) : string :=
  match n, s with
  | 0, _ => s
  | S _, EmptyString => EmptyString
  | S n', String _ s' => str_drop n' s'
  end.

Fixpoint str_take (n : nat) (s : string) : string :=
  match n, s with
  | 0, _ => EmptyString
  | S _, EmptyString => EmptyString
  | S n', String c s' => String c (str_take n' s')
  end.

Fixpoint Contains (s sub : string) : bool :=
  HasPrefix s sub || match s with EmptyString => false | String _ s' => Contains s' sub end.

(** [s[:i]] and [s[i+len(sep):]] for the first occurrence of [sep], if any. *)
Fixpoint cut_at (s sep : string) : option (string * string) :=
  if HasPrefix s sep then Some (EmptyString, str_drop (slen sep) s)
  else match s with
       | EmptyString => None
       | String c s' => (λ ab, (String c ab.1, ab.2)) <$> cut_at s' sep
       end.

(** strings.Cut: before, after, found. *)
Definition Cut (s sep : string) : string * string * bool :=
  match cut_at s sep with Some (a, b) => (a, b, true) | None => (s, EmptyString, false) end.

Definition TrimPrefix (s p : string) : string := if HasPrefix s p then str_drop (slen p) s else s.
Definition CutPrefix (s p : string) : string * bool :=
  if HasPrefix s p then (str_drop (slen p) s, true) else (s, false).

Definition str_rev (s : string) : string := of_chars (reverse (chars s)).
Definition HasSuffix (s p : string) : bool := HasPrefix (str_rev s) (str_rev p).
Definition TrimSuffix (s p : string) : string := if HasSuffix s p then str_take (slen s - slen p) s else s.

(** [strings.Trim(s, cutset)] for a cutset of one ASCII character. *)
Definition TrimChar (s : string) (c : ascii) : string :=
  of_chars (drop_while_end (Ascii.eqb c) (drop_while (Ascii.eqb c) (chars s))).

(** ** Splitting and joining *)

(** [skip] counts the bytes of a separator still to be passed over. *)
Fixpoint split_go (sep : string) (skip : nat) (s : string) : list string :=
  match s with
  | EmptyString => [EmptyString]
  | String c s' =>
    match skip with
    | S k => split_go sep k s'
    | 0 => if HasPrefix s sep then EmptyString :: split_go sep (slen sep - 1) s'
           else match split_go sep 0 s' with
                | [] => [String c EmptyString]
                | h :: t => String c h :: t
                end
    end
  end.

(** strings.Split; an empty separator explodes the string into its runes. *)
Definition Split (s sep : string) : list string :=
  match sep with EmptyString => c_bytes <$> runes s | _ => split_go sep 0 s end.

#[global] Arguments Split : simpl never.

(** [strings.SplitN(s, sep, 2)] for a nonempty [sep]. *)
Definition SplitN2 (s sep : string) : list string :=
  match cut_at s sep with Some (a, b) => [a; b] | None => [s] end.

Fixpoint Join (l : list string) (sep : string) : string :=
  match l with
  | [] => EmptyString
  | [x] => x
  | x :: l' => x +:+ sep +:+ Join l' sep
  end.

(** strings.ReplaceAll; an empty [old] matches at the start and after every rune. *)
Definition ReplaceAll (s old new : string) : string :=
  match old with
  | EmptyString => new +:+ concat_str ((λ c, c_bytes c +:+ new) <$> runes s)
  | _ => Join (split_go old 0 s) new
  end.

(** [strings.Replace(s, old, new, 1)] for a nonempty [old]. *)
Definition ReplaceOne (s old new : string) : string :=
  match cut_at s old with Some (a, b) => a +:+ new +:+ b | None => s end.

(** ** strconv *)

Definition digit_val (c : ascii) : option N :=
  let b := byte_val c in
  if in_range 48 57 b then Some (b - 48)%N
  else if in_range 97 122 b then Some (b - 97 + 10)%N
  else if in_range 65 90 b then Some (b - 65 + 10)%N
  else None.

(** The value of a digit string, [None] when a byte is not a digit of the base. *)
Fixpoint digits_val (base acc : N) (l : list ascii) : option N :=
  match l with
  | [] => Some acc
  | c :: l' => match digit_val c with
               | Some d => if (d <? base)%N then digits_val base (acc * base + d) l' else None
               | None => None
               end
  end.

(** strconv.ParseUint for an explicit base: [None] is an error, of syntax or of range. *)
Definition ParseUint (s : string) (base bits : N) : option N :=
  match s with
  | EmptyString => None
  | _ => match digits_val base 0 (chars s) with
         | Some v => if (v <? 2 ^ bits)%N then Some v else None
         | None => None
         end
  end.

(** strconv.Atoi on a 64-bit platform: an optional sign, decimal digits, the range of [int]. *)
Definition Atoi (s : string) : option Z :=
  let '(neg, ds) := match s with
                    | String c s' => if Ascii.eqb c "-" then (true, s') else if Ascii.eqb c "+" then (false, s') else (false, s)
                    | EmptyString => (false, EmptyString)
                    end in
  match ds with
  | EmptyString => None
  | _ => match digits_val 10 0 (chars ds) with
         | Some v => let z := if neg then (- Z.of_N v)%Z else Z.of_N v in
                     if decide (in_int64 z) then Some z else None
         | None => None
         end
  end.

(** strconv.ParseBool. *)
Definition ParseBool (s : string) : option bool :=
  if decide (s ∈ ["1"; "t"; "T"; "true"; "TRUE"; "True"]) then Some true
  else if decide (s ∈ ["0"; "f"; "F"; "false"; "FALSE"; "False"]) then Some false
  else None.

Definition FormatBool (b : bool) : string := if b then "true" else "false".
Definition FormatInt (z : Z) : string := pretty z.

(** ** fmt *)

Definition hex_digit (n : N) : ascii := byte_of (if (n <? 10)%N then 48 + n else 87 + n)%N.

(** strconv.Quote (the verb [%q]); the runes outside ASCII count as printable. *)
Definition quote_chunk (c : chunk) : string :=
  let r := c_rune c in
  if N.eqb r 34 then "\" +:+ String (byte_of 34) EmptyString
  else if N.eqb r 92 then "\\"
  else if N.eqb r 7 then "\a" else if N.eqb r 8 then "\b" else if N.eqb r 12 then "\f"
  else if N.eqb r 10 then "\n" else if N.eqb r 13 then "\r" else if N.eqb r 9 then "\t"
  else if N.eqb r 11 then "\v"
  else if (r <? 32)%N || N.eqb r 127 || (N.eqb r rune_error && (slen (c_bytes c) =? 1)) then
    match c_bytes c with
    | String b _ => "\x" +:+ String (hex_digit (byte_val b / 16)) (String (hex_digit (byte_val b mod 16)) EmptyString)
    | EmptyString => EmptyString
    end
  else c_bytes c.

Definition Quote (s : string) : string :=
  let q := String (byte_of 34) EmptyString in q +:+ concat_str (quote_chunk <$> runes s) +:+ q.

(** fmt.Sprintf for the verbs of the driver's messages, on arguments that are already strings. *)
Fixpoint Sprintf (fmt : string) (args : list string) : string :=
  match fmt with
  | EmptyString => EmptyString
  | String c fmt' =>
    if Ascii.eqb c "%" then
      match fmt' with
      | EmptyString => "%!(NOVERB)"
      | String v rest =>
        if Ascii.eqb v "%" then String v (Sprintf rest args)
        else match args with
             | [] => "%!" +:+ String v "(MISSING)" +:+ Sprintf rest []
             | a :: args' => (if Ascii.eqb v "q" then Quote a else a) +:+ Sprintf rest args'
             end
      end
    else String c (Sprintf fmt' args)
  end.

Example split_ex : Split "a##b#" "#" = ["a"; ""; "b"; ""].
Proof. reflexivity. Qed.
Example split_long_ex : Split "xJobId: yJobId: " "JobId: " = ["x"; "y"; ""].
Proof. reflexivity. Qed.
Example replace_ex : ReplaceAll "a---b" "--" "-" = "a--b".
Proof. reflexivity. Qed.
Example trim_ex : (TrimChar "..core.windows.net." ".", TrimSuffix "a.b." ".") = ("core.windows.net", "a.b").
Proof. reflexivity. Qed.
Example atoi_ex : (Atoi "+7", Atoi "-0", Atoi "9223372036854775808", Atoi "1_0", Atoi "") = (Some 7%Z, Some 0%Z, None, None, None).
Proof. vm_compute. reflexivity. Qed.
Example parse_uint_ex : (ParseUint "0777" 8 32, ParseUint "8" 8 32, ParseUint "+1" 10 32, ParseUint "4294967296" 10 32) = (Some 511%N, None, None, None).
Proof. vm_compute. reflexivity. Qed.
Example sprintf_ex : Sprintf "bad %q: %s%%" ["a b"; "why"] = "bad " +:+ Quote "a b" +:+ ": why%".
Proof. vm_compute. reflexivity. Qed.

(** ** Facts about searching *)

Lemma HasPrefix_spec s p : HasPrefix s p = true ↔ ∃ t, s = p +:+ t.
Proof.
  revert s. induction p as [|c p IH]; intros s; simpl; [split; [intros _; by exists s|done]|].
  destruct s as [|d s]; [split; [done|by intros [t ?]]|].
  rewrite andb_true_iff, Ascii.eqb_eq, IH. split.
  - intros [-> [t ->]]. by exists t.
  - intros [t Ht]. simplify_eq/=. split; [done|by exists t].
Qed.

Lemma HasPrefix_app p t : HasPrefix (p +:+ t) p = true.
Proof. apply HasPrefix_spec. eauto. Qed.

Lemma HasPrefix_refl p : HasPrefix p p = true.
Proof. apply HasPrefix_spec. exists EmptyString. by rewrite str_app_nil_r. Qed.

Lemma str_drop_app p t : str_drop (slen p) (p +:+ t) = t.
Proof. induction p; simpl; [by destruct t|done]. Qed.

Lemma HasPrefix_drop s p : HasPrefix s p = true → s = p +:+ str_drop (slen p) s.
Proof. intros [t ->]%HasPrefix_spec. by rewrite str_drop_app. Qed.

Lemma Contains_spec s sub : Contains s sub = true ↔ ∃ a b, s = a +:+ sub +:+ b.
Proof.
  induction s as [|c s IH]; cbn [Contains]; rewrite orb_true_iff, HasPrefix_spec.
  - split; [intros [[t Ht]|?]; [by exists EmptyString, t|done]|].
    intros (a & b & H). left. destruct a; [by exists b|done].
  - rewrite IH. split.
    + intros [[t Ht]|(a & b & ->)]; [by exists EmptyString, t|by exists (String c a), b].
    + intros (a & b & H). destruct a as [|d a]; [left; by exists b|].
      right. simplify_eq/=. eauto.
Qed.

Lemma Contains_char s c : Contains s (String c EmptyString) = true ↔ c ∈ chars s.
Proof.
  rewrite Contains_spec. split.
  - intros (a & b & ->). rewrite chars_app. apply elem_of_app. right. by left.
  - intros (l & k & H)%list_elem_of_split. exists (of_chars l), (of_chars k).
    apply (inj chars). rewrite chars_app, chars_of_chars, H. simpl. by rewrite chars_of_chars.
Qed.

Lemma Contains_char_false s c : Contains s (String c EmptyString) = false ↔ c ∉ chars s.
Proof. rewrite <- Contains_char. destruct (Contains s _); naive_solver. Qed.

Lemma cut_at_Some s sep a b : cut_at s sep = Some (a, b) → s = a +:+ sep +:+ b.
Proof.
  revert a b. induction s as [|c s IH]; intros a b; cbn [cut_at];
    destruct (HasPrefix _ sep) eqn:E; intros H; simplify_eq; try (by apply HasPrefix_drop in E).
  apply fmap_Some in H as ([a' b'] & H & ?). simplify_eq/=. by rewrite <- (IH _ _ H).
Qed.

Lemma cut_at_None s sep : cut_at s sep = None ↔ Contains s sep = false.
Proof.
  induction s as [|c s IH]; cbn [cut_at Contains]; destruct (HasPrefix _ sep); simpl; [done|done|done|].
  rewrite fmap_None. apply IH.
Qed.

(** The text before the first separator holds none: for a one character separator. *)
Lemma cut_at_char s c a b : cut_at s (String c EmptyString) = Some (a, b) → c ∉ chars a.
Proof.
  revert a b. induction s as [|d s IH]; intros a b; cbn [cut_at]; [done|].
  destruct (HasPrefix _ _) eqn:E; intros H; simplify_eq; [by apply not_elem_of_nil|].
  apply fmap_Some in H as ([a' b'] & H & ?). simplify_eq/=. apply not_elem_of_cons. split; [|by eapply IH].
  intros ->. rewrite Ascii.eqb_refl in E. by destruct s.
Qed.

Lemma cut_at_char_app a c b : c ∉ chars a → cut_at (a +:+ String c b) (String c EmptyString) = Some (a, b).
Proof.
  induction a as [|d a IH]; intros H; cbn.
  - rewrite Ascii.eqb_refl. by destruct b.
  - apply not_elem_of_cons in H as [Hd Ha].
    replace (Ascii.eqb c d) with false by (symmetry; by apply Ascii.eqb_neq). simpl.
    fold (String.append a (String c b)). by rewrite IH.
Qed.

#[export] Hint Rewrite str_drop_app HasPrefix_app HasPrefix_refl : go_rw.

(** ** Facts about splitting *)

Lemma split_go_not_nil sep k s : split_go sep k s ≠ [].
Proof.
  revert k. induction s as [|c s IH]; intros k; cbn; [done|].
  destruct k; [|apply IH]. destruct (HasPrefix _ _); [done|]. by destruct (split_go sep 0 s).
Qed.

Lemma Join_cons x l sep : l ≠ [] → Join (x :: l) sep = x +:+ sep +:+ Join l sep.
Proof. by destruct l. Qed.

Lemma Join_head_cons c h t sep : Join (String c h :: t) sep = String c (Join (h :: t) sep).
Proof. by destruct t. Qed.

(** Joining the parts of a split gives the string back. *)
Lemma Join_split_go sep k s :
  sep ≠ EmptyString → Join (split_go sep k s) sep = str_drop k s.
Proof.
  intros Hsep. revert k. induction s as [|c s IH]; intros k; cbn [split_go]; [by destruct k|].
  destruct k as [|k]; [|apply IH].
  destruct (HasPrefix (String c s) sep) eqn:E.
  - rewrite Join_cons by apply split_go_not_nil. rewrite IH.
    destruct sep as [|d sep]; [done|]. simpl. rewrite Nat.sub_0_r.
    pose proof (HasPrefix_drop _ _ E) as Hd. simpl in Hd. symmetry. exact Hd.
  - specialize (IH 0). destruct (split_go sep 0 s) as [|h t] eqn:Es; [by apply split_go_not_nil in Es|].
    rewrite Join_head_cons. by rewrite IH.
Qed.

Lemma Join_Split s sep : sep ≠ EmptyString → Join (Split s sep) sep = s.
Proof. intros H. destruct sep; [done|]. by apply Join_split_go. Qed.

Lemma Split_cons_char c d s :
  Split (String d s) (String c EmptyString) =
  if Ascii.eqb c d then EmptyString :: Split s (String c EmptyString)
  else match Split s (String c EmptyString) with [] => [String d EmptyString] | h :: t => String d h :: t end.
Proof.
  unfold Split. cbn [split_go HasPrefix].
  rewrite andb_true_r. done.
Qed.

(** The parts of a split at a character do not hold it. *)
Lemma Split_char_parts s c : Forall (λ p, c ∉ chars p) (Split s (String c EmptyString)).
Proof.
  induction s as [|d s IH]; [repeat constructor; apply not_elem_of_nil|].
  rewrite Split_cons_char. destruct (Ascii.eqb c d) eqn:E.
  - constructor; [apply not_elem_of_nil|done].
  - apply Ascii.eqb_neq in E. destruct (Split s _) as [|h t].
    + repeat constructor. apply not_elem_of_cons. split; [done|apply not_elem_of_nil].
    + inversion IH; subst. constructor; [|done]. simpl. by apply not_elem_of_cons.
Qed.

Lemma Split_char_app a c s :
  c ∉ chars a → Split (a +:+ String c s) (String c EmptyString) = a :: Split s (String c EmptyString).
Proof.
  induction a as [|d a IH]; intros H.
  - change (EmptyString +:+ String c s) with (String c s). by rewrite Split_cons_char, Ascii.eqb_refl.
  - apply not_elem_of_cons in H as [Hd Ha].
    change (String d a +:+ String c s) with (String d (a +:+ String c s)).
    rewrite Split_cons_char, IH by done.
    by replace (Ascii.eqb c d) with false by (symmetry; by apply Ascii.eqb_neq).
Qed.

Lemma Split_char_none a c : c ∉ chars a → Split a (String c EmptyString) = [a].
Proof.
  induction a as [|d a IH]; intros H; [done|]. apply not_elem_of_cons in H as [Hd Ha].
  rewrite Split_cons_char, IH by done.
  by replace (Ascii.eqb c d) with false by (symmetry; by apply Ascii.eqb_neq).
Qed.

(** Splitting a join at a character gives the parts back. *)
Lemma Split_Join l c :
  l ≠ [] → Forall (λ p, c ∉ chars p) l → Split (Join l (String c EmptyString)) (String c EmptyString) = l.
Proof.
  induction l as [|x l IH]; intros Hn Hl; [done|]. inversion Hl; subst.
  destruct (decide (l = [])) as [->|Hl']; [by apply Split_char_none|].
  rewrite Join_cons by done.
  change (x +:+ String c EmptyString +:+ Join l (String c EmptyString))
    with (x +:+ String c (Join l (String c EmptyString))).
  rewrite Split_char_app by done. by rewrite IH.
Qed.

(** How often a byte occurs: a text of [n] parts with [n - 1] separators has none of them inside a part. *)
Definition occurrences (c : ascii) (s : string) : nat := length (filter (λ x, x = c) (chars s)).

Lemma occurrences_app c a b : occurrences c (a +:+ b) = occurrences c a + occurrences c b.
Proof. unfold occurrences. by rewrite chars_app, filter_app, length_app. Qed.
Lemma occurrences_none c s : occurrences c s = 0 → c ∉ chars s.
Proof. unfold occurrences. intros Hl%length_zero_iff_nil Hin. eapply (filter_nil_not_elem_of _ _ _ Hl); [reflexivity|done]. Qed.

Lemma occurrences_Join c l : l ≠ [] → length l - 1 ≤ occurrences c (Join l (String c EmptyString)).
Proof.
  induction l as [|x l IH]; intros Hn; [done|]. destruct (decide (l = [])) as [->|Hl]; [simpl; lia|]. rewrite Join_cons, !occurrences_app by done.
  assert (occurrences c (String c EmptyString) = 1) as -> by (unfold occurrences; cbn; by rewrite decide_True).
  specialize (IH Hl). destruct l; [done|]. simpl in *. lia.
Qed.

Lemma Join_separators c l :
  l ≠ [] → occurrences c (Join l (String c EmptyString)) = length l - 1 → Forall (λ p, c ∉ chars p) l.
Proof.
  induction l as [|x l IH]; intros Hn; [done|]. destruct (decide (l = [])) as [->|Hl].
  - intros Hx. constructor; [by apply occurrences_none|constructor].
  - rewrite Join_cons, !occurrences_app by done.
    assert (occurrences c (String c EmptyString) = 1) as -> by (unfold occurrences; cbn; by rewrite decide_True).
    pose proof (occurrences_Join c l Hl) as Hmin. assert (0 < length l) by (destruct l; [done|simpl; lia]). cbn [length]. intros Hx.
    constructor; [apply occurrences_none; lia|]. apply IH; [done|lia].
Qed.
