(* ===== verification/GoErr.v ===== *)
(** * GoErr: Go errors, gRPC status codes and the result monad

    A Go [error] is a plain error (errors.New, fmt.Errorf) or a gRPC status error (status.Error, status.Errorf); both
    carry the message the code builds.  A function that returns [(T, error)] and whose value the callers ignore on error
    is a [result T]. *)
From S2P Require Import Prelude GoUnicode GoStrings.
From stdpp Require Import options.

Inductive code := InvalidArgument | NotFound | Aborted | OutOfRange | Unimplemented | Internal | Unavailable.

#[export] Instance code_eq_dec : EqDecision code.
Proof. solve_decision. Defined.

Inductive error :=
| Plain (msg : string)
| Status (c : code) (msg : string).

#[export] Instance error_eq_dec : EqDecision error.
Proof. solve_decision. Defined.

Definition code_name (c : code) : string :=
  match c with
  | InvalidArgument => "InvalidArgument" | NotFound => "NotFound" | Aborted => "Aborted" | OutOfRange => "OutOfRange"
  | Unimplemented => "Unimplemented" | Internal => "Internal" | Unavailable => "Unavailable"
  end.

(** The [Error()] method; a status error prints its code and description (google.golang.org/grpc/internal/status). *)
Definition Error (e : error) : string :=
  match e with
  | Plain msg => msg
  | Status c msg => Sprintf "rpc error: code = %s desc = %s" [code_name c; msg]
  end.

Definition errorf (fmt : string) (args : list string) : error := Plain (Sprintf fmt args).
Definition status_errorf (c : code) (fmt : string) (args : list string) : error := Status c (Sprintf fmt args).

(** The code a gRPC client sees, [None] standing for Unknown. *)
Definition error_code (e : error) : option code :=
  match e with Plain _ => None | Status c _ => Some c end.

(** [%v] of an error that may be nil. *)
Definition error_text (e : option error) : string :=
  match e with Some e => Error e | None => "<nil>" end.

Inductive result (A : Type) := Ok (a : A) | Err (e : error).
Arguments Ok {A} a.
Arguments Err {A} e.

#[export] Instance result_eq_dec {A} `{EqDecision A} : EqDecision (result A).
Proof. solve_decision. Defined.

#[export] Instance result_ret : MRet result := λ A a, Ok a.
#[export] Instance result_bind : MBind result := λ A B f m, match m with Ok a => f a | Err e => Err e end.
#[export] Instance result_fmap : FMap result := λ A B f m, match m with Ok a => Ok (f a) | Err e => Err e end.

(** [if cond { return err }]. *)
Definition guard_err (fails : bool) (e : error) : result () := if fails then Err e else Ok ().

Lemma bind_Ok {A B} (m : result A) (f : A → result B) b :
  m ≫= f = Ok b ↔ ∃ a, m = Ok a ∧ f a = Ok b.
Proof.
  destruct m as [a|e]; simpl; split.
  - intros H. by exists a.
  - by intros (? & [= ->] & ?).
  - done.
  - by intros (? & ? & ?).
Qed.

Lemma bind_Err {A B} (m : result A) (f : A → result B) e :
  m ≫= f = Err e ↔ m = Err e ∨ ∃ a, m = Ok a ∧ f a = Err e.
Proof.
  destruct m as [a|e']; simpl; split.
  - intros H. right. by exists a.
  - by intros [?|(? & [= ->] & ?)].
  - intros [= ->]. by left.
  - intros [[= ->]|(? & ? & ?)]; done.
Qed.

Lemma guard_err_Ok fails e u : guard_err fails e = Ok u ↔ fails = false.
Proof. destruct fails, u; simpl; naive_solver. Qed.

#[export] Hint Rewrite @bind_Ok guard_err_Ok : go_rw.

(** Decompose a successful run of the result monad. *)
Ltac inv_ok :=
  repeat match goal with
  | H : (_ ≫= _) = Ok _ |- _ => apply bind_Ok in H as (? & ? & H)
  | H : guard_err _ _ = Ok _ |- _ => apply guard_err_Ok in H
  | H : Ok _ = Ok _ |- _ => injection H as H; simplify_eq
  | H : Err _ = Ok _ |- _ => discriminate H
  end.
