(* ===== verification/Regex.v ===== *)
(** * Regex: regular expressions and their matcher

    The patterns the driver compiles with [regexp.MustCompile] are anchored and built from ASCII character classes, so a
    match of a Go string is a match of its bytes.  [matches] is the meaning of a pattern; [MatchString] decides it with
    derivatives and [MatchString_spec] shows that it does. *)
From S2P Require Import Prelude GoUnicode.
From stdpp Require Import options.

Inductive regex :=
| Never
| Eps
| Cls (p : ascii → bool)
| Cat (r1 r2 : regex)
| Alt (r1 r2 : regex)
| Star (r : regex).

Inductive matches : regex → list ascii → Prop :=
| m_eps : matches Eps []
| m_cls p c : p c = true → matches (Cls p) [c]
| m_cat r1 r2 l1 l2 : matches r1 l1 → matches r2 l2 → matches (Cat r1 r2) (l1 ++ l2)
| m_alt_l r1 r2 l : matches r1 l → matches (Alt r1 r2) l
| m_alt_r r1 r2 l : matches r2 l → matches (Alt r1 r2) l
| m_star_nil r : matches (Star r) []
| m_star_cons r l1 l2 : matches r l1 → matches (Star r) l2 → matches (Star r) (l1 ++ l2).

(** [r+] and [r{lo,lo+n}]. *)
Definition Plus (r : regex) : regex := Cat r (Star r).
Fixpoint UpTo (n : nat) (r : regex) : regex :=
  match n with 0 => Eps | S n' => Alt Eps (Cat r (UpTo n' r)) end.
Fixpoint Repeat (lo n : nat) (r : regex) : regex :=
  match lo with 0 => UpTo n r | S lo' => Cat r (Repeat lo' n r) end.

Fixpoint nullable (r : regex) : bool :=
  match r with
  | Never | Cls _ => false
  | Eps | Star _ => true
  | Cat r1 r2 => nullable r1 && nullable r2
  | Alt r1 r2 => nullable r1 || nullable r2
  end.

(** Constructors that drop the branches that cannot match, to keep derivatives small. *)
Definition cat (r1 r2 : regex) : regex :=
  match r1 with Never => Never | Eps => r2 | _ => Cat r1 r2 end.
Definition alt (r1 r2 : regex) : regex :=
  match r1, r2 with Never, _ => r2 | _, Never => r1 | _, _ => Alt r1 r2 end.

Fixpoint deriv (c : ascii) (r : regex) : regex :=
  match r with
  | Never | Eps => Never
  | Cls p => if p c then Eps else Never
  | Cat r1 r2 => if nullable r1 then alt (cat (deriv c r1) r2) (deriv c r2) else cat (deriv c r1) r2
  | Alt r1 r2 => alt (deriv c r1) (deriv c r2)
  | Star r => cat (deriv c r) (Star r)
  end.

Fixpoint match_list (r : regex) (l : list ascii) : bool :=
  match l with [] => nullable r | c :: l' => match_list (deriv c r) l' end.

(** [re.MatchString(s)] of the pattern [^re$]. *)
Definition MatchString (r : regex) (s : string) : bool := match_list r (chars s).

(** ** Correctness of the matcher *)

Lemma matches_Cat r1 r2 l :
  matches (Cat r1 r2) l ↔ ∃ l1 l2, l = l1 ++ l2 ∧ matches r1 l1 ∧ matches r2 l2.
Proof.
  split; [intros H; inversion H; subst; eauto|].
  intros (l1 & l2 & -> & ? & ?). by constructor.
Qed.

Lemma matches_Alt r1 r2 l : matches (Alt r1 r2) l ↔ matches r1 l ∨ matches r2 l.
Proof. split; [intros H; inversion H; subst; eauto|]. intros [?|?]; by constructor. Qed.

Lemma matches_Cls p l : matches (Cls p) l ↔ ∃ c, l = [c] ∧ p c = true.
Proof. split; [intros H; inversion H; subst; eauto|]. intros (c & -> & ?). by constructor. Qed.

Lemma matches_Eps l : matches Eps l ↔ l = [].
Proof. split; [by intros H; inversion H|]. intros ->. constructor. Qed.

Lemma matches_Never l : ¬ matches Never l.
Proof. intros H; inversion H. Qed.

Lemma matches_cat r1 r2 l : matches (cat r1 r2) l ↔ matches (Cat r1 r2) l.
Proof.
  destruct r1; try done; simpl; rewrite matches_Cat; split.
  - by intros ?%matches_Never.
  - by intros (? & ? & ? & ?%matches_Never & ?).
  - intros H. exists [], l. split_and!; [done|constructor|done].
  - intros (l1 & l2 & -> & ->%matches_Eps & ?). done.
Qed.

Lemma matches_alt r1 r2 l : matches (alt r1 r2) l ↔ matches (Alt r1 r2) l.
Proof.
  rewrite matches_Alt. pose proof (matches_Never l) as Hn.
  assert (r1 = Never ∨ r2 = Never ∨ alt r1 r2 = Alt r1 r2) as [->|[->| ->]].
  { destruct r1; eauto; destruct r2; eauto. }
  - simpl. tauto.
  - destruct r1; simpl; tauto.
  - apply matches_Alt.
Qed.

Lemma nullable_spec r : nullable r = true ↔ matches r [].
Proof.
  induction r as [| |p|r1 IH1 r2 IH2|r1 IH1 r2 IH2|r IH]; simpl.
  - split; [done|by intros ?%matches_Never].
  - split; [by constructor|done].
  - rewrite matches_Cls. split; [done|by intros (? & ? & ?)].
  - rewrite andb_true_iff, IH1, IH2, matches_Cat. split.
    + intros [? ?]. by exists [], [].
    + intros (l1 & l2 & [-> ->]%eq_sym%app_nil & ? & ?). done.
  - by rewrite orb_true_iff, IH1, IH2, matches_Alt.
  - split; [by constructor|done].
Qed.

Lemma matches_Star_cons r c l :
  matches (Star r) (c :: l) ↔ ∃ l1 l2, l = l1 ++ l2 ∧ matches r (c :: l1) ∧ matches (Star r) l2.
Proof.
  split.
  - intros H. remember (Star r) as s eqn:Es. remember (c :: l) as k eqn:Ek. revert r c l Es Ek.
    induction H as [| | | | | |r l1 l2 H1 _ H2 IH]; intros r' d k Es Ek; simplify_eq.
    destruct l1 as [|e l1]; simplify_eq/=; [by eapply IH|]. by exists l1, l2.
  - intros (l1 & l2 & -> & ? & ?). by apply (m_star_cons r (c :: l1) l2).
Qed.

Lemma deriv_spec r c l : matches (deriv c r) l ↔ matches r (c :: l).
Proof.
  revert l. induction r as [| |p|r1 IH1 r2 IH2|r1 IH1 r2 IH2|r IH]; intros l; simpl.
  - split; by intros ?%matches_Never.
  - rewrite matches_Eps. split; [by intros ?%matches_Never|done].
  - rewrite matches_Cls. destruct (p c) eqn:E.
    + rewrite matches_Eps. split; [intros ->; by exists c|by intros (? & [= -> ->] & ?)].
    + split; [by intros ?%matches_Never|]. intros (? & [= <- ->] & ?). congruence.
  - assert (matches (Cat (deriv c r1) r2) l ↔
      ∃ l1 l2, l = l1 ++ l2 ∧ matches r1 (c :: l1) ∧ matches r2 l2) as Hc.
    { rewrite matches_Cat. by setoid_rewrite IH1. }
    rewrite (matches_Cat r1 r2). destruct (nullable r1) eqn:E.
    + rewrite matches_alt, matches_Alt, matches_cat, Hc, IH2. split.
      * intros [(l1 & l2 & -> & ? & ?)|H]; [by exists (c :: l1), l2|].
        exists [], (c :: l). by rewrite <- nullable_spec.
      * intros ([|d l1] & l2 & ? & ? & ?); simplify_eq/=; [by right|left; eauto].
    + rewrite matches_cat, Hc. split.
      * intros (l1 & l2 & -> & ? & ?). by exists (c :: l1), l2.
      * intros ([|d l1] & l2 & ? & Hn & ?); simplify_eq/=; [|eauto].
        apply nullable_spec in Hn. congruence.
  - rewrite matches_alt, !matches_Alt. by rewrite IH1, IH2.
  - rewrite matches_cat, matches_Cat, matches_Star_cons. by setoid_rewrite IH.
Qed.

Lemma match_list_spec r l : match_list r l = true ↔ matches r l.
Proof.
  revert r. induction l as [|c l IH]; intros r; simpl; [apply nullable_spec|]. by rewrite IH, deriv_spec.
Qed.

Lemma MatchString_spec r s : MatchString r s = true ↔ matches r (chars s).
Proof. apply match_list_spec. Qed.

(** ** What the shapes of the driver's patterns mean *)

Lemma matches_Star_Cls p l : matches (Star (Cls p)) l ↔ Forall (λ c, p c = true) l.
Proof.
  split.
  - intros H. remember (Star (Cls p)) as s eqn:Es. revert p Es.
    induction H as [| | | | | |r l1 l2 H1 _ H2 IH]; intros p' Es; simplify_eq; [done|].
    apply matches_Cls in H1 as (c & -> & ?). constructor; [done|]. by apply IH.
  - induction 1 as [|c l Hc _ IH]; [constructor|]. apply (m_star_cons _ [c]); [by constructor|done].
Qed.

Lemma matches_Plus_Cls p l : matches (Plus (Cls p)) l ↔ l ≠ [] ∧ Forall (λ c, p c = true) l.
Proof.
  unfold Plus. rewrite matches_Cat. split.
  - intros (l1 & l2 & -> & (c & -> & ?)%matches_Cls & ?%matches_Star_Cls). split; [done|by constructor].
  - intros [Hn H]. destruct H as [|c l Hc Hl]; [done|]. exists [c], l.
    split_and!; [done|by constructor|by apply matches_Star_Cls].
Qed.

Lemma matches_UpTo_Cls n p l : matches (UpTo n (Cls p)) l ↔ length l ≤ n ∧ Forall (λ c, p c = true) l.
Proof.
  revert l. induction n as [|n IH]; intros l; simpl.
  - rewrite matches_Eps. split; [by intros ->|]. intros [? _]. destruct l; simpl in *; [done|lia].
  - rewrite matches_Alt, matches_Eps, matches_Cat. setoid_rewrite IH. split.
    + intros [->|(l1 & l2 & -> & (c & -> & ?)%matches_Cls & ? & ?)]; [split; [simpl; lia|done]|].
      split; [simpl; lia|by constructor].
    + intros [Hl H]. destruct H as [|c l Hc Hf]; [by left|right]. exists [c], l.
      split_and!; [done|by constructor|simpl in *; lia|done].
Qed.

Lemma matches_Repeat_Cls lo n p l :
  matches (Repeat lo n (Cls p)) l ↔ lo ≤ length l ≤ lo + n ∧ Forall (λ c, p c = true) l.
Proof.
  revert l. induction lo as [|lo IH]; intros l; simpl.
  - rewrite matches_UpTo_Cls. intuition lia.
  - rewrite matches_Cat. setoid_rewrite IH. split.
    + intros (l1 & l2 & -> & (c & -> & ?)%matches_Cls & ? & ?). split; [simpl; lia|by constructor].
    + intros [Hl H]. destruct H as [|c l Hc Hf]; [simpl in *; lia|]. exists [c], l.
      split_and!; [done|by constructor|simpl in *; lia|simpl in *; lia|done].
Qed.
