(* ===== verification/Fields.v ===== *)
(** * Fields: the constants of the driver

    The parameter and attribute names, protocols, templates and limits of pkg/blob/blob.go, under the source's names. *)
From S2P Require Import Prelude.
From stdpp Require Import options.

Definition DefaultDriverName : string := "blob.csi.azure.com".
Definition blobCSIDriverName : string := "blob_csi_driver".
Definition separator : string := "#".
Definition volumeIDTemplate : string := "%s#%s#%s#%s#%s#%s".
Definition secretNameTemplate : string := "azure-storage-account-%s-secret".
Definition serverNameField : string := "server".
Definition storageEndpointSuffixField : string := "storageendpointsuffix".
Definition tagsField : string := "tags".
Definition matchTagsField : string := "matchtags".
Definition protocolField : string := "protocol".
Definition accountNameField : string := "accountname".
Definition accountKeyField : string := "accountkey".
Definition storageAccountField : string := "storageaccount".
Definition storageAccountTypeField : string := "storageaccounttype".
Definition skuNameField : string := "skuname".
Definition subscriptionIDField : string := "subscriptionid".
Definition resourceGroupField : string := "resourcegroup".
Definition locationField : string := "location".
Definition secretNameField : string := "secretname".
Definition secretNamespaceField : string := "secretnamespace".
Definition containerNameField : string := "containername".
Definition containerNamePrefixField : string := "containernameprefix".
Definition storeAccountKeyField : string := "storeaccountkey".
Definition getLatestAccountKeyField : string := "getlatestaccountkey".
Definition isHnsEnabledField : string := "ishnsenabled".
Definition softDeleteBlobsField : string := "softdeleteblobs".
Definition softDeleteContainersField : string := "softdeletecontainers".
Definition enableBlobVersioningField : string := "enableblobversioning".
Definition getAccountKeyFromSecretField : string := "getaccountkeyfromsecret".
Definition storageSPNClientIDField : string := "azurestoragespnclientid".
Definition storageSPNTenantIDField : string := "azurestoragespntenantid".
Definition storageAuthTypeField : string := "azurestorageauthtype".
Definition blobStorageAccountTypeField : string := "blobstorageaccounttype".
Definition storageAuthTypeMSI : string := "msi".
Definition storageIdentityClientIDField : string := "azurestorageidentityclientid".
Definition storageIdentityObjectIDField : string := "azurestorageidentityobjectid".
Definition storageIdentityResourceIDField : string := "azurestorageidentityresourceid".
Definition msiEndpointField : string := "msiendpoint".
Definition storageAADEndpointField : string := "azurestorageaadendpoint".
Definition keyVaultURLField : string := "keyvaulturl".
Definition keyVaultSecretNameField : string := "keyvaultsecretname".
Definition keyVaultSecretVersionField : string := "keyvaultsecretversion".
Definition storageAccountNameField : string := "storageaccountname".
Definition allowBlobPublicAccessField : string := "allowblobpublicaccess".
Definition allowSharedKeyAccessField : string := "allowsharedkeyaccess".
Definition publicNetworkAccessField : string := "publicnetworkaccess".
Definition requireInfraEncryptionField : string := "requireinfraencryption".
Definition ephemeralField : string := "csi.storage.k8s.io/ephemeral".
Definition podNamespaceField : string := "csi.storage.k8s.io/pod.namespace".
Definition serviceAccountTokenField : string := "csi.storage.k8s.io/serviceAccount.tokens".
Definition clientIDField : string := "clientid".
Definition mountWithWITokenField : string := "mountwithworkloadidentitytoken".
Definition tenantIDField : string := "tenantid".
Definition mountOptionsField : string := "mountoptions".
Definition falseValue : string := "false".
Definition trueValue : string := "true".
Definition defaultSecretAccountName : string := "azurestorageaccountname".
Definition defaultSecretAccountKey : string := "azurestorageaccountkey".
Definition defaultDistributedCacheDNSServer : string := "10.0.0.10".
Definition accountSasTokenField : string := "azurestorageaccountsastoken".
Definition msiSecretField : string := "msisecret".
Definition storageSPNClientSecretField : string := "azurestoragespnclientsecret".
Definition Fuse : string := "fuse".
Definition Fuse2 : string := "fuse2".
Definition NFS : string := "nfs".
Definition AZNFS : string := "aznfs".
Definition NFSv3 : string := "nfsv3".
Definition vnetResourceGroupField : string := "vnetresourcegroup".
Definition vnetNameField : string := "vnetname".
Definition vnetLinkNameField : string := "vnetlinkname".
Definition subnetNameField : string := "subnetname".
Definition accessTierField : string := "accesstier".
Definition networkEndpointTypeField : string := "networkendpointtype".
Definition privateDNSZoneResourceGroupField : string := "privatednszoneresourcegroup".
Definition mountPermissionsField : string := "mountpermissions".
Definition fsGroupChangePolicyField : string := "fsgroupchangepolicy".
Definition useDataPlaneAPIField : string := "usedataplaneapi".
Definition containerNameMinLength : nat := 3.
Definition containerNameMaxLength : nat := 63.
Definition accountNotProvisioned : string := "StorageAccountIsNotProvisioned".
Definition tooManyRequests : string := "TooManyRequests".
Definition clientThrottled : string := "client throttled".
Definition containerBeingDeletedDataplaneAPIError : string := "ContainerBeingDeleted".
Definition containerBeingDeletedManagementAPIError : string := "container is being deleted".
Definition statusCodeNotFound : string := "StatusCode=404".
Definition httpCodeNotFound : string := "HTTPStatusCode: 404".
Definition subnetTemplate : string := "/subscriptions/%s/resourceGroups/%s/providers/Microsoft.Network/virtualNetworks/%s/subnets/%s".
Definition defaultNamespace : string := "default".
Definition pvcNameKey : string := "csi.storage.k8s.io/pvc/name".
Definition pvcNamespaceKey : string := "csi.storage.k8s.io/pvc/namespace".
Definition pvNameKey : string := "csi.storage.k8s.io/pv/name".
Definition pvcNameMetadata : string := "${pvc.metadata.name}".
Definition pvcNamespaceMetadata : string := "${pvc.metadata.namespace}".
Definition pvNameMetadata : string := "${pv.metadata.name}".
Definition VolumeID : string := "volumeid".
Definition defaultStorageEndPointSuffix : string := "core.windows.net".
Definition maxInlineBlockCacheParallelism : nat := 128.
Definition FSGroupChangeNone : string := "None".
Definition tagValueDelimiterField : string := "tagvaluedelimiter".
Definition DefaultTokenAudience : string := "api://AzureADTokenExchange".

(** The byte sizes of pkg/util/util.go and the container limit built from them. *)
Definition GiB : Z := (1024 * 1024 * 1024)%Z.
Definition TiB : Z := (1024 * GiB)%Z.
Definition containerMaxSize : Z := (100 * TiB)%Z.
Definition tagKeyValueDelimiter : string := "=".

(** ** The lists and sets of accepted values *)

Definition supportedProtocolList : list string := [Fuse; Fuse2; NFS; AZNFS].
Definition retriableErrors : list string :=
  [accountNotProvisioned; tooManyRequests; statusCodeNotFound; containerBeingDeletedDataplaneAPIError;
   containerBeingDeletedManagementAPIError; clientThrottled].
Definition FSGroupChangeAlways : string := "Always".
Definition FSGroupChangeOnRootMismatch : string := "OnRootMismatch".
Definition supportedFSGroupChangePolicyList : list string :=
  [FSGroupChangeNone; FSGroupChangeAlways; FSGroupChangeOnRootMismatch].
Definition azcopyCloneVolumeOptions : list string :=
  ["--recursive"; "--check-length=false"; "--s2s-preserve-access-tier=false"; "--log-level=ERROR"].
Definition defaultAzureOAuthTokenDir : string := "/var/lib/kubelet/plugins/" +:+ DefaultDriverName.

(** A Go map used as a set is the list of its keys, which only membership tests read. *)
Definition allowedEphemeralMountOptions : list string :=
  ["--allow-other"; "--attr-cache-max-size-mb"; "--attr-cache-timeout"; "--attr-timeout"; "--background-download"; 
   "--basic-remount-check"; "--block-cache"; "--block-cache-block-size"; "--block-cache-disk-size"; 
   "--block-cache-disk-timeout"; "--block-cache-parallelism"; "--block-cache-pool-size"; "--block-cache-prefetch"; 
   "--block-cache-prefetch-on-open"; "--block-cache-strong-consistency"; "--block-size-mb"; "--cache-on-list"; 
   "--cache-poll-timeout-msec"; "--cache-size-mb"; "--cap-iops"; "--cap-mbps-read"; "--cleanup-on-start"; 
   "--cpk-enabled"; "--disable-compression"; "--disable-kernel-cache"; "--disable-version-check"; 
   "--disable-writeback-cache"; "--distributed-cache-block-size"; "--distributed-cache-discovery-endpoint"; 
   "--distributed-cache-dns-server"; "--distributed-cache-node-memory"; "--distributed-cache-node-ttl"; 
   "--distributed-cache-parallelism"; "--distributed-cache-prefetch"; "--cancel-list-on-mount-seconds"; 
   "--empty-dir-check"; "--entry-timeout"; "--file-cache-policy"; "--file-cache-timeout"; 
   "--file-cache-timeout-in-seconds"; "--filter"; "--foreground"; "--hard-limit"; "--high-disk-threshold"; 
   "--honour-acl"; "--ignore-open-flags"; "--ignore-sync"; "--invalidate-on-sync"; "--kernel-list-cache-timeout"; 
   "--lazy-write"; "--list-cache-timeout"; "--log-goroutine-id"; "--log-level"; "--log-type"; 
   "--low-disk-threshold"; "--max-blocks-per-file"; "--max-concurrency"; "--max-eviction"; "--max-retry"; 
   "--max-retry-interval-in-seconds"; "--negative-timeout"; "--no-symlinks"; "--pool-size"; "--pre-mount-validate"; 
   "--preserve-acl"; "--read-only"; "--required-free-space-mb"; "--retry-delay-factor"; "--set-content-type"; 
   "--stream-cache-mb"; "--streaming"; "--subdirectory"; "--sync-to-flush"; "--telemetry"; 
   "--upload-modified-only"; "--use-adls"; "--use-attr-cache"; "--virtual-directory"; "--wait-for-mount"; 
   "--workers"].

Definition allowedLogLevels : list string :=
  ["LOG_OFF"; "LOG_CRIT"; "LOG_ERR"; "LOG_WARNING"; "LOG_INFO"; "LOG_TRACE"; "LOG_DEBUG"].

Definition allowedLogTypes : list string :=
  ["silent"; "syslog"; "base"].
