(* ===== verification/Attributes.v ===== *)
(** * Attributes: Go maps of strings and the attribute helpers of pkg/blob/blob.go

    Volume attributes, storage class parameters and secrets are [map[string]string].  A map is an [option] of a [gmap],
    [None] being the nil map.  Go ranges over a map in an order it does not specify: [RangeOrder] provides an order for
    every range statement (its [site]), any order that lists the map's entries once, and the theorems that do not mention
    a particular instance hold for all of them. *)
From S2P Require Import Prelude GoUnicode GoStrings GoErr Fields.
From stdpp Require Import options.

Abbreviation strmap := (gmap string string).
Abbreviation gomap := (option (gmap string string)).

Class RangeOrder := {
  range : nat → strmap → list (string * string);
  range_perm site m : range site m ≡ₚ map_to_list m;
}.

(** The order of the map's own representation, to compute with. *)
Definition canonical_order : RangeOrder.
Proof. refine {| range := λ _ m, map_to_list m |}. done. Defined.

(** The reverse order: a second instance, which the tests of order dependence compare with the first. *)
Definition reverse_order : RangeOrder.
Proof. refine {| range := λ _ m, reverse (map_to_list m) |}. intros _ m. by rewrite reverse_Permutation. Defined.

(** [switch x { case ...: }] on strings: the first case that lists [x]. *)
Fixpoint switch {A} (x : string) (cases : list (string * A)) (dflt : A) : A :=
  match cases with
  | [] => dflt
  | (k, a) :: cases => if decide (x = k) then a else switch x cases dflt
  end.

Section attributes.
Context `{RangeOrder}.

Definition mrange (site : nat) (m : gomap) : list (string * string) :=
  match m with Some m => range site m | None => [] end.

(** [m[k]]: the zero value when the key is absent or the map nil. *)
Definition mget (m : gomap) (k : string) : string := default "" (m ≫= (λ m, m !! k)).
Definition mlen (m : gomap) : nat := match m with Some m => size m | None => 0 end.

(** setKeyValueInMap: overwrite the first key that folds to [key], add [key] otherwise. *)
Definition setKeyValueInMap (site : nat) (m : gomap) (key value : string) : gomap :=
  match m with
  | None => None
  | Some m =>
    match find_first (λ kv, EqualFold kv.1 key) (range site m) with
    | Some (k, _) => Some (<[k := value]> m)
    | None => Some (<[key := value]> m)
    end
  end.

(** getValueInMap: the value of the first key that folds to [key]. *)
Definition getValueInMap (site : nat) (m : gomap) (key : string) : string :=
  match find_first (λ kv, EqualFold kv.1 key) (mrange site m) with
  | Some (_, v) => v
  | None => ""
  end.

(** replaceWithMap: one pass of [strings.ReplaceAll] per entry with a nonempty key. *)
Definition replaceWithMap (site : nat) (str : string) (m : strmap) : string :=
  foldl (λ s kv, if decide (kv.1 = "") then s else ReplaceAll s kv.1 kv.2) str (range site m).

(** isEphemeralVolume reads the reserved key as kubelet writes it. *)
Definition isEphemeralVolume (attrib : gomap) : bool := EqualFold (mget attrib ephemeralField) trueValue.

(** The loop of ValidateVolumeAttributeKeys over the map [seen] of lower case keys. *)
Fixpoint validate_keys (seen : strmap) (l : list (string * string)) : result () :=
  match l with
  | [] => Ok ()
  | (k, v) :: l =>
    let lower := ToLower k in
    match seen !! lower with
    | Some existing =>
      if decide (existing = v) then validate_keys (<[lower := v]> seen) l
      else Err (errorf "conflicting volume attribute: key %q collides with another key (case-insensitive) with a different value" [lower])
    | None => validate_keys (<[lower := v]> seen) l
    end
  end.

Definition ValidateVolumeAttributeKeys (site : nat) (attrib : gomap) : result gomap :=
  match attrib with
  | None => Ok None
  | Some m => _ ← validate_keys ∅ (range site m); Ok (Some m)
  end.

(** ValidateASCIIVolumeAttributeKeys. *)
Definition ValidateASCIIVolumeAttributeKeys (site : nat) (attrib : gomap) : result () :=
  match find_first (λ kv, negb (is_ascii kv.1)) (mrange site attrib) with
  | Some (k, _) => Err (errorf "invalid volume attribute key %q: only ASCII characters are allowed" [k])
  | None => Ok ()
  end.

(** ** Ranging *)

Lemma elem_of_range site m k v : (k, v) ∈ range site m ↔ m !! k = Some v.
Proof. rewrite range_perm. apply elem_of_map_to_list. Qed.

Lemma elem_of_mrange site m k v : (k, v) ∈ mrange site m ↔ ∃ m', m = Some m' ∧ m' !! k = Some v.
Proof.
  destruct m as [m|]; simpl; [rewrite elem_of_range; split; [eauto|by intros (? & [= <-] & ?)]|].
  split; [by intros ?%not_elem_of_nil|by intros (? & ? & ?)].
Qed.

(** ** Key validation *)

Lemma validate_keys_Ok seen l :
  validate_keys seen l = Ok () ↔
  (∀ k v w, (k, v) ∈ l → seen !! ToLower k = Some w → v = w) ∧
  (∀ k k' v v', (k, v) ∈ l → (k', v') ∈ l → ToLower k = ToLower k' → v = v').
Proof.
  revert seen. induction l as [|[k v] l IH]; intros seen; cbn [validate_keys].
  { split; [|done]. intros _. split; intros *; by intros ?%not_elem_of_nil. }
  assert (∀ w, seen !! ToLower k = None ∨ (seen !! ToLower k = Some w ∧ w = v) →
    validate_keys (<[ToLower k:=v]> seen) l = Ok () ↔
    (∀ k0 v0 w, (k0, v0) ∈ (k, v) :: l → seen !! ToLower k0 = Some w → v0 = w) ∧
    (∀ k0 k' v0 v', (k0, v0) ∈ (k, v) :: l → (k', v') ∈ (k, v) :: l → ToLower k0 = ToLower k' → v0 = v')) as Hstep.
  { intros w Hw. rewrite IH. split.
    - intros [H1 H2].
      assert (∀ k0 v0, (k0, v0) ∈ l → ToLower k0 = ToLower k → v0 = v) as H3.
      { intros k0 v0 Hin E. apply (H1 k0 v0 v Hin). by rewrite E, lookup_insert_eq. }
      split.
      + intros k0 v0 w0 [[= -> ->]|Hin]%elem_of_cons Hs; [destruct Hw as [?|[? ->]]; congruence|].
        destruct (decide (ToLower k0 = ToLower k)) as [E|E].
        * rewrite (H3 _ _ Hin E). rewrite E in Hs. destruct Hw as [?|[? ->]]; congruence.
        * apply (H1 k0 v0 w0 Hin). by rewrite lookup_insert_ne.
      + intros k0 k' v0 v' [[= -> ->]|Hi]%elem_of_cons [[= -> ->]|Hj]%elem_of_cons E; eauto using eq_sym.
    - intros [H1 H2]. split.
      + intros k0 v0 w0 Hin. destruct (decide (ToLower k = ToLower k0)) as [E|E].
        * rewrite E, lookup_insert_eq. intros [= ->]. apply (H2 k0 k); [by right|by left|done].
        * rewrite lookup_insert_ne by done. apply H1. by right.
      + intros k0 k' v0 v' Hi Hj. apply H2; by right. }
  destruct (seen !! ToLower k) as [w|] eqn:E.
  - destruct (decide (w = v)) as [->|Hne]; [apply (Hstep v); by right|].
    split; [done|]. intros [H1 _]. destruct Hne. symmetry. apply (H1 k v w); [by left|done].
  - apply (Hstep v). by left.
Qed.

(** Equal keys up to letter case carry equal values. *)
Definition keys_consistent (m : gomap) : Prop :=
  ∀ m', m = Some m' → ∀ k k' v v', m' !! k = Some v → m' !! k' = Some v' → ToLower k = ToLower k' → v = v'.
Definition keys_ascii (m : gomap) : Prop :=
  ∀ m', m = Some m' → ∀ k v, m' !! k = Some v → is_ascii k = true.

Lemma ValidateVolumeAttributeKeys_spec site m r :
  ValidateVolumeAttributeKeys site m = Ok r ↔ r = m ∧ keys_consistent m.
Proof.
  unfold keys_consistent. destruct m as [m|]; cbn; [|split; [intros [= <-]; done|by intros [-> _]]].
  rewrite bind_Ok. split.
  - intros ([] & [_ Hv]%validate_keys_Ok & [= <-]). split; [done|]. intros ? [= <-] k k' v v' ? ?.
    apply Hv; by apply elem_of_range.
  - intros [-> Hv]. exists (). split; [|done]. apply validate_keys_Ok. split.
    + intros ? ? ? _. by rewrite lookup_empty.
    + intros k k' v v' ?%elem_of_range ?%elem_of_range. by apply (Hv m).
Qed.

Lemma ValidateASCII_spec site m : ValidateASCIIVolumeAttributeKeys site m = Ok () ↔ keys_ascii m.
Proof.
  unfold ValidateASCIIVolumeAttributeKeys, keys_ascii. split.
  - intros H1 m' -> k v Hk. destruct (find_first _ _) as [[]|] eqn:E; [done|].
    apply (find_first_None _ _) with (x := (k, v)) in E; [|by apply elem_of_range].
    by apply negb_false_iff in E.
  - intros Hm. destruct (find_first _ _) as [[k v]|] eqn:E; [|done].
    apply find_first_Some in E as [(m' & -> & Hk)%elem_of_mrange Hn]. simpl in Hn.
    by rewrite (Hm m' eq_refl k v Hk) in Hn.
Qed.

(** ** Looking up case-insensitively *)

Lemma getValueInMap_in site m key v :
  getValueInMap site m key = v → v ≠ "" → ∃ m' k, m = Some m' ∧ m' !! k = Some v ∧ EqualFold k key = true.
Proof.
  unfold getValueInMap. intros <- Hv. destruct (find_first _ _) as [[k v]|] eqn:E; [|done].
  apply find_first_Some in E as [(m' & -> & Hk)%elem_of_mrange Hf]. eauto.
Qed.

(** On a map with ASCII keys that passed ValidateVolumeAttributeKeys, every entry whose key folds to [key] is what
    getValueInMap returns, in whatever order the map is ranged over. *)
Lemma getValueInMap_unique site m m' key k v :
  keys_ascii m → keys_consistent m → is_ascii key = true →
  m = Some m' → m' !! k = Some v → EqualFold k key = true → getValueInMap site m key = v.
Proof.
  intros Ha Hc Hk -> Hl Hf. unfold getValueInMap.
  destruct (find_first _ _) as [[k2 v2]|] eqn:E.
  - apply find_first_Some in E as [(? & [= <-] & Hl2)%elem_of_mrange Hf2]. simpl in *.
    rewrite EqualFold_ascii, bool_decide_eq_true in Hf, Hf2 by eauto.
    eapply (Hc m'); [done..|congruence].
  - apply (find_first_None _ _) with (x := (k, v)) in E; [|by apply elem_of_range]. simpl in E. congruence.
Qed.

Lemma getValueInMap_absent site m key :
  (∀ m' k v, m = Some m' → m' !! k = Some v → EqualFold k key = false) → getValueInMap site m key = "".
Proof.
  intros Hn. unfold getValueInMap. destruct (find_first _ _) as [[k v]|] eqn:E; [|done].
  apply find_first_Some in E as [(m' & -> & Hl)%elem_of_mrange Hf]. simpl in Hf.
  rewrite (Hn m' k v eq_refl Hl) in Hf. done.
Qed.

Lemma setKeyValueInMap_lookup site m key value :
  ∃ k, setKeyValueInMap site (Some m) key value = Some (<[k := value]> m) ∧ EqualFold k key = true ∧
       (k = key ∨ is_Some (m !! k)).
Proof.
  unfold setKeyValueInMap. destruct (find_first _ _) as [[k v]|] eqn:E.
  - apply find_first_Some in E as [Hin Hf]. apply elem_of_range in Hin. eauto 10.
  - exists key. eauto using EqualFold_refl.
Qed.

Lemma setKeyValueInMap_ascii site m key value :
  keys_ascii m → is_ascii key = true → keys_ascii (setKeyValueInMap site m key value).
Proof.
  intros Ha Hk m' Hm' k v Hl. destruct m as [m|]; [|done].
  destruct (setKeyValueInMap_lookup site m key value) as (k0 & Hs & _ & Hk0).
  rewrite Hs in Hm'. simplify_eq. apply lookup_insert_Some in Hl as [[<- _]|[_ Hl]]; [|by eapply Ha].
  destruct Hk0 as [->|[w Hw]]; [done|by eapply Ha].
Qed.
End attributes.
