(* ===== verification/Util.v ===== *)
(** * Util: pkg/util/util.go

    Sizes on 64-bit integers, tag parsing, the argument helpers and the azcopy job parser. *)
From S2P Require Import Prelude GoUnicode GoStrings GoErr Fields Attributes.
From stdpp Require Import options.

(** ** Volume sizes

    [int64] values are integers in [in_int64]; Go's division truncates towards zero and products wrap around. *)

Definition roundUpSize (volumeSizeBytes allocationUnitBytes : Z) : Z :=
  let roundedUp := Z.quot volumeSizeBytes allocationUnitBytes in
  if (Z.rem volumeSizeBytes allocationUnitBytes >? 0)%Z then wrap_signed 64 (roundedUp + 1) else roundedUp.

Definition RoundUpBytes (volumeSizeBytes : Z) : Z := wrap_signed 64 (roundUpSize volumeSizeBytes GiB * GiB).
Definition RoundUpGiB (volumeSizeBytes : Z) : Z := roundUpSize volumeSizeBytes GiB.
Definition BytesToGiB (volumeSizeBytes : Z) : Z := Z.quot volumeSizeBytes GiB.
Definition GiBToBytes (volumeSizeGiB : Z) : Z := wrap_signed 64 (volumeSizeGiB * GiB).

Lemma roundUpSize_nonneg b u :
  (0 ≤ b)%Z → (1 < u)%Z → in_int64 b → roundUpSize b u = (- (- b / u))%Z.
Proof.
  unfold roundUpSize. intros Hb Hu Hr.
  rewrite Z.quot_div_nonneg, Z.rem_mod_nonneg by lia.
  pose proof (Z.div_mod b u ltac:(lia)) as Hd. pose proof (Z.mod_pos_bound b u ltac:(lia)) as Hm.
  destruct (Z.gtb_spec (b mod u) 0) as [Hg|Hg].
  - assert (- b / u = - (b / u) - 1)%Z as ->.
    { symmetry. apply (Z.div_unique _ _ _ (u - b mod u)); [lia|nia]. }
    rewrite wrap_signed_64_id; [lia|].
    unfold in_int64, int64_min, int64_max in *. assert (0 ≤ b / u)%Z by (apply Z.div_pos; lia). nia.
  - assert (- b / u = - (b / u))%Z as ->; [|lia].
    symmetry. apply (Z.div_unique _ _ _ 0); [lia|nia].
Qed.

(** The rounded size in GiB is the least number of GiB that holds the bytes. *)
Lemma RoundUpGiB_least b :
  (0 ≤ b)%Z → in_int64 b →
  (b ≤ RoundUpGiB b * GiB)%Z ∧ ∀ g, (b ≤ g * GiB)%Z → (RoundUpGiB b ≤ g)%Z.
Proof.
  intros Hb Hr. unfold RoundUpGiB. rewrite roundUpSize_nonneg by (auto; unfold GiB; lia).
  unfold GiB. split; [|intros g Hg]; Z.to_euclidean_division_equations; lia.
Qed.

(** ** Option strings *)

(** GetMountOptions. *)
Definition GetMountOptions (options : list string) : string :=
  match options with
  | [] => ""
  | o :: rest => foldl (λ str x, str +:+ " " +:+ x) o rest
  end.

Lemma foldl_space_Join str l : foldl (λ s x, s +:+ " " +:+ x) str l = Join (str :: l) " ".
Proof.
  revert str. induction l as [|x l IH]; intros str; [done|]. simpl foldl. rewrite IH.
  destruct l as [|y l]; [done|]. rewrite !Join_cons by done. str_assoc.
Qed.

Lemma GetMountOptions_Join l : GetMountOptions l = Join l " ".
Proof. destruct l as [|x l]; [done|]. apply foldl_space_Join. Qed.

(** ** Tags *)

Definition tags_format_error (tags tagsDelimiter : string) : error :=
  errorf "Tags '%s' are invalid, the format should like: 'key1=value1%skey2=value2'" [tags; tagsDelimiter].

(** The loop body of ConvertTagsToMap on one tag. *)
Definition convert_tag (e : error) (m : strmap) (tag : string) : result strmap :=
  match SplitN2 tag tagKeyValueDelimiter with
  | [k; v] =>
    let key := TrimSpace k in
    if decide (key = "") then Err e else Ok (<[key := TrimSpace v]> m)
  | _ => Err e
  end.

Fixpoint convert_tags (e : error) (m : strmap) (s : list string) : result strmap :=
  match s with
  | [] => Ok m
  | tag :: s => m' ← convert_tag e m tag; convert_tags e m' s
  end.

Definition ConvertTagsToMap (tags tagsDelimiter : string) : result strmap :=
  if decide (tags = "") then Ok ∅ else
  let d := if decide (tagsDelimiter = "") then "," else tagsDelimiter in
  convert_tags (tags_format_error tags d) ∅ (Split tags d).

(** A tag that the loop accepts. *)
Definition tag_ok (tag : string) : Prop := ∃ k v, SplitN2 tag "=" = [k; v] ∧ TrimSpace k ≠ "".

Lemma SplitN2_cases s sep : (∃ a b, SplitN2 s sep = [a; b] ∧ s = a +:+ sep +:+ b) ∨ SplitN2 s sep = [s].
Proof.
  unfold SplitN2. destruct (cut_at s sep) as [[a b]|] eqn:E; [|by right].
  left. exists a, b. split; [done|]. by apply cut_at_Some.
Qed.

Lemma convert_tag_Ok e m tag m' :
  convert_tag e m tag = Ok m' ↔
  ∃ k v, SplitN2 tag "=" = [k; v] ∧ TrimSpace k ≠ "" ∧ m' = <[TrimSpace k := TrimSpace v]> m.
Proof.
  unfold convert_tag, tagKeyValueDelimiter.
  destruct (SplitN2_cases tag "=") as [(a & b & -> & _)| ->]; [|split; [done|by intros (? & ? & ? & _)]].
  destruct (decide (TrimSpace a = "")) as [E|E]; split.
  - done.
  - by intros (? & ? & [= <- <-] & ? & _).
  - intros [= <-]. eauto.
  - by intros (? & ? & [= <- <-] & _ & ->).
Qed.

Lemma convert_tags_Ok_iff e m s : (∃ m', convert_tags e m s = Ok m') ↔ Forall tag_ok s.
Proof.
  revert m. induction s as [|tag s IH]; intros m; simpl; [split; [done|eauto]|].
  setoid_rewrite bind_Ok. rewrite Forall_cons. split.
  - intros (m' & m1 & (k & v & ? & ? & ->)%convert_tag_Ok & Hs). split; [by exists k, v|].
    eapply IH. eauto.
  - intros [(k & v & ? & ?) Hs]. apply (IH (<[TrimSpace k := TrimSpace v]> m)) in Hs as [m' ?].
    exists m', (<[TrimSpace k := TrimSpace v]> m). split; [|done]. apply convert_tag_Ok. eauto.
Qed.

(** ** TrimDuplicatedSpace

    [\s] in a Go pattern is the class of the five ASCII characters below; a vertical tab or a Unicode space is not in it. *)
Definition re_space (c : ascii) : bool :=
  let b := byte_val c in N.eqb b 9 || N.eqb b 10 || N.eqb b 12 || N.eqb b 13 || N.eqb b 32.

(** [in_run] tells that the previous character belonged to the run of spaces already replaced. *)
Fixpoint trim_dup_go (in_run : bool) (s : string) : string :=
  match s with
  | EmptyString => EmptyString
  | String c s' =>
    if re_space c then (if in_run then trim_dup_go true s' else String " " (trim_dup_go true s'))
    else String c (trim_dup_go false s')
  end.

Definition TrimDuplicatedSpace (s : string) : string := trim_dup_go false s.

(** The words of a string: its maximal runs of characters outside [\s]. *)
Fixpoint words_go (cur : string) (s : string) : list string :=
  match s with
  | EmptyString => if decide (cur = "") then [] else [cur]
  | String c s' => if re_space c then (if decide (cur = "") then [] else [cur]) ++ words_go "" s'
                   else words_go (cur +:+ String c "") s'
  end.
Definition re_words (s : string) : list string := words_go "" s.

Definition ne (s : string) : bool := bool_decide (s ≠ "").
Definition prepend (cur : string) (l : list string) : list string :=
  match l with [] => [] | h :: t => (cur +:+ h) :: t end.

Lemma filter_ne_cons x l : filter (λ s, s ≠ "") (x :: l) = (if decide (x = "") then [] else [x]) ++ filter (λ s, s ≠ "") l.
Proof. rewrite filter_cons. destruct (decide (x = "")), (decide (x ≠ "")); done. Qed.

Lemma trim_split_space b c s :
  re_space c = true →
  Split (trim_dup_go b (String c s)) " " =
  if b then Split (trim_dup_go true s) " " else "" :: Split (trim_dup_go true s) " ".
Proof. intros E. cbn [trim_dup_go]. rewrite E. destruct b; [done|]. by rewrite Split_cons_char. Qed.

Lemma re_space_space c : re_space c = false → Ascii.eqb " " c = false.
Proof. intros E. apply Ascii.eqb_neq. by intros <-. Qed.

Lemma Split_not_nil s c : Split s (String c EmptyString) ≠ [].
Proof. apply split_go_not_nil. Qed.

Lemma trim_split_char b c s :
  re_space c = false →
  Split (trim_dup_go b (String c s)) " " = prepend (String c "") (Split (trim_dup_go false s) " ").
Proof.
  intros E. cbn [trim_dup_go]. rewrite E, Split_cons_char, (re_space_space _ E).
  by destruct (Split (trim_dup_go false s) " ") eqn:Es; [apply Split_not_nil in Es|].
Qed.

Lemma prepend_app a b l : prepend (a +:+ b) l = prepend a (prepend b l).
Proof. destruct l; [done|]. simpl. by rewrite str_app_assoc. Qed.

Lemma filter_trim_run s :
  filter (λ x, x ≠ "") (Split (trim_dup_go true s) " ") = filter (λ x, x ≠ "") (Split (trim_dup_go false s) " ").
Proof.
  destruct s as [|c s]; [done|]. destruct (re_space c) eqn:E.
  - rewrite !trim_split_space by done. by rewrite filter_ne_cons.
  - by rewrite !trim_split_char.
Qed.

Lemma words_go_split cur s :
  words_go cur s = filter (λ x, x ≠ "") (prepend cur (Split (trim_dup_go false s) " ")).
Proof.
  revert cur. induction s as [|c s IH]; intros cur.
  - simpl. rewrite str_app_nil_r, filter_ne_cons. by rewrite app_nil_r.
  - cbn [words_go]. destruct (re_space c) eqn:E.
    + rewrite trim_split_space, IH by done. cbn [prepend]. rewrite str_app_nil_r, filter_ne_cons. f_equal.
      rewrite filter_trim_run. by destruct (Split (trim_dup_go false s) " ").
    + rewrite trim_split_char, IH by done. by rewrite prepend_app.
Qed.

(** The words of a string are the nonempty parts of the split of its normal form. *)
Lemma re_words_split s : re_words s = filter (λ x, x ≠ "") (Split (TrimDuplicatedSpace s) " ").
Proof. unfold re_words, TrimDuplicatedSpace. rewrite words_go_split. by destruct (Split (trim_dup_go false s) " "). Qed.

Definition starts_word (s : string) : bool := match s with String c _ => negb (re_space c) | EmptyString => false end.
Fixpoint ends_word (s : string) : bool :=
  match s with
  | EmptyString => false
  | String c EmptyString => negb (re_space c)
  | String _ s' => ends_word s'
  end.

Lemma trim_split_nonempty s :
  ends_word s = true →
  Forall (λ x, x ≠ "") (Split (trim_dup_go true s) " ") ∧
  Forall (λ x, x ≠ "") (tail (Split (trim_dup_go false s) " ")).
Proof.
  induction s as [|c s IH]; intros H; [done|]. destruct (re_space c) eqn:E.
  - assert (ends_word s = true) as Hs by (destruct s; simpl in *; [by rewrite E in H|done]).
    rewrite !trim_split_space by done. by destruct (IH Hs).
  - rewrite !trim_split_char by done. destruct (decide (s = "")) as [->|Hs].
    { change (Split (trim_dup_go false "") " ") with [""]. by repeat constructor. }
    assert (ends_word s = true) as Hs' by (by destruct s). destruct (IH Hs') as [_ Ht].
    destruct (Split (trim_dup_go false s) " "); simpl in *; [done|]. split; [by constructor|done].
Qed.

(** A command line that starts and ends with a word splits into exactly its words. *)
Lemma Split_trim_words s :
  starts_word s = true → ends_word s = true → Split (TrimDuplicatedSpace s) " " = re_words s.
Proof.
  intros Hs He. rewrite re_words_split. symmetry. apply filter_all.
  destruct s as [|c s]; [done|]. simpl in Hs. apply negb_true_iff in Hs. unfold TrimDuplicatedSpace.
  destruct (trim_split_nonempty _ He) as [_ Ht]. rewrite trim_split_char in * by done.
  destruct (Split (trim_dup_go false s) " "); simpl in *; by constructor.
Qed.

Lemma words_go_app cur a c b :
  re_space c = true → words_go cur (a +:+ String c b) = words_go cur a ++ re_words b.
Proof.
  intros E. revert cur. induction a as [|d a IH]; intros cur; simpl; [by rewrite E|].
  destruct (re_space d); rewrite IH; [by rewrite app_assoc|done].
Qed.

Lemma re_words_app a b : re_words (a +:+ " " +:+ b) = re_words a ++ re_words b.
Proof. by apply words_go_app. Qed.

Lemma re_words_Join l : re_words (Join l " ") = concat (re_words <$> l).
Proof.
  induction l as [|x l IH]; [done|]. destruct l as [|y l]; [simpl; by rewrite app_nil_r|].
  rewrite Join_cons by done. rewrite re_words_app, IH. done.
Qed.

(** A nonempty string without [\s] is its own only word. *)
Lemma words_go_single cur s :
  Forall (λ c, re_space c = false) (chars s) → words_go cur s = if decide (cur +:+ s = "") then [] else [cur +:+ s].
Proof.
  revert cur. induction s as [|c s IH]; intros cur H; simpl in *.
  - by rewrite str_app_nil_r.
  - inversion H as [|? ? E Hs]; subst. rewrite E, IH by done. by rewrite <- str_app_assoc.
Qed.

Lemma re_words_single s : s ≠ "" → Forall (λ c, re_space c = false) (chars s) → re_words s = [s].
Proof. intros Hn H. unfold re_words. rewrite words_go_single by done. simpl. by destruct (decide (s = "")). Qed.

Lemma HasSpace_re_space s : HasSpace s = false → Forall (λ c, re_space c = false) (chars s).
Proof.
  intros H. apply Forall_forall. intros c Hc. destruct (re_space c) eqn:E; [|done].
  unfold re_space in E. assert (byte_val c < 128)%N as Hlt.
  { repeat (apply orb_true_iff in E as [E|E]); apply N.eqb_eq in E; lia. }
  pose proof (HasSpace_false_byte _ _ H Hc Hlt) as Hs. unfold is_space, in_range in Hs.
  repeat (apply orb_true_iff in E as [E|E]); apply N.eqb_eq in E; rewrite E in Hs; discriminate Hs.
Qed.
