(* ===== verification/VolumeIDs.v ===== *)
(** * VolumeIDs: the volume identifier of pkg/blob/blob.go

    [rg#account#container#uuid#namespace#subscription]: how CreateVolume writes it and GetContainerInfo reads it. *)
From S2P Require Import Prelude GoUnicode GoStrings GoErr Regex Fields.
From stdpp Require Import options.

Definition hex_char (c : ascii) : bool :=
  let b := byte_val c in in_range 48 57 b || in_range 97 102 b || in_range 65 70 b.
Definition the_char (d : ascii) : regex := Cls (Ascii.eqb d).

(** [^[0-9a-fA-F]{8}-[0-9a-fA-F]{4}-[0-9a-fA-F]{4}-[0-9a-fA-F]{4}-[0-9a-fA-F]{12}$] *)
Definition subscriptionIDRegex : regex :=
  let h n := Repeat n 0 (Cls hex_char) in
  Cat (h 8) (Cat (the_char "-") (Cat (h 4) (Cat (the_char "-") (Cat (h 4) (Cat (the_char "-")
  (Cat (h 4) (Cat (the_char "-") (h 12)))))))).

Definition isValidSubscriptionID (subsID : string) : bool := MatchString subscriptionIDRegex subsID.

Record ContainerInfo := {
  ci_resourceGroup : string;
  ci_account : string;
  ci_container : string;
  ci_secretNamespace : string;
  ci_subsID : string;
}.

Definition empty_info : ContainerInfo :=
  {| ci_resourceGroup := ""; ci_account := ""; ci_container := ""; ci_secretNamespace := ""; ci_subsID := "" |}.

Definition nth_str (l : list string) (n : nat) : string := default "" (l !! n).

(** GetContainerInfo. *)
Definition GetContainerInfo (id : string) : result ContainerInfo :=
  let segments := Split id separator in
  if length segments <? 3
  then Err (errorf "error parsing volume id: %q, should at least contain two #" [id])
  else
    let secretNamespace := if 4 <? length segments then nth_str segments 4 else "" in
    let subsID :=
      if (5 <? length segments) && negb (bool_decide (nth_str segments 5 = "")) then
        if isValidSubscriptionID (nth_str segments 5) then nth_str segments 5 else ""
      else "" in
    Ok {| ci_resourceGroup := nth_str segments 0; ci_account := nth_str segments 1; ci_container := nth_str segments 2;
          ci_secretNamespace := secretNamespace; ci_subsID := subsID |}.

(** The identifier CreateVolume returns. *)
Definition formatVolumeID (resourceGroup accountName containerName uuid secretNamespace subsID : string) : string :=
  Sprintf volumeIDTemplate [resourceGroup; accountName; containerName; uuid; secretNamespace; subsID].

Definition no_sep (s : string) : Prop := "#"%char ∉ chars s.

#[export] Instance no_sep_dec s : Decision (no_sep s).
Proof. unfold no_sep. apply _. Defined.

(** ** Facts *)

Lemma formatVolumeID_Join rg acct cont uuid ns subs :
  formatVolumeID rg acct cont uuid ns subs = Join [rg; acct; cont; uuid; ns; subs] "#".
Proof. unfold formatVolumeID, volumeIDTemplate. simpl. str_assoc. by rewrite app_nil_r. Qed.

Lemma matches_the_char d l : matches (the_char d) l ↔ l = [d].
Proof.
  unfold the_char. rewrite matches_Cls. split.
  - by intros (c & -> & <-%Ascii.eqb_eq).
  - intros ->. exists d. by rewrite Ascii.eqb_refl.
Qed.

Lemma subscription_chars s :
  isValidSubscriptionID s = true → slen s = 36 ∧ Forall (λ c, hex_char c = true ∨ c = "-"%char) (chars s).
Proof.
  unfold isValidSubscriptionID. rewrite MatchString_spec, <- length_chars. unfold subscriptionIDRegex.
  intros H. repeat match goal with
    | H : matches (Cat _ _) _ |- _ => apply matches_Cat in H as (? & ? & -> & ? & H)
    end.
  repeat match goal with
    | H : matches (Repeat _ _ _) _ |- _ => apply matches_Repeat_Cls in H as [? ?]
    | H : matches (the_char _) _ |- _ => apply matches_the_char in H as ->
    end.
  rewrite !length_app, !Forall_app. split; [simpl; lia|].
  assert (∀ l, Forall (λ c, hex_char c = true) l → Forall (λ c, hex_char c = true ∨ c = "-"%char) l) as Hw.
  { intros l Hl. eapply Forall_impl; [exact Hl|]. intros c ?. by left. }
  split_and!; auto; apply Forall_singleton; by right.
Qed.

Lemma valid_subscription_no_sep s : isValidSubscriptionID s = true → no_sep s.
Proof.
  intros [_ H]%subscription_chars. intros Hin. rewrite Forall_forall in H.
  by destruct (H _ Hin) as [?|?].
Qed.

Lemma valid_subscription_not_empty s : isValidSubscriptionID s = true → s ≠ "".
Proof. intros [H _]%subscription_chars. by intros ->. Qed.

(** Reading an identifier of six parts. *)
Lemma GetContainerInfo_six rg acct cont uuid ns subs :
  no_sep rg → no_sep acct → no_sep cont → no_sep uuid → no_sep ns → no_sep subs →
  GetContainerInfo (formatVolumeID rg acct cont uuid ns subs) =
  Ok {| ci_resourceGroup := rg; ci_account := acct; ci_container := cont; ci_secretNamespace := ns;
        ci_subsID := if isValidSubscriptionID subs then subs else "" |}.
Proof.
  intros. rewrite formatVolumeID_Join. unfold GetContainerInfo, separator.
  rewrite Split_Join; [cbn -[isValidSubscriptionID]|done|by repeat constructor].
  destruct (isValidSubscriptionID subs) eqn:E; [|by destruct (bool_decide (subs = ""))].
  apply valid_subscription_not_empty in E. by destruct (bool_decide_reflect (subs = "")).
Qed.

(** ** Properties *)

(** C31 - Round trip: the identifier that CreateVolume builds from a resource group, an account, a container, a volume
    suffix, a secret namespace and a subscription, none of which holds the separator, is read back by GetContainerInfo
    as the same five components, the subscription when it is empty or a well-formed subscription id. *)
Theorem volume_id_roundtrip rg acct cont uuid ns subs :
  no_sep rg → no_sep acct → no_sep cont → no_sep uuid → no_sep ns →
  subs = "" ∨ isValidSubscriptionID subs = true →
  GetContainerInfo (formatVolumeID rg acct cont uuid ns subs) =
  Ok {| ci_resourceGroup := rg; ci_account := acct; ci_container := cont; ci_secretNamespace := ns; ci_subsID := subs |}.
Proof.
  intros Hrg Ha Hc Hu Hn Hs. rewrite GetContainerInfo_six; auto.
  - by destruct Hs as [->| ->].
  - destruct Hs as [->|Hs]; [apply not_elem_of_nil|by apply valid_subscription_no_sep].
Qed.

Lemma volume_id_roundtrip_witness :
  GetContainerInfo (formatVolumeID "rg" "acct" "cont" "pvc-1" "default" "0ab1cdef-0123-4567-89ab-0123456789AB") =
  Ok {| ci_resourceGroup := "rg"; ci_account := "acct"; ci_container := "cont"; ci_secretNamespace := "default";
        ci_subsID := "0ab1cdef-0123-4567-89ab-0123456789AB" |}.
Proof.
  apply volume_id_roundtrip; try (apply (bool_decide_unpack _); vm_compute; exact I).
Defined.

(** Totality and errors of GetContainerInfo: it fails exactly when the identifier has fewer than two separators,
    and on success the resource group, account, container and namespace are the parts between separators (the namespace
    empty when there are at most four), while the subscription is either empty or passes the subscription pattern. *)
Theorem GetContainerInfo_spec id :
  match GetContainerInfo id with
  | Err _ => length (Split id "#") < 3
  | Ok ci =>
      ∃ rest, Split id "#" = ci_resourceGroup ci :: ci_account ci :: ci_container ci :: rest ∧
              ci_secretNamespace ci = nth_str rest 1 ∧
              (ci_subsID ci = "" ∨ (ci_subsID ci = nth_str rest 2 ∧ isValidSubscriptionID (ci_subsID ci) = true))
  end.
Proof.
  unfold GetContainerInfo, separator.
  destruct (Nat.ltb_spec (length (Split id "#")) 3) as [Hl|Hl]; [done|].
  destruct (Split id "#") as [|a [|b [|c rest]]]; simpl in Hl; try lia.
  exists rest. cbn [ci_resourceGroup ci_account ci_container ci_secretNamespace ci_subsID].
  split; [done|]. split; [by destruct rest as [|? [|? ?]]|].
  destruct rest as [|d [|e [|s rest]]]; [by left..|]. unfold nth_str. cbn -[isValidSubscriptionID].
  destruct (bool_decide (s = "")); [by left|]. cbn -[isValidSubscriptionID].
  destruct (isValidSubscriptionID s) eqn:E; [by right|by left].
Qed.
