(* ===== verification/CsiCommon.v ===== *)
(** * CsiCommon: the CSI data types and pkg/csi-common

    The enumerations and messages of the CSI specification that the driver inspects, the capability tables of
    [CSIDriver] (pkg/csi-common/driver.go) and the endpoint parser and log levels of pkg/csi-common/utils.go. *)
From S2P Require Import Prelude GoUnicode GoStrings GoErr.
From stdpp Require Import options.

Inductive AccessMode :=
| UNKNOWN | SINGLE_NODE_WRITER | SINGLE_NODE_READER_ONLY | MULTI_NODE_READER_ONLY | MULTI_NODE_SINGLE_WRITER
| MULTI_NODE_MULTI_WRITER | SINGLE_NODE_SINGLE_WRITER | SINGLE_NODE_MULTI_WRITER.

Inductive ControllerCap :=
| RPC_UNKNOWN | CREATE_DELETE_VOLUME | PUBLISH_UNPUBLISH_VOLUME | LIST_VOLUMES | GET_CAPACITY | CREATE_DELETE_SNAPSHOT
| LIST_SNAPSHOTS | CLONE_VOLUME | PUBLISH_READONLY | EXPAND_VOLUME | LIST_VOLUMES_PUBLISHED_NODES | VOLUME_CONDITION
| GET_VOLUME | CTRL_SINGLE_NODE_MULTI_WRITER | MODIFY_VOLUME.

Inductive NodeCap :=
| STAGE_UNSTAGE_VOLUME | GET_VOLUME_STATS | NODE_EXPAND_VOLUME | NODE_VOLUME_CONDITION | NODE_SINGLE_NODE_MULTI_WRITER
| VOLUME_MOUNT_GROUP.

#[export] Instance AccessMode_eq_dec : EqDecision AccessMode.
Proof. solve_decision. Defined.
#[export] Instance ControllerCap_eq_dec : EqDecision ControllerCap.
Proof. solve_decision. Defined.
#[export] Instance NodeCap_eq_dec : EqDecision NodeCap.
Proof. solve_decision. Defined.

(** [csi.VolumeCapability]: the access type is a oneof, the access mode may be missing. *)
Record MountVolume := { mv_fs_type : string; mv_flags : list string; mv_mount_group : string }.
Inductive AccessType := NoAccessType | BlockType | MountType (m : MountVolume).
Record VolumeCapability := { vc_access_type : AccessType; vc_access_mode : option AccessMode }.

(** [GetBlock() != nil] and [GetMount()] of a capability. *)
Definition is_block (vc : VolumeCapability) : bool := match vc_access_type vc with BlockType => true | _ => false end.
Definition get_mount (vc : VolumeCapability) : option MountVolume :=
  match vc_access_type vc with MountType m => Some m | _ => None end.

(** The accessors of a possibly missing mount message. *)
Definition mount_flags (vc : VolumeCapability) : list string := default [] (mv_flags <$> get_mount vc).
Definition mount_group (vc : VolumeCapability) : string := default "" (mv_mount_group <$> get_mount vc).

Definition ControllerCap_String (c : ControllerCap) : string :=
  match c with
  | RPC_UNKNOWN => "UNKNOWN" | CREATE_DELETE_VOLUME => "CREATE_DELETE_VOLUME"
  | PUBLISH_UNPUBLISH_VOLUME => "PUBLISH_UNPUBLISH_VOLUME" | LIST_VOLUMES => "LIST_VOLUMES"
  | GET_CAPACITY => "GET_CAPACITY" | CREATE_DELETE_SNAPSHOT => "CREATE_DELETE_SNAPSHOT"
  | LIST_SNAPSHOTS => "LIST_SNAPSHOTS" | CLONE_VOLUME => "CLONE_VOLUME" | PUBLISH_READONLY => "PUBLISH_READONLY"
  | EXPAND_VOLUME => "EXPAND_VOLUME" | LIST_VOLUMES_PUBLISHED_NODES => "LIST_VOLUMES_PUBLISHED_NODES"
  | VOLUME_CONDITION => "VOLUME_CONDITION" | GET_VOLUME => "GET_VOLUME"
  | CTRL_SINGLE_NODE_MULTI_WRITER => "SINGLE_NODE_MULTI_WRITER" | MODIFY_VOLUME => "MODIFY_VOLUME"
  end.

(** ** CSIDriver *)

Record CSIDriver := {
  csi_Name : string;
  csi_NodeID : string;
  csi_Version : string;
  csi_Cap : list ControllerCap;
  csi_VC : list AccessMode;
  csi_NSCap : list NodeCap;
}.

Definition NewCSIDriver (name v nodeID : string) : option CSIDriver :=
  if decide (name = "") then None
  else if decide (nodeID = "") then None
  else Some {| csi_Name := name; csi_NodeID := nodeID; csi_Version := v; csi_Cap := []; csi_VC := []; csi_NSCap := [] |}.

(** ValidateControllerServiceRequest: the unknown capability is always valid. *)
Definition ValidateControllerServiceRequest (d : CSIDriver) (c : ControllerCap) : option error :=
  if decide (c = RPC_UNKNOWN) then None
  else if existsb (λ capability, bool_decide (c = capability)) (csi_Cap d) then None
  else Some (Status InvalidArgument (ControllerCap_String c)).

Definition AddControllerServiceCapabilities (d : CSIDriver) (cl : list ControllerCap) : CSIDriver :=
  {| csi_Name := csi_Name d; csi_NodeID := csi_NodeID d; csi_Version := csi_Version d;
     csi_Cap := cl; csi_VC := csi_VC d; csi_NSCap := csi_NSCap d |}.
Definition AddNodeServiceCapabilities (d : CSIDriver) (nl : list NodeCap) : CSIDriver :=
  {| csi_Name := csi_Name d; csi_NodeID := csi_NodeID d; csi_Version := csi_Version d;
     csi_Cap := csi_Cap d; csi_VC := csi_VC d; csi_NSCap := nl |}.
Definition AddVolumeCapabilityAccessModes (d : CSIDriver) (vc : list AccessMode) : CSIDriver :=
  {| csi_Name := csi_Name d; csi_NodeID := csi_NodeID d; csi_Version := csi_Version d;
     csi_Cap := csi_Cap d; csi_VC := vc; csi_NSCap := csi_NSCap d |}.

(** ** Endpoints and logging *)

Definition ParseEndpoint (ep : string) : result (string * string) :=
  let err := Err (errorf "Invalid endpoint: %v" [ep]) in
  if HasPrefix (ToLower ep) "unix://" || HasPrefix (ToLower ep) "tcp://" then
    match cut_at ep "://" with
    | Some (s0, s1) => if decide (s1 = "") then err else Ok (s0, s1)
    | None => err
    end
  else err.

(** The network and address that Listen passes to net.Listen on a platform other than Windows. *)
Definition listen_address (proto addr : string) : string := if decide (proto = "unix") then "/" +:+ addr else addr.

Definition getLogLevel (method : string) : Z :=
  if bool_decide (method = "/csi.v1.Identity/Probe") || bool_decide (method = "/csi.v1.Node/NodeGetCapabilities")
     || bool_decide (method = "/csi.v1.Node/NodeGetVolumeStats")
  then 6 else 2.

(** ** Facts *)

Lemma ValidateControllerServiceRequest_None d c :
  ValidateControllerServiceRequest d c = None ↔ c = RPC_UNKNOWN ∨ c ∈ csi_Cap d.
Proof.
  unfold ValidateControllerServiceRequest. destruct (decide (c = RPC_UNKNOWN)) as [->|Hc]; [by split; [left|]|].
  destruct (existsb _ _) eqn:E.
  - apply existsb_exists in E as (c' & Hin & Hc'). apply bool_decide_eq_true in Hc' as <-.
    split; [|done]. right. by apply list_elem_of_In.
  - split; [done|]. intros [?|Hin]; [done|]. apply existsb_false_Forall in E. rewrite Forall_forall in E.
    specialize (E c Hin). simpl in E. by apply bool_decide_eq_false in E.
Qed.
