(* ===== verification/Predicates.v ===== *)
(** * Predicates: the closed-set tests of pkg/blob/blob.go and pkg/blob/controllerserver.go

    Supported protocols, tiers, network access settings, policies, access modes, retriable errors, token file names and
    day counts. *)
From S2P Require Import Prelude GoUnicode GoStrings GoErr Fields CsiCommon.
From stdpp Require Import options.

Definition isSupportedProtocol (protocol : string) : bool :=
  bool_decide (protocol = "") || existsb (λ v, bool_decide (protocol = v) || bool_decide (protocol = NFSv3)) supportedProtocolList.

(** The values of [armstorage.PossibleAccessTierValues] and [PossiblePublicNetworkAccessValues]. *)
Definition PossibleAccessTierValues : list string := ["Cold"; "Cool"; "Hot"; "Premium"].
Definition PossiblePublicNetworkAccessValues : list string := ["Disabled"; "Enabled"; "SecuredByPerimeter"].

Definition isSupportedAccessTier (accessTier : string) : bool :=
  bool_decide (accessTier = "") || existsb (λ tier, bool_decide (accessTier = tier)) PossibleAccessTierValues.
Definition isSupportedPublicNetworkAccess (publicNetworkAccess : string) : bool :=
  bool_decide (publicNetworkAccess = "") || existsb (λ tier, bool_decide (publicNetworkAccess = tier)) PossiblePublicNetworkAccessValues.
Definition isSupportedFSGroupChangePolicy (policy : string) : bool :=
  bool_decide (policy = "") || existsb (λ v, bool_decide (policy = v)) supportedFSGroupChangePolicyList.

Definition isNFSProtocol (protocol : string) : bool :=
  let protocol := ToLower protocol in
  bool_decide (protocol = NFS) || bool_decide (protocol = AZNFS) || bool_decide (protocol = NFSv3).

Definition isSASToken (key : string) : bool := HasPrefix key "?".

Definition isRetriableError (err : option error) : bool :=
  match err with
  | Some e => existsb (λ v, Contains (ToLower (Error e)) (ToLower v)) retriableErrors
  | None => false
  end.

Definition isReadOnlyFromCapability (vc : VolumeCapability) : bool :=
  match vc_access_mode vc with
  | None => false
  | Some mode => bool_decide (mode = MULTI_NODE_READER_ONLY) || bool_decide (mode = SINGLE_NODE_READER_ONLY)
  end.

Definition token_rune (c : N) : bool :=
  in_range 97 122 c || in_range 65 90 c || in_range 48 57 c || N.eqb c 45.
Definition isValidTokenFileName (fileName : string) : bool :=
  if decide (fileName = "") then false else forallb (λ c, token_rune (c_rune c)) (runes fileName).

Definition isValidVolumeCapabilities (volCaps : list VolumeCapability) : option error :=
  if length volCaps =? 0 then Some (errorf "volume capabilities missing in request" [])
  else if existsb is_block volCaps then Some (errorf "block volume capability not supported" [])
  else None.

(** parseDays; the error names the field softdeleteblobs whichever field is parsed. *)
Definition parseDays (dayStr : string) : result Z :=
  match Atoi dayStr with
  | None => Err (status_errorf InvalidArgument "invalid %s:%s in storage class" [softDeleteBlobsField; dayStr])
  | Some days =>
    if (days <=? 0)%Z || (365 <? days)%Z then
      Err (status_errorf InvalidArgument "invalid %s:%s in storage class, should be in range [1, 365]" [softDeleteBlobsField; dayStr])
    else Ok (wrap_signed 32 days)
  end.

(** ** Facts *)

Lemma elem_of_existsb {A} `{EqDecision A} (x : A) l : existsb (λ y, bool_decide (x = y)) l = true ↔ x ∈ l.
Proof.
  rewrite existsb_exists. split.
  - intros (y & Hin & ->%bool_decide_eq_true). by apply list_elem_of_In.
  - intros Hin. exists x. split; [by apply list_elem_of_In|by apply bool_decide_eq_true].
Qed.

Lemma isSupportedProtocol_cases protocol :
  isSupportedProtocol protocol = true ↔ protocol ∈ ["" ; Fuse; Fuse2; NFS; AZNFS; NFSv3].
Proof.
  unfold isSupportedProtocol. rewrite orb_true_iff, existsb_exists. split.
  - intros [H|(v & Hin & H)]; bools; [rewrite H; by left|].
    destruct H as [H|H]; bools; rewrite H; [|do 5 right; by left].
    apply list_elem_of_In in Hin. right.
    change (v ∈ supportedProtocolList ++ [NFSv3]). apply elem_of_app. by left.
  - intros [->|H]%elem_of_cons; [by left|]. right.
    repeat (apply elem_of_cons in H as [->|H]; [eexists; split; [|apply orb_true_iff; left; by apply bool_decide_eq_true]; simpl; tauto|]).
    apply list_elem_of_singleton in H as ->. exists Fuse. split; [simpl; tauto|reflexivity].
Qed.

(** The error texts that make a management call worth retrying. *)
Lemma isRetriableError_spec e :
  isRetriableError (Some e) = true ↔ ∃ v, v ∈ retriableErrors ∧ Contains (ToLower (Error e)) (ToLower v) = true.
Proof.
  cbn -[retriableErrors]. rewrite existsb_exists. split; intros (v & Hin & H); exists v; split; try done;
    by apply list_elem_of_In.
Qed.

Lemma parseDays_Ok s d : parseDays s = Ok d ↔ Atoi s = Some d ∧ (1 ≤ d ≤ 365)%Z.
Proof.
  unfold parseDays. destruct (Atoi s) as [n|]; [|split; [done|by intros [? _]]].
  destruct ((n <=? 0) || (365 <? n))%Z eqn:E.
  - split; [done|]. intros [[= ->] ?]. bools. rewrite Z.leb_le, Z.ltb_lt in E. lia.
  - bools. rewrite Z.leb_gt, Z.ltb_ge in *. assert (wrap_signed 32 n = n) as ->.
    { unfold wrap_signed. rewrite Z.mod_small by lia. destruct (Z.ltb_spec n (2 ^ (32 - 1))); lia. }
    split; [intros [= ->]; split; [done|lia]|by intros [[= ->] _]].
Qed.

Lemma isValidVolumeCapabilities_None caps :
  isValidVolumeCapabilities caps = None ↔ caps ≠ [] ∧ Forall (λ c, is_block c = false) caps.
Proof.
  unfold isValidVolumeCapabilities. destruct caps as [|c caps]; [split; [done|by intros [? _]]|].
  cbn [length Nat.eqb]. destruct (existsb is_block (c :: caps)) eqn:E.
  - split; [done|]. intros [_ H%existsb_false_Forall]. congruence.
  - apply existsb_false_Forall in E. by split.
Qed.
