(* ===== verification/ContainerNames.v ===== *)
(** * ContainerNames: the container names of pkg/blob/blob.go

    How CreateVolume derives a container name from a volume name, and which names the driver accepts.  Strings are byte
    sequences; an index or a slice out of range, a panic in Go, is [None]. *)
From S2P Require Import Prelude GoUnicode GoStrings GoErr Regex Fields Predicates.
From stdpp Require Import options.

(** ['a' <= c && c <= 'z' || '0' <= c && c <= '9'] *)
Definition lower_alnum (c : ascii) : bool := in_range 97 122 (byte_val c) || in_range 48 57 (byte_val c).
Definition name_char (c : ascii) : bool := lower_alnum c || Ascii.eqb c "-".

(** checkContainerNameBeginAndEnd; an empty name panics. *)
Definition checkContainerNameBeginAndEnd (containerName : string) : option bool :=
  first ← chars containerName !! 0;
  last ← chars containerName !! (slen containerName - 1);
  Some (lower_alnum first && lower_alnum last).

(** [s[:n]], which panics for [n > len(s)] and for a negative [n]. *)
Definition slice_to (s : string) (n : Z) : option string :=
  if (0 <=? n)%Z && (n <=? Z.of_nat (slen s))%Z then Some (str_take (Z.to_nat n) s) else None.

(** generateVolumeName. *)
Definition generateVolumeName (clusterName pvName : string) (maxLength : Z) : option string :=
  let prefix := clusterName +:+ "-dynamic" in
  let pvLen := Z.of_nat (slen pvName) in
  prefix ← (if (maxLength <? pvLen + 1 + Z.of_nat (slen prefix))%Z then slice_to prefix (maxLength - pvLen - 1) else Some prefix);
  Some (prefix +:+ "-" +:+ pvName).

(** The lower case name, cut to the longest that is allowed. *)
Definition cut_name (volumeName : string) : option string :=
  let containerName := ToLower volumeName in
  if containerNameMaxLength <? slen containerName then slice_to containerName (Z.of_nat containerNameMaxLength) else Some containerName.

(** A name that is replaced by a generated one. *)
Definition regenerated (containerName : string) : option bool :=
  ok ← checkContainerNameBeginAndEnd containerName;
  Some (negb ok || (slen containerName <? containerNameMinLength)).

(** getValidContainerName; [newUUID] is the string of the UUID that the code draws for a name that is [regenerated]. *)
Definition getValidContainerName (newUUID volumeName protocol : string) : option string :=
  containerName ← cut_name volumeName;
  again ← regenerated containerName;
  containerName ← (if again : bool then generateVolumeName (Sprintf "pvc-%s" [protocol]) newUUID 63 else Some containerName);
  Some (ReplaceAll containerName "--" "-").

(** [^[a-z0-9][a-z0-9-]{1,61}[a-z0-9]$] *)
Definition containerNameRegex : regex := Cat (Cls lower_alnum) (Cat (Repeat 1 60 (Cls name_char)) (Cls lower_alnum)).

Definition ValidateContainerName (containerName : string) : result () :=
  if decide (containerName = "") then Ok ()
  else if negb (MatchString containerNameRegex containerName) then
    Err (errorf "invalid containerName %q: must be 3–63 lowercase alphanumeric/hyphen characters, start and end with a letter or digit, and contain no consecutive hyphens" [containerName])
  else if Contains containerName "--" then
    Err (errorf "invalid containerName %q: consecutive hyphens are not allowed" [containerName])
  else Ok ().

(** The rune test of isSupportedContainerNamePrefix. *)
Definition prefix_rune_ok (v : N) : bool :=
  negb (negb (N.eqb v 45) && ((v <? 48)%N || (57 <? v)%N) && ((v <? 97)%N || (122 <? v)%N)).

Definition isSupportedContainerNamePrefix (prefix : string) : bool :=
  match prefix with
  | EmptyString => true
  | String c _ =>
    if 20 <? slen prefix then false
    else if Ascii.eqb c "-" then false
    else forallb (λ v, prefix_rune_ok (c_rune v)) (runes prefix)
  end.

(** ** The naming rules of Azure Blob Storage, as the comment on getValidContainerName lists them *)

Record naming_rules (s : string) : Prop := {
  nr_begin : ∃ c, chars s !! 0 = Some c ∧ lower_alnum c = true;
  nr_chars : Forall (λ c, name_char c = true) (chars s);
  nr_dash i : chars s !! i = Some "-"%char →
    ∃ b e, 0 < i ∧ chars s !! (i - 1) = Some b ∧ chars s !! S i = Some e ∧ lower_alnum b = true ∧ lower_alnum e = true;
  nr_length : containerNameMinLength ≤ slen s ≤ containerNameMaxLength;
}.

(** ** Facts *)

Lemma dash_not_alnum : lower_alnum "-" = false.
Proof. reflexivity. Qed.

Lemma name_char_cases c : name_char c = true ↔ lower_alnum c = true ∨ c = "-"%char.
Proof. unfold name_char. by rewrite orb_true_iff, Ascii.eqb_eq. Qed.

Lemma chars_lookup_app2 a c b : chars (a +:+ String c b) !! slen a = Some c.
Proof.
  rewrite chars_app, lookup_app_r by (by rewrite length_chars).
  by rewrite length_chars, Nat.sub_diag.
Qed.

Lemma Contains_dashes s : Contains s "--" = true ↔ ∃ i, chars s !! i = Some "-"%char ∧ chars s !! S i = Some "-"%char.
Proof.
  rewrite Contains_spec. split.
  - intros (a & b & ->). exists (slen a). split; [apply chars_lookup_app2|].
    change ("--" +:+ b) with (String "-" ("-" +:+ b)).
    replace (a +:+ String "-" ("-" +:+ b)) with ((a +:+ "-") +:+ String "-" b) by str_assoc.
    replace (S (slen a)) with (slen (a +:+ "-")) by (rewrite slen_app; simpl; lia). apply chars_lookup_app2.
  - intros (i & Hi & Hj). exists (of_chars (take i (chars s))), (of_chars (drop (S (S i)) (chars s))).
    apply (inj chars). rewrite !chars_app, !chars_of_chars. simpl.
    rewrite <- (take_drop i (chars s)) at 1. f_equal.
    by rewrite (drop_S _ _ _ Hi), (drop_S _ _ _ Hj).
Qed.

Lemma Contains_dashes_false s :
  Contains s "--" = false ↔ ∀ i, chars s !! i = Some "-"%char → chars s !! S i ≠ Some "-"%char.
Proof.
  rewrite <- not_true_iff_false, Contains_dashes. split.
  - intros H i Hi Hj. apply H. eauto.
  - intros H (i & Hi & Hj). by apply (H i).
Qed.

(** What the pattern accepts. *)
Lemma containerNameRegex_spec s :
  MatchString containerNameRegex s = true ↔
  ∃ b m e, chars s = b :: m ++ [e] ∧ lower_alnum b = true ∧ lower_alnum e = true ∧
           1 ≤ length m ≤ 61 ∧ Forall (λ c, name_char c = true) m.
Proof.
  rewrite MatchString_spec. unfold containerNameRegex. rewrite matches_Cat. split.
  - intros (l1 & l2 & -> & (b & -> & Hb)%matches_Cls & (m & l3 & -> & [Hl Hm]%matches_Repeat_Cls & (e & -> & He)%matches_Cls)%matches_Cat).
    exists b, m, e. split_and!; [done..|lia|lia|done].
  - intros (b & m & e & -> & Hb & He & Hl & Hm). exists [b], (m ++ [e]). split_and!; [done|by constructor|].
    apply matches_Cat. exists m, [e]. split_and!; [done| |by constructor]. apply matches_Repeat_Cls. split; [lia|done].
Qed.

Lemma snoc_split {A} (l : list A) : l ≠ [] → ∃ k x, l = k ++ [x].
Proof. intros H. destruct (exists_last H) as (k & x & E). eauto. Qed.

Lemma naming_rules_regex s : naming_rules s → MatchString containerNameRegex s = true.
Proof.
  intros [(b & Hb & Hbb) Hc Hd [Hmin Hmax]]. apply containerNameRegex_spec. rewrite <- length_chars in Hmin, Hmax.
  unfold containerNameMinLength, containerNameMaxLength in *. destruct (chars s) as [|b' l] eqn:E; [done|].
  simpl in Hb. simplify_eq. destruct (snoc_split l) as (m & e & ->); [intros ->; simpl in *; lia|].
  exists b, m, e. rewrite Forall_cons, Forall_app, Forall_singleton in Hc. destruct Hc as (_ & Hm & He).
  simpl in *. rewrite length_app in *. simpl in *. split_and!; [done|done| |lia|lia|done].
  apply name_char_cases in He as [He| ->]; [done|].
  destruct (Hd (S (length m))) as (? & ? & _ & _ & Hn & _); [by simpl; apply list_lookup_middle|].
  simpl in Hn. rewrite lookup_ge_None_2 in Hn; [done|]. rewrite length_app. simpl. lia.
Qed.

Lemma regex_naming_rules s : MatchString containerNameRegex s = true → Contains s "--" = false → naming_rules s.
Proof.
  intros (b & m & e & E & Hb & He & Hl & Hm)%containerNameRegex_spec Hd. rewrite Contains_dashes_false in Hd.
  assert (Forall (λ c, name_char c = true) (chars s)) as Hall.
  { rewrite E, Forall_cons, Forall_app, Forall_singleton. unfold name_char. by rewrite Hb, He. }
  assert (slen s = S (S (length m))) as Hlen.
  { rewrite <- length_chars, E. simpl. rewrite length_app. simpl. lia. }
  constructor; [|done| |unfold containerNameMinLength, containerNameMaxLength; lia].
  { exists b. by rewrite E. }
  intros i Hi. rewrite Forall_lookup in Hall.
  assert (∃ e', chars s !! S i = Some e') as [e' He'].
  { apply lookup_lt_is_Some. rewrite length_chars, Hlen. pose proof (lookup_lt_Some _ _ _ Hi) as Hlt.
    rewrite length_chars, Hlen in Hlt. destruct (decide (i = S (length m))) as [->|]; [|lia].
    rewrite E in Hi. simpl in Hi. rewrite list_lookup_middle in Hi by done. by simplify_eq. }
  destruct i as [|i]; [rewrite E in Hi; simpl in Hi; by simplify_eq|].
  assert (∃ b', chars s !! i = Some b') as [b' Hb'].
  { apply lookup_lt_is_Some. apply lookup_lt_Some in Hi. lia. }
  exists b', e'. simpl. rewrite Nat.sub_0_r. split_and!; [lia|done|done| |].
  - destruct (proj1 (name_char_cases b') (Hall _ _ Hb')) as [?| ->]; [done|]. by destruct (Hd i).
  - destruct (proj1 (name_char_cases e') (Hall _ _ He')) as [?| ->]; [done|]. by destruct (Hd (S i)).
Qed.

(** ** Collapsing dashes *)

(** What [strings.Replace(name, "--", "-", -1)] computes, on bytes. *)
Fixpoint collapse (l : list ascii) : list ascii :=
  match l with
  | [] => []
  | c :: l' =>
    match l' with
    | [] => [c]
    | d :: l'' => if Ascii.eqb c "-" && Ascii.eqb d "-" then c :: collapse l'' else c :: collapse l'
    end
  end.

Lemma list_pair_ind {A} (P : list A → Prop) :
  P [] → (∀ x, P [x]) → (∀ x y l, P l → P (y :: l) → P (x :: y :: l)) → ∀ l, P l.
Proof.
  intros H0 H1 H2 l. assert (P l ∧ ∀ x, P (x :: l)) as [? _]; [|done].
  induction l as [|y l [IH1 IH2]]; [by split|]. split; [done|]. intros x. by apply H2.
Qed.

Lemma collapse_cons2 c d l :
  collapse (c :: d :: l) = if Ascii.eqb c "-" && Ascii.eqb d "-" then c :: collapse l else c :: collapse (d :: l).
Proof. done. Qed.

Lemma split_go_0 sep c s :
  split_go sep 0 (String c s) =
  if HasPrefix (String c s) sep then EmptyString :: split_go sep (slen sep - 1) s
  else match split_go sep 0 s with [] => [String c EmptyString] | h :: t => String c h :: t end.
Proof. done. Qed.

Lemma chars_ReplaceAll_dashes s : chars (ReplaceAll s "--" "-") = collapse (chars s).
Proof.
  rewrite <- (of_chars_chars s). generalize (chars s). clear s. intros l. rewrite chars_of_chars.
  unfold ReplaceAll. induction l as [|c|c d l IH1 IH2] using list_pair_ind; [done| |].
  { change (of_chars [c]) with (String c EmptyString). rewrite split_go_0. cbn [HasPrefix]. by rewrite andb_false_r. }
  change (of_chars (c :: d :: l)) with (String c (String d (of_chars l))).
  rewrite split_go_0, collapse_cons2. cbn [HasPrefix]. rewrite (Ascii.eqb_sym c), (Ascii.eqb_sym d), andb_true_r.
  destruct (Ascii.eqb "-" c && Ascii.eqb "-" d)%bool eqn:E.
  - apply andb_true_iff in E as [<-%Ascii.eqb_eq _]. rewrite Join_cons by apply split_go_not_nil.
    rewrite chars_app. simpl. f_equal. exact IH1.
  - rewrite <- IH2. destruct (split_go "--" 0 (String d (of_chars l))) eqn:Es; [by apply split_go_not_nil in Es|].
    rewrite Join_head_cons. change (of_chars (d :: l)) with (String d (of_chars l)). by rewrite Es.
Qed.

(** No [n] dashes in a row, for [n = 2, 3]. *)
Definition no_run2 (l : list ascii) : Prop := ∀ i, l !! i = Some "-"%char → l !! S i ≠ Some "-"%char.
Definition no_run3 (l : list ascii) : Prop :=
  ∀ i, l !! i = Some "-"%char → l !! S i = Some "-"%char → l !! S (S i) ≠ Some "-"%char.

Lemma no_run2_cons c l : no_run2 (c :: l) ↔ (c = "-"%char → head l ≠ Some "-"%char) ∧ no_run2 l.
Proof.
  rewrite head_lookup. split.
  - intros H. split; [intros ->; by apply (H 0)|]. intros i. apply (H (S i)).
  - intros [H1 H2] [|i]; simpl; [intros [= ->]; auto|apply H2].
Qed.

Lemma no_run3_tail c l : no_run3 (c :: l) → no_run3 l.
Proof. intros H i. apply (H (S i)). Qed.

Lemma head_collapse l : head (collapse l) = head l.
Proof. destruct l as [|c [|d l]]; [done..|]. rewrite collapse_cons2. by destruct (_ && _)%bool. Qed.

Lemma collapse_no_run l : no_run3 l → no_run2 (collapse l).
Proof.
  induction l as [|c|c d l IH1 IH2] using list_pair_ind; intros H; [by intros i|by intros [|i]|].
  rewrite collapse_cons2. destruct (_ && _)%bool eqn:E; rewrite no_run2_cons, head_collapse.
  - bools. rewrite Ascii.eqb_eq in *. subst. split.
    + intros _. rewrite head_lookup. by apply (H 0).
    + apply IH1. by do 2 apply no_run3_tail in H.
  - split; [|apply IH2; by apply no_run3_tail in H].
    intros -> [= ->]. by rewrite !Ascii.eqb_refl in E.
Qed.

Lemma collapse_snoc l e : e ≠ "-"%char → collapse (l ++ [e]) = collapse l ++ [e].
Proof.
  intros He. induction l as [|c|c d l IH1 IH2] using list_pair_ind; [done| |].
  - simpl. replace (Ascii.eqb e "-") with false by (symmetry; by apply Ascii.eqb_neq). by rewrite andb_false_r.
  - cbn [app]. rewrite !collapse_cons2. destruct (_ && _)%bool; [by rewrite IH1|].
    change (d :: l ++ [e]) with ((d :: l) ++ [e]). by rewrite IH2.
Qed.

Lemma collapse_cons c l : c ≠ "-"%char → collapse (c :: l) = c :: collapse l.
Proof.
  intros Hc. destruct l as [|d l]; [done|]. rewrite collapse_cons2.
  by replace (Ascii.eqb c "-") with false by (symmetry; by apply Ascii.eqb_neq).
Qed.

Lemma collapse_Forall (P : ascii → Prop) l : Forall P l → Forall P (collapse l).
Proof.
  induction l as [|c|c d l IH1 IH2] using list_pair_ind; intros H; [done..|].
  inversion H as [|? ? Hc Hd]; subst. rewrite collapse_cons2.
  destruct (_ && _)%bool; constructor; auto. inversion Hd; auto.
Qed.

Lemma collapse_length l : length (collapse l) ≤ length l.
Proof.
  induction l as [|c|c d l IH1 IH2] using list_pair_ind; [done..|]. rewrite collapse_cons2.
  destruct (_ && _)%bool; simpl in *; lia.
Qed.

Lemma collapse_nil l : collapse l = [] → l = [].
Proof. intros H. pose proof (head_collapse l) as E. rewrite H in E. by destruct l. Qed.

Lemma no_run3_take n l : no_run3 l → no_run3 (take n l).
Proof. intros H i [Hi _]%lookup_take_Some [Hj _]%lookup_take_Some [Hk _]%lookup_take_Some. by apply (H i). Qed.

Lemma no_run3_of_no_run2 l : no_run2 l → no_run3 l.
Proof. intros H i Hi Hj. destruct (H i Hi Hj). Qed.

(** ** The derived name *)

(** First and last byte letters or digits: what checkContainerNameBeginAndEnd tests. *)
Definition ends_alnum (l : list ascii) : Prop :=
  ∃ b m e, l = b :: m ++ [e] ∧ lower_alnum b = true ∧ lower_alnum e = true.

Lemma lower_alnum_dash c : lower_alnum c = true → c ≠ "-"%char.
Proof. by intros H ->. Qed.

Lemma checkBeginAndEnd_true s :
  2 ≤ slen s → checkContainerNameBeginAndEnd s = Some true → ends_alnum (chars s).
Proof.
  unfold checkContainerNameBeginAndEnd. rewrite <- length_chars. intros Hl H.
  destruct (chars s) as [|b l]; [done|]. destruct (snoc_split l) as (m & e & ->); [by intros ->; simpl in Hl; lia|].
  exists b, m, e. simpl in H. rewrite length_app in H. simpl in H.
  replace (length m + 1 - 0) with (S (length m)) in H by lia. simpl in H.
  rewrite list_lookup_middle in H by done. simpl in H. injection H as H. by bools.
Qed.

Lemma checkBeginAndEnd_total s : s ≠ "" → is_Some (checkContainerNameBeginAndEnd s).
Proof.
  intros Hs. unfold checkContainerNameBeginAndEnd.
  assert (0 < slen s) by (destruct s; [done|simpl; lia]). rewrite <- length_chars in *.
  destruct (chars s !! 0) eqn:E0; [|apply lookup_ge_None in E0; lia]. simpl.
  destruct (chars s !! (length (chars s) - 1)) eqn:E1; [|apply lookup_ge_None in E1; lia]. simpl. eauto.
Qed.

Lemma collapse_ends l :
  ends_alnum l → 3 ≤ length l ≤ 63 → ends_alnum (collapse l) ∧ 3 ≤ length (collapse l) ≤ 63.
Proof.
  intros (b & m & e & -> & Hb & He) Hl. pose proof (collapse_length m) as Hm.
  rewrite collapse_cons, collapse_snoc by by apply lower_alnum_dash.
  split; [by exists b, (collapse m), e|]. simpl in *. rewrite length_app in *. simpl in *.
  destruct (collapse m) eqn:E; [apply collapse_nil in E; subst; simpl in *; lia|]. simpl in *. lia.
Qed.

Lemma slice_to_Some s n t : slice_to s n = Some t ↔ (0 ≤ n ≤ Z.of_nat (slen s))%Z ∧ t = str_take (Z.to_nat n) s.
Proof.
  unfold slice_to. destruct ((0 <=? n) && (n <=? Z.of_nat (slen s)))%Z eqn:E.
  - bools. rewrite Z.leb_le in *. split; [intros [= <-]; split; [lia|done]|by intros [_ ->]].
  - bools. split; [done|]. intros [? _]. rewrite !Z.leb_gt in E. lia.
Qed.

Lemma chars_str_take n s : chars (str_take n s) = take n (chars s).
Proof. revert n. induction s as [|c s IH]; intros [|n]; simpl; [done..|]. by rewrite IH. Qed.

Lemma slen_str_take n s : slen (str_take n s) = min n (slen s).
Proof. rewrite <- !length_chars, chars_str_take. apply length_take. Qed.

Lemma generateVolumeName_fits clusterName pvName :
  slen clusterName + slen pvName ≤ 54 →
  generateVolumeName clusterName pvName 63 = Some (clusterName +:+ "-dynamic-" +:+ pvName).
Proof.
  intros H. unfold generateVolumeName. rewrite slen_app.
  replace (63 <? _)%Z with false by (symmetry; apply Z.ltb_ge; simpl; lia).
  simpl. f_equal. by str_assoc.
Qed.

(** The canonical string of a UUID: 36 bytes that obey the naming rules. *)
Definition uuid_string (u : string) : Prop := slen u = 36 ∧ naming_rules u.

Lemma naming_rules_ends s : naming_rules s → ends_alnum (chars s).
Proof.
  intros H%naming_rules_regex. apply containerNameRegex_spec in H as (b & m & e & E & Hb & He & _).
  by exists b, m, e.
Qed.

Lemma naming_rules_no_run2 s : naming_rules s → no_run2 (chars s).
Proof.
  intros [_ _ Hd _] i Hi Hj. destruct (Hd i Hi) as (? & e & _ & _ & He & _ & Hee). rewrite Hj in He. by simplify_eq.
Qed.

Lemma no_run3_cons c l :
  c ≠ "-"%char ∨ l !! 0 ≠ Some "-"%char ∨ l !! 1 ≠ Some "-"%char → no_run3 l → no_run3 (c :: l).
Proof. intros H Hl [|i]; simpl; [|apply Hl]. intros [= ->]. intros ? ?. by destruct H as [?|[?|?]]. Qed.

Lemma ends_alnum_app p l : (∃ c q, p = c :: q ∧ lower_alnum c = true) → ends_alnum l → ends_alnum (p ++ l).
Proof.
  intros (b & q & -> & Hb) (c & m & e & -> & _ & He). exists b, (q ++ c :: m), e. split_and!; [|done..].
  simpl. by rewrite <- app_assoc.
Qed.

Lemma regenerated_ends u protocol : naming_rules u → ends_alnum (chars ("pvc-" +:+ protocol +:+ "-dynamic-" +:+ u)).
Proof.
  intros H%naming_rules_ends. rewrite !str_app_assoc, chars_app. apply ends_alnum_app; [|done].
  rewrite !chars_app. simpl. by eexists _, _.
Qed.

(** Building the rules back from the shape of the bytes. *)
Lemma naming_rules_intro s :
  ends_alnum (chars s) → 3 ≤ slen s ≤ 63 → Forall (λ c, name_char c = true) (chars s) → no_run2 (chars s) → naming_rules s.
Proof.
  intros (b & m & e & E & Hb & He) Hl Hc Hr. apply regex_naming_rules; [|by apply Contains_dashes_false].
  apply containerNameRegex_spec. exists b, m, e. rewrite <- length_chars, E in Hl. simpl in Hl.
  rewrite length_app in Hl. simpl in Hl. rewrite E, Forall_cons, Forall_app in Hc. destruct Hc as (_ & Hm & _).
  split_and!; [done..|lia|lia|done].
Qed.

(** The candidate before dashes are collapsed: the truncated lower case name, or a regenerated name. *)
Definition candidate (newUUID v protocol s : string) : Prop :=
  (s = str_take 63 (ToLower v) ∨ s = "pvc-" +:+ protocol +:+ "-dynamic-" +:+ newUUID) ∧
  ends_alnum (chars s) ∧ 3 ≤ slen s ≤ 63.

Lemma str_take_all n s : slen s ≤ n → str_take n s = s.
Proof. intros H. apply (inj chars). rewrite chars_str_take. apply take_ge. by rewrite length_chars. Qed.

Lemma cut_name_take v : cut_name v = Some (str_take 63 (ToLower v)).
Proof.
  unfold cut_name, containerNameMaxLength. destruct (Nat.ltb_spec 63 (slen (ToLower v))).
  - apply slice_to_Some. split; [lia|]. by rewrite Nat2Z.id.
  - by rewrite str_take_all.
Qed.

Lemma getValidContainerName_candidate u v protocol :
  uuid_string u → slen protocol ≤ 14 → ToLower v ≠ "" →
  ∃ s, candidate u v protocol s ∧ getValidContainerName u v protocol = Some (ReplaceAll s "--" "-").
Proof.
  intros [Hu Hr] Hp Hv. unfold getValidContainerName. rewrite cut_name_take. cbn [mbind option_bind]. set (t := str_take 63 (ToLower v)).
  assert (slen t = min 63 (slen (ToLower v))) as Ht by apply slen_str_take.
  assert (t ≠ "") as Hne by (intros E; destruct (ToLower v); [done|]; by rewrite E in Ht).
  destruct (checkBeginAndEnd_total t Hne) as [ok E]. unfold regenerated, containerNameMinLength. rewrite E. cbn [mbind option_bind].
  destruct (negb ok || (slen t <? 3)) eqn:Eb.
  - change (Sprintf "pvc-%s" [protocol]) with ("pvc-" +:+ protocol +:+ ""). rewrite str_app_nil_r.
    rewrite generateVolumeName_fits by (rewrite slen_app, Hu; simpl; lia).
    exists ("pvc-" +:+ protocol +:+ "-dynamic-" +:+ u). split; [|by rewrite !str_app_assoc].
    split; [by right|]. split; [by apply regenerated_ends|].
    rewrite !slen_app, Hu. simpl. lia.
  - exists t. split; [|done]. bools. subst. rewrite Nat.ltb_ge in *. split; [by left|].
    split; [apply checkBeginAndEnd_true; [lia|done]|lia].
Qed.

Lemma name_char_not_dash_head u : naming_rules u → head (chars u) ≠ Some "-"%char.
Proof. intros [(c & Hc & Ha) _ _ _]. rewrite head_lookup, Hc. intros [= ->]. done. Qed.

Ltac peel_char :=
  apply no_run3_cons;
  [first [ left; discriminate | right; left; first [discriminate|assumption] | right; right; first [discriminate|assumption] ]|].

Lemma regenerated_no_run3 u protocol :
  naming_rules u → isSupportedProtocol protocol = true → no_run3 (chars ("pvc-" +:+ protocol +:+ "-dynamic-" +:+ u)).
Proof.
  intros Hu Hp%isSupportedProtocol_cases. pose proof (name_char_not_dash_head u Hu) as Hh.
  rewrite head_lookup in Hh. apply naming_rules_no_run2, no_run3_of_no_run2 in Hu.
  rewrite !elem_of_cons in Hp.
  destruct Hp as [->|[->|[->|[->|[->|[->|Hp%not_elem_of_nil]]]]]]; [..|done];
    simpl; repeat peel_char; exact Hu.
Qed.

Lemma regenerated_name_chars u protocol :
  naming_rules u → isSupportedProtocol protocol = true →
  Forall (λ c, name_char c = true) (chars ("pvc-" +:+ protocol +:+ "-dynamic-" +:+ u)).
Proof.
  intros [_ Hc _ _] Hp%isSupportedProtocol_cases. rewrite !chars_app, !Forall_app. split_and!; [by repeat constructor| |by repeat constructor|done].
  rewrite !elem_of_cons in Hp.
  by destruct Hp as [->|[->|[->|[->|[->|[->|Hp%not_elem_of_nil]]]]]]; [repeat constructor..|].
Qed.

Lemma supported_protocol_length protocol : isSupportedProtocol protocol = true → slen protocol ≤ 14.
Proof.
  intros Hp%isSupportedProtocol_cases. rewrite !elem_of_cons in Hp.
  destruct Hp as [->|[->|[->|[->|[->|[->|Hp%not_elem_of_nil]]]]]]; [simpl; lia..|done].
Qed.

(** ** Properties *)

(** C37 - ValidateContainerName accepts a nonempty name exactly when it obeys the naming rules of Azure Blob Storage:
    begins with a letter or digit, holds only lower case letters, digits and dashes, every dash preceded and followed by
    a letter or digit, 3 to 63 bytes. *)
Theorem ValidateContainerName_rules s : ValidateContainerName s = Ok () ↔ s = "" ∨ naming_rules s.
Proof.
  unfold ValidateContainerName. destruct (decide (s = "")) as [->|Hs]; [by split; [left|]|].
  destruct (MatchString containerNameRegex s) eqn:E; simpl.
  - destruct (Contains s "--") eqn:Ec.
    + split; [done|]. intros [?|[_ _ Hd _]]; [done|].
      apply Contains_dashes in Ec as (i & Hi & Hj). destruct (Hd i Hi) as (? & e & _ & _ & He & _ & Hee).
      rewrite Hj in He. by simplify_eq.
    + split; [right; by apply regex_naming_rules|done].
  - split; [done|]. intros [?|?%naming_rules_regex]; [done|congruence].
Qed.

(** C38 - For a supported protocol, getValidContainerName turns any nonempty volume name into a name of 3 to 63 bytes that
    begins and ends with a lower case letter or digit; when the lower case volume name holds only letters, digits and
    dashes, never three dashes in a row, the result is accepted by ValidateContainerName. *)
Theorem getValidContainerName_spec u v protocol :
  uuid_string u → isSupportedProtocol protocol = true → ToLower v ≠ "" →
  ∃ r, getValidContainerName u v protocol = Some r ∧ ends_alnum (chars r) ∧ 3 ≤ slen r ≤ 63 ∧
       (Forall (λ c, name_char c = true) (chars (ToLower v)) → no_run3 (chars (ToLower v)) →
        ValidateContainerName r = Ok ()).
Proof.
  intros [Hl Hu] Hp Hv.
  destruct (getValidContainerName_candidate u v protocol) as (s & (Hs & He & Hsl) & ->);
    [done|by apply supported_protocol_length|done|].
  rewrite <- length_chars in Hsl. destruct (collapse_ends _ He Hsl) as [Hce Hcl].
  exists (ReplaceAll s "--" "-"). rewrite <- length_chars, chars_ReplaceAll_dashes.
  split_and!; [done|done|lia|lia|]. intros Hc H3. apply ValidateContainerName_rules. right.
  assert (Forall (λ c, name_char c = true) (chars s) ∧ no_run3 (chars s)) as [Hsc Hs3].
  { destruct Hs as [->| ->].
    - rewrite chars_str_take. split; [by apply Forall_take|by apply no_run3_take].
    - split; [by apply regenerated_name_chars|by apply regenerated_no_run3]. }
  apply naming_rules_intro; rewrite <- ?length_chars, ?chars_ReplaceAll_dashes; auto using collapse_Forall, collapse_no_run.
Qed.

Definition example_uuid : string := "0ab1cdef-0123-4567-89ab-0123456789ab".

Lemma example_uuid_ok : uuid_string example_uuid.
Proof. split; [done|]. apply regex_naming_rules; vm_compute; reflexivity. Qed.

Lemma getValidContainerName_spec_witness :
  ∃ r, getValidContainerName example_uuid "PVC--Data" "fuse2" = Some r ∧ ends_alnum (chars r) ∧ 3 ≤ slen r ≤ 63 ∧
       (Forall (λ c, name_char c = true) (chars (ToLower "PVC--Data")) → no_run3 (chars (ToLower "PVC--Data")) →
        ValidateContainerName r = Ok ()).
Proof. apply getValidContainerName_spec; [exact example_uuid_ok|reflexivity|vm_compute; discriminate]. Defined.

(** The replacement of double dashes is one left to right pass: a volume name with three dashes in a row gives a
    container name that still has two in a row, which ValidateContainerName rejects. *)
Theorem getValidContainerName_triple_dash u protocol :
  getValidContainerName u "a---b" protocol = Some "a--b" ∧ ValidateContainerName "a--b" ≠ Ok () ∧
  ¬ naming_rules "a--b".
Proof.
  split; [reflexivity|]. split; [by vm_compute|].
  intros [_ _ Hd _]. destruct (Hd 1) as (? & e & _ & _ & He & _ & Ha); [done|]. simpl in He. by simplify_eq.
Qed.
