(* ===== verification/MountOptions.v ===== *)
(** * MountOptions: the mount option pipeline of pkg/blob/blob.go

    Tokenizing and sanitizing the mountOptions attribute of an inline volume, the driver's own defaults, the fallback from
    the distributed cache to the local block cache, and the command line that the options become.  [JoinMountOptions] is
    k8s.io/kubernetes/pkg/volume/util. *)
From S2P Require Import Prelude GoUnicode GoStrings GoErr Regex Fields Attributes Util.
From stdpp Require Import options.

(** ** Tokenizing *)

(** The loop over the comma separated parts; [return] with the offending token alone. *)
Fixpoint comma_tokens (tokens parts : list string) : list string :=
  match parts with
  | [] => tokens
  | t :: parts =>
    let t := TrimSpace t in
    if decide (t = "") then comma_tokens tokens parts
    else if HasPrefix t "-o " then
      if HasSpace (str_drop 3 t) then [t] else comma_tokens (tokens ++ [t]) parts
    else if HasSpace t then [t]
    else comma_tokens (tokens ++ [t]) parts
  end.

(** The loop over the fields: "-o" takes the next field with it. *)
Fixpoint space_tokens (fields : list string) : list string :=
  match fields with
  | [] => []
  | x :: fields' =>
    match fields' with
    | [] => [x]
    | y :: fields'' => if decide (x = "-o") then ("-o " +:+ y) :: space_tokens fields'' else x :: space_tokens fields'
    end
  end.

Definition tokenizeMountOptionsString (s : string) : list string :=
  let s := TrimSpace s in
  if decide (s = "") then []
  else if Contains s "," then comma_tokens [] (Split s ",")
  else space_tokens (Fields s).

(** ** Sanitizing *)

(** [^[a-zA-Z0-9._/-]+$] and [^[a-zA-Z0-9._/*?-]+$] *)
Definition path_char (c : ascii) : bool :=
  let b := byte_val c in
  in_range 97 122 b || in_range 65 90 b || in_range 48 57 b || N.eqb b 46 || N.eqb b 95 || N.eqb b 47 || N.eqb b 45.
Definition filter_char (c : ascii) : bool := path_char c || Ascii.eqb c "*" || Ascii.eqb c "?".
Definition subdirectoryRegex : regex := Plus (Cls path_char).
Definition filterRegex : regex := Plus (Cls filter_char).

Definition member (k : string) (l : list string) : bool := bool_decide (k ∈ l).

(** The checks on the value of an allowed flag. *)
Definition check_flag_value (flagName flagValue : string) : result () :=
  if decide (flagName = "--block-cache-parallelism" ∨ flagName = "--distributed-cache-parallelism") then
    match ParseUint flagValue 10 32 with
    | Some parallelism =>
      guard_err (N.eqb parallelism 0 || (N.of_nat maxInlineBlockCacheParallelism <? parallelism)%N)
        (errorf "mount option %s must be between 1 and %d for ephemeral volumes" [flagName; pretty maxInlineBlockCacheParallelism])
    | None => Err (errorf "mount option %s must be between 1 and %d for ephemeral volumes" [flagName; pretty maxInlineBlockCacheParallelism])
    end
  else if decide (flagName = "--log-level") then
    guard_err (negb (member flagValue allowedLogLevels))
      (errorf "mount option --log-level has invalid value %q: allowed values are LOG_OFF, LOG_CRIT, LOG_ERR, LOG_WARNING, LOG_INFO, LOG_TRACE, LOG_DEBUG" [flagValue])
  else if decide (flagName = "--log-type") then
    guard_err (negb (member flagValue allowedLogTypes))
      (errorf "mount option --log-type has invalid value %q: allowed values are silent, syslog, base" [flagValue])
  else if decide (flagName = "--subdirectory") then
    guard_err (negb (MatchString subdirectoryRegex flagValue))
      (errorf "mount option --subdirectory has invalid value %q: only alphanumerics, hyphens, underscores, dots, and slashes are permitted" [flagValue])
  else if decide (flagName = "--filter") then
    guard_err (negb (MatchString filterRegex flagValue))
      (errorf "mount option --filter has invalid value %q: only alphanumerics, hyphens, underscores, dots, slashes, and glob wildcards (* ?) are permitted" [flagValue])
  else Ok ().

(** A FUSE passthrough token "-o value". *)
Definition check_passthrough (trimmed : string) : result () :=
  let rest := TrimSpace (str_drop 3 trimmed) in
  _ ← guard_err (HasSpace rest) (errorf "mount option %q: FUSE -o options must not contain whitespace" [trimmed]);
  guard_err (HasPrefix rest "-") (errorf "mount option %q: -o values must be FUSE options, not CLI flags" [trimmed]).

(** A blobfuse2 flag, with or without a value. *)
Definition check_flag (trimmed : string) : result () :=
  let parts := SplitN2 trimmed "=" in
  let flagName := default "" (parts !! 0) in
  let flagValue := default "" (parts !! 1) in
  _ ← guard_err (bool_decide (flagName = "--preload"))
        (errorf "mount option --preload is not supported for inline volumes; use a StorageClass-based persistent volume instead" []);
  _ ← guard_err (negb (member flagName allowedEphemeralMountOptions))
        (errorf "mount option %q is not allowed for ephemeral volumes" [flagName]);
  _ ← guard_err ((bool_decide (flagName = "--block-cache-parallelism") && negb (length parts =? 2))
                 || (bool_decide (flagName = "--distributed-cache-parallelism")
                     && (negb (length parts =? 2) || bool_decide (flagValue = ""))))
        (errorf "mount option %s requires a value" [flagName]);
  if length parts =? 2 then
    _ ← guard_err (HasSpace flagValue) (errorf "mount option %q: value must not contain whitespace" [trimmed]);
    check_flag_value flagName flagValue
  else Ok ().

(** One iteration of SanitizeMountOptions: the option is skipped, rejected or kept. *)
Definition sanitize_option (opt : string) : result (option string) :=
  let trimmed := TrimSpace opt in
  if decide (trimmed = "") then Ok None
  else if decide (trimmed = "-o") then Err (errorf "mount option %q requires a FUSE option value" ["-o"])
  else if HasPrefix trimmed "-o " then _ ← check_passthrough trimmed; Ok (Some trimmed)
  else _ ← check_flag trimmed; Ok (Some trimmed).

Fixpoint SanitizeMountOptions (mountOptions : list string) : result (list string) :=
  match mountOptions with
  | [] => Ok []
  | opt :: mountOptions =>
    kept ← sanitize_option opt;
    sanitized ← SanitizeMountOptions mountOptions;
    Ok (option_list kept ++ sanitized)
  end.

(** ValidateMountArgValues. *)
Fixpoint ValidateMountArgValues (mountOptions : list string) : option error :=
  match mountOptions with
  | [] => None
  | opt :: mountOptions =>
    match SplitN2 (TrimSpace opt) "=" with
    | [name; value] =>
      if HasSpace value then Some (errorf "mount option %q has an invalid value: whitespace is not permitted" [name])
      else ValidateMountArgValues mountOptions
    | _ => ValidateMountArgValues mountOptions
    end
  end.

(** ** Joining *)

(** The order of Go strings, byte by byte. *)
Definition str_le (a b : string) : Prop := Stdlib.Strings.String.leb a b = true.

#[export] Instance str_le_dec a b : Decision (str_le a b).
Proof. unfold str_le. apply _. Defined.

(** JoinMountOptions: the set of the nonempty user options and the system options, sorted. *)
Definition JoinMountOptions (userOptions systemOptions : list string) : list string :=
  let allMountOptions : gset string := list_to_set (filter (λ o, o ≠ "") userOptions) ∪ list_to_set systemOptions in
  merge_sort str_le (elements allMountOptions).

(** ** Defaults *)

(** [strings.Cut(strings.TrimSpace(mountOption), "=")], first component. *)
Definition flag_name (mountOption : string) : string := (Cut (TrimSpace mountOption) "=").1.1.

Section defaults.
Context `{RangeOrder}.

Definition default_mount_options (tmpPath containerName : string) : strmap :=
  list_to_map [("--pre-mount-validate", "true"); ("--use-https", "true"); ("--tmp-path", tmpPath);
               ("--container-name", containerName); ("--cancel-list-on-mount-seconds", "10"); ("--empty-dir-check", "false")].

(** What the first loop of appendDefaultMountOptions collects. *)
Record scan := { sc_included : gset string; sc_enabled : bool; sc_dns : bool }.

Definition scan_option (site : nat) (defaults : strmap) (sc : scan) (mountOption : string) : scan :=
  let flagName := flag_name mountOption in
  {| sc_included := foldl (λ inc kv, if HasPrefix mountOption kv.1 then {[ kv.1 ]} ∪ inc else inc) (sc_included sc) (range site defaults);
     sc_enabled := bool_decide (flagName = "--distributed-cache-discovery-endpoint") || sc_enabled sc;
     sc_dns := bool_decide (flagName = "--distributed-cache-dns-server") || sc_dns sc |}.

Definition scan_options (site : nat) (defaults : strmap) (mountOptions : list string) : scan :=
  foldl (scan_option site defaults) {| sc_included := ∅; sc_enabled := false; sc_dns := false |} mountOptions.

(** The map and the set that the last loop reads. *)
Definition defaults_and_included (site : nat) (mountOptions : list string) (tmpPath containerName : string) : strmap * gset string :=
  let defaults := default_mount_options tmpPath containerName in
  let sc := scan_options site defaults mountOptions in
  if sc_enabled sc then
    (<["--distributed-cache-dns-server" := defaultDistributedCacheDNSServer]> defaults,
     (if sc_dns sc then {[ "--distributed-cache-dns-server" ]} else ∅)
       ∪ ({[ "--empty-dir-check" ]} ∪ ({[ "--tmp-path" ]} ∪ sc_included sc)))
  else (defaults, sc_included sc).

Definition appendDefaultMountOptions (site : nat) (mountOptions : list string) (tmpPath containerName : string) : list string :=
  let '(defaults, included) := defaults_and_included site mountOptions tmpPath containerName in
  foldl (λ allMountOptions kv,
    if bool_decide (kv.1 ∈ included) then allMountOptions
    else if decide (kv.2 = "") then allMountOptions
    else allMountOptions ++ [Sprintf "%s=%s" [kv.1; kv.2]]) mountOptions (range (S site) defaults).
End defaults.

(** ** The distributed cache and its fallback *)

Definition is_distributed (flagName : string) : bool := HasPrefix flagName "--distributed-cache-".

Definition hasDistributedCacheMountOptions (mountOptions : list string) : bool :=
  existsb (λ o, is_distributed (flag_name o)) mountOptions.

(** A map literal that the code only looks up. *)
Definition distributedToBlockCacheOptions : list (string * string) :=
  [("--distributed-cache-block-size", "--block-cache-block-size");
   ("--distributed-cache-node-memory", "--block-cache-pool-size");
   ("--distributed-cache-prefetch", "--block-cache-prefetch");
   ("--distributed-cache-parallelism", "--block-cache-parallelism")].

Definition translate_flag (flagName : string) : option string :=
  snd <$> find_first (λ kv, bool_decide (kv.1 = flagName)) distributedToBlockCacheOptions.

(** The state of the second loop of fallbackToLocalBlockCache. *)
Record fallback := { fb_local : gset string; fb_options : list string; fb_enabled : bool }.

Definition fallback_step (st : fallback) (mountOption : string) : fallback :=
  let '(flagName, value, hasValue) := Cut (TrimSpace mountOption) "=" in
  if decide (flagName = "--block-cache") then
    if fb_enabled st then st
    else {| fb_local := fb_local st; fb_options := fb_options st ++ ["--block-cache=true"]; fb_enabled := true |}
  else if negb (is_distributed flagName) then
    {| fb_local := fb_local st; fb_options := fb_options st ++ [mountOption]; fb_enabled := fb_enabled st |}
  else
    match translate_flag flagName with
    | Some localFlag =>
      if hasValue && negb (bool_decide (value = "")) && negb (bool_decide (localFlag ∈ fb_local st)) then
        {| fb_local := {[ localFlag ]} ∪ fb_local st; fb_options := fb_options st ++ [localFlag +:+ "=" +:+ value];
           fb_enabled := fb_enabled st |}
      else st
    | None => st
    end.

Definition local_flags (mountOptions : list string) : gset string :=
  list_to_set (filter (λ f, is_distributed f = false) (flag_name <$> mountOptions)).

Definition fallbackToLocalBlockCache (mountOptions : list string) : list string :=
  let st := foldl fallback_step {| fb_local := local_flags mountOptions; fb_options := []; fb_enabled := false |} mountOptions in
  if fb_enabled st then fb_options st else fb_options st ++ ["--block-cache=true"].

(** ** Command lines *)

Definition checkGidPresentInMountFlags (mountFlags : list string) : bool := existsb (λ f, Contains f "gid=") mountFlags.

(** The args string that NodeStageVolume hands to a mount. *)
Definition mount_args (targetPath : string) (mountOptions : list string) : string :=
  foldl (λ args opt, args +:+ " " +:+ opt) targetPath mountOptions.

(** The argument vectors of the blobfuse2 and blobfuse processes that mountBlobfuseInsideDriver starts; the proxy appends
    flags of its own to blobfuse2's ([proxy_command]). *)
Definition blobfuse2_argv (args : string) : list string := Split ("mount " +:+ TrimDuplicatedSpace args) " ".
Definition blobfuse_argv (args : string) : list string := Split (TrimDuplicatedSpace args) " ".

(** ** The options of one mount, as NodeStageVolume assembles them *)

(** From the sanitizing of the inline options to the gid option. *)
Definition stage_options (ephemeralVol isHnsEnabled : bool) (ephemeralVolMountOptions volumeMountGroup : string)
    (mountFlags : list string) : result (list string) :=
  mountOptions ←
    (if ephemeralVol then
       match SanitizeMountOptions (tokenizeMountOptionsString ephemeralVolMountOptions) with
       | Err e => Err (status_errorf InvalidArgument "%v" [Error e])
       | Ok sanitized =>
         match ValidateMountArgValues sanitized with
         | Some e => Err (status_errorf InvalidArgument "NodeStageVolume: %v" [Error e])
         | None => Ok (JoinMountOptions mountFlags sanitized)
         end
       end
     else Ok mountFlags);
  let mountOptions := if isHnsEnabled : bool then JoinMountOptions mountOptions ["--use-adls=true"] else mountOptions in
  if negb (checkGidPresentInMountFlags mountFlags) && negb (bool_decide (volumeMountGroup = "")) then
    match ParseUint volumeMountGroup 10 32 with
    | None => Err (status_errorf InvalidArgument "invalid volumeMountGroup %q: must be an unsigned 32-bit integer (POSIX GID)" [volumeMountGroup])
    | Some _ => Ok (mountOptions ++ [Sprintf "-o gid=%s" [volumeMountGroup]])
    end
  else Ok mountOptions.

(** The distributed cache check, given what the probe answered, and the defaults. *)
Definition finish_options `{RangeOrder} (site : nat) (distributedCacheSupported : bool) (mountOptions : list string)
    (tmpPath containerName : string) : list string :=
  let mountOptions :=
    if hasDistributedCacheMountOptions mountOptions && negb distributedCacheSupported
    then fallbackToLocalBlockCache mountOptions else mountOptions in
  appendDefaultMountOptions site mountOptions tmpPath containerName.

Example tokenize_comma : tokenizeMountOptionsString "--log-level=LOG_WARNING, --cache-size-mb=100 ,-o allow_other" =
  ["--log-level=LOG_WARNING"; "--cache-size-mb=100"; "-o allow_other"].
Proof. vm_compute. reflexivity. Qed.
Example tokenize_space : tokenizeMountOptionsString "-o allow_other  --file-cache-timeout-in-seconds=240 -o" =
  ["-o allow_other"; "--file-cache-timeout-in-seconds=240"; "-o"].
Proof. vm_compute. reflexivity. Qed.
Example sanitize_ex : SanitizeMountOptions ["--tmp-path=/etc"] = Err (Plain ("mount option " +:+ Quote "--tmp-path" +:+ " is not allowed for ephemeral volumes")).
Proof. vm_compute. reflexivity. Qed.
Example join_ex : JoinMountOptions ["b"; ""; "a"; "b"] ["-o ro"] = ["-o ro"; "a"; "b"].
Proof. vm_compute. reflexivity. Qed.
Example append_ex :
  appendDefaultMountOptions (H := canonical_order) 0 ["--use-https=false"; "--distributed-cache-discovery-endpoint=x"] "/mnt/v" "c" ≡ₚ
  ["--use-https=false"; "--distributed-cache-discovery-endpoint=x"; "--pre-mount-validate=true"; "--container-name=c";
   "--cancel-list-on-mount-seconds=10"; "--distributed-cache-dns-server=10.0.0.10"].
Proof. apply (bool_decide_unpack _). vm_compute. exact I. Qed.
Example fallback_ex : fallbackToLocalBlockCache ["--distributed-cache-block-size=16"; "--block-cache"; "--log-level=LOG_OFF"; "--distributed-cache-node-ttl=4"] =
  ["--block-cache-block-size=16"; "--block-cache=true"; "--log-level=LOG_OFF"].
Proof. vm_compute. reflexivity. Qed.
