(* ===== verification/MountSafety.v ===== *)
(** * MountSafety: what the mount option pipeline guarantees

    The options of an inline volume are chosen by its user.  The blobfuse process receives them through one flat string
    that is split on white space, so the properties speak of the resulting argument vector. *)
From S2P Require Import Prelude GoUnicode GoStrings GoErr Regex Fields Attributes Util ContainerNames MountOptions.
From stdpp Require Import options.

(** ** White space at the ends *)

Lemma runes_chunk_cases s ch :
  ch ∈ runes s → (∃ c, ch = ascii_chunk c) ∨ Forall (λ c, (128 ≤ byte_val c)%N) (chars (c_bytes ch)).
Proof.
  apply (runes_ind (λ s l, ch ∈ l → (∃ c, ch = ascii_chunk c) ∨ Forall (λ c, (128 ≤ byte_val c)%N) (chars (c_bytes ch))));
    clear s.
  - by intros ?%not_elem_of_nil.
  - intros c s _ IH [->|H]%elem_of_cons; [by left; exists c|auto].
  - intros c s Hc IH [->|H]%elem_of_cons; [right|auto]. apply N.ltb_ge in Hc. by repeat constructor.
  - intros t r s _ Ht _ IH [->|H]%elem_of_cons; [by right|auto].
Qed.

Lemma drop_while_split {A} (p : A → bool) l : ∃ k, l = k ++ drop_while p l ∧ Forall (λ x, p x = true) k.
Proof.
  induction l as [|x l (k & E & Hk)]; [by exists []|]. simpl. destruct (p x) eqn:Ex; [|by exists []].
  exists (x :: k). split; [simpl; by f_equal|by constructor].
Qed.

Lemma drop_while_end_split {A} (p : A → bool) l : ∃ k, l = drop_while_end p l ++ k ∧ Forall (λ x, p x = true) k.
Proof.
  unfold drop_while_end. destruct (drop_while_split p (reverse l)) as (k & E & Hk).
  exists (reverse k). split; [|by apply Forall_reverse].
  rewrite <- reverse_app, <- E. by rewrite reverse_involutive.
Qed.

(** TrimSpace removes a prefix and a suffix made of white space runes. *)
Lemma TrimSpace_split s :
  ∃ l r, s = chunks_str l +:+ TrimSpace s +:+ chunks_str r ∧
         (∀ ch, ch ∈ l ++ r → space_chunk ch = true ∧ ch ∈ runes s).
Proof.
  unfold TrimSpace.
  destruct (drop_while_split space_chunk (runes s)) as (l & El & Hl).
  destruct (drop_while_end_split space_chunk (drop_while space_chunk (runes s))) as (r & Er & Hr).
  exists l, r. rewrite <- !chunks_str_app, <- Er, <- El, chunks_str_runes. split; [done|].
  rewrite Forall_forall in Hl, Hr. intros ch Hch. rewrite El, Er.
  apply elem_of_app in Hch as [Hch|Hch]; (split; [by auto|]); rewrite !elem_of_app; auto.
Qed.

(** A visible ASCII byte is in no white space rune. *)
Lemma space_chunks_no_ascii s l c :
  (∀ ch, ch ∈ l → space_chunk ch = true ∧ ch ∈ runes s) → (byte_val c < 128)%N → is_space (byte_val c) = false →
  c ∉ chars (chunks_str l).
Proof.
  intros Hl Hc Hs. induction l as [|ch l IH]; [apply not_elem_of_nil|].
  rewrite chunks_str_cons, chars_app, not_elem_of_app. split; [|apply IH; intros; apply Hl; by right].
  destruct (Hl ch) as [Hsp Hin]; [by left|]. apply runes_chunk_cases in Hin as [[d ->]|Hin].
  - simpl. intros ->%list_elem_of_singleton. unfold space_chunk in Hsp. simpl in Hsp. congruence.
  - intros H. rewrite Forall_forall in Hin. specialize (Hin _ H). lia.
Qed.

(** ** Words *)

Definition ends_with_space (a : string) : Prop := ∃ a' c, a = a' +:+ String c "" ∧ re_space c = true.

(** A word starts at the beginning of the text or after a space. *)
Lemma words_go_start cur s w :
  w ∈ words_go cur s → ∃ a b, cur +:+ s = a +:+ w +:+ b ∧ (a = "" ∨ ends_with_space a).
Proof.
  revert cur. induction s as [|c s IH]; intros cur; cbn [words_go].
  - destruct (decide (cur = "")) as [->|]; [by intros ?%not_elem_of_nil|].
    intros ->%list_elem_of_singleton. exists "", "". split; [done|by left].
  - destruct (re_space c) eqn:E.
    + intros [H|H]%elem_of_app.
      * destruct (decide (cur = "")); [by apply not_elem_of_nil in H|]. apply list_elem_of_singleton in H as ->.
        exists "", (String c s). split; [done|by left].
      * apply IH in H as (a & b & Es & Ha). simpl in Es. exists (cur +:+ String c a), b. rewrite Es.
        split; [str_assoc|]. right. destruct Ha as [->|(a' & d & -> & Hd)]; [by exists cur, c|].
        exists (cur +:+ String c a'), d. split; [str_assoc|done].
    + intros H. apply IH in H as (a & b & Es & Ha). exists a, b. split; [|done]. rewrite <- Es. str_assoc.
Qed.

Lemma re_words_start s w : w ∈ re_words s → ∃ a b, s = a +:+ w +:+ b ∧ (a = "" ∨ ends_with_space a).
Proof. apply words_go_start. Qed.

Lemma app_str_cases a c b x y :
  a +:+ String c b = x +:+ y → (∃ k, x = a +:+ String c k ∧ b = k +:+ y) ∨ (∃ k, a = x +:+ k ∧ y = k +:+ String c b).
Proof.
  revert a. induction x as [|d x IH]; intros a E; [by right; exists a|].
  destruct a as [|e a]; simplify_eq/=; [left; by exists x|].
  destruct (IH a) as [(k & -> & ->)|(k & -> & ->)]; [by simplify_eq/=|left|right]; by exists k.
Qed.

Lemma last_char_app x k : k ≠ "" → ends_with_space (x +:+ k) → ends_with_space k.
Proof.
  intros Hk (a & c & E & Hc).
  assert (x +:+ k = a +:+ String c "") as E' by done. clear E.
  symmetry in E'. apply app_str_cases in E' as [(j & -> & E)|(j & -> & ->)]; [|by exists j, c].
  by destruct j, k.
Qed.

(** If trimming leaves a text without white space that does not start with "-", no word of the whole starts with "-". *)
Lemma no_dash_word x w :
  HasSpace (TrimSpace x) = false → HasPrefix (TrimSpace x) "-" = false → w ∈ re_words x → HasPrefix w "-" = false.
Proof.
  intros Hsp Hd Hw. destruct (HasPrefix w "-") eqn:E; [|done]. exfalso.
  apply HasPrefix_spec in E as [t ->]. apply re_words_start in Hw as (a & b & Ex & Ha).
  destruct (TrimSpace_split x) as (l & r & Es & Hlr).
  assert (∀ k, k = l ∨ k = r → "-"%char ∉ chars (chunks_str k)) as Hno.
  { intros k Hk. apply (space_chunks_no_ascii x); [|done|done]. intros ch Hch. apply Hlr, elem_of_app. by destruct Hk as [->| ->]; auto. }
  rewrite Ex in Es at 1. change ("-" +:+ t) with (String "-" t) in Es.
  assert (a +:+ String "-" (t +:+ b) = chunks_str l +:+ TrimSpace x +:+ chunks_str r) as Es2 by (rewrite <- Es; by str_assoc).
  apply app_str_cases in Es2 as [(k & El & _)|(k & -> & E2)].
  { apply (Hno l); [by left|]. rewrite El, chars_app. apply elem_of_app. right. by left. }
  symmetry in E2. apply app_str_cases in E2 as [(j & E3 & _)|(j & -> & E3)].
  - destruct (decide (k = "")) as [->|Hk]; [by rewrite E3 in Hd|].
    destruct Ha as [Ha|Ha]; [destruct k; [done|destruct (chunks_str l); done]|].
    apply last_char_app in Ha as (k' & c & -> & Hc); [|done].
    apply HasSpace_re_space in Hsp. rewrite E3, Forall_forall in Hsp. specialize (Hsp c).
    rewrite !chars_app, !elem_of_app in Hsp. rewrite Hsp in Hc; [done|]. left. right. by left.
  - apply (Hno r); [by right|]. rewrite E3, chars_app. apply elem_of_app. right. by left.
Qed.

Lemma runes_chunk_bytes s ch :
  ch ∈ runes s → c_bytes ch ≠ "" ∧ (space_chunk ch = false → Forall (λ c, re_space c = false) (chars (c_bytes ch))).
Proof.
  assert (∀ c, (128 ≤ byte_val c)%N → re_space c = false) as Hhigh.
  { intros c Hc. unfold re_space. rewrite !orb_false_iff, !N.eqb_neq. lia. }
  apply (runes_ind (λ s l, ch ∈ l → c_bytes ch ≠ "" ∧
    (space_chunk ch = false → Forall (λ c, re_space c = false) (chars (c_bytes ch))))); clear s.
  - by intros ?%not_elem_of_nil.
  - intros c s Hc IH [->|H]%elem_of_cons; [|auto]. split; [done|]. unfold space_chunk. simpl. intros Hs.
    repeat constructor. apply not_true_iff_false. intros E. apply N.ltb_lt in Hc.
    unfold re_space in E. unfold is_space, in_range in Hs.
    repeat (apply orb_true_iff in E as [E|E]); apply N.eqb_eq in E; rewrite E in Hs; discriminate Hs.
  - intros c s Hc IH [->|H]%elem_of_cons; [|auto]. split; [done|]. intros _. apply N.ltb_ge in Hc.
    repeat constructor. auto.
  - intros t r s Ht Hh _ IH [->|H]%elem_of_cons; [|auto]. split; [done|]. intros _. simpl.
    eapply Forall_impl; [exact Hh|]. simpl. auto.
Qed.

Lemma drop_while_head {A} (p : A → bool) l x k : drop_while p l = x :: k → p x = false.
Proof. induction l as [|y l IH]; simpl; [done|]. destruct (p y) eqn:E; [auto|]. by intros [= <- <-]. Qed.

Lemma ends_word_app a b : ends_word b = true → ends_word (a +:+ b) = true.
Proof. intros H. induction a as [|c a IH]; [done|]. simpl. destruct (a +:+ b) eqn:E; [|done]. by destruct a, b. Qed.

Lemma ends_word_suffix a b : b ≠ "" → ends_word (a +:+ b) = ends_word b.
Proof. intros Hb. induction a as [|c a IH]; [done|]. simpl. rewrite IH. by destruct a, b. Qed.

Lemma ends_word_all t : t ≠ "" → Forall (λ c, re_space c = false) (chars t) → ends_word t = true.
Proof.
  induction t as [|c t IH]; intros Hn H; [done|]. inversion H as [|? ? Hc Ht]; subst.
  destruct t as [|d t]; [simpl; by rewrite Hc|]. by apply IH.
Qed.

(** A trimmed text ends with a visible character. *)
Lemma TrimSpace_ends s : TrimSpace s ≠ "" → ends_word (TrimSpace s) = true.
Proof.
  unfold TrimSpace. set (l := drop_while space_chunk (runes s)). intros Hne.
  assert (∀ ch, ch ∈ drop_while_end space_chunk l → ch ∈ runes s) as Hin.
  { intros ch Hch. destruct (drop_while_end_split space_chunk l) as (k & E & _).
    destruct (drop_while_split space_chunk (runes s)) as (k' & E' & _). rewrite E', elem_of_app. right.
    fold l. rewrite E, elem_of_app. by left. }
  unfold drop_while_end in *. destruct (drop_while space_chunk (reverse l)) as [|ch k] eqn:E; [done|].
  apply drop_while_head in E as Hch. rewrite reverse_cons in *.
  destruct (runes_chunk_bytes s ch) as [Hb Hf]; [apply Hin; set_solver|].
  rewrite chunks_str_app. apply ends_word_app. unfold chunks_str. simpl. rewrite str_app_nil_r.
  apply ends_word_all; [done|]. by apply Hf.
Qed.

Lemma words_go_not_nil cur s : cur ≠ "" ∨ ends_word s = true → words_go cur s ≠ [].
Proof.
  revert cur. induction s as [|c s IH]; intros cur H; cbn [words_go].
  - destruct H as [H|H]; [|done]. by destruct (decide (cur = "")).
  - destruct (re_space c) eqn:Ec.
    + destruct (decide (cur = "")) as [->|]; [|done]. simpl. apply IH. right. destruct H as [H|H]; [done|].
      destruct s; simpl in *; [by rewrite Ec in H|done].
    + apply IH. left. by destruct cur.
Qed.

(** ** Tokens *)

Definition not_flag (w : string) : Prop := HasPrefix w "-" = false.
Definition arg_name (w : string) : string := (Cut w "=").1.1.

(** A token that reaches blobfuse2 as "-o" with its values, none of which looks like a flag, or as itself, an allowed
    flag. *)
Definition safe_token (t : string) : Prop :=
  (HasPrefix t "-o " = true ∧ ends_word t = true ∧ ∃ vs, re_words t = "-o" :: vs ∧ vs ≠ [] ∧ Forall not_flag vs) ∨
  (re_words t = [t] ∧ arg_name t ∈ allowedEphemeralMountOptions).

Lemma allowed_no_space k :
  k ∈ allowedEphemeralMountOptions → k ≠ "" ∧ Forall (λ c, re_space c = false) (chars k).
Proof.
  revert k. apply Forall_forall. apply (bool_decide_unpack _). vm_compute. exact I.
Qed.

Lemma check_passthrough_safe x : ends_word x = true → check_passthrough ("-o " +:+ x) = Ok () → safe_token ("-o " +:+ x).
Proof.
  unfold check_passthrough. intros Hx H. inv_ok. left. split; [apply HasPrefix_app|]. split; [by apply ends_word_app|]. exists (re_words x).
  change ("-o " +:+ x) with ("-o" +:+ " " +:+ x). rewrite re_words_app. split_and!; [done| |].
  - apply words_go_not_nil. by right.
  - apply Forall_forall. intros w Hw. eapply no_dash_word; [done|done|exact Hw].
Qed.

Lemma SplitN2_arg_name t : default "" (SplitN2 t "=" !! 0) = arg_name t.
Proof. unfold SplitN2, arg_name, Cut. by destruct (cut_at t "=") as [[a b]|]. Qed.

Lemma check_flag_safe t : check_flag t = Ok () → re_words t = [t] ∧ arg_name t ∈ allowedEphemeralMountOptions.
Proof.
  unfold check_flag. rewrite SplitN2_arg_name. intros H.
  apply bind_Ok in H as (? & _ & H). apply bind_Ok in H as (? & Ha & H). apply bind_Ok in H as (? & _ & H).
  apply guard_err_Ok, negb_false_iff, bool_decide_eq_true in Ha. split; [|done].
  destruct (allowed_no_space _ Ha) as [Hne Hc]. unfold arg_name, Cut, SplitN2 in *.
  destruct (cut_at t "=") as [[a b]|] eqn:E; simpl in *.
  - apply cut_at_Some in E as ->. apply bind_Ok in H as (? & Hv & _). apply guard_err_Ok, HasSpace_re_space in Hv.
    apply re_words_single; [by destruct a|]. rewrite !chars_app, !Forall_app. split_and!; [done|by repeat constructor|done].
  - by apply re_words_single.
Qed.

Lemma sanitize_option_safe opt t : sanitize_option opt = Ok (Some t) → safe_token t ∧ t = TrimSpace opt.
Proof.
  unfold sanitize_option. destruct (decide _) as [|Hne]; [done|]. destruct (decide _); [done|].
  pose proof (TrimSpace_ends opt Hne) as He.
  destruct (HasPrefix (TrimSpace opt) "-o ") eqn:Hp; intros H; apply bind_Ok in H as ([] & Hc & [= <-]); (split; [|done]).
  - apply HasPrefix_spec in Hp as [x Ex]. rewrite Ex in *. apply check_passthrough_safe; [|done].
    by destruct x.
  - right. by apply check_flag_safe.
Qed.

Lemma SanitizeMountOptions_safe opts r : SanitizeMountOptions opts = Ok r → Forall safe_token r.
Proof.
  revert r. induction opts as [|opt opts IH]; intros r H; simpl in H; [by injection H as <-|].
  apply bind_Ok in H as (kept & Hk & H). apply bind_Ok in H as (sanitized & Hs & [= <-]).
  apply Forall_app. split; [|by apply IH]. destruct kept as [t|]; [|constructor].
  constructor; [by apply (sanitize_option_safe opt)|constructor].
Qed.

(** ** Joining *)

Lemma elem_of_JoinMountOptions x user system :
  x ∈ JoinMountOptions user system ↔ (x ∈ user ∧ x ≠ "") ∨ x ∈ system.
Proof.
  unfold JoinMountOptions. rewrite merge_sort_Permutation, elem_of_elements, elem_of_union, !elem_of_list_to_set.
  rewrite list_elem_of_filter. tauto.
Qed.

Lemma JoinMountOptions_Forall (P : string → Prop) user system :
  Forall P user → Forall P system → Forall P (JoinMountOptions user system).
Proof. rewrite !Forall_forall. intros Hu Hs x [[? _]|?]%elem_of_JoinMountOptions; auto. Qed.

#[export] Instance str_le_total : Total str_le.
Proof.
  intros a b. unfold str_le, Stdlib.Strings.String.leb. rewrite (Stdlib.Strings.String.compare_antisym b a).
  destruct (Stdlib.Strings.String.compare a b); simpl; auto.
Qed.

Lemma JoinMountOptions_NoDup user system : NoDup (JoinMountOptions user system).
Proof. unfold JoinMountOptions. rewrite merge_sort_Permutation. apply NoDup_elements. Qed.

(** ** Fallback *)

Lemma translate_flag_cases f g :
  translate_flag f = Some g → g ∈ ["--block-cache-block-size"; "--block-cache-pool-size"; "--block-cache-prefetch"; "--block-cache-parallelism"].
Proof.
  unfold translate_flag. intros (kv & Hf & ->)%fmap_Some. apply find_first_Some in Hf as [Hin _].
  revert kv Hin. apply Forall_forall. apply (bool_decide_unpack _). vm_compute. exact I.
Qed.

(** One step keeps the option, drops it, or replaces it by a local block cache option that takes its value. *)
Definition fallback_out (o x : string) : Prop :=
  x = "--block-cache=true" ∨ (x = o ∧ is_distributed (flag_name o) = false) ∨
  (∃ f g v, Cut (TrimSpace o) "=" = (f, v, true) ∧ v ≠ "" ∧ translate_flag f = Some g ∧ x = g +:+ "=" +:+ v).

Lemma fallback_step_out st o x :
  x ∈ fb_options (fallback_step st o) → x ∈ fb_options st ∨ fallback_out o x.
Proof.
  unfold fallback_step. destruct (Cut _ "=") as [[f v] hv] eqn:E. unfold fallback_out, flag_name. rewrite E. simpl.
  destruct (decide (f = "--block-cache")) as [->|].
  { destruct (fb_enabled st); simpl; [auto|]. intros [?| ->%list_elem_of_singleton]%elem_of_app; auto. }
  destruct (is_distributed f) eqn:Ed; simpl.
  - destruct (translate_flag f) as [g|] eqn:Et; [|auto].
    destruct (_ && _)%bool eqn:Eb; simpl; [|auto]. bools.
    intros [?| ->%list_elem_of_singleton]%elem_of_app; [auto|]. destruct hv; [|done].
    right. right. right. exists f, g, v. auto.
  - intros [?| ->%list_elem_of_singleton]%elem_of_app; auto.
Qed.

Lemma fallback_foldl_out st os x :
  x ∈ fb_options (foldl fallback_step st os) → x ∈ fb_options st ∨ ∃ o, o ∈ os ∧ fallback_out o x.
Proof.
  revert st. induction os as [|o os IH]; intros st Hx; simpl in *; [by left|].
  apply IH in Hx as [Hx|(o' & ? & ?)]; [|right; exists o'; split; [by right|done]].
  apply fallback_step_out in Hx as [?|?]; [by left|]. right. exists o. split; [by left|done].
Qed.

Lemma fallback_elem os x :
  x ∈ fallbackToLocalBlockCache os → x = "--block-cache=true" ∨ ∃ o, o ∈ os ∧ fallback_out o x.
Proof.
  unfold fallbackToLocalBlockCache. intros Hx.
  assert (x ∈ fb_options (foldl fallback_step {| fb_local := local_flags os; fb_options := []; fb_enabled := false |} os)
          ∨ x = "--block-cache=true") as [H| ->]; [|apply fallback_foldl_out in H as [H%not_elem_of_nil|?]; [done|auto]|auto].
  destruct (fb_enabled _); [by left|]. apply elem_of_app in Hx as [?|?%list_elem_of_singleton]; auto.
Qed.

Lemma TrimSpace_no_space t : t ≠ "" → HasSpace t = false → TrimSpace t = t.
Proof.
  intros _ H. unfold TrimSpace. apply existsb_false_Forall in H.
  assert (∀ l, Forall (λ ch, space_chunk ch = false) l → drop_while space_chunk l = l) as Hd.
  { intros l Hl. destruct Hl as [|c l Hc _]; [done|]. simpl. by rewrite Hc. }
  rewrite Hd by done. unfold drop_while_end. rewrite Hd by by apply Forall_reverse.
  by rewrite reverse_involutive, chunks_str_runes.
Qed.

(** A passthrough token keeps its "-o" through trimming and cutting. *)
Lemma flag_name_passthrough x : HasPrefix (flag_name ("-o " +:+ x)) "-o" = true.
Proof.
  unfold flag_name. set (t := "-o " +:+ x). destruct (TrimSpace_split t) as (l & r & E & Hlr).
  assert (∀ k c, (k = l ∨ k = r) → (c = "-"%char ∨ c = "o"%char) → c ∉ chars (chunks_str k)) as Hno.
  { intros k c Hk Hc. apply (space_chunks_no_ascii t); [|by destruct Hc as [->| ->]..].
    intros ch Hch. apply Hlr, elem_of_app. by destruct Hk as [->| ->]; auto. }
  destruct (chunks_str l) as [|d l'] eqn:El.
  2: { unfold t in E. simpl in E. injection E as <- _. destruct (Hno l "-"%char); [auto..|]. rewrite El. by left. }
  simpl in E. destruct (TrimSpace t) as [|d T].
  { simpl in E. destruct (Hno r "-"%char); [auto..|]. rewrite <- E. unfold t. by left. }
  unfold t in E. simpl in E. injection E as <- E. destruct T as [|e T].
  { simpl in E. destruct (Hno r "o"%char); [auto..|]. rewrite <- E. by left. }
  simpl in E. injection E as <- E. unfold Cut.
  change (cut_at (String "-" (String "o" T)) "=") with
    ((λ ab, (String "-" ab.1, ab.2)) <$> ((λ ab, (String "o" ab.1, ab.2)) <$> cut_at T "=")).
  by destruct (cut_at T "=") as [[a b]|]; destruct T.
Qed.

Lemma translate_flag_distributed f g : translate_flag f = Some g → is_distributed f = true.
Proof.
  unfold translate_flag. intros (kv & Hf & ->)%fmap_Some. apply find_first_Some in Hf as [Hin <-%bool_decide_eq_true].
  revert kv Hin. apply Forall_forall. apply (bool_decide_unpack _). vm_compute. exact I.
Qed.

Lemma words_go_no_space cur s w :
  Forall (λ c, re_space c = false) (chars cur) → w ∈ words_go cur s → Forall (λ c, re_space c = false) (chars w).
Proof.
  revert cur. induction s as [|c s IH]; intros cur Hc; cbn [words_go].
  - destruct (decide (cur = "")); [by intros ?%not_elem_of_nil|]. by intros ->%list_elem_of_singleton.
  - destruct (re_space c) eqn:E.
    + intros [H|H]%elem_of_app; [|by apply (IH ""); [constructor|]].
      destruct (decide (cur = "")); [by apply not_elem_of_nil in H|]. by apply list_elem_of_singleton in H as ->.
    + apply IH. rewrite chars_app, Forall_app. split; [done|by repeat constructor].
Qed.

Lemma re_words_no_space s w : w ∈ re_words s → Forall (λ c, re_space c = false) (chars w).
Proof. apply words_go_no_space. constructor. Qed.

Lemma allowed_name_Cut g v : g ∈ allowedEphemeralMountOptions → arg_name (g +:+ "=" +:+ v) = g.
Proof.
  intros H. unfold arg_name, Cut. change (g +:+ "=" +:+ v) with (g +:+ String "=" v). rewrite cut_at_char_app; [done|].
  revert g H. apply Forall_forall. apply (bool_decide_unpack _). vm_compute. exact I.
Qed.

Lemma flag_with_value_safe g v :
  g ∈ allowedEphemeralMountOptions → Forall (λ c, re_space c = false) (chars v) → safe_token (g +:+ "=" +:+ v).
Proof.
  intros Hg Hv. right. split; [|by rewrite allowed_name_Cut]. destruct (allowed_no_space g Hg) as [Hne Hc].
  apply re_words_single; [by destruct g|]. rewrite !chars_app, !Forall_app. split_and!; [done|by repeat constructor|done].
Qed.

Lemma Cut_value_no_space o f v :
  Forall (λ c, re_space c = false) (chars o) → Cut (TrimSpace o) "=" = (f, v, true) →
  Forall (λ c, re_space c = false) (chars v).
Proof.
  intros Ho. unfold Cut. destruct (cut_at _ _) as [[a b]|] eqn:E; intros [= <- <-].
  apply cut_at_Some in E. destruct (TrimSpace_split o) as (l & r & Eo & _).
  rewrite Eo, E, !chars_app, !Forall_app in Ho. tauto.
Qed.

Lemma block_cache_safe : safe_token "--block-cache=true".
Proof. apply (flag_with_value_safe "--block-cache" "true"); [|by repeat constructor]. apply (bool_decide_unpack _). vm_compute. exact I. Qed.

Lemma translated_safe o f v g :
  safe_token o → Cut (TrimSpace o) "=" = (f, v, true) → translate_flag f = Some g → safe_token (g +:+ "=" +:+ v).
Proof.
  intros [[Hp _]|[Hw _]] E Ht.
  - apply HasPrefix_spec in Hp as [y ->]. pose proof (flag_name_passthrough y) as Hf.
    unfold flag_name in Hf. rewrite E in Hf. apply translate_flag_distributed in Ht. cbn [fst] in Hf.
    apply HasPrefix_spec in Hf as [a ->]. apply HasPrefix_spec in Ht as [b Hb]. discriminate Hb.
  - apply flag_with_value_safe.
    + apply translate_flag_cases in Ht. revert g Ht. apply Forall_forall. apply (bool_decide_unpack _). vm_compute. exact I.
    + eapply Cut_value_no_space; [|exact E]. apply (re_words_no_space o). rewrite Hw. by left.
Qed.

(** An option that stems from the mount flags of the volume capability, which the driver does not sanitize: a flag, or what
    the fallback from the distributed cache makes of it. *)
Definition capability_option (flags : list string) (t : string) : Prop :=
  ∃ o, o ∈ flags ∧ (t = o ∨ ∃ f v g, Cut (TrimSpace o) "=" = (f, v, true) ∧ translate_flag f = Some g ∧ t = g +:+ "=" +:+ v).

Lemma capability_option_flag flags o : o ∈ flags → capability_option flags o.
Proof. intros H. exists o. auto. Qed.

Lemma capability_option_safe flags t : Forall safe_token flags → capability_option flags t → safe_token t.
Proof.
  rewrite Forall_forall. intros H (o & Ho & [->|(f & v & g & E & Ht & ->)]); [by apply H|]. by apply (translated_safe o f v g (H o Ho)).
Qed.

Lemma capability_option_ends flags t : (∀ o, o ∈ flags → ends_word o = true) → capability_option flags t → ends_word t = true.
Proof.
  intros H (o & Ho & [->|(f & v & g & E & _ & ->)]); [by apply H|].
  apply ends_word_app. destruct v as [|c v]; [done|]. apply (ends_word_app "=").
  unfold Cut in E. destruct (cut_at _ _) as [[x y]|] eqn:Ec; [|done]. injection E as -> ->. apply cut_at_Some in Ec.
  assert (TrimSpace o ≠ "") as Hn by (rewrite Ec; by destruct f). apply TrimSpace_ends in Hn.
  by rewrite Ec, !ends_word_suffix in Hn.
Qed.

Lemma fallback_from flags os :
  Forall (λ o, o ∈ flags ∨ safe_token o) os → Forall (λ t, capability_option flags t ∨ safe_token t) (fallbackToLocalBlockCache os).
Proof.
  rewrite !Forall_forall. intros H x Hx.
  apply fallback_elem in Hx as [->|(o & Ho & [->|[[-> _]|(f & g & v & E & Hv & Ht & ->)]])]; [right; apply block_cache_safe..| |].
  - destruct (H o Ho); [left; by apply capability_option_flag|by right].
  - destruct (H o Ho); [|right; by eapply translated_safe]. left. exists o. split; [done|]. right. by exists f, v, g.
Qed.

(** ** Defaults *)

Section defaults.
Context `{RangeOrder}.

Definition appended (included : gset string) (kvs : list (string * string)) : list string :=
  (λ kv, (kv.1 +:+ "=" +:+ kv.2)) <$> (filter (λ kv, (kv.1 ∉ included) ∧ kv.2 ≠ "") kvs).

(** appendDefaultMountOptions keeps the given options in front, in order, and appends one "key=value" per default that is
    not included and not empty. *)
Lemma appendDefaultMountOptions_eq site os tmp cn :
  appendDefaultMountOptions site os tmp cn =
  os ++ appended (defaults_and_included site os tmp cn).2 (range (S site) (defaults_and_included site os tmp cn).1).
Proof.
  unfold appendDefaultMountOptions. destruct (defaults_and_included site os tmp cn) as [defaults included]. simpl.
  generalize (range (S site) defaults). clear. intros l. unfold appended. revert os.
  induction l as [|[k v] l IH]; intros os; [simpl; by rewrite app_nil_r|]. cbn [foldl fst snd].
  rewrite IH, filter_cons. cbn [fst snd].
  destruct (bool_decide_reflect (k ∈ included)); [by rewrite decide_False by by intros [? ?]|].
  destruct (decide (v = "")); [by rewrite decide_False by by intros [? ?]|].
  rewrite decide_True by done. rewrite <- app_assoc. simpl. by rewrite str_app_nil_r.
Qed.

Definition driver_defaults (tmp cn : string) : list string :=
  ["--pre-mount-validate=true"; "--use-https=true"; "--tmp-path=" +:+ tmp; "--container-name=" +:+ cn;
   "--cancel-list-on-mount-seconds=10"; "--empty-dir-check=false"; "--distributed-cache-dns-server=10.0.0.10"].

Lemma default_lookup_cases site os tmp cn k v :
  (defaults_and_included site os tmp cn).1 !! k = Some v → k +:+ "=" +:+ v ∈ driver_defaults tmp cn.
Proof.
  assert (default_mount_options tmp cn !! k = Some v → k +:+ "=" +:+ v ∈ driver_defaults tmp cn) as Hd.
  { intros Hk%elem_of_list_to_map_2. unfold driver_defaults. rewrite !elem_of_cons in Hk.
    destruct Hk as [[= -> ->]|[[= -> ->]|[[= -> ->]|[[= -> ->]|[[= -> ->]|[[= -> ->]|Hk%not_elem_of_nil]]]]]];
      [..|done]; simpl; rewrite !elem_of_cons; tauto. }
  unfold defaults_and_included. destruct (sc_enabled _); [|done]. cbn [fst].
  intros [[<- <-]|[_ Hk]]%lookup_insert_Some; [|by apply Hd].
  unfold driver_defaults, defaultDistributedCacheDNSServer. simpl. rewrite !elem_of_cons. tauto.
Qed.

Lemma appendDefault_elem site os tmp cn x :
  x ∈ appendDefaultMountOptions site os tmp cn → x ∈ os ∨ x ∈ driver_defaults tmp cn.
Proof.
  rewrite appendDefaultMountOptions_eq. intros [?|Hx]%elem_of_app; [by left|right].
  unfold appended in Hx. apply list_elem_of_fmap in Hx as ([k v] & -> & Hx).
  apply list_elem_of_filter in Hx as [_ Hx]. apply elem_of_range in Hx. simpl. by eapply default_lookup_cases.
Qed.
End defaults.

(** ** Argument vectors *)

(** Every "-o" is followed by an argument that is not a flag. *)
Definition paired (l : list string) : Prop := ∀ i, l !! i = Some "-o" → ∃ w, l !! S i = Some w ∧ not_flag w.

Lemma paired_app l k : paired l → paired k → paired (l ++ k).
Proof.
  intros Hl Hk i Hi. apply lookup_app_Some in Hi as [Hi|[Hle Hi]].
  - destruct (Hl i Hi) as (w & Hw & ?). exists w. split; [by apply lookup_app_l_Some|done].
  - destruct (Hk _ Hi) as (w & Hw & ?). exists w. split; [|done].
    rewrite lookup_app_r by lia. by replace (S i - length l) with (S (i - length l)) by lia.
Qed.

Lemma paired_not_o l : "-o" ∉ l → paired l.
Proof. intros H i Hi. destruct H. by eapply list_elem_of_lookup_2. Qed.

Lemma paired_concat ls : Forall paired ls → paired (concat ls).
Proof. induction 1; [by apply paired_not_o, not_elem_of_nil|]. by apply paired_app. Qed.

(** The words that a safe token contributes. *)
Definition safe_word (w : string) : Prop := w = "-o" ∨ not_flag w ∨ arg_name w ∈ allowedEphemeralMountOptions.

Lemma safe_token_words t : safe_token t → Forall safe_word (re_words t) ∧ paired (re_words t).
Proof.
  intros [(_ & _ & vs & -> & Hn & Hvs)|[-> Ha]].
  - split; [constructor; [by left|]; eapply Forall_impl; [exact Hvs|]; by right; left|].
    rewrite Forall_forall in Hvs.
    assert (paired vs) as Hp.
    { apply paired_not_o. intros Hin. specialize (Hvs _ Hin). discriminate Hvs. }
    intros [|i] Hi; [|by apply Hp]. destruct vs as [|v vs]; [done|]. exists v. split; [done|]. apply Hvs. by left.
  - split; [constructor; [by right; right|constructor]|]. apply paired_not_o. intros E%list_elem_of_singleton. subst.
    revert Ha. apply (bool_decide_unpack _). vm_compute. exact I.
Qed.

Lemma digits_no_space s v : ParseUint s 10 32 = Some v → s ≠ "" ∧ Forall (λ c, re_space c = false) (chars s) ∧ not_flag s.
Proof.
  unfold ParseUint. destruct s as [|c s]; [done|]. destruct (digits_val 10 0 (chars (String c s))) as [n|] eqn:E; [|done].
  intros _. split; [done|].
  assert (∀ l acc n, digits_val 10 acc l = Some n → Forall (λ c, re_space c = false ∧ c ≠ "-"%char) l) as Hd.
  { clear. induction l as [|d l IH]; intros acc n; simpl; [done|]. destruct (digit_val d) as [x|] eqn:Ed; [|done].
    destruct (x <? 10)%N; [|done]. intros Hn%IH. constructor; [|done]. split; [|by intros ->].
    destruct (re_space d) eqn:Er; [|done]. unfold re_space in Er. unfold digit_val, in_range in Ed.
    repeat (apply orb_true_iff in Er as [Er|Er]); apply N.eqb_eq in Er; rewrite Er in Ed; discriminate Ed. }
  apply Hd in E. split; [eapply Forall_impl; [exact E|]; by intros ? [? _]|].
  unfold not_flag. cbn [HasPrefix]. inversion E as [|? ? [_ Hc] _]; subst.
  rewrite Ascii.eqb_sym. by replace (Ascii.eqb c "-") with false by (symmetry; by apply Ascii.eqb_neq).
Qed.

Lemma gid_token_safe g v : ParseUint g 10 32 = Some v → safe_token ("-o gid=" +:+ g).
Proof.
  intros (Hn & Hc & _)%digits_no_space. left. split; [done|]. split; [by apply ends_word_app, ends_word_all|]. exists ["gid=" +:+ g].
  change ("-o gid=" +:+ g) with ("-o" +:+ " " +:+ ("gid=" +:+ g)). rewrite re_words_app.
  rewrite (re_words_single ("gid=" +:+ g)); [split_and!; [done|done|by repeat constructor]|done|].
  rewrite chars_app, Forall_app. split; [by repeat constructor|done].
Qed.

Lemma stage_options_from hns eph group flags r :
  stage_options true hns eph group flags = Ok r → Forall (λ o, o ∈ flags ∨ safe_token o) r.
Proof.
  unfold stage_options. intros H. apply bind_Ok in H as (os & Hos & H).
  assert (Forall (λ o, o ∈ flags ∨ safe_token o) flags) as Hf by (apply Forall_forall; auto).
  assert (∀ l, Forall safe_token l → Forall (λ o, o ∈ flags ∨ safe_token o) l) as Hsafe by (intros l Hl; eapply Forall_impl; [exact Hl|auto]).
  destruct (SanitizeMountOptions _) as [s|] eqn:Es; [|done]. destruct (ValidateMountArgValues s); [done|].
  injection Hos as <-. apply SanitizeMountOptions_safe, Hsafe in Es. set (j := JoinMountOptions flags s) in *.
  assert (Forall (λ o, o ∈ flags ∨ safe_token o) (if hns then JoinMountOptions j ["--use-adls=true"] else j)) as Hj.
  { assert (Forall (λ o, o ∈ flags ∨ safe_token o) j) by by apply JoinMountOptions_Forall.
    destruct hns; [|done]. apply JoinMountOptions_Forall, Hsafe; [done|]. constructor; [|done].
    apply (flag_with_value_safe "--use-adls" "true"); [|by repeat constructor]. apply (bool_decide_unpack _). vm_compute. exact I. }
  destruct (_ && _)%bool; [|by injection H as <-]. destruct (ParseUint group 10 32) eqn:Eg; [|done].
  injection H as <-. apply Forall_app. split; [done|]. apply Hsafe. constructor; [|done]. apply gid_token_safe in Eg.
  simpl. by rewrite str_app_nil_r.
Qed.

Lemma mount_args_Join target opts : mount_args target opts = Join (target :: opts) " ".
Proof. apply foldl_space_Join. Qed.

Definition no_space (s : string) : Prop := Forall (λ c, re_space c = false) (chars s).

#[export] Instance no_space_dec s : Decision (no_space s).
Proof. unfold no_space. apply _. Defined.

(** A default as one word. *)
Lemma driver_default_words tmp cn x :
  no_space tmp → no_space cn → x ∈ driver_defaults tmp cn → re_words x = [x].
Proof.
  intros Ht Hc Hx. unfold driver_defaults in Hx. rewrite !elem_of_cons in Hx.
  destruct Hx as [->|[->|[->|[->|[->|[->|[->|Hx%not_elem_of_nil]]]]]]]; [..|done];
    (apply re_words_single; [done|]); rewrite ?chars_app, ?Forall_app; try (split; [by repeat constructor|done]); by repeat constructor.
Qed.

Lemma ends_word_Join l : l ≠ [] → (∀ o, o ∈ l → ends_word o = true) → ends_word (Join l " ") = true.
Proof.
  induction l as [|x l IH]; intros Hn H; [done|]. destruct l as [|y l]; [apply H; by left|].
  rewrite Join_cons by done. do 2 apply ends_word_app. apply IH; [done|]. intros o Ho. apply H. by right.
Qed.

Lemma safe_token_ends t : safe_token t → ends_word t = true.
Proof.
  intros [(_ & ? & _)|[Hw _]]; [done|]. pose proof (re_words_no_space t t) as H. rewrite Hw in H.
  apply ends_word_all; [|apply H; by left]. intros ->. discriminate Hw.
Qed.

(** The argument vector in words: a target that is one word, then the words of the options. *)
Lemma blobfuse2_argv_words target opts :
  target ≠ "" → no_space target → (∀ o, o ∈ opts → ends_word o = true) →
  blobfuse2_argv (mount_args target opts) = "mount" :: target :: concat (re_words <$> opts).
Proof.
  intros Hn Ht Ho. unfold blobfuse2_argv. change ("mount " +:+ TrimDuplicatedSpace (mount_args target opts))
    with ("mount" +:+ String " " (TrimDuplicatedSpace (mount_args target opts))).
  rewrite Split_char_app by (apply (bool_decide_unpack _); vm_compute; exact I).
  rewrite mount_args_Join, Split_trim_words, re_words_Join.
  - rewrite fmap_cons. simpl. by rewrite re_words_single.
  - destruct target as [|c target]; [done|]. inversion Ht as [|? ? Hc _]; subst. destruct opts; simpl; by rewrite Hc.
  - apply ends_word_Join; [done|]. intros o [->|?]%elem_of_cons; [by apply ends_word_all|by apply Ho].
Qed.

(** An option of the final list, next to those of the capability: a safe token or a default. *)
Definition final_token (tmp cn t : string) : Prop := safe_token t ∨ (t ∈ driver_defaults tmp cn ∧ re_words t = [t]).

Lemma finish_options_from `{RangeOrder} site sup flags os tmp cn :
  Forall (λ o, o ∈ flags ∨ safe_token o) os → no_space tmp → no_space cn →
  Forall (λ t, capability_option flags t ∨ final_token tmp cn t) (finish_options site sup os tmp cn).
Proof.
  intros Ho Ht Hc. apply Forall_forall. intros x Hx. unfold finish_options in Hx.
  apply appendDefault_elem in Hx as [Hx|Hx].
  - destruct (_ && _)%bool.
    + pose proof (fallback_from flags os Ho) as Hf. rewrite Forall_forall in Hf. unfold final_token. destruct (Hf x Hx); auto.
    + rewrite Forall_forall in Ho. unfold final_token. destruct (Ho x Hx); auto using capability_option_flag.
  - right. right. split; [done|]. by apply (driver_default_words tmp cn).
Qed.

Definition inline_word (tmp cn w : string) : Prop := safe_word w ∨ w ∈ driver_defaults tmp cn.

Lemma final_token_words tmp cn t :
  final_token tmp cn t → ends_word t = true ∧ Forall (inline_word tmp cn) (re_words t) ∧ paired (re_words t).
Proof.
  intros [Hs|[Hd Hw]].
  - destruct (safe_token_words t Hs) as [Hf Hp]. split_and!; [by apply safe_token_ends| |done].
    eapply Forall_impl; [exact Hf|]. by left.
  - rewrite Hw. pose proof (re_words_no_space t t) as Hns. rewrite Hw in Hns.
    assert (t ≠ "" ∧ t ≠ "-o") as [Hn1 Hn2].
    { unfold driver_defaults in Hd. rewrite !elem_of_cons in Hd.
      by destruct Hd as [->|[->|[->|[->|[->|[->|[->|Hd%not_elem_of_nil]]]]]]]. }
    split_and!; [apply ends_word_all; [done|apply Hns; by left]|constructor; [by right|constructor]|].
    apply paired_not_o. intros E%list_elem_of_singleton. congruence.
Qed.

(** A word that stems from the mount flags of the capability. *)
Definition capability_word (flags : list string) (w : string) : Prop := ∃ t, capability_option flags t ∧ w ∈ re_words t.

Lemma not_flag_arg_name w k : not_flag w → HasPrefix k "--" = true → arg_name w ≠ k.
Proof.
  unfold not_flag, arg_name, Cut. intros Hw Hk <-. destruct (cut_at w "=") as [[a b]|] eqn:E; cbn [fst] in Hk.
  - apply cut_at_Some in E as ->. apply HasPrefix_spec in Hk as [t ->]. discriminate Hw.
  - apply HasPrefix_spec in Hk as [t ->]. discriminate Hw.
Qed.

(** The flags that only the driver may set, by the comment on allowedEphemeralMountOptions. *)
Definition driver_only : list string :=
  ["--tmp-path"; "--block-cache-path"; "--config-file"; "--log-file-path"; "--container-name"; "--passphrase"; "--secure-config"].

Lemma inline_word_driver_only tmp cn w :
  inline_word tmp cn w → arg_name w ∈ driver_only → w = "--tmp-path=" +:+ tmp ∨ w = "--container-name=" +:+ cn.
Proof.
  assert (∀ k, k ∈ driver_only → HasPrefix k "--" = true ∧ k ∉ allowedEphemeralMountOptions) as Hd.
  { apply Forall_forall. apply (bool_decide_unpack _). vm_compute. exact I. }
  intros [[->|[Hn|Ha]]|Hw] Hk; [| | |].
  - exfalso. revert Hk. apply (bool_decide_unpack _). vm_compute. exact I.
  - exfalso. destruct (Hd _ Hk) as [Hp _]. by apply (not_flag_arg_name w (arg_name w)).
  - exfalso. by destruct (Hd _ Hk).
  - unfold driver_defaults in Hw. rewrite !elem_of_cons in Hw.
    destruct Hw as [->|[->|[->|[->|[->|[->|[->|Hw%not_elem_of_nil]]]]]]]; [| |by left|by right|..|done];
      exfalso; revert Hk; apply (bool_decide_unpack _); vm_compute; exact I.
Qed.

Lemma ValidateContainerName_no_space cn : ValidateContainerName cn = Ok () → no_space cn.
Proof.
  intros [->|[_ Hc _ _]]%ValidateContainerName_rules; [constructor|]. eapply Forall_impl; [exact Hc|].
  intros c. simpl. intros [H| ->]%name_char_cases; [|done]. destruct (re_space c) eqn:E; [|done].
  unfold re_space in E. unfold lower_alnum, in_range in H.
  repeat (apply orb_true_iff in E as [E|E]); apply N.eqb_eq in E; rewrite E in H; discriminate H.
Qed.

(** ** Properties *)

(** C9 - No argument injection through an inline volume: whatever the user writes in mountOptions, in the container name
    and in the mount group, if NodeStageVolume's checks pass then the argument vector of the blobfuse2 that the driver starts is
    "mount", the target and arguments each of which is "-o", a value that does not start with "-", an allowed flag or a driver default, or stems
    from the mount flags of the volume capability, which NodeStageVolume takes over as they are; and an argument that sets a
    driver-only flag (--tmp-path, --config-file, --log-file-path, ...) is the driver's own --tmp-path or --container-name, or
    stems from the capability.  When the capability brings no flags, or only flags that are tokens as the checks accept them
    (an allowed flag, or "-o" with values that do not start with "-"), every argument is of the first kinds and every "-o" is
    followed by such a value.  The target and the temporary directory of the driver hold no white space, the target is not
    empty, and no flag of the capability is empty or ends in white space. *)
Theorem inline_argv_safe `{RangeOrder} site sup hns eph group flags os target tmp cn :
  stage_options true hns eph group flags = Ok os → ValidateContainerName cn = Ok () →
  target ≠ "" → no_space target → no_space tmp → (∀ o, o ∈ flags → ends_word o = true) →
  ∃ args, blobfuse2_argv (mount_args target (finish_options site sup os tmp cn)) = "mount" :: target :: args ∧
    Forall (λ w, capability_word flags w ∨ inline_word tmp cn w) args ∧
    (∀ w, w ∈ args → arg_name w ∈ driver_only →
       capability_word flags w ∨ w = "--tmp-path=" +:+ tmp ∨ w = "--container-name=" +:+ cn) ∧
    (Forall safe_token flags → Forall (inline_word tmp cn) args ∧ paired args).
Proof.
  intros Hos Hcn Hn Ht Htmp Hends. apply ValidateContainerName_no_space in Hcn. apply stage_options_from in Hos.
  pose proof (finish_options_from site sup flags os tmp cn Hos Htmp Hcn) as Hfin.
  set (opts := finish_options site sup os tmp cn) in *. exists (concat (re_words <$> opts)).
  assert (Forall (λ w, capability_word flags w ∨ inline_word tmp cn w) (concat (re_words <$> opts))) as Hw.
  { apply Forall_concat, Forall_fmap. eapply Forall_impl; [exact Hfin|]. intros t [Hc|Htok]; apply Forall_forall.
    - intros w Hin. left. by exists t.
    - intros w Hin. right. destruct (final_token_words tmp cn t Htok) as (_ & Hf & _). rewrite Forall_forall in Hf. by apply Hf. }
  split_and!; [|done| |].
  - apply blobfuse2_argv_words; [done|done|]. intros o Ho. rewrite Forall_forall in Hfin.
    destruct (Hfin o Ho); [by eapply capability_option_ends|by apply (final_token_words tmp cn o)].
  - intros w Hin Hd. rewrite Forall_forall in Hw. destruct (Hw w Hin); [by left|right]. by apply inline_word_driver_only.
  - intros Hflags. split; [apply Forall_concat|apply paired_concat]; apply Forall_fmap; (eapply Forall_impl; [exact Hfin|]);
      intros t Htok; apply (final_token_words tmp cn t); (destruct Htok; [left; by eapply capability_option_safe|done]).
Qed.

Lemma inline_argv_safe_witness :
  ∃ args, blobfuse2_argv (mount_args "/var/t" (@finish_options canonical_order 0 false
    ["--config-file=/x"; "--distributed-cache-prefetch=3"; "--log-level=LOG_DEBUG"; "-o allow_other"; "-o gid=1000"] "/mnt/csi-1" "data")) =
      "mount" :: "/var/t" :: args ∧
    ∀ w, w ∈ args → arg_name w ∈ driver_only →
      capability_word ["--config-file=/x"] w ∨ w = "--tmp-path=" +:+ "/mnt/csi-1" ∨ w = "--container-name=" +:+ "data".
Proof.
  destruct (inline_argv_safe (H := canonical_order) 0 false false
    "-o allow_other,--log-level=LOG_DEBUG,--distributed-cache-prefetch=3" "1000" ["--config-file=/x"]
    ["--config-file=/x"; "--distributed-cache-prefetch=3"; "--log-level=LOG_DEBUG"; "-o allow_other"; "-o gid=1000"] "/var/t" "/mnt/csi-1" "data")
    as (args & Ea & _ & Hd & _).
  - vm_compute. reflexivity.
  - vm_compute. reflexivity.
  - discriminate.
  - apply (bool_decide_unpack _). vm_compute. exact I.
  - apply (bool_decide_unpack _). vm_compute. exact I.
  - intros o ->%list_elem_of_singleton. reflexivity.
  - exists args. split; [exact Ea|exact Hd].
Defined.

(** A text that starts with visible ASCII characters keeps them when trimmed. *)
Definition visible (c : ascii) : bool := (byte_val c <? 128)%N && negb (is_space (byte_val c)).

Lemma TrimSpace_visible_prefix p x :
  p ≠ "" → Forall (λ c, visible c = true) (chars p) → ∃ k, TrimSpace (p +:+ x) = p +:+ k.
Proof.
  intros Hn Hp. set (t := p +:+ x). destruct (TrimSpace_split t) as (l & r & E & Hlr).
  assert (∀ k c, (k = l ∨ k = r) → c ∈ chars p → c ∉ chars (chunks_str k)) as Hno.
  { intros k c Hk Hc. rewrite Forall_forall in Hp. specialize (Hp c Hc). unfold visible in Hp. bools.
    apply N.ltb_lt in H. apply (space_chunks_no_ascii t); [|done|done].
    intros ch Hch. apply Hlr, elem_of_app. by destruct Hk as [->| ->]; auto. }
  destruct (chunks_str l) as [|d l'] eqn:El.
  2: { destruct p as [|c p]; [done|]. unfold t in E. simpl in E. injection E as <- _.
       destruct (Hno l c); [auto|by left|]. rewrite El. by left. }
  simpl in E. unfold t in E at 1. clear Hn Hp El Hlr. generalize dependent (TrimSpace t). clear t.
  induction p as [|c p IH]; intros T E; [by exists T|].
  destruct T as [|d T].
  - simpl in E. destruct (Hno r c); [auto|by left|]. rewrite <- E. by left.
  - simpl in E. injection E as <- E. destruct (IH (λ k e Hk He, Hno k e Hk (list_elem_of_further _ _ _ He)) T E) as [k ->].
    by exists k.
Qed.

Lemma flag_name_eq g v :
  g ≠ "" → Forall (λ c, visible c = true) (chars g) → "="%char ∉ chars g → flag_name (g +:+ "=" +:+ v) = g.
Proof.
  intros Hn Hv He. unfold flag_name. rewrite str_app_assoc.
  destruct (TrimSpace_visible_prefix (g +:+ "=") v) as [k ->].
  - by destruct g.
  - rewrite chars_app, Forall_app. split; [done|by repeat constructor].
  - rewrite <- str_app_assoc. unfold Cut. change ("=" +:+ k) with (String "=" k). by rewrite cut_at_char_app.
Qed.

Lemma flag_name_translated f g v : translate_flag f = Some g → flag_name (g +:+ "=" +:+ v) = g.
Proof.
  intros Hg%translate_flag_cases.
  assert (g ≠ "" ∧ Forall (λ c, visible c = true) (chars g) ∧ "="%char ∉ chars g) as (? & ? & ?); [|by apply flag_name_eq].
  revert g Hg. apply Forall_forall. apply (bool_decide_unpack _). vm_compute. exact I.
Qed.

Lemma translated_local f g : translate_flag f = Some g → is_distributed g = false ∧ g ≠ "--block-cache".
Proof.
  intros Hg%translate_flag_cases. revert g Hg. apply Forall_forall. apply (bool_decide_unpack _). vm_compute. exact I.
Qed.

Lemma fallback_no_distributed os : hasDistributedCacheMountOptions (fallbackToLocalBlockCache os) = false.
Proof.
  apply existsb_false_Forall, Forall_forall. intros x Hx.
  apply fallback_elem in Hx as [->|(o & _ & [->|[[-> ?]|(f & g & v & _ & _ & Ht & ->)]])]; [done..|].
  rewrite (flag_name_translated f) by done. apply (translated_local f g Ht).
Qed.

Definition block_cache_options (os : list string) : list string := filter (λ o, flag_name o = "--block-cache") os.

Lemma block_cache_skip os x : flag_name x ≠ "--block-cache" → block_cache_options (os ++ [x]) = block_cache_options os.
Proof. intros H. unfold block_cache_options. rewrite filter_app, filter_cons_False by done. apply app_nil_r. Qed.

Lemma block_cache_keep os :
  block_cache_options (os ++ ["--block-cache=true"]) = block_cache_options os ++ ["--block-cache=true"].
Proof. unfold block_cache_options. by rewrite filter_app. Qed.

Definition fallback_inv (st : fallback) : Prop :=
  block_cache_options (fb_options st) = if fb_enabled st then ["--block-cache=true"] else [].

Lemma fallback_step_inv st o : fallback_inv st → fallback_inv (fallback_step st o).
Proof.
  unfold fallback_inv, fallback_step. intros H. destruct (Cut _ "=") as [[f v] hv] eqn:E.
  assert (flag_name o = f) as Ef by (unfold flag_name; by rewrite E).
  destruct (decide (f = "--block-cache")) as [->|Hf].
  { destruct (fb_enabled st) eqn:Eb; cbn [fb_options fb_enabled]; [by rewrite Eb|]. by rewrite block_cache_keep, H. }
  destruct (is_distributed f); cbn [negb].
  - destruct (translate_flag f) as [g|] eqn:Et; [|done]. destruct (_ && _)%bool; [|done]. cbn [fb_options fb_enabled].
    rewrite block_cache_skip; [done|]. rewrite (flag_name_translated f) by done. apply (translated_local f g Et).
  - cbn [fb_options fb_enabled]. rewrite block_cache_skip; [done|congruence].
Qed.

Lemma fallback_one_block_cache os : block_cache_options (fallbackToLocalBlockCache os) = ["--block-cache=true"].
Proof.
  unfold fallbackToLocalBlockCache.
  assert (∀ st, fallback_inv st → fallback_inv (foldl fallback_step st os)) as Hf.
  { induction os as [|o os IH]; intros st Hst; [done|]. by apply IH, fallback_step_inv. }
  specialize (Hf {| fb_local := local_flags os; fb_options := []; fb_enabled := false |} eq_refl).
  unfold fallback_inv in Hf. destruct (fb_enabled _); [done|]. by rewrite block_cache_keep, Hf.
Qed.

(** On options without distributed flags and with "--block-cache=true" at most once, the loop copies its input. *)
Lemma fallback_copy os st :
  hasDistributedCacheMountOptions os = false →
  block_cache_options os = (if fb_enabled st then [] else ["--block-cache=true"]) →
  fb_options (foldl fallback_step st os) = fb_options st ++ os ∧ fb_enabled (foldl fallback_step st os) = true.
Proof.
  revert st. induction os as [|o os IH]; intros st Hd Hb; [simpl; destruct (fb_enabled st); [by rewrite app_nil_r|done]|].
  unfold hasDistributedCacheMountOptions in Hd. simpl in Hd. bools. unfold block_cache_options in Hb. rewrite filter_cons in Hb.
  unfold flag_name in *. simpl. unfold fallback_step at 2 4. destruct (Cut (TrimSpace o) "=") as [[f v] hv]. simpl in *.
  destruct (decide (f = "--block-cache")) as [->|Hf].
  - destruct (fb_enabled st) eqn:Eb; [done|]. injection Hb as -> Hb.
    edestruct IH as [-> ->]; [exact H0|simpl; exact Hb|]. simpl. by rewrite <- app_assoc.
  - rewrite H. cbn [negb]. edestruct IH as [-> ->]; [exact H0|simpl; exact Hb|]. simpl. by rewrite <- app_assoc.
Qed.

(** The fallback from the distributed cache removes every --distributed-cache- option, leaves exactly one
    --block-cache option, "--block-cache=true", and is idempotent. *)
Theorem fallback_spec os :
  hasDistributedCacheMountOptions (fallbackToLocalBlockCache os) = false ∧
  block_cache_options (fallbackToLocalBlockCache os) = ["--block-cache=true"] ∧
  fallbackToLocalBlockCache (fallbackToLocalBlockCache os) = fallbackToLocalBlockCache os.
Proof.
  pose proof (fallback_no_distributed os) as Hd. pose proof (fallback_one_block_cache os) as Hb.
  split_and!; [done|done|]. set (r := fallbackToLocalBlockCache os) in *.
  destruct (fallback_copy r {| fb_local := local_flags r; fb_options := []; fb_enabled := false |} Hd Hb) as [Ho He].
  unfold fallbackToLocalBlockCache at 1. by rewrite He, Ho.
Qed.

(** ** The defaults, declaratively *)

Definition base_defaults (tmp cn : string) : list (string * string) :=
  [("--pre-mount-validate", "true"); ("--use-https", "true"); ("--tmp-path", tmp); ("--container-name", cn);
   ("--cancel-list-on-mount-seconds", "10"); ("--empty-dir-check", "false")].

Definition has_flag (k : string) (os : list string) : bool := existsb (λ o, bool_decide (flag_name o = k)) os.

(** Which default is due: a base default whose key starts none of the options, except for the cache directory defaults
    when the distributed cache is on, and then the DNS server unless it is given. *)
Definition default_due (os : list string) (tmp cn k v : string) : Prop :=
  v ≠ "" ∧
  ((k, v) ∈ base_defaults tmp cn ∧ (∀ o, o ∈ os → HasPrefix o k = false) ∧
   (has_flag "--distributed-cache-discovery-endpoint" os = true → k ≠ "--tmp-path" ∧ k ≠ "--empty-dir-check")
   ∨ (k, v) = ("--distributed-cache-dns-server", defaultDistributedCacheDNSServer) ∧
     has_flag "--distributed-cache-discovery-endpoint" os = true ∧ has_flag "--distributed-cache-dns-server" os = false).

Section defaults_spec.
Context `{RangeOrder}.

Lemma scan_fold_included o (l : list (string * string)) (inc : gset string) k :
  k ∈ foldl (λ inc kv, if HasPrefix o kv.1 then {[ kv.1 ]} ∪ inc else inc) inc l ↔
  k ∈ inc ∨ HasPrefix o k = true ∧ k ∈ l.*1.
Proof.
  revert inc. induction l as [|[k' v] l IH]; intros inc; simpl.
  - rewrite elem_of_nil. tauto.
  - rewrite IH, elem_of_cons. destruct (HasPrefix o k') eqn:E; [rewrite elem_of_union, elem_of_singleton|].
    + split; [intros [[->|?]|[? ?]]; auto|intros [?|[? [->|?]]]; auto].
    + split; [intros [?|[? ?]]; auto|intros [?|[? [->|?]]]; auto; congruence].
Qed.

Lemma elem_of_range_fst site m k : k ∈ (range site m).*1 ↔ is_Some (m !! k).
Proof.
  rewrite list_elem_of_fmap. split.
  - intros ([k' v] & -> & Hin%elem_of_range). by exists v.
  - intros [v Hv]. exists (k, v). split; [done|]. by apply elem_of_range.
Qed.

Lemma scan_options_spec site m os :
  let sc := scan_options site m os in
  sc_enabled sc = has_flag "--distributed-cache-discovery-endpoint" os ∧
  sc_dns sc = has_flag "--distributed-cache-dns-server" os ∧
  ∀ k, k ∈ sc_included sc ↔ is_Some (m !! k) ∧ ∃ o, o ∈ os ∧ HasPrefix o k = true.
Proof.
  cbn zeta. unfold scan_options.
  assert (∀ os sc0, let sc := foldl (scan_option site m) sc0 os in
    sc_enabled sc = has_flag "--distributed-cache-discovery-endpoint" os || sc_enabled sc0 ∧
    sc_dns sc = has_flag "--distributed-cache-dns-server" os || sc_dns sc0 ∧
    ∀ k, k ∈ sc_included sc ↔ k ∈ sc_included sc0 ∨ is_Some (m !! k) ∧ ∃ o, o ∈ os ∧ HasPrefix o k = true) as Hg.
  { clear os. induction os as [|o os IH]; intros sc0; cbn zeta.
    - simpl. split_and!; [done|done|]. intros k. split; [by left|]. intros [?|(_ & o & ?%not_elem_of_nil & _)]; done.
    - cbn [foldl]. destruct (IH (scan_option site m sc0 o)) as (-> & -> & Hi). simpl. split_and!.
      + rewrite orb_assoc. by rewrite (orb_comm (has_flag _ os)).
      + rewrite orb_assoc. by rewrite (orb_comm (has_flag _ os)).
      + intros k. rewrite Hi. simpl. rewrite scan_fold_included, elem_of_range_fst. setoid_rewrite elem_of_cons. clear. split.
        * intros [[?|[? ?]]|(? & o' & ? & ?)]; [by left|right; split; [done|]; exists o; auto|right; split; [done|]; exists o'; auto].
        * intros [?|(? & o' & [->|?] & ?)]; [by left; left|by left; right|right; split; [done|]; by exists o']. }
  destruct (Hg os {| sc_included := ∅; sc_enabled := false; sc_dns := false |}) as (-> & -> & Hi).
  rewrite !orb_false_r. split_and!; [done|done|]. intros k. rewrite Hi. simpl. rewrite elem_of_empty. tauto.
Qed.

Lemma base_defaults_lookup tmp cn k v : default_mount_options tmp cn !! k = Some v ↔ (k, v) ∈ base_defaults tmp cn.
Proof.
  symmetry. apply elem_of_list_to_map. unfold base_defaults. simpl. apply (bool_decide_unpack _). vm_compute. exact I.
Qed.

Lemma base_defaults_no_dns tmp cn v : ("--distributed-cache-dns-server", v) ∉ base_defaults tmp cn.
Proof. unfold base_defaults. rewrite !not_elem_of_cons. split_and!; [congruence..|apply not_elem_of_nil]. Qed.

Lemma defaults_due site os tmp cn k v :
  ((defaults_and_included site os tmp cn).1 !! k = Some v) ∧ (k ∉ (defaults_and_included site os tmp cn).2) ∧ v ≠ "" ↔
  default_due os tmp cn k v.
Proof.
  destruct (scan_options_spec site (default_mount_options tmp cn) os) as (He & Hd & Hi).
  unfold defaults_and_included, default_due. rewrite He, Hd. clear He Hd.
  set (sc := scan_options site (default_mount_options tmp cn) os) in *.
  assert ((k, v) ∈ base_defaults tmp cn →
    (k ∉ sc_included sc ↔ ∀ o, o ∈ os → HasPrefix o k = false)) as Hinc.
  { intros Hk%base_defaults_lookup. rewrite Hi. split.
    - intros Hn o Ho. apply not_true_iff_false. intros E. apply Hn. split; [by exists v|by exists o].
    - intros Hn (_ & o & Ho & E). by rewrite (Hn o Ho) in E. }
  destruct (has_flag "--distributed-cache-discovery-endpoint" os); cbn [fst snd].
  - rewrite lookup_insert_Some, base_defaults_lookup, !elem_of_union, !elem_of_singleton. split.
    + intros ([[<- <-]|[Hne Hk]] & Hn & Hv); (split; [done|]).
      * right. split_and!; [done|done|]. destruct (has_flag _ os); [|done]. destruct Hn. left. set_solver.
      * left. split_and!; [done|apply Hinc; tauto|tauto].
    + intros [Hv [(Hk & Ho & Hne)|([= -> ->] & _ & Hdns)]].
      * assert (k ≠ "--distributed-cache-dns-server") by (intros ->; by apply base_defaults_no_dns in Hk).
        split_and!; [right; by split|apply Hinc in Ho; [|done]|done].
        destruct (has_flag _ os); rewrite ?elem_of_singleton, ?elem_of_empty; intuition.
      * split_and!; [by left| |done]. rewrite Hdns, elem_of_empty, Hi, <- not_eq_None_Some.
        by intros [?|[?|[?|(Hn & _)]]].
  - rewrite base_defaults_lookup. split.
    + intros (Hk & Hn & Hv). split; [done|]. left. split_and!; [done|by apply Hinc|done].
    + intros [Hv [(Hk & Ho & _)|(_ & ? & _)]]; [|done]. split_and!; [done|by apply Hinc|done].
Qed.

(** appendDefaultMountOptions keeps the caller's options in order and appends, in some order and once each, exactly
    the defaults that are due: those whose key starts no given option, without the cache directory ones when the
    distributed cache is on, and with a DNS server for it unless one is given. *)
Theorem appendDefaultMountOptions_spec site os tmp cn :
  ∃ added, appendDefaultMountOptions site os tmp cn = os ++ added ∧ NoDup added ∧
    ∀ x, x ∈ added ↔ ∃ k v, x = k +:+ "=" +:+ v ∧ default_due os tmp cn k v.
Proof.
  rewrite appendDefaultMountOptions_eq. eexists. split; [done|].
  set (m := (defaults_and_included site os tmp cn).1). set (inc := (defaults_and_included site os tmp cn).2).
  assert (∀ k v, m !! k = Some v → k ∉ inc → v ≠ "" → default_due os tmp cn k v) as Hdue.
  { intros k v Hk Hn Hv. by apply defaults_due with (site := site). }
  split.
  - unfold appended. apply NoDup_fmap_2_strong.
    + intros [k v] [k' v'] [[Hn Hv] Hk%elem_of_range]%list_elem_of_filter [[Hn' Hv'] Hk'%elem_of_range]%list_elem_of_filter E.
      simpl in *.
      assert (∀ j w, default_due os tmp cn j w → "="%char ∉ chars j) as Hne.
      { intros j w [_ [[Hj _]|([= -> _] & _)]]; [|by apply (bool_decide_unpack _); vm_compute].
        unfold base_defaults in Hj. rewrite !elem_of_cons in Hj.
        destruct Hj as [[= -> _]|[[= -> _]|[[= -> _]|[[= -> _]|[[= -> _]|[[= -> _]|Hj%not_elem_of_nil]]]]]];
          [..|done]; apply (bool_decide_unpack _); vm_compute; exact I. }
      assert (cut_at (k +:+ "=" +:+ v) "=" = Some (k, v)) as E1 by (apply cut_at_char_app; eauto).
      assert (cut_at (k' +:+ "=" +:+ v') "=" = Some (k', v')) as E2 by (apply cut_at_char_app; eauto).
      change (k +:+ "=" +:+ v = k' +:+ "=" +:+ v') in E. rewrite E in E1. congruence.
    + apply NoDup_filter. rewrite (range_perm (S site) m). apply NoDup_map_to_list.
  - intros x. unfold appended. rewrite list_elem_of_fmap. split.
    + intros ([k v] & -> & [[Hn Hv] Hk%elem_of_range]%list_elem_of_filter). simpl in *. eauto.
    + intros (k & v & -> & (Hk & Hn & Hv)%(defaults_due site)). exists (k, v). split; [done|].
      apply list_elem_of_filter. split; [done|]. by apply elem_of_range.
Qed.
End defaults_spec.

(** The comma separated form does not reject a passthrough token with two spaces after "-o": tokenizing stops there
    and drops every other option, and SanitizeMountOptions accepts what is left. *)
Theorem tokenizer_drops_options :
  let s := "--log-level=LOG_DEBUG,-o  ro,--read-only" in
  tokenizeMountOptionsString s = ["-o  ro"] ∧ SanitizeMountOptions (tokenizeMountOptionsString s) = Ok ["-o  ro"].
Proof. split; vm_compute; reflexivity. Qed.

(** A passthrough value may be preceded by white space that [\s] does not match, here a vertical tab: the checks see
    the trimmed value, the token keeps the white space, and blobfuse2 receives the vertical tab as the value of "-o" and
    the user's word as an argument of its own. *)
Theorem passthrough_extra_argument :
  let s := "-o " +:+ String (byte_of 11) " word," in
  ∃ sanitized, SanitizeMountOptions (tokenizeMountOptionsString s) = Ok sanitized ∧
    blobfuse2_argv (mount_args "/t" sanitized) = ["mount"; "/t"; "-o"; String (byte_of 11) ""; "word"].
Proof. eexists. split; vm_compute; reflexivity. Qed.
