(* ===== verification/Metrics.v ===== *)
(** * Metrics: pkg/metrics/metrics.go

    A metric context and the samples that observing it records.  Durations, buckets and the latency log line are left
    out; what remains is which series receive a sample. *)
From S2P Require Import Prelude GoUnicode GoStrings Attributes.
From stdpp Require Import options.

Definition Protocol : string := "protocol".
Definition StorageAccountType : string := "storage_account_type".
Definition IsHnsEnabled : string := "is_hns_enabled".

Record CSIMetricContext := {
  mc_operation : string;
  mc_volumeContext : list string;
  mc_labels : strmap;
  mc_logLevel : Z;
}.

(** A sample: of operation_duration_seconds, of operation_duration_seconds_labeled, of operations_total; and the result
    of an operation on the Azure API, which the cloud provider's own metric context records. *)
Inductive sample :=
| OperationDuration (operation success : string)
| OperationDurationWithLabels (operation success protocol storageAccountType isHnsEnabled : string)
| OperationTotal (operation success : string)
| AzureOperation (operation resourceGroup subsID : string) (success : bool).

#[export] Instance sample_eq_dec : EqDecision sample.
Proof. solve_decision. Defined.

Definition NewCSIMetricContext (operation : string) : CSIMetricContext :=
  {| mc_operation := operation; mc_volumeContext := []; mc_labels := ∅; mc_logLevel := 3 |}.

Definition add_context (kvs : list string) (mc : CSIMetricContext) : CSIMetricContext :=
  {| mc_operation := mc_operation mc; mc_volumeContext := mc_volumeContext mc ++ kvs; mc_labels := mc_labels mc;
     mc_logLevel := mc_logLevel mc |}.

Definition unless_empty (key value shown : string) : list string := if decide (value = "") then [] else [key; shown].

Definition WithBasicVolumeInfo (mc : CSIMetricContext) (resourceGroup subscriptionID source : string) : CSIMetricContext :=
  add_context (unless_empty "resource_group" resourceGroup (ToLower resourceGroup)
               ++ unless_empty "subscription_id" subscriptionID subscriptionID
               ++ unless_empty "source" source source) mc.

Definition WithAdditionalVolumeInfo (mc : CSIMetricContext) (keyValuePairs : list string) : CSIMetricContext :=
  if Nat.even (length keyValuePairs) then add_context keyValuePairs mc else mc.

Definition WithLabel (mc : CSIMetricContext) (key value : string) : CSIMetricContext :=
  {| mc_operation := mc_operation mc; mc_volumeContext := mc_volumeContext mc; mc_labels := <[key := value]> (mc_labels mc);
     mc_logLevel := mc_logLevel mc |}.

Definition WithLogLevel (mc : CSIMetricContext) (level : Z) : CSIMetricContext :=
  {| mc_operation := mc_operation mc; mc_volumeContext := mc_volumeContext mc; mc_labels := mc_labels mc;
     mc_logLevel := level |}.

Definition Observe (mc : CSIMetricContext) (success : bool) : list sample :=
  let successStr := FormatBool success in
  [OperationDuration (mc_operation mc) successStr; OperationTotal (mc_operation mc) successStr] ++
  (if decide (size (mc_labels mc) = 0) then []
   else [OperationDurationWithLabels (mc_operation mc) successStr (mget (Some (mc_labels mc)) Protocol)
           (mget (Some (mc_labels mc)) StorageAccountType) (mget (Some (mc_labels mc)) IsHnsEnabled)]).

Fixpoint with_labels (mc : CSIMetricContext) (labelPairs : list string) : CSIMetricContext :=
  match labelPairs with
  | k :: v :: labelPairs => with_labels (WithLabel mc k v) labelPairs
  | _ => mc
  end.

Definition ObserveWithLabels (mc : CSIMetricContext) (success : bool) (labelPairs : list string) : list sample :=
  if Nat.even (length labelPairs) then Observe (with_labels mc labelPairs) success else Observe mc success.

(** ** Facts *)

Lemma with_labels_operation mc l : mc_operation (with_labels mc l) = mc_operation mc.
Proof.
  revert mc. assert (∀ l, (∀ mc, mc_operation (with_labels mc l) = mc_operation mc) ∧
                        (∀ x mc, mc_operation (with_labels mc (x :: l)) = mc_operation mc)) as H; [|apply H].
  clear l. induction l as [|y l [IH1 IH2]]; [done|]. split; [apply IH2|]. intros x mc. simpl. by rewrite IH1.
Qed.

(** The counter of an operation is incremented exactly once per observation, on the side of its result. *)
Definition total (op : string) (success : bool) : sample := OperationTotal op (FormatBool success).

#[export] Instance FormatBool_inj : Inj (=) (=) FormatBool.
Proof. by intros [|] [|]. Qed.

Lemma Observe_total mc b op b' : total op b' ∈ Observe mc b ↔ op = mc_operation mc ∧ b' = b.
Proof.
  unfold Observe, total. split.
  - destruct (decide _); simpl; rewrite !elem_of_cons, elem_of_nil; intros H;
      repeat match goal with H : _ ∨ _ |- _ => destruct H as [H|H] end; by simplify_eq.
  - intros [-> ->]. apply elem_of_app. left. right. by left.
Qed.

Lemma ObserveWithLabels_total mc b l op b' : total op b' ∈ ObserveWithLabels mc b l ↔ op = mc_operation mc ∧ b' = b.
Proof. unfold ObserveWithLabels. destruct (Nat.even _); rewrite Observe_total; by rewrite ?with_labels_operation. Qed.
