(* ===== verification/Locks.v ===== *)
(** * Locks: LockMap of pkg/util/util.go and volumeLocks of pkg/blob/volume_lock.go, goroutine by goroutine

    The handlers elsewhere are run one at a time; here the goroutines that lock and unlock are interleaved.  A goroutine is a
    program counter; a mutex records the goroutine that locked it, which is only used in the proofs: the code sees whether
    it is locked.  Reading and writing a Go map are single steps; two of them at once are what the race theorem is
    about.  Locking a nil mutex or unlocking an unlocked one ends the program. *)
From S2P Require Import Prelude.
From stdpp Require Import options.

(** What a goroutine's next instruction does. *)
Inductive outcome (S : Type) := Next (s : S) | Blocked | Fatal.
Arguments Next {S} s.
Arguments Blocked {S}.
Arguments Fatal {S}.

Abbreviation mutex := (option nat).

(** A map entry under an update: the new value, or an old one elsewhere. *)
Lemma list_insert_lookup_inv {A} (l : list A) t t' (x y : A) :
  <[t := x]> l !! t' = Some y → (t' = t ∧ y = x) ∨ (t' ≠ t ∧ l !! t' = Some y).
Proof.
  intros Hl. destruct (decide (t' = t)) as [->|Hne].
  - left. split; [done|]. assert (t < length l) as Ht by (apply lookup_lt_Some in Hl; by rewrite length_insert in Hl).
    rewrite list_lookup_insert_eq in Hl by done. congruence.
  - right. by rewrite list_lookup_insert_ne in Hl by done.
Qed.

Module LockMap.

(** The instructions of LockEntry and UnlockEntry, in their order. *)
Inductive pc :=
| Idle
| LockMapMutex (entry : string)        (* LockEntry: lm.Lock() *)
| CheckEntry (entry : string)          (* if not in the map, addEntry *)
| UnlockMapMutex (entry : string)      (* lm.Unlock() *)
| ReadEntry (entry : string)           (* lockEntry: lm.mutexMap[entry], without lm.Mutex *)
| LockMutex (entry : string) (m : nat) (* .Lock() *)
| Holds (entry : string)               (* LockEntry has returned *)
| ULockMapMutex (entry : string)       (* UnlockEntry: lm.Lock() *)
| UCheckEntry (entry : string)         (* if not in the map, return *)
| UUnlockMutex (entry : string)        (* unlockEntry *)
| UUnlockMapMutex.                     (* defer lm.Unlock() *)

#[export] Instance pc_eq_dec : EqDecision pc.
Proof. solve_decision. Defined.

Record state := {
  mux : mutex;                     (* LockMap.Mutex *)
  mutexMap : gmap string nat;      (* entry -> mutex, by address *)
  mutexes : list mutex;            (* the mutexes allocated *)
  threads : list pc;
}.

Definition set_pc (t : nat) (p : pc) (s : state) : state :=
  {| mux := mux s; mutexMap := mutexMap s; mutexes := mutexes s; threads := <[t := p]> (threads s) |}.
Definition set_mux (m : mutex) (s : state) : state :=
  {| mux := m; mutexMap := mutexMap s; mutexes := mutexes s; threads := threads s |}.
Definition set_mutex (m : nat) (v : mutex) (s : state) : state :=
  {| mux := mux s; mutexMap := mutexMap s; mutexes := <[m := v]> (mutexes s); threads := threads s |}.
Definition addEntry (entry : string) (s : state) : state :=
  {| mux := mux s; mutexMap := <[entry := length (mutexes s)]> (mutexMap s); mutexes := mutexes s ++ [None]; threads := threads s |}.

(** The next instruction of goroutine [t] at [p]; an idle goroutine has none of its own. *)
Definition next (t : nat) (p : pc) (s : state) : outcome state :=
  let lock_map q := match mux s with None => Next (set_pc t q (set_mux (Some t) s)) | Some _ => Blocked end in
  let unlock_map q := match mux s with Some _ => Next (set_pc t q (set_mux None s)) | None => Fatal end in
  match p with
  | Idle => Blocked
  | LockMapMutex k => lock_map (CheckEntry k)
  | CheckEntry k => Next (set_pc t (UnlockMapMutex k) (if decide (is_Some (mutexMap s !! k)) then s else addEntry k s))
  | UnlockMapMutex k => unlock_map (ReadEntry k)
  | ReadEntry k => match mutexMap s !! k with Some m => Next (set_pc t (LockMutex k m) s) | None => Fatal end
  | LockMutex k m =>
    match mutexes s !! m with
    | Some None => Next (set_pc t (Holds k) (set_mutex m (Some t) s))
    | Some (Some _) => Blocked
    | None => Fatal
    end
  | Holds k => Next (set_pc t (ULockMapMutex k) s)
  | ULockMapMutex k => lock_map (UCheckEntry k)
  | UCheckEntry k => Next (set_pc t (if decide (is_Some (mutexMap s !! k)) then UUnlockMutex k else UUnlockMapMutex) s)
  | UUnlockMutex k =>
    match m ← mutexMap s !! k; v ← mutexes s !! m; v' ← v; Some (m, v' : nat) with
    | Some (m, _) => Next (set_pc t UUnlockMapMutex (set_mutex m None s))
    | None => Fatal
    end
  | UUnlockMapMutex => unlock_map Idle
  end.

(** A goroutine calls LockEntry on an entry of its choice, later unlocks that entry, and may start again. *)
Inductive step : state → state → Prop :=
| step_call t k s : threads s !! t = Some Idle → step s (set_pc t (LockMapMutex k) s)
| step_next t p s s' : threads s !! t = Some p → next t p s = Next s' → step s s'.

(** NewLockMap, before [n] goroutines use it. *)
Definition NewLockMap (n : nat) : state := {| mux := None; mutexMap := ∅; mutexes := []; threads := replicate n Idle |}.
Definition reachable (n : nat) (s : state) : Prop := rtc step (NewLockMap n) s.

(** ** The invariant *)

Definition in_mux (p : pc) : bool :=
  match p with CheckEntry _ | UnlockMapMutex _ | UCheckEntry _ | UUnlockMutex _ | UUnlockMapMutex => true | _ => false end.
(** The entry that a goroutine at [p] holds. *)
Definition owns (p : pc) : option string :=
  match p with Holds k | ULockMapMutex k | UCheckEntry k | UUnlockMutex k => Some k | _ => None end.
(** What a goroutine relies on in the map. *)
Definition relies (p : pc) (s : state) : Prop :=
  match p with
  | UnlockMapMutex k | ReadEntry k => is_Some (mutexMap s !! k)
  | LockMutex k m => mutexMap s !! k = Some m
  | _ => True
  end.

Record inv (s : state) : Prop := {
  inv_mux t : mux s = Some t ↔ ∃ p, threads s !! t = Some p ∧ in_mux p = true;
  inv_owns t k : (∃ p, threads s !! t = Some p ∧ owns p = Some k) ↔ ∃ m, mutexMap s !! k = Some m ∧ mutexes s !! m = Some (Some t);
  inv_relies t p : threads s !! t = Some p → relies p s;
  inv_inj k1 k2 m : mutexMap s !! k1 = Some m → mutexMap s !! k2 = Some m → k1 = k2;
  inv_alloc k m : mutexMap s !! k = Some m → m < length (mutexes s);
}.

Lemma inv_init n : inv (NewLockMap n).
Proof.
  split; simpl.
  - intros t. split; [done|]. by intros (p & [-> _]%lookup_replicate & ?).
  - intros t k. split; [by intros (p & [-> _]%lookup_replicate & ?)|by intros (m & ? & _)].
  - by intros t p [-> _]%lookup_replicate.
  - done.
  - done.
Qed.

Lemma thread_set_pc (Q : pc → Prop) t t' p p0 s :
  threads s !! t = Some p0 →
  (∃ q, <[t := p]> (threads s) !! t' = Some q ∧ Q q) ↔ if decide (t' = t) then Q p else ∃ q, threads s !! t' = Some q ∧ Q q.
Proof.
  intros Ht. destruct (decide (t' = t)) as [->|Hne].
  - rewrite list_lookup_insert_eq by by apply lookup_lt_Some in Ht. split; [by intros (q & [= <-] & ?)|eauto].
  - by rewrite list_lookup_insert_ne.
Qed.

(** A step that changes program counters and the mutex of the map only. *)
Lemma inv_pc s t p p' m' :
  inv s → threads s !! t = Some p → owns p' = owns p → relies p' s →
  (∀ t', m' = Some t' ↔ if decide (t' = t) then in_mux p' = true else mux s = Some t') →
  inv (set_pc t p' (set_mux m' s)).
Proof.
  intros Hi Ht Ho Hr Hm. split; simpl.
  - intros t'. rewrite (thread_set_pc _ _ _ _ _ _ Ht), Hm. destruct (decide (t' = t)); [done|]. apply (inv_mux _ Hi).
  - intros t' k. rewrite (thread_set_pc _ _ _ _ _ _ Ht), <- (inv_owns _ Hi). destruct (decide (t' = t)) as [->|]; [|done].
    rewrite Ho. split; [eauto|]. intros (q & Hq & ?). by simplify_eq.
  - intros t' q [[-> ->]|[_ Hq]]%list_insert_lookup_inv; [by destruct p'|]. pose proof (inv_relies _ Hi _ _ Hq). by destruct q.
  - apply (inv_inj _ Hi).
  - apply (inv_alloc _ Hi).
Qed.

Lemma set_mux_id s : set_mux (mux s) s = s.
Proof. by destruct s. Qed.

Lemma inv_pc_only s t p p' :
  inv s → threads s !! t = Some p → owns p' = owns p → relies p' s → in_mux p' = in_mux p → inv (set_pc t p' s).
Proof.
  intros Hi Ht Ho Hr Hm. rewrite <- (set_mux_id s) at 1. apply (inv_pc _ _ p); [done..|]. intros t'. destruct (decide (t' = t)) as [->|]; [|done].
  rewrite (inv_mux _ Hi), Hm. split; [by intros (q & Hq & ?); simplify_eq|eauto].
Qed.

(** Taking and giving back the mutex of the map. *)
Lemma inv_lock_map s t p p' :
  inv s → threads s !! t = Some p → mux s = None → owns p' = owns p → relies p' s → in_mux p' = true →
  inv (set_pc t p' (set_mux (Some t) s)).
Proof.
  intros Hi Ht Hm Ho Hr Hi'. apply (inv_pc _ _ p); [done..|]. intros t'. rewrite Hm. destruct (decide (t' = t)) as [->|Hne]; [done|]. split; congruence.
Qed.
Lemma inv_unlock_map s t p p' :
  inv s → threads s !! t = Some p → in_mux p = true → owns p' = owns p → relies p' s → in_mux p' = false →
  inv (set_pc t p' (set_mux None s)).
Proof.
  intros Hi Ht Hm Ho Hr Hi'. assert (mux s = Some t) as Hmt by (apply (inv_mux _ Hi); eauto).
  apply (inv_pc _ _ p); [done..|]. intros t'. rewrite Hmt. destruct (decide (t' = t)) as [->|Hne]; [|split; congruence]. by rewrite Hi'.
Qed.

(** Adding an entry: the mutex is new and unlocked. *)
Lemma inv_add s k : inv s → mutexMap s !! k = None → inv (addEntry k s).
Proof.
  intros Hi Hk. split; simpl.
  - apply (inv_mux _ Hi).
  - intros t k'. rewrite (inv_owns _ Hi). destruct (decide (k' = k)) as [->|Hne].
    + rewrite Hk, lookup_insert_eq. split; [by intros (m & ? & _)|]. intros (m & [= <-] & Hm).
      by rewrite lookup_app_r, Nat.sub_diag in Hm.
    + rewrite lookup_insert_ne by done. split; intros (m & Hm & Ht); exists m; (split; [done|]); apply (inv_alloc _ Hi) in Hm.
      * by rewrite lookup_app_l.
      * by rewrite lookup_app_l in Ht.
  - intros t p Ht. pose proof (inv_relies _ Hi t p Ht) as Hr. destruct p; try done; simpl in *;
      (destruct (decide (entry = k)) as [->|]; [|by rewrite lookup_insert_ne]); rewrite Hk in Hr; first [done|by destruct Hr].
  - intros k1 k2 m H1 H2. apply lookup_insert_Some in H1 as [[<- <-]|[? H1]], H2 as [[<- H2]|[? H2]]; [done|..].
    + apply (inv_alloc _ Hi) in H2. lia.
    + subst m. apply (inv_alloc _ Hi) in H1. lia.
    + by apply (inv_inj _ Hi _ _ m).
  - intros k' m Hm. rewrite length_app. simpl. apply lookup_insert_Some in Hm as [[_ <-]|[_ Hm]]; [lia|]. apply (inv_alloc _ Hi) in Hm. lia.
Qed.

(** Locking or unlocking the mutex of an entry. *)
Lemma inv_mutex s t p p' k m v v0 :
  inv s → threads s !! t = Some p → mutexMap s !! k = Some m → mutexes s !! m = Some v0 →
  in_mux p' = in_mux p → relies p' s →
  (v0 = None ∧ v = Some t ∧ owns p = None ∧ owns p' = Some k) ∨ (v = None ∧ owns p = Some k ∧ owns p' = None) →
  inv (set_pc t p' (set_mutex m v s)).
Proof.
  intros Hi Ht Hk Hm Hmux Hr Hv. assert (m < length (mutexes s)) as Hlt by by apply lookup_lt_Some in Hm. split; simpl.
  - intros t'. rewrite (thread_set_pc _ _ _ _ _ _ Ht), (inv_mux _ Hi). destruct (decide (t' = t)) as [->|]; [|done].
    rewrite Hmux. split; [by intros (q & Hq & ?); simplify_eq|eauto].
  - intros t' k'. rewrite (thread_set_pc _ _ _ _ _ _ Ht). pose proof (inv_owns _ Hi t' k') as Ho. destruct (decide (k' = k)) as [->|Hne].
    + transitivity (v = Some t').
      * destruct (decide (t' = t)) as [->|Hnt]; [destruct Hv as [(_ & -> & _ & ->)|(-> & _ & ->)]; by split|]. rewrite Ho.
        pose proof (inv_owns _ Hi t k) as Hot.
        destruct Hv as [(-> & -> & _ & _)|(-> & Hp & _)]; (split; [|congruence]); intros (m' & Hm' & Hl); simplify_eq.
        destruct Hot as [(m' & Hm' & Hl') _]; [eauto|]. simplify_eq.
      * split; [intros ->; exists m; split; [done|by apply list_lookup_insert_eq]|]. intros (m' & Hm' & Hl). simplify_eq.
        rewrite list_lookup_insert_eq in Hl by done. congruence.
    + transitivity (∃ q, threads s !! t' = Some q ∧ owns q = Some k').
      * destruct (decide (t' = t)) as [->|]; [|done]. split.
        -- destruct Hv as [(_ & _ & _ & ->)|(_ & _ & ->)]; congruence.
        -- intros (q & Hq & Ho'). simplify_eq. destruct Hv as [(_ & _ & ? & _)|(_ & ? & _)]; congruence.
      * rewrite Ho. split; intros (m' & Hm' & Hl); exists m'; (split; [done|]); (assert (m' ≠ m) by by intros ->; destruct Hne; apply (inv_inj _ Hi _ _ m)).
        -- by rewrite list_lookup_insert_ne.
        -- by rewrite list_lookup_insert_ne in Hl.
  - intros t' q [[-> ->]|[_ Hq]]%list_insert_lookup_inv; [by destruct p'|]. pose proof (inv_relies _ Hi _ _ Hq). by destruct q.
  - apply (inv_inj _ Hi).
  - intros k' m' Hk'. rewrite length_insert. by apply (inv_alloc _ Hi k').
Qed.

(** The mutex of an entry that a goroutine holds. *)
Lemma owned_mutex s t p k : inv s → threads s !! t = Some p → owns p = Some k → ∃ m, mutexMap s !! k = Some m ∧ mutexes s !! m = Some (Some t).
Proof. intros Hi Ht Ho. apply (inv_owns _ Hi). eauto. Qed.

Lemma inv_next s t p s' : inv s → threads s !! t = Some p → next t p s = Next s' → inv s'.
Proof.
  intros Hi Ht. pose proof (inv_relies _ Hi _ _ Ht) as Hr.
  destruct p as [|k|k|k|k|k m|k|k|k|k|]; simpl in *; intros E;
    try (destruct (mux s) as [o|] eqn:Em; try discriminate E); try injection E as <-.
  - by apply (inv_lock_map _ _ _ _ Hi Ht).
  - destruct (decide (is_Some (mutexMap s !! k))) as [Hk|Hk]; [by apply (inv_pc_only _ _ _ _ Hi Ht)|].
    apply eq_None_not_Some in Hk. apply (inv_pc_only _ _ (CheckEntry k)); [by apply inv_add|done|done| |done]. simpl. rewrite lookup_insert_eq. eauto.
  - destruct (decide (is_Some (mutexMap s !! k))) as [Hk|Hk]; [by apply (inv_pc_only _ _ _ _ Hi Ht)|].
    apply eq_None_not_Some in Hk. apply (inv_pc_only _ _ (CheckEntry k)); [by apply inv_add|done|done| |done]. simpl. rewrite lookup_insert_eq. eauto.
  - by apply (inv_unlock_map _ _ _ _ Hi Ht).
  - destruct (mutexMap s !! k) as [m|] eqn:Ek; [|done]. injection E as <-. by apply (inv_pc_only _ _ _ _ Hi Ht).
  - destruct (mutexMap s !! k) as [m|] eqn:Ek; [|done]. injection E as <-. by apply (inv_pc_only _ _ _ _ Hi Ht).
  - destruct (mutexes s !! m) as [[|]|] eqn:El; try done. injection E as <-.
    apply (inv_mutex _ _ _ _ k _ _ _ Hi Ht Hr El); [done|done|]. by left.
  - destruct (mutexes s !! m) as [[|]|] eqn:El; try done. injection E as <-.
    apply (inv_mutex _ _ _ _ k _ _ _ Hi Ht Hr El); [done|done|]. by left.
  - by apply (inv_pc_only _ _ _ _ Hi Ht).
  - by apply (inv_pc_only _ _ _ _ Hi Ht).
  - by apply (inv_lock_map _ _ _ _ Hi Ht).
  - destruct (owned_mutex _ _ _ k Hi Ht eq_refl) as (m & Hk & _). rewrite decide_True by by rewrite Hk. by apply (inv_pc_only _ _ _ _ Hi Ht).
  - destruct (owned_mutex _ _ _ k Hi Ht eq_refl) as (m & Hk & _). rewrite decide_True by by rewrite Hk. by apply (inv_pc_only _ _ _ _ Hi Ht).
  - destruct (owned_mutex _ _ _ k Hi Ht eq_refl) as (m & Hk & Hm). rewrite Hk in E. simpl in E. rewrite Hm in E. injection E as <-.
    apply (inv_mutex _ _ _ _ k _ _ _ Hi Ht Hk Hm); [done|done|]. by right.
  - destruct (owned_mutex _ _ _ k Hi Ht eq_refl) as (m & Hk & Hm). rewrite Hk in E. simpl in E. rewrite Hm in E. injection E as <-.
    apply (inv_mutex _ _ _ _ k _ _ _ Hi Ht Hk Hm); [done|done|]. by right.
  - by apply (inv_unlock_map _ _ _ _ Hi Ht).
Qed.

Lemma reachable_inv n s : reachable n s → inv s.
Proof.
  intros Hr. unfold reachable in Hr. remember (NewLockMap n) as s0 eqn:E0. assert (inv s0) as Hi by (subst; apply inv_init). clear E0.
  induction Hr as [|s0 s1 s2 Hs _ IH]; [done|]. apply IH. destruct Hs as [t k s Ht|t p s s' Ht En].
  - by apply (inv_pc_only _ _ Idle).
  - by apply (inv_next _ _ _ _ Hi Ht En).
Qed.

(** Nothing that a goroutine does ends the program. *)
Lemma next_safe s t p : inv s → threads s !! t = Some p → next t p s ≠ Fatal.
Proof.
  intros Hi Ht. pose proof (inv_relies _ Hi _ _ Ht) as Hr.
  assert (in_mux p = true → mux s = Some t) as Hm by (intros; apply (inv_mux _ Hi); eauto).
  destruct p as [|k|k|k|k|k m|k|k|k|k|]; simpl in *; try done; try (by destruct (mux s)); try (by rewrite Hm).
  - by destruct Hr as [m ->].
  - destruct (mutexes s !! m) as [[|]|] eqn:El; [done..|]. apply lookup_ge_None in El. apply (inv_alloc _ Hi) in Hr. lia.
  - destruct (owned_mutex _ _ _ k Hi Ht eq_refl) as (m & Hk & Hl). rewrite Hk. simpl. by rewrite Hl.
Qed.

Definition can_step (s : state) (t : nat) : Prop := ∃ p s', threads s !! t = Some p ∧ next t p s = Next s'.

(** A goroutine inside the map's mutex is never blocked, nor is one outside that mutex when it is free, except at the mutex of
    its entry. *)
Lemma can_step_unless s t p :
  inv s → threads s !! t = Some p → p ≠ Idle → (in_mux p = true ∨ mux s = None) → (∀ k m, p = LockMutex k m → mutexes s !! m = Some None) → can_step s t.
Proof.
  intros Hi Ht Hne Hor Hl. pose proof (next_safe _ _ _ Hi Ht) as Hs. assert (next t p s ≠ Blocked) as Hb.
  { destruct p as [|k|k|k|k|k m|k|k|k|k|]; simpl in *; try done; try (by destruct Hor as [?| ->]); try (by destruct (mux s)).
    - by destruct (mutexMap s !! k).
    - by rewrite (Hl k m).
    - by destruct (m ← mutexMap s !! k; v ← mutexes s !! m; v' ← v; Some (m, v' : nat)) as [[? ?]|]. }
  destruct (next t p s) as [s'| |] eqn:E; [|done|done]. by exists p, s'.
Qed.

(** Somebody can always go on. *)
Lemma some_step s t p : inv s → threads s !! t = Some p → p ≠ Idle → ∃ t', can_step s t'.
Proof.
  intros Hi Ht Hne. destruct (mux s) as [o|] eqn:Em.
  { apply (inv_mux _ Hi) in Em as (q & Hq & Hmux). exists o. apply (can_step_unless _ _ q Hi Hq); [by intros ->|by left|by intros ? ? ->]. }
  destruct p as [|k|k|k|k|k m|k|k|k|k|];
    try (by exists t; apply (can_step_unless _ _ _ Hi Ht); [done|right|intros ? ? [=]]).
  destruct (mutexes s !! m) as [[o|]|] eqn:El.
  - destruct (proj2 (inv_owns _ Hi o k)) as (q & Hq & Ho); [exists m; split; [apply (inv_relies _ Hi _ _ Ht)|done]|].
    exists o. apply (can_step_unless _ _ q Hi Hq); [by intros ->|by right|by intros ? ? ->].
  - exists t. apply (can_step_unless _ _ _ Hi Ht); [done|by right|]. by intros ? ? [= <- <-].
  - pose proof (next_safe _ _ _ Hi Ht) as Hs. simpl in Hs. by rewrite El in Hs.
Qed.

(** C17 - LockMap is a lock per entry: however the goroutines are interleaved, two goroutines never hold the same entry, no
    instruction locks a nil mutex or unlocks an unlocked one, and there is no deadlock: while some goroutine is inside
    LockEntry or UnlockEntry, or holds an entry that it will unlock, some goroutine can take a step. *)
Theorem LockMap_correct n s :
  reachable n s →
  (∀ t1 t2 p1 p2 k, threads s !! t1 = Some p1 → threads s !! t2 = Some p2 → owns p1 = Some k → owns p2 = Some k → t1 = t2) ∧
  (∀ t p, threads s !! t = Some p → next t p s ≠ Fatal) ∧
  (∀ t p, threads s !! t = Some p → p ≠ Idle → ∃ t', can_step s t').
Proof.
  intros Hi%reachable_inv. split_and!.
  - intros t1 t2 p1 p2 k H1 H2 O1 O2. destruct (owned_mutex _ _ _ k Hi H1 O1) as (m1 & Hk1 & Hm1).
    destruct (owned_mutex _ _ _ k Hi H2 O2) as (m2 & Hk2 & Hm2). congruence.
  - intros t p Ht. by apply next_safe.
  - intros t p Ht Hne. by apply (some_step s t p).
Qed.

(** ** A lock per entry, abstractly *)

(** Who holds which entry. *)
Definition holder (s : state) (k : string) : option nat := m ← mutexMap s !! k; v ← mutexes s !! m; v.

(** One step of a map of locks that are taken and released at once. *)
Inductive locks_step (o o' : string → option nat) : Prop :=
| locks_stutter : (∀ k, o' k = o k) → locks_step o o'
| locks_acquire t k : o k = None → o' k = Some t → (∀ k', k' ≠ k → o' k' = o k') → locks_step o o'
| locks_release t k : o k = Some t → o' k = None → (∀ k', k' ≠ k → o' k' = o k') → locks_step o o'.

Lemma holder_add s k k' : inv s → mutexMap s !! k = None → holder (addEntry k s) k' = holder s k'.
Proof.
  intros Hi Hk. unfold holder. simpl. destruct (decide (k' = k)) as [->|Hne].
  - by rewrite lookup_insert_eq, Hk; simpl; rewrite lookup_app_r, Nat.sub_diag.
  - rewrite lookup_insert_ne by done. destruct (mutexMap s !! k') as [m|] eqn:Em; [|done]. simpl.
    by rewrite lookup_app_l by by apply (inv_alloc _ Hi k').
Qed.

(** An entry whose mutex is not written keeps its holder. *)
Lemma holder_set_mutex s k m v t p :
  inv s → mutexMap s !! k = Some m → m < length (mutexes s) →
  holder (set_pc t p (set_mutex m v s)) k = v ∧ ∀ k', k' ≠ k → holder (set_pc t p (set_mutex m v s)) k' = holder s k'.
Proof.
  intros Hi Hk Hlt. unfold holder. simpl. split.
  - rewrite Hk. simpl. by rewrite list_lookup_insert_eq.
  - intros k' Hne. destruct (mutexMap s !! k') as [m'|] eqn:Em; [|done]. simpl.
    rewrite list_lookup_insert_ne; [done|]. intros ->. by destruct Hne, (inv_inj _ Hi k k' m').
Qed.

Lemma next_locks s t p s' : inv s → threads s !! t = Some p → next t p s = Next s' → locks_step (holder s) (holder s').
Proof.
  intros Hi Ht. pose proof (inv_relies _ Hi _ _ Ht) as Hr.
  destruct p as [|k|k|k|k|k m|k|k|k|k|].
  10: destruct (owned_mutex _ _ _ k Hi Ht eq_refl) as (m & Hk & Hm); simpl; rewrite Hk; simpl; rewrite Hm; intros E; simplify_eq/=;
    assert (m < length (mutexes s)) as Hlt by (by eapply lookup_lt_Some);
    destruct (holder_set_mutex s k m None t UUnlockMapMutex Hi Hk Hlt) as [H1 H2];
    apply (locks_release _ _ t k); [unfold holder; rewrite Hk; simpl; by rewrite Hm|done|done].
  all: simpl in *; intros E; repeat (case_match; try discriminate E); simplify_eq/=; try (by apply locks_stutter).
  - apply locks_stutter. intros k'. apply (holder_add s k k' Hi). by apply eq_None_not_Some.
  - assert (m < length (mutexes s)) as Hlt by by eapply lookup_lt_Some.
    destruct (holder_set_mutex s k m (Some t) t (Holds k) Hi Hr Hlt) as [H1 H2]. apply (locks_acquire _ _ t k); [|done|done].
    unfold holder. rewrite Hr. simpl. by match goal with H : mutexes s !! m = Some None |- _ => rewrite H end.
Qed.

(** C16 - LockMap refines a map of atomic locks, one per entry: no entry is held at first, and each instruction of a goroutine
    either changes no lock or takes a free entry or releases the entry that the goroutine holds; the goroutines that hold
    an entry in the abstraction are those between the two. *)
Theorem LockMap_refines n s :
  (∀ k, holder (NewLockMap n) k = None) ∧
  (∀ s', reachable n s → step s s' → locks_step (holder s) (holder s')) ∧
  (reachable n s → ∀ t k, holder s k = Some t ↔ ∃ p, threads s !! t = Some p ∧ owns p = Some k).
Proof.
  split_and!; [done|..].
  - intros s' Hi%reachable_inv Hs. destruct Hs as [t k Ht|t p s1 Ht En]; [|by apply (next_locks _ t p)]. by apply locks_stutter.
  - intros Hi%reachable_inv t k. rewrite (inv_owns _ Hi). unfold holder. split.
    + intros (m & Hm & (v & Hv & ->)%bind_Some)%bind_Some. eauto.
    + intros (m & -> & Hm). simpl. by rewrite Hm.
Qed.

(** ** Every call comes to its end *)

(** The instructions that a goroutine at [p] may still execute before it is idle. *)
Definition remaining (p : pc) : nat :=
  match p with
  | LockMapMutex _ => 10 | CheckEntry _ => 9 | UnlockMapMutex _ => 8 | ReadEntry _ => 7 | LockMutex _ _ => 6 | Holds _ => 5
  | ULockMapMutex _ => 4 | UCheckEntry _ => 3 | UUnlockMutex _ => 2 | UUnlockMapMutex => 1 | Idle => 0
  end.
Definition total (s : state) : nat := sum_list_with remaining (threads s).

(** A step of a goroutine that has already called. *)
Definition progress (s s' : state) : Prop := ∃ t p, threads s !! t = Some p ∧ next t p s = Next s'.

(** Each instruction moves its own goroutine, and nearer to the end. *)
Lemma next_remaining t p s s' : next t p s = Next s' → ∃ p', threads s' = <[t := p']> (threads s) ∧ remaining p' < remaining p.
Proof.
  intros E. destruct p as [|k|k|k|k|k m|k|k|k|k|]; simpl in E; repeat (case_match; try discriminate E); simplify_eq/=;
    eexists; (split; [reflexivity|simpl; lia]).
Qed.

Lemma sum_list_with_insert_lt {A} (f : A → nat) (l : list A) t x y : l !! t = Some x → f y < f x → sum_list_with f (<[t := y]> l) < sum_list_with f l.
Proof.
  revert t. induction l as [|z l IH]; intros [|t]; simpl; [done..| |].
  - intros [= ->]. lia.
  - intros Hl Hf. specialize (IH t Hl Hf). lia.
Qed.

Lemma progress_total s s' : progress s s' → total s' < total s.
Proof.
  intros (t & p & Ht & (p' & E & Hlt)%next_remaining). unfold total. rewrite E. by apply (sum_list_with_insert_lt _ _ _ p).
Qed.

Lemma progress_bounded k s s' : nsteps progress k s s' → k + total s' ≤ total s.
Proof. induction 1 as [s|k s1 s2 s3 H%progress_total _ IH]; lia. Qed.

Lemma progress_reachable n s s' : reachable n s → rtc progress s s' → reachable n s'.
Proof.
  intros Hr Hp. unfold reachable in *. transitivity s; [done|]. clear Hr. induction Hp as [|s1 s2 s3 (t & p & Ht & En) _ IH]; [done|].
  eapply rtc_l; [by eapply step_next|done].
Qed.

Lemma reachable_threads n s : reachable n s → length (threads s) = n.
Proof.
  unfold reachable. intros Hr. remember (NewLockMap n) as s0 eqn:E0. assert (length (threads s0) = n) as Hl by (subst; apply length_replicate).
  clear E0. induction Hr as [|s1 s2 s3 Hs _ IH]; [done|]. apply IH. destruct Hs as [t k s Ht|t p s s' Ht (p' & -> & _)%next_remaining];
    by rewrite <- Hl; apply length_insert.
Qed.

Lemma total_bound s : total s ≤ 10 * length (threads s).
Proof. unfold total. induction (threads s) as [|p l IH]; [done|]. assert (remaining p ≤ 10) by (destruct p; simpl; lia). simpl in *. lia. Qed.

(** A state from which a goroutine could go on does not come to rest, by the measure. *)
Lemma comes_to_rest n s : reachable n s → ∃ s', rtc progress s s' ∧ nf progress s'.
Proof.
  remember (total s) as m eqn:Em. revert s Em. induction (lt_wf m) as [m _ IH]. intros s -> Hr.
  destruct (decide (Forall (λ p, p = Idle) (threads s))) as [Hall|Hall].
  - exists s. split; [done|]. intros (s' & t & p & Ht & En). rewrite Forall_lookup in Hall. rewrite (Hall _ _ Ht) in En. done.
  - apply not_Forall_Exists, Exists_exists in Hall as (p & [t Ht]%list_elem_of_lookup & Hne); [|apply _].
    destruct (some_step s t p (reachable_inv _ _ Hr) Ht Hne) as (t' & q & s' & Hq & En). assert (progress s s') as Hp by by exists t', q.
    destruct (IH (total s') (progress_total _ _ Hp) s' eq_refl) as (s2 & Hs2 & Hnf); [by eapply progress_reachable, rtc_once|].
    exists s2. split; [by eapply rtc_l|done].
Qed.

(** C18 - Every call comes to its end, whatever the interleaving: once no new call of LockEntry is made, [n] goroutines take at
    most ten times [n] steps in all before they come to rest, they can always come to rest, and at rest every call has returned, the
    mutex of the map is free and so is the mutex of every entry. *)
Theorem LockMap_drains n s :
  reachable n s →
  (∀ k s', nsteps progress k s s' → k ≤ 10 * n) ∧
  (∃ s', rtc progress s s' ∧ nf progress s') ∧
  (∀ s', rtc progress s s' → nf progress s' →
     threads s' = replicate n Idle ∧ mux s' = None ∧ ∀ k m, mutexMap s' !! k = Some m → mutexes s' !! m = Some None).
Proof.
  intros Hr. split_and!.
  - intros k s' Hk%progress_bounded. pose proof (total_bound s) as Hb. rewrite (reachable_threads _ _ Hr) in Hb. lia.
  - by apply (comes_to_rest n).
  - intros s' Hp Hnf. pose proof (progress_reachable _ _ _ Hr Hp) as Hr'. pose proof (reachable_inv _ _ Hr') as Hi.
    assert (∀ t p, threads s' !! t = Some p → p = Idle) as Hidle.
    { intros t p Ht. destruct (decide (p = Idle)) as [|Hne]; [done|]. destruct (some_step _ _ _ Hi Ht Hne) as (t' & q & s2 & Hq & En).
      destruct Hnf. by exists s2, t', q. }
    split_and!.
    + symmetry. apply replicate_as_elem_of. split; [by apply reachable_threads|]. by intros p [t Ht]%list_elem_of_lookup; apply (Hidle t).
    + destruct (mux s') as [t|] eqn:Em; [|done]. apply (inv_mux _ Hi) in Em as (p & Hp' & Hmux). by rewrite (Hidle _ _ Hp') in Hmux.
    + intros k m Hk. destruct (lookup_lt_is_Some_2 (mutexes s') m) as [[t|] Hm]; [by apply (inv_alloc _ Hi k)| |done].
      destruct (proj2 (inv_owns _ Hi t k)) as (p & Hp' & Ho); [by exists m|]. by rewrite (Hidle _ _ Hp') in Ho.
Qed.

(** ** Running a schedule *)

(** One element of a schedule: a goroutine calls LockEntry, or takes its next step. *)
Definition exec (a : nat * option string) (s : state) : option state :=
  p ← threads s !! a.1;
  match p, a.2 with
  | Idle, Some k => Some (set_pc a.1 (LockMapMutex k) s)
  | _, None => match next a.1 p s with Next s' => Some s' | _ => None end
  | _, _ => None
  end.

Fixpoint run (l : list (nat * option string)) (s : state) : option state :=
  match l with [] => Some s | a :: l => s' ← exec a s; run l s' end.

Lemma run_steps l s s' : run l s = Some s' → rtc step s s'.
Proof.
  revert s. induction l as [|[t o] l IH]; intros s; cbn [run]; [by intros [= ->]|].
  intros (s1 & E & Hr)%bind_Some. eapply rtc_l; [|by apply IH]. unfold exec in E. apply bind_Some in E as (p & Ht & E). simpl in *.
  destruct o as [k|].
  - destruct p; try done. injection E as <-. by apply step_call.
  - assert (match next t p s with Next s' => Some s' | _ => None end = Some s1) as E' by by destruct p.
    destruct (next t p s) eqn:En; try done. injection E' as <-. by eapply step_next.
Qed.

Definition accesses_map (p : pc) : bool :=
  match p with CheckEntry _ | ReadEntry _ | UCheckEntry _ | UUnlockMutex _ => true | _ => false end.

(** Two goroutines that lock the entries a and b, until the first is about to read the map and the second to write it. *)
Definition race_schedule : list (nat * option string) := [(0, Some "a"); (1, Some "b"); (0, None); (0, None); (0, None); (1, None)].
Definition race_state : state := default (NewLockMap 2) (run race_schedule (NewLockMap 2)).

(** C35 - The accesses of the map race in one place only: lockEntry reads the map after the map's mutex is released, so a
    goroutine may be about to read it while another one is about to add an entry (the runtime ends the program when it
    notices); any other two accesses are by one goroutine. *)
Theorem LockMap_race :
  (reachable 2 race_state ∧ threads race_state = [ReadEntry "a"; CheckEntry "b"] ∧ mutexMap race_state !! "b" = None) ∧
  (∀ n s t1 t2 p1 p2, reachable n s → threads s !! t1 = Some p1 → threads s !! t2 = Some p2 → accesses_map p1 = true → accesses_map p2 = true →
     t1 = t2 ∨ (∃ k, p1 = ReadEntry k) ∨ (∃ k, p2 = ReadEntry k)).
Proof.
  split.
  - split; [|by vm_compute]. apply (run_steps race_schedule). vm_compute. reflexivity.
  - intros n s t1 t2 p1 p2 Hi%reachable_inv H1 H2 A1 A2.
    destruct (in_mux p1) eqn:M1; [|right; left; destruct p1; try done; by eexists].
    destruct (in_mux p2) eqn:M2; [|right; right; destruct p2; try done; by eexists]. left.
    assert (mux s = Some t1) as E1 by (apply (inv_mux _ Hi); eauto). assert (mux s = Some t2) as E2 by (apply (inv_mux _ Hi); eauto). congruence.
Qed.

(** The first goroutine holds a and the second waits for it. *)
Definition waiting_schedule : list (nat * option string) :=
  [(0, Some "a"); (0, None); (0, None); (0, None); (0, None); (0, None); (1, Some "a"); (1, None); (1, None); (1, None); (1, None)].
Definition waiting_state : state := default (NewLockMap 2) (run waiting_schedule (NewLockMap 2)).

Lemma LockMap_correct_witness :
  threads waiting_state = [Holds "a"; LockMutex "a" 0] ∧ next 1 (LockMutex "a" 0) waiting_state = Blocked ∧ ∃ t', can_step waiting_state t'.
Proof.
  split; [vm_compute; reflexivity|]. split; [vm_compute; reflexivity|].
  eapply (LockMap_correct 2 waiting_state) with (t := 1); [|vm_compute; reflexivity|discriminate].
  apply (run_steps waiting_schedule). vm_compute. reflexivity.
Defined.

(** The two goroutines of that state need eleven more steps: five and six. *)
Lemma LockMap_drains_witness :
  total waiting_state = 11 ∧ (∀ k s', nsteps progress k waiting_state s' → k ≤ 10 * 2) ∧ ∃ s', rtc progress waiting_state s' ∧ nf progress s'.
Proof.
  split; [vm_compute; reflexivity|].
  destruct (LockMap_drains 2 waiting_state) as (H1 & H2 & _); [|by split].
  apply (run_steps waiting_schedule). vm_compute. reflexivity.
Defined.
(** In that state the first goroutine holds the entry; its next instruction changes no lock. *)
Lemma LockMap_refines_witness :
  (∃ p, threads waiting_state !! 0 = Some p ∧ owns p = Some "a") ∧ locks_step (holder waiting_state) (holder (set_pc 0 (ULockMapMutex "a") waiting_state)).
Proof.
  assert (reachable 2 waiting_state) as Hr by (apply (run_steps waiting_schedule); vm_compute; reflexivity).
  destruct (LockMap_refines 2 waiting_state) as (_ & H1 & H2). split.
  - apply (H2 Hr 0 "a"). vm_compute. reflexivity.
  - apply (H1 _ Hr). apply (step_next 0 (Holds "a")); vm_compute; reflexivity.
Defined.
End LockMap.
