(* ===== verification/Effects.v ===== *)
(** * Effects: state, errors and deferred calls

    A Go function that reads and writes the driver and calls the outside is a function from a state to a result and a
    state.  [return ..., err] is [throw], a deferred call is [defer], and a call whose error the code inspects itself is
    [attempt]. *)
From S2P Require Import Prelude GoUnicode GoStrings GoErr.
From stdpp Require Import options.

Definition io (S A : Type) : Type := S → result A * S.

#[export] Instance io_ret {S} : MRet (io S) := λ A a s, (Ok a, s).
#[export] Instance io_bind {S} : MBind (io S) := λ A B f m s,
  match m s with
  | (Ok a, s') => f a s'
  | (Err e, s') => (Err e, s')
  end.

Section io.
Context {S : Type}.
Implicit Types s : S.

Definition throw {A} (e : error) : io S A := λ s, (Err e, s).
Definition gets {A} (f : S → A) : io S A := λ s, (Ok (f s), s).
Definition modify (f : S → S) : io S () := λ s, (Ok (), f s).

(** A call that returns values of its own, errors included. *)
Definition lift {A} (f : S → A * S) : io S A := λ s, let '(a, s') := f s in (Ok a, s').

(** A call whose error the caller looks at. *)
Definition attempt {A} (m : io S A) : io S (result A) := λ s, let '(r, s') := m s in (Ok r, s').

(** [if err != nil { return nil, f(err) }]. *)
Definition wrap_err {A} (f : error → error) (m : io S A) : io S A := λ s,
  match m s with (Err e, s') => (Err (f e), s') | r => r end.

(** [defer]: [f] runs with the result, whatever it is. *)
Definition defer {A} (f : result A → S → S) (m : io S A) : io S A := λ s, let '(r, s') := m s in (r, f r s').

Definition from_result {A} (r : result A) : io S A := λ s, (r, s).
Definition throw_if (b : bool) (e : error) : io S () := if b then throw e else mret ().
Definition throw_some (o : option error) : io S () := match o with Some e => throw e | None => mret () end.
Definition when (b : bool) (m : io S ()) : io S () := if b then m else mret ().

(** The error of a call that returns only an error. *)
Definition error_of {A} (r : result A) : option error := match r with Ok _ => None | Err e => Some e end.

(** ** Laws *)

Lemma run_bind {A B} (m : io S A) (f : A → io S B) s :
  (m ≫= f) s = match m s with (Ok a, s') => f a s' | (Err e, s') => (Err e, s') end.
Proof. done. Qed.

Lemma run_bind_Ok {A B} (m : io S A) (f : A → io S B) s a s' : m s = (Ok a, s') → (m ≫= f) s = f a s'.
Proof. intros E. by rewrite run_bind, E. Qed.
Lemma run_bind_Err {A B} (m : io S A) (f : A → io S B) s e s' : m s = (Err e, s') → (m ≫= f) s = (Err e, s').
Proof. intros E. by rewrite run_bind, E. Qed.

(** A computation that succeeds went through a success of its first part. *)
Lemma bind_inv_Ok {A B} (m : io S A) (f : A → io S B) s b s' :
  (m ≫= f) s = (Ok b, s') → ∃ a s1, m s = (Ok a, s1) ∧ f a s1 = (Ok b, s').
Proof. rewrite run_bind. destruct (m s) as [[a|e] s1]; [eauto|done]. Qed.
Lemma wrap_err_inv_Ok {A} g (m : io S A) s a s' : wrap_err g m s = (Ok a, s') → m s = (Ok a, s').
Proof. unfold wrap_err. by destruct (m s) as [[|]]. Qed.
Lemma from_result_inv_Ok {A} (r : result A) s a s' : from_result r s = (Ok a, s') → r = Ok a ∧ s' = s.
Proof. unfold from_result. by intros [= -> ->]. Qed.
Lemma throw_some_inv_Ok o s a s' : throw_some o s = (Ok a, s') → o = None ∧ s' = s.
Proof. destruct o; [done|]. by intros [= _ ->]. Qed.
Lemma throw_if_inv_Ok b e s a s' : throw_if b e s = (Ok a, s') → b = false ∧ s' = s.
Proof. destruct b; [done|]. by intros [= _ ->]. Qed.

(** [m] leaves [P] true of the state, whatever the result. *)
Definition preserves {A} (P : S → Prop) (m : io S A) : Prop := ∀ s, P s → P (m s).2.

Lemma preserves_ret {A} (P : S → Prop) (a : A) : preserves P (mret a).
Proof. by intros s. Qed.
Lemma preserves_throw {A} (P : S → Prop) e : preserves P (throw (A := A) e).
Proof. by intros s. Qed.
Lemma preserves_gets {A} (P : S → Prop) (f : S → A) : preserves P (gets f).
Proof. by intros s. Qed.
Lemma preserves_from_result {A} (P : S → Prop) (r : result A) : preserves P (from_result r).
Proof. by intros s. Qed.
Lemma preserves_bind {A B} (P : S → Prop) (m : io S A) (f : A → io S B) :
  preserves P m → (∀ a, preserves P (f a)) → preserves P (m ≫= f).
Proof.
  intros Hm Hf s Hs. rewrite run_bind. specialize (Hm s Hs). destruct (m s) as [[a|e] s']; [by apply Hf|done].
Qed.
Lemma preserves_modify (P : S → Prop) (f : S → S) : (∀ s, P s → P (f s)) → preserves P (modify f).
Proof. intros Hf s Hs. apply (Hf s Hs). Qed.
Lemma preserves_lift {A} (P : S → Prop) (f : S → A * S) : (∀ s, P s → P (f s).2) → preserves P (lift f).
Proof. intros Hf s Hs. unfold lift. specialize (Hf s Hs). by destruct (f s). Qed.
Lemma preserves_attempt {A} (P : S → Prop) (m : io S A) : preserves P m → preserves P (attempt m).
Proof. intros Hm s Hs. unfold attempt. specialize (Hm s Hs). by destruct (m s). Qed.
Lemma preserves_wrap_err {A} (P : S → Prop) g (m : io S A) : preserves P m → preserves P (wrap_err g m).
Proof. intros Hm s Hs. unfold wrap_err. specialize (Hm s Hs). by destruct (m s) as [[|]]. Qed.
Lemma preserves_defer {A} (P : S → Prop) g (m : io S A) :
  preserves P m → (∀ r s, P s → P (g r s)) → preserves P (defer g m).
Proof. intros Hm Hg s Hs. unfold defer. specialize (Hm s Hs). destruct (m s). by apply Hg. Qed.
Lemma preserves_if {A} (P : S → Prop) (b : bool) (m k : io S A) :
  preserves P m → preserves P k → preserves P (if b then m else k).
Proof. by destruct b. Qed.
Lemma preserves_throw_if (P : S → Prop) b e : preserves P (throw_if b e).
Proof. destruct b; [apply preserves_throw|apply preserves_ret]. Qed.
Lemma preserves_throw_some (P : S → Prop) o : preserves P (throw_some o).
Proof. destruct o; [apply preserves_throw|apply preserves_ret]. Qed.
Lemma preserves_when (P : S → Prop) b m : preserves P m → preserves P (when b m).
Proof. intros H. destruct b; [done|apply preserves_ret]. Qed.

(** A deferred call runs on every path. *)
Lemma run_defer {A} f (m : io S A) s : defer f m s = ((m s).1, f (m s).1 (m s).2).
Proof. unfold defer. by destruct (m s). Qed.
End io.

#[global] Typeclasses Opaque io.

(** Loops over a list that may return early. *)
Fixpoint for_each {S A B} (f : B → A → io S B) (b : B) (l : list A) : io S B :=
  match l with
  | [] => mret b
  | a :: l => b' ← f b a; for_each f b' l
  end.

Lemma preserves_for_each {S A B} (P : S → Prop) (f : B → A → io S B) l b :
  (∀ b a, preserves P (f b a)) → preserves P (for_each f b l).
Proof.
  intros Hf. revert b. induction l as [|a l IH]; intros b; [apply preserves_ret|].
  apply preserves_bind; [apply Hf|auto].
Qed.

(** wait.ExponentialBackoff and ExponentialBackoffWithContext without cancellation: the condition runs until it is done or
    fails, at most [steps] times.  The condition returns [(done, err)]; when it is done, [Some] of the variables it assigned. *)
Definition ErrWaitTimeout : error := Plain "timed out waiting for the condition".

Fixpoint ExponentialBackoff {S A} (steps : nat) (condition : io S (option A)) : io S A :=
  match steps with
  | 0 => throw ErrWaitTimeout
  | Datatypes.S steps' =>
    done ← condition;
    match done with
    | Some a => mret a
    | None => ExponentialBackoff steps' condition
    end
  end.

Lemma backoff_inv_Ok {S A} n (c : io S (option A)) s a s' : ExponentialBackoff n c s = (Ok a, s') → ∃ t t', c t = (Ok (Some a), t').
Proof.
  revert s. induction n as [|n IH]; intros s; [done|]. cbn [ExponentialBackoff]. intros ([b|] & s1 & E & Hr)%bind_inv_Ok; [|by eapply IH].
  injection Hr as -> _. eauto.
Qed.
Lemma preserves_backoff {S A} (P : S → Prop) n (c : io S (option A)) : preserves P c → preserves P (ExponentialBackoff n c).
Proof.
  intros Hc. induction n as [|n IH]; [apply preserves_throw|]. apply preserves_bind; [done|].
  intros [a|]; [apply preserves_ret|done].
Qed.

Create HintDb preserves.
#[export] Hint Resolve preserves_ret preserves_throw preserves_gets preserves_from_result preserves_attempt
  preserves_wrap_err preserves_throw_if preserves_throw_some preserves_when preserves_backoff : preserves.

(** Walk through a computation, splitting binds and branches. *)
Ltac preserve :=
  repeat first
    [ progress intros
    | apply preserves_bind
    | apply preserves_ret | apply preserves_throw | apply preserves_gets | apply preserves_from_result
    | apply preserves_throw_if | apply preserves_throw_some
    | apply preserves_attempt | apply preserves_wrap_err | apply preserves_when
    | apply preserves_for_each | apply preserves_backoff
    | match goal with |- preserves _ (match ?x with _ => _ end) => destruct x end
    | solve [auto with preserves] ].

(** Decompose a run that succeeded. *)
Ltac inv_run :=
  repeat match goal with
  | H : (_ ≫= _) _ = (Ok _, _) |- _ => apply bind_inv_Ok in H as (? & ? & ? & H)
  | H : wrap_err _ _ _ = (Ok _, _) |- _ => apply wrap_err_inv_Ok in H
  | H : from_result _ _ = (Ok _, _) |- _ => apply from_result_inv_Ok in H as [? ->]
  | H : throw_some _ _ = (Ok _, _) |- _ => apply throw_some_inv_Ok in H as [? ->]
  | H : throw_if _ _ _ = (Ok _, _) |- _ => apply throw_if_inv_Ok in H as [? ->]
  | H : mret _ _ = (Ok _, _) |- _ => injection H as ? ?; subst
  | H : throw _ _ = (Ok _, _) |- _ => discriminate H
  end.
