(* ===== verification/World.v ===== *)
(** * World: the driver's configuration, its mutable state and the outside

    [Driver] holds what NewDriver fixes, [CloudConfig] what the driver reads of the cloud provider configuration.
    [st] is what changes: the set of volume locks, the maps and timed caches, the samples recorded, and the outside world
    [W], of which nothing is assumed.  [Ops] lists the calls that leave the repository: Kubernetes API, Azure clients,
    processes, files and mounts.  Each is a function of the world that returns what the Go call returns. *)
From S2P Require Import Prelude GoUnicode GoStrings GoErr Attributes CsiCommon Metrics Effects Fields.
From stdpp Require Import options.

Record CloudConfig := {
  c_Cloud : string;
  c_DisableAzureStackCloud : bool;
  c_ResourceGroup : string;
  c_SubscriptionID : string;
  c_TenantID : string;
  c_Location : string;
  c_VnetName : string;
  c_VnetResourceGroup : string;
  c_SubnetName : string;
  c_NetworkResourceSubscriptionID : string;
  c_StorageEndpointSuffix : string;          (* of Environment; empty when Environment is nil *)
  c_UseManagedIdentityExtension : bool;
  c_UserAssignedIdentityID : string;
  c_AADClientID : string;
  c_AADClientSecret : string;
  c_CloudProviderBackoffRetries : Z;
  c_has_compute_factory : bool;              (* ComputeClientFactory != nil *)
  c_has_network_factory : bool;              (* NetworkClientFactory != nil *)
}.

Record Driver := {
  d_csi : CSIDriver;
  d_cloud : CloudConfig;
  d_has_kube : bool;                         (* KubeClient != nil *)
  d_has_network_factory : bool;              (* networkClientFactory != nil *)
  d_blobfuseProxyEndpoint : string;
  d_enableBlobMockMount : bool;
  d_enableBlobfuseProxy : bool;
  d_allowInlineVolumeKeyAccessWithIdentity : bool;
  d_appendTimeStampInCacheDir : bool;
  d_appendMountErrorHelpLink : bool;
  d_mountPermissions : N;
  d_enableAznfsMount : bool;
  d_fsGroupChangePolicy : string;
  d_sasTokenExpirationMinutes : Z;
  d_waitForAzCopyTimeoutMinutes : Z;
  d_volStatsCacheMinutes : Z;
  d_requiredAzCopyToTrust : bool;
}.

Definition d_Name (d : Driver) : string := csi_Name (d_csi d).

(** ** Timed caches

    azcache.TimedCache with the getter of NewDriver, which finds nothing: an entry is its data and its creation time, and
    an expired entry is emptied by the read that finds it. *)
Abbreviation timed_cache V := (gmap string (V * Z)).

Section cache.
Context {V : Type}.

Definition cache_get (ttl now : Z) (key : string) (c : timed_cache V) : option V * timed_cache V :=
  match c !! key with
  | Some (data, createdOn) => if (now - createdOn <? ttl)%Z then (Some data, c) else (None, delete key c)
  | None => (None, c)
  end.

Definition cache_set (now : Z) (key : string) (data : V) (c : timed_cache V) : timed_cache V := <[key := (data, now)]> c.

(** What is read was written less than [ttl] ago under the same key. *)
Lemma cache_get_set ttl now now' key key' v (c : timed_cache V) :
  (cache_get ttl now' key' (cache_set now key v c)).1 =
  if decide (key' = key) then (if (now' - now <? ttl)%Z then Some v else None) else (cache_get ttl now' key' c).1.
Proof.
  unfold cache_get, cache_set. destruct (decide (key' = key)) as [->|].
  - rewrite lookup_insert_eq. by destruct (_ <? _)%Z.
  - rewrite lookup_insert_ne by done. destruct (c !! key') as [[w t]|]; [|done]. by destruct (_ <? _)%Z.
Qed.
End cache.

Definition minutes (m : Z) : Z := (m * 60 * 1000000000)%Z.

Record volume_stats := { vs_available : Z; vs_capacity : Z; vs_used : Z; vs_inodesFree : Z; vs_inodes : Z; vs_inodesUsed : Z }.

Record st (W : Type) := {
  s_locks : gset string;                     (* volumeLocks.locks *)
  s_volMap : strmap;                         (* volMap: volume name to account *)
  s_dataPlaneAPIVolCache : timed_cache ();
  s_accountSearchCache : timed_cache string;
  s_azcopySasTokenCache : timed_cache string;
  s_volStatsCache : timed_cache volume_stats;
  s_subnetCache : timed_cache (list string);
  s_samples : list sample;                   (* recorded so far, oldest first *)
  s_world : W;
}.
Arguments s_locks {W}. Arguments s_volMap {W}. Arguments s_dataPlaneAPIVolCache {W}.
Arguments s_accountSearchCache {W}. Arguments s_azcopySasTokenCache {W}. Arguments s_volStatsCache {W}.
Arguments s_subnetCache {W}. Arguments s_samples {W}. Arguments s_world {W}.

(** The options of an account search: storage.AccountOptions, the fields that the driver fills. *)
Record AccountOptions := {
  ao_Name : string; ao_Type : string; ao_Kind : string; ao_SubscriptionID : string; ao_ResourceGroup : string;
  ao_Location : string; ao_EnableHTTPSTrafficOnly : bool; ao_VirtualNetworkResourceIDs : list string; ao_Tags : strmap;
  ao_MatchTags : bool; ao_IsHnsEnabled : option bool; ao_EnableNfsV3 : option bool; ao_AllowBlobPublicAccess : option bool;
  ao_PublicNetworkAccess : string; ao_AllowSharedKeyAccess : option bool; ao_RequireInfrastructureEncryption : option bool;
  ao_VNetResourceGroup : string; ao_VNetName : string; ao_VNetLinkName : string; ao_SubnetName : string;
  ao_AccessTier : string; ao_CreatePrivateEndpoint : option bool; ao_PrivateDNSZoneResourceGroup : string;
  ao_StorageEndpointSuffix : string; ao_EnableBlobVersioning : option bool; ao_SoftDeleteBlobs : Z;
  ao_SoftDeleteContainers : Z; ao_GetLatestAccountKey : bool; ao_SourceAccountName : string;
}.

Record Subnet := { sn_Name : option string; sn_ServiceEndpoints : list (option string * list string) }.    (* service, locations *)

(** A resource.Quantity: its text and its value when it fits an int64; and the metrics of a file system. *)
Record quantity := { q_text : string; q_AsInt64 : option Z }.
Record fs_metrics := {
  fm_Available : quantity; fm_Capacity : quantity; fm_Used : quantity; fm_InodesFree : quantity; fm_Inodes : quantity; fm_InodesUsed : quantity;
}.

(** A container as the data plane client addresses it. *)
Record ContainerRef := { cr_account : string; cr_key : string; cr_suffix : string; cr_container : string }.

Class Ops (W : Type) := {
  (* clock and identifiers *)
  op_now : W → Z * W;
  op_uuid : W → string * W;
  (* Kubernetes secrets *)
  op_secret_get : string → string → W → result strmap * W;                    (* namespace, name *)
  op_secret_create : string → string → strmap → W → option error * W;
  is_already_exists : error → bool;
  (* Azure: key vault, accounts, blob containers, subnets *)
  op_auth_provider : W → option error * W;                                    (* azclient.NewAuthProvider *)
  op_vault_client : string → option error;                                    (* azsecrets.NewClient *)
  op_vault_secret : string → string → string → W → result (option string) * W; (* GetSecret: vault url, name, version; a value or nil *)
  op_account_client : string → W → option error * W;                          (* GetAccountClientForSub *)
  op_storage_accesskey : string → string → string → bool → W → result string * W;
  op_accesskey_from_token : string → string → string → string → string → string → W → result string * W;
  op_ensure_account : AccountOptions → string → W → result (string * string) * W;
  op_blob_client : string → W → option error * W;                             (* GetBlobContainerClientForSub *)
  op_create_container : string → string → string → string → strmap → W → option error * W;
  op_delete_container : string → string → string → string → W → option error * W;
  op_get_container : string → string → string → string → W → result (option (option bool)) * W;
  op_new_client : string → string → string → option error;                    (* azstorage.NewClient *)
  op_dp_create : ContainerRef → strmap → W → option error * W;
  op_dp_delete : ContainerRef → W → option error * W;
  op_dp_exists : ContainerRef → W → result bool * W;
  op_subnet_get : string → string → string → W → result Subnet * W;
  op_subnet_list : string → string → W → result (list Subnet) * W;
  op_subnet_update : string → string → string → Subnet → W → option error * W;
  op_shared_key_credential : string → string → option error;                  (* azblob.NewSharedKeyCredential *)
  op_service_client : string → string → string → option error;                (* service.NewClientWithSharedKeyCredential *)
  op_sas_url : string → string → string → Z → W → result string * W;          (* GetSASURL: account, key, url, minutes *)
  url_parse_error : string → error;                                           (* the text of an error of url.Parse *)
  (* processes *)
  op_shell : string → list string → W → (string * option error) * W;          (* sh -c *)
  op_exec : string → list string → list string → W → (string * option error) * W;
  op_timer_fires : Z → W → bool * W;                                          (* a timer of so many seconds, before what it guards *)
  (* the blobfuse proxy *)
  op_proxy_dial : W → option error * W;
  op_dial_unix : string → W → option error * W;                               (* net.DialTimeout *)
  op_proxy_mount : string → string → list string → W → (string * option error) * W;
  op_proxy_capabilities : string → W → result bool * W;
  (* files and mounts *)
  is_not_exist : error → bool;
  is_exist : error → bool;
  is_corrupted_mnt : error → bool;
  op_read_file : string → W → result string * W;
  op_write_file : string → string → W → option error * W;
  op_lstat : string → W → result N * W;                                       (* the mode *)
  op_chmod : string → N → W → option error * W;
  op_mkdir_all : string → N → W → option error * W;
  op_remove : string → W → option error * W;
  op_setenv : string → string → W → W;
  op_path_exists : string → W → (bool * option error) * W;
  op_is_likely_not_mnt : string → W → (bool * option error) * W;
  op_mount_list : W → result (list string) * W;
  op_abs : string → W → result string * W;
  op_mount : string → string → string → list string → W → option error * W;
  op_unmount : string → W → option error * W;
  op_probe_mount : string → W → option error * W;
  op_cleanup_mount_point : string → W → option error * W;                     (* mount.CleanupMountPoint *)
  op_set_ownership : string → Z → string → W → option error * W;              (* volume.NewVolumeOwnership *)
  op_fs_metrics : string → W → result fs_metrics * W;                         (* volume.NewMetricsStatFS *)
  (* parsing done by libraries *)
  op_unmarshal_token : string → result string;                                (* json.Unmarshal of a token request *)
}.

(** ** Running on the state *)

Section run.
Context {W : Type}.

Definition set_locks (f : gset string → gset string) (s : st W) : st W :=
  {| s_locks := f (s_locks s); s_volMap := s_volMap s; s_dataPlaneAPIVolCache := s_dataPlaneAPIVolCache s;
     s_accountSearchCache := s_accountSearchCache s; s_azcopySasTokenCache := s_azcopySasTokenCache s;
     s_volStatsCache := s_volStatsCache s; s_subnetCache := s_subnetCache s; s_samples := s_samples s; s_world := s_world s |}.
Definition set_volMap (f : strmap → strmap) (s : st W) : st W :=
  {| s_locks := s_locks s; s_volMap := f (s_volMap s); s_dataPlaneAPIVolCache := s_dataPlaneAPIVolCache s;
     s_accountSearchCache := s_accountSearchCache s; s_azcopySasTokenCache := s_azcopySasTokenCache s;
     s_volStatsCache := s_volStatsCache s; s_subnetCache := s_subnetCache s; s_samples := s_samples s; s_world := s_world s |}.
Definition set_dataPlane (c : timed_cache ()) (s : st W) : st W :=
  {| s_locks := s_locks s; s_volMap := s_volMap s; s_dataPlaneAPIVolCache := c;
     s_accountSearchCache := s_accountSearchCache s; s_azcopySasTokenCache := s_azcopySasTokenCache s;
     s_volStatsCache := s_volStatsCache s; s_subnetCache := s_subnetCache s; s_samples := s_samples s; s_world := s_world s |}.
Definition set_accountSearch (c : timed_cache string) (s : st W) : st W :=
  {| s_locks := s_locks s; s_volMap := s_volMap s; s_dataPlaneAPIVolCache := s_dataPlaneAPIVolCache s;
     s_accountSearchCache := c; s_azcopySasTokenCache := s_azcopySasTokenCache s;
     s_volStatsCache := s_volStatsCache s; s_subnetCache := s_subnetCache s; s_samples := s_samples s; s_world := s_world s |}.
Definition set_sasTokens (c : timed_cache string) (s : st W) : st W :=
  {| s_locks := s_locks s; s_volMap := s_volMap s; s_dataPlaneAPIVolCache := s_dataPlaneAPIVolCache s;
     s_accountSearchCache := s_accountSearchCache s; s_azcopySasTokenCache := c;
     s_volStatsCache := s_volStatsCache s; s_subnetCache := s_subnetCache s; s_samples := s_samples s; s_world := s_world s |}.
Definition set_volStats (c : timed_cache volume_stats) (s : st W) : st W :=
  {| s_locks := s_locks s; s_volMap := s_volMap s; s_dataPlaneAPIVolCache := s_dataPlaneAPIVolCache s;
     s_accountSearchCache := s_accountSearchCache s; s_azcopySasTokenCache := s_azcopySasTokenCache s;
     s_volStatsCache := c; s_subnetCache := s_subnetCache s; s_samples := s_samples s; s_world := s_world s |}.
Definition set_subnets (c : timed_cache (list string)) (s : st W) : st W :=
  {| s_locks := s_locks s; s_volMap := s_volMap s; s_dataPlaneAPIVolCache := s_dataPlaneAPIVolCache s;
     s_accountSearchCache := s_accountSearchCache s; s_azcopySasTokenCache := s_azcopySasTokenCache s;
     s_volStatsCache := s_volStatsCache s; s_subnetCache := c; s_samples := s_samples s; s_world := s_world s |}.
Definition add_samples (l : list sample) (s : st W) : st W :=
  {| s_locks := s_locks s; s_volMap := s_volMap s; s_dataPlaneAPIVolCache := s_dataPlaneAPIVolCache s;
     s_accountSearchCache := s_accountSearchCache s; s_azcopySasTokenCache := s_azcopySasTokenCache s;
     s_volStatsCache := s_volStatsCache s; s_subnetCache := s_subnetCache s; s_samples := s_samples s ++ l; s_world := s_world s |}.
Definition set_world (w : W) (s : st W) : st W :=
  {| s_locks := s_locks s; s_volMap := s_volMap s; s_dataPlaneAPIVolCache := s_dataPlaneAPIVolCache s;
     s_accountSearchCache := s_accountSearchCache s; s_azcopySasTokenCache := s_azcopySasTokenCache s;
     s_volStatsCache := s_volStatsCache s; s_subnetCache := s_subnetCache s; s_samples := s_samples s; s_world := w |}.

Abbreviation IO A := (io (st W) A).

(** A call to the outside; [ask] keeps its error as a value, [call] returns early with it. *)
Definition ask {A} (op : W → A * W) : IO A := λ s, let '(a, w) := op (s_world s) in (Ok a, set_world w s).
Definition call {A} (op : W → result A * W) : IO A := λ s, let '(r, w) := op (s_world s) in (r, set_world w s).
Definition call_err (op : W → option error * W) : IO () := o ← ask op; throw_some o.

(** ** The volume locks *)

Definition volumeOperationAlreadyExistsFmt : string := "An operation with the given Volume ID %s already exists".

Definition TryAcquire (volumeID : string) : IO bool := λ s,
  if decide (volumeID ∈ s_locks s) then (Ok false, s) else (Ok true, set_locks (λ l, {[ volumeID ]} ∪ l) s).
Definition Release (volumeID : string) (s : st W) : st W := set_locks (λ l, l ∖ {[ volumeID ]}) s.

(** Releasing what was just acquired. *)
Lemma Release_acquired key (s : st W) : (key ∉ s_locks s) → Release key (set_locks (λ l, {[ key ]} ∪ l) s) = s.
Proof.
  intros Hl. destruct s as [locks]. unfold Release, set_locks. simpl in *. f_equal. apply set_eq. intros x.
  rewrite elem_of_difference, elem_of_union, elem_of_singleton. destruct (decide (x = key)) as [->|]; tauto.
Qed.

(** [if acquired := TryAcquire(key); !acquired { return Aborted }; defer Release(key)]. *)
Definition with_volume_lock {A} (key : string) (aborted : IO A) (body : IO A) : IO A :=
  acquired ← TryAcquire key;
  if acquired : bool then defer (λ _, Release key) body else aborted.

(** [defer func() { mc.Observe...(isOperationSucceeded) }()], the body returning its response and the final value of the
    flag, which is still false on every error.  The volume id that a handler adds to the context reaches the log only. *)
Definition with_metric {A} (observe : bool → list sample) (body : IO (A * bool)) : IO A :=
  r ← defer (λ r, add_samples (observe (match r with Ok (_, b) => b | Err _ => false end))) body;
  mret r.1.

(** A read of a timed cache, at the time the clock shows. *)
Definition read_cache {V} `{Ops W} (ttl : Z) (proj : st W → timed_cache V) (upd : timed_cache V → st W → st W) (key : string) :
    IO (option V) := λ s,
  let '(now, w) := op_now (s_world s) in
  let '(data, c) := cache_get ttl now key (proj s) in
  (Ok data, upd c (set_world w s)).
Definition write_cache {V} `{Ops W} (proj : st W → timed_cache V) (upd : timed_cache V → st W → st W) (key : string) (v : V) :
    IO () := λ s,
  let '(now, w) := op_now (s_world s) in
  (Ok (), upd (cache_set now key v (proj s)) (set_world w s)).

(** The caches of NewDriver with their expiry times. *)
Definition dataPlaneAPIVolCache_get `{Ops W} (key : string) : IO (option ()) :=
  read_cache (minutes (24 * 30 * 60)) s_dataPlaneAPIVolCache set_dataPlane key.
Definition accountSearchCache_get `{Ops W} (key : string) : IO (option string) :=
  read_cache (minutes 1) s_accountSearchCache set_accountSearch key.
Definition azcopySasTokenCache_get `{Ops W} (key : string) : IO (option string) :=
  read_cache (minutes 15) s_azcopySasTokenCache set_sasTokens key.
Definition subnetCache_get `{Ops W} (key : string) : IO (option (list string)) :=
  read_cache (minutes 10) s_subnetCache set_subnets key.
Definition volStatsCache_get `{Ops W} (ttlMinutes : Z) (key : string) : IO (option volume_stats) :=
  read_cache (minutes ttlMinutes) s_volStatsCache set_volStats key.
Definition dataPlaneAPIVolCache_set `{Ops W} (key : string) : IO () := write_cache s_dataPlaneAPIVolCache set_dataPlane key ().
Definition accountSearchCache_set `{Ops W} (key v : string) : IO () := write_cache s_accountSearchCache set_accountSearch key v.
Definition azcopySasTokenCache_set `{Ops W} (key v : string) : IO () := write_cache s_azcopySasTokenCache set_sasTokens key v.
Definition subnetCache_set `{Ops W} (key : string) (v : list string) : IO () := write_cache s_subnetCache set_subnets key v.
Definition volStatsCache_set `{Ops W} (key : string) (v : volume_stats) : IO () := write_cache s_volStatsCache set_volStats key v.

(** A metric of the Azure API around a call that returns an error. *)
Definition with_azure_metric {A} (operation resourceGroup subsID : string) (body : IO A) : IO A :=
  defer (λ r, add_samples [AzureOperation operation resourceGroup subsID (match r with Ok _ => true | Err _ => false end)]) body.
End run.

Abbreviation IO A := (io (st _) A).
