(* ===== verification/Azcopy.v ===== *)
(** * Azcopy: job queries of pkg/util/util.go

    The text that "azcopy jobs list | grep" and "azcopy jobs show | grep" print is parsed into a job state. *)
From S2P Require Import Prelude GoUnicode GoStrings GoErr Effects World.
From stdpp Require Import options.

Inductive AzcopyJobState :=
| AzcopyJobError | AzcopyJobNotFound | AzcopyJobRunning | AzcopyJobCompleted | AzcopyJobCompletedWithErrors
| AzcopyJobCompletedWithSkipped | AzcopyJobCompletedWithErrorsAndSkipped.

#[export] Instance AzcopyJobState_eq_dec : EqDecision AzcopyJobState.
Proof. solve_decision. Defined.

Definition AzcopyJobState_String (s : AzcopyJobState) : string :=
  match s with
  | AzcopyJobError => "Error" | AzcopyJobNotFound => "NotFound" | AzcopyJobRunning => "Running"
  | AzcopyJobCompleted => "Completed" | AzcopyJobCompletedWithErrors => "CompletedWithErrors"
  | AzcopyJobCompletedWithSkipped => "CompletedWithSkipped"
  | AzcopyJobCompletedWithErrorsAndSkipped => "CompletedWithErrorsAndSkipped"
  end.

Definition newline : string := String (byte_of 10) EmptyString.

(** The final states that a status of the list names. *)
Definition completed_state (status : string) : option AzcopyJobState :=
  if decide (status = "Completed") then Some AzcopyJobCompleted
  else if decide (status = "CompletedWithErrors") then Some AzcopyJobCompletedWithErrors
  else if decide (status = "CompletedWithSkipped") then Some AzcopyJobCompletedWithSkipped
  else if decide (status = "CompletedWithErrorsAndSkipped") then Some AzcopyJobCompletedWithErrorsAndSkipped
  else None.

(** The loop of parseAzcopyJobList over the jobs; returns (jobid, state, err). *)
Fixpoint job_list_loop (jobid : string) (jobs : list string) : string * AzcopyJobState * option error :=
  match jobs with
  | [] => if decide (jobid = "") then (jobid, AzcopyJobNotFound, None) else (jobid, AzcopyJobRunning, None)
  | job :: jobs =>
    match Split job newline with
    | seg0 :: _ :: seg2 :: _ :: _ =>
      match Split seg2 ": " with
      | _ :: status :: _ =>
        if decide (status = "InProgress") then job_list_loop seg0 jobs
        else match completed_state status with
             | Some s => (jobid, s, None)
             | None => job_list_loop jobid jobs
             end
      | _ => (jobid, AzcopyJobError, Some (errorf "error parsing jobs list status: %s" [seg2]))
      end
    | _ => (jobid, AzcopyJobError, Some (errorf "error parsing jobs list: %s" [job]))
    end
  end.

Definition parseAzcopyJobList (joblist : string) : string * AzcopyJobState * option error :=
  match Split joblist "JobId: " with
  | _ :: job :: jobs => job_list_loop "" (job :: jobs)
  | _ => ("", AzcopyJobNotFound, None)
  end.

Definition parseAzcopyJobShow (jobshow : string) : AzcopyJobState * string * option error :=
  match Split jobshow ": " with
  | _ :: seg1 :: _ => (AzcopyJobRunning, ReplaceAll seg1 newline "", None)
  | _ => (AzcopyJobError, "", Some (errorf "error parsing jobs summary: %s in Percent Complete (approx)" [jobshow]))
  end.

Definition is_completed (s : AzcopyJobState) : bool :=
  bool_decide (s = AzcopyJobCompleted) || bool_decide (s = AzcopyJobCompletedWithErrors)
  || bool_decide (s = AzcopyJobCompletedWithSkipped) || bool_decide (s = AzcopyJobCompletedWithErrorsAndSkipped).

(** isAzcopyJobActiveOrCompleted of pkg/blob/controllerserver.go. *)
Definition isAzcopyJobActiveOrCompleted (s : AzcopyJobState) : bool :=
  match s with
  | AzcopyJobRunning | AzcopyJobCompleted | AzcopyJobCompletedWithErrors | AzcopyJobCompletedWithSkipped
  | AzcopyJobCompletedWithErrorsAndSkipped => true
  | AzcopyJobError | AzcopyJobNotFound => false
  end.

Section azcopy.
Context {W : Type} `{Ops W}.

(** [err != nil && err.Error() != "exit status 1"]: grep exits with 1 when it finds nothing. *)
Definition list_failed (err : option error) : option error :=
  match err with Some e => if decide (Error e = "exit status 1") then None else Some e | None => None end.

Definition parse_failed (state : AzcopyJobState) (perr : option error) : bool :=
  bool_decide (perr ≠ None) || bool_decide (state = AzcopyJobError).

(** GetAzcopyJob returns a state, a percentage and an error, all of which callers use. *)
Definition GetAzcopyJob (dstBlobContainer : string) (authAzcopyEnv : list string) :
    IO (AzcopyJobState * string * option error) :=
  '(out, err) ← ask (op_shell (Sprintf "azcopy jobs list | grep %s -B 3" [dstBlobContainer]) authAzcopyEnv);
  match list_failed err with
  | Some e => mret (AzcopyJobError, "", Some (errorf "couldn't list jobs in azcopy %v" [Error e]))
  | None =>
    let '(jobid, jobState, perr) := parseAzcopyJobList out in
    if parse_failed jobState perr then
      mret (AzcopyJobError, "", Some (errorf "couldn't parse azcopy job list in azcopy %v" [error_text perr]))
    else if is_completed jobState then mret (jobState, "100.0", perr)
    else if decide (jobid = "") then mret (jobState, "", perr)
    else
      '(summary, serr) ← ask (op_shell (Sprintf "azcopy jobs show %s | grep Percent" [jobid]) authAzcopyEnv);
      match serr with
      | Some e => mret (AzcopyJobError, "", Some (errorf "couldn't show jobs summary in azcopy %v" [Error e]))
      | None =>
        let '(showState, percent, perr) := parseAzcopyJobShow summary in
        if parse_failed showState perr then
          mret (AzcopyJobError, "", Some (errorf "couldn't parse azcopy job show in azcopy %v" [error_text perr]))
        else mret (showState, percent, None)
      end
  end.

Definition CleanJobs : IO (string * option error) := ask (op_shell "azcopy jobs clean" []).
End azcopy.

(** ** Facts *)

(** A job as the list prints it: the id, the start time, the status line, the command, and the lines that follow the
    command up to the next job or the end of the output: none when the output ends with the command, an empty one when it
    ends with a newline, the separator -- of grep and an empty one before another job. *)
Record job := { j_id : string; j_start : string; j_status : string; j_command : string; j_rest : list string }.
Definition status_line (j : job) : string := "Status: " +:+ j_status j.
Definition job_lines (j : job) : list string := j_id j :: j_start j :: status_line j :: j_command j :: j_rest j.
Definition print_job (j : job) : string := Join (job_lines j) newline.
Definition one_line (s : string) : Prop := byte_of 10 ∉ chars s.
Definition job_ok (j : job) : Prop :=
  j_id j ≠ "" ∧ Forall one_line (job_lines j) ∧ Split (status_line j) ": " = ["Status"; j_status j].

(** What the list of jobs means: the first completed status met decides, unless none is; then a job in progress. *)
Fixpoint decide_jobs (running : string) (jobs : list job) : string * AzcopyJobState :=
  match jobs with
  | [] => (running, if decide (running = "") then AzcopyJobNotFound else AzcopyJobRunning)
  | j :: jobs =>
    match completed_state (j_status j) with
    | Some s => (running, s)
    | None => decide_jobs (if decide (j_status j = "InProgress") then j_id j else running) jobs
    end
  end.

Lemma split_print_job j : job_ok j → Split (print_job j) newline = job_lines j.
Proof. intros (_ & Hl & _). unfold print_job, newline. by apply Split_Join. Qed.

Lemma job_list_loop_spec running jobs :
  Forall job_ok jobs → job_list_loop running (print_job <$> jobs) = (decide_jobs running jobs, None).
Proof.
  intros H. revert running. induction H as [|j jobs Hj _ IH]; intros running.
  - simpl. by destruct (decide (running = "")).
  - rewrite fmap_cons. cbn [job_list_loop decide_jobs]. rewrite split_print_job by done.
    destruct Hj as (_ & _ & Hs). unfold job_lines. rewrite Hs.
    destruct (decide (j_status j = "InProgress")) as [E|].
    + by rewrite E, IH.
    + destruct (completed_state (j_status j)); [done|apply IH].
Qed.

(** The same, as a search: the first job with a completed status, else any job in progress. *)
Definition jobs_state (jobs : list job) : AzcopyJobState :=
  match find_first (λ j, bool_decide (is_Some (completed_state (j_status j)))) jobs with
  | Some j => default AzcopyJobNotFound (completed_state (j_status j))
  | None => if existsb (λ j, bool_decide (j_status j = "InProgress")) jobs then AzcopyJobRunning else AzcopyJobNotFound
  end.

Lemma decide_jobs_state running jobs :
  Forall job_ok jobs →
  (decide_jobs running jobs).2 =
  match find_first (λ j, bool_decide (is_Some (completed_state (j_status j)))) jobs with
  | Some j => default AzcopyJobNotFound (completed_state (j_status j))
  | None => if negb (bool_decide (running = "")) || existsb (λ j, bool_decide (j_status j = "InProgress")) jobs
            then AzcopyJobRunning else AzcopyJobNotFound
  end.
Proof.
  intros H. revert running. induction H as [|j jobs (Hid & _) _ IH]; intros running.
  - simpl. rewrite orb_false_r. destruct (decide (running = "")) as [->|]; [done|]. by rewrite bool_decide_eq_false_2.
  - cbn [decide_jobs find_first existsb]. destruct (completed_state (j_status j)) as [s|] eqn:E.
    + rewrite bool_decide_eq_true_2 by done. by rewrite E.
    + rewrite bool_decide_eq_false_2 by by intros [? ?]. rewrite IH.
      destruct (decide (j_status j = "InProgress")) as [->|].
      * rewrite (bool_decide_eq_false_2 (j_id j = "")), (bool_decide_eq_true_2 ("InProgress" = "InProgress")) by done. simpl. by rewrite orb_true_r.
      * by rewrite (bool_decide_eq_false_2 (j_status j = _)).
Qed.

Lemma completed_is_not_running status s : completed_state status = Some s → s ≠ AzcopyJobRunning.
Proof. unfold completed_state. by repeat (case_decide; [by intros [= <-]|]). Qed.

(** A job that is reported as running is one of the list that is in progress. *)
Lemma decide_jobs_running running jobs :
  (decide_jobs running jobs).2 = AzcopyJobRunning →
  (decide_jobs running jobs).1 = running ∧ running ≠ "" ∨ ∃ j, j ∈ jobs ∧ j_status j = "InProgress" ∧ j_id j = (decide_jobs running jobs).1.
Proof.
  revert running. induction jobs as [|j jobs IH]; intros running; cbn [decide_jobs]; [simpl; case_decide; [done|by left]|].
  destruct (completed_state (j_status j)) as [s|] eqn:E; [by intros ?%(completed_is_not_running _ _ E)|].
  intros [[H1 H2]|(j' & Hin & Hj)]%IH; [|right; exists j'; split; [by right|done]].
  destruct (decide (j_status j = "InProgress")) as [Ej|]; [|by left]. right. exists j. split_and!; [by left|done|done].
Qed.

(** C39 - Parsing the list of azcopy jobs: take an output that consists of a header and jobs, each of them an id, a start time,
    a status line, a command and any further lines (so with or without the -- that grep prints between jobs, and with or
    without a newline at the end, as in the example of GetAzcopyJob).  The state is that of the first job with one of the
    four completed statuses; without one it is Running exactly when some job is in progress, and NotFound otherwise; there
    is no error; and the id of a state Running is the one of a job in progress. *)
Theorem parseAzcopyJobList_spec out header jobs :
  Forall job_ok jobs → Split out "JobId: " = header :: (print_job <$> jobs) →
  ∃ jobid, parseAzcopyJobList out = (jobid, jobs_state jobs, None) ∧
    (jobs_state jobs = AzcopyJobRunning → ∃ j, j ∈ jobs ∧ j_status j = "InProgress" ∧ j_id j = jobid).
Proof.
  intros Hj Hs. unfold parseAzcopyJobList. rewrite Hs. pose proof (decide_jobs_state "" jobs Hj) as Hd.
  destruct jobs as [|j jobs]; [by exists ""|]. rewrite fmap_cons.
  change (print_job j :: (print_job <$> jobs)) with (print_job <$> j :: jobs). rewrite job_list_loop_spec by done.
  unfold jobs_state. simpl negb in Hd. cbn [orb] in Hd. rewrite <- Hd.
  exists (decide_jobs "" (j :: jobs)).1. split; [by destruct (decide_jobs "" (j :: jobs))|].
  by intros [[_ ?]|?]%decide_jobs_running.
Qed.

(** The example of the comment of GetAzcopyJob. *)
Definition example_job (id start status : string) (rest : list string) : job :=
  {| j_id := id; j_start := "Start Time: " +:+ start; j_status := status;
     j_command := "Command: copy https://{accountName}.file.core.windows.net/{srcBlobContainer}{SAStoken} https://{accountName}.file.core.windows.net/{dstBlobContainer}{SAStoken} --recursive --check-length=false";
     j_rest := rest |}.
Definition example_jobs : list job :=
  [example_job "ed1c3833-eaff-fe42-71d7-513fb065a9d9" "Monday, 07-Aug-23 03:29:54 UTC" "Completed" ["--"; ""];
   example_job "b598cce3-9aa9-9640-7793-c2bf3c385a9a" "Wednesday, 09-Aug-23 09:09:03 UTC" "Cancelled" []].

Lemma parseAzcopyJobList_spec_witness :
  ∃ jobid, parseAzcopyJobList (Join ("" :: (print_job <$> example_jobs)) "JobId: ") = (jobid, AzcopyJobCompleted, None).
Proof.
  destruct (parseAzcopyJobList_spec (Join ("" :: (print_job <$> example_jobs)) "JobId: ") "" example_jobs) as (jobid & E & _).
  - repeat constructor; try (apply (bool_decide_unpack _); vm_compute; exact I); done.
  - vm_compute. reflexivity.
  - exists jobid. exact E.
Defined.
