(* ===== verification/Proxy.v ===== *)
(** * Proxy: pkg/blobfuse-proxy/server/server.go

    The host side of a mount: the choice of the blobfuse version, the flags that the proxy adds to the arguments, and the
    process it starts.  The version string of the build, the parsed os-release file and the PATH of the process are
    arguments. *)
From S2P Require Import Prelude GoUnicode GoStrings GoErr Regex Fields Attributes Util Effects World MountOptions ContainerNames MountSafety.
From stdpp Require Import options.

Inductive BlobfuseVersion := BlobfuseV1 | BlobfuseV2.

#[export] Instance BlobfuseVersion_eq_dec : EqDecision BlobfuseVersion.
Proof. solve_decision. Defined.

Record OsInfo := { os_Distro : string; os_Version : string; os_Variant : string }.

(** [osinfo.Version >= v] on strings. *)
Definition version_at_least (version v : string) : bool := Stdlib.Strings.String.leb v version.

Definition getBlobfuseVersion (osinfo : result OsInfo) : BlobfuseVersion :=
  match osinfo with
  | Err _ => BlobfuseV1
  | Ok o =>
    if EqualFold (os_Distro o) "azurelinux" && EqualFold (os_Variant o) "azurecontainerlinux" then BlobfuseV2
    else if (EqualFold (os_Distro o) "mariner" || EqualFold (os_Distro o) "azurelinux") && version_at_least (os_Version o) "2.0" then BlobfuseV2
    else if EqualFold (os_Distro o) "rhcos" || EqualFold (os_Distro o) "rhel" then BlobfuseV2
    else if EqualFold (os_Distro o) "ubuntu" && version_at_least (os_Version o) "22.04" then BlobfuseV2
    else if EqualFold (os_Distro o) "flatcar" then BlobfuseV2
    else BlobfuseV1
  end.

Definition telemetryTagPrefix : string := "blobpartner-csi/".
Definition distributedCacheDiscoveryFlag : string := "--distributed-cache-discovery-endpoint".

(** Replace the first field that starts with "--telemetry=", if there is one. *)
Fixpoint retag (telemetryTag : string) (fields : list string) : option (list string) :=
  match fields with
  | [] => None
  | arg :: fields =>
    if HasPrefix arg "--telemetry=" then
      let telemetryVal := TrimPrefix arg "--telemetry=" in
      if Contains telemetryVal telemetryTag then None
      else Some (("--telemetry=" +:+ telemetryTag +:+ "," +:+ telemetryVal) :: fields)
    else (cons arg) <$> retag telemetryTag fields
  end.

Definition addTelemetryTagToArgs (driverVersion args : string) : string :=
  let telemetryTag := telemetryTagPrefix +:+ driverVersion in
  if negb (Contains args "--telemetry") then args +:+ " " +:+ "--telemetry=" +:+ telemetryTag
  else if negb (Contains args telemetryTagPrefix) then
    match retag telemetryTag (Fields args) with
    | Some argSlice => Join argSlice " "
    | None => args
    end
  else args.

Definition add_missing (flag default args : string) : string := if Contains args flag then args else args +:+ " " +:+ default.

(** The binary and the argument vector of MountAzureBlob. *)
Definition proxy_command (version : BlobfuseVersion) (driverVersion protocol args : string) : string * list string :=
  if bool_decide (protocol = Fuse2) || bool_decide (version = BlobfuseV2) then
    let args := "mount " +:+ args in
    let args := add_missing "--ignore-open-flags" "--ignore-open-flags=true" args in
    let args := add_missing "--disable-version-check" "--disable-version-check=true" args in
    let args := addTelemetryTagToArgs driverVersion args in
    ("blobfuse2", Split (TrimDuplicatedSpace args) " ")
  else ("blobfuse", Split (TrimDuplicatedSpace args) " ").

Section proxy.
Context {W : Type} `{Ops W}.

(** MountAzureBlob returns the output together with the error. *)
Definition MountAzureBlob (version : BlobfuseVersion) (driverVersion pathEnv mountArgs protocol : string) (authEnv : list string) :
    IO (string * option error) :=
  let '(name, argv) := proxy_command version driverVersion protocol mountArgs in
  '(output, err) ← ask (op_exec name argv authEnv);
  match err with
  | None => mret (output, None)
  | Some e =>
    if Contains (Error e) "executable file not found"
    then mret (output, Some (errorf "%w, PATH=%s, %s" [Error e; pathEnv; output]))
    else mret (output, Some (errorf "%w %s" [Error e; output]))
  end.

Definition GetBlobfuseCapabilities (version : BlobfuseVersion) (protocol : string) : IO bool :=
  if bool_decide (protocol ≠ Fuse2) && bool_decide (version ≠ BlobfuseV2) then mret false
  else
    '(output, err) ← ask (op_exec "blobfuse2" ["mount"; "--help"] []);
    match err with
    | Some e => throw (errorf "failed to inspect blobfuse2 mount capabilities: %w: %s" [Error e; TrimSpace output])
    | None => mret (Contains output distributedCacheDiscoveryFlag)
    end.
End proxy.

(** The address that BlobfuseProxyMonitor.isProxyReachable dials (pkg/blob/proxy_monitor.go). *)
Definition proxy_address (endpoint : string) : string :=
  let address := TrimPrefix endpoint "unix://" in
  if HasPrefix address "/" then address else "/" +:+ address.

(** ** Facts *)

(** What the proxy appends when it rewrites nothing. *)
Definition proxy_extra (driverVersion args : string) : list string :=
  (if Contains args "--ignore-open-flags" then [] else ["--ignore-open-flags=true"]) ++
  (if Contains args "--disable-version-check" then [] else ["--disable-version-check=true"]) ++
  ["--telemetry=" +:+ telemetryTagPrefix +:+ driverVersion].

Lemma Contains_app_l s t sub : Contains s sub = true → Contains (s +:+ t) sub = true.
Proof.
  rewrite !Contains_spec. intros (a & b & ->). exists a, (b +:+ t). by rewrite <- !str_app_assoc.
Qed.

Lemma Contains_app_r s t sub : Contains t sub = true → Contains (s +:+ t) sub = true.
Proof. rewrite !Contains_spec. intros (a & b & ->). exists (s +:+ a), b. by rewrite <- !str_app_assoc. Qed.

(** A flag does not contain the space that separates the parts. *)
Lemma Contains_app_space s t sub :
  " "%char ∉ chars sub → sub ≠ "" → Contains (s +:+ " " +:+ t) sub = Contains s sub || Contains t sub.
Proof.
  intros Hs Hn. apply eq_iff_eq_true. rewrite orb_true_iff. split.
  - intros (a & b & E)%Contains_spec. symmetry in E. change (" " +:+ t) with (String " " t) in E.
    symmetry in E. apply app_str_cases in E as [(k & Ea & Et)|(k & -> & E2)].
    + right. apply Contains_spec. exists k, b. done.
    + left. apply Contains_spec.
      assert (sub +:+ b = k +:+ String " " t) as E3 by done. symmetry in E3.
      apply app_str_cases in E3 as [(j & -> & _)|(j & -> & _)].
      * destruct Hs. rewrite chars_app. apply elem_of_app. right. by left.
      * by exists a, j.
  - intros [?|?]; [by apply Contains_app_l|by do 2 apply Contains_app_r].
Qed.

Lemma re_words_snoc s t : t ≠ "" → no_space t → re_words (s +:+ " " +:+ t) = re_words s ++ [t].
Proof. intros Hn Ht. rewrite re_words_app. by rewrite (re_words_single t). Qed.

Lemma add_missing_words flag dflt args :
  dflt ≠ "" → no_space dflt →
  re_words (add_missing flag dflt args) = re_words args ++ (if Contains args flag then [] else [dflt]).
Proof.
  intros Hn Hd. unfold add_missing. destruct (Contains args flag); [by rewrite app_nil_r|by apply re_words_snoc].
Qed.

Lemma add_missing_Contains flag dflt args sub :
  " "%char ∉ chars sub → sub ≠ "" → Contains dflt sub = false → Contains (add_missing flag dflt args) sub = Contains args sub.
Proof.
  intros Hs Hn Hd. unfold add_missing. destruct (Contains args flag); [done|].
  rewrite Contains_app_space by done. by rewrite Hd, orb_false_r.
Qed.

Lemma mount_Contains args sub :
  " "%char ∉ chars sub → sub ≠ "" → Contains "mount" sub = false → Contains ("mount " +:+ args) sub = Contains args sub.
Proof.
  intros Hs Hn Hm. change ("mount " +:+ args) with ("mount" +:+ " " +:+ args). rewrite Contains_app_space by done.
  by rewrite Hm.
Qed.

Ltac closed_bool := first [reflexivity | discriminate | apply (bool_decide_unpack _); vm_compute; exact I].

(** The proxy's argument vector: for the fuse2 protocol, or on a host that defaults to blobfuse2, and arguments that
    set no telemetry tag, the proxy starts blobfuse2 with "mount", the words of the arguments it was sent, unchanged and
    in order, then --ignore-open-flags=true and --disable-version-check=true when the arguments do not mention them, and
    the driver's telemetry tag. *)
Theorem proxy_command_words version driverVersion protocol args :
  protocol = Fuse2 ∨ version = BlobfuseV2 → Contains args "--telemetry" = false → no_space driverVersion →
  proxy_command version driverVersion protocol args = ("blobfuse2", "mount" :: re_words args ++ proxy_extra driverVersion args).
Proof.
  intros Hp Ht Hv. unfold proxy_command.
  replace (bool_decide (protocol = Fuse2) || bool_decide (version = BlobfuseV2)) with true
    by (symmetry; rewrite orb_true_iff, !bool_decide_eq_true; done).
  set (a1 := add_missing "--ignore-open-flags" "--ignore-open-flags=true" ("mount " +:+ args)).
  set (a2 := add_missing "--disable-version-check" "--disable-version-check=true" a1).
  assert (Contains a2 "--telemetry" = false) as Ht2.
  { unfold a2, a1. rewrite !add_missing_Contains, mount_Contains by closed_bool. exact Ht. }
  unfold addTelemetryTagToArgs. rewrite Ht2. cbn [negb].
  set (tag := "--telemetry=" +:+ telemetryTagPrefix +:+ driverVersion).
  assert (no_space tag) as Htag by (unfold tag, no_space; rewrite !chars_app, !Forall_app; split_and!; [by repeat constructor..|done]).
  assert (ends_word tag = true) as Hend by by apply ends_word_all.
  rewrite Split_trim_words; [| |by do 2 apply ends_word_app].
  - rewrite re_words_snoc by done. unfold a2, a1. rewrite !add_missing_words by closed_bool.
    change ("mount " +:+ args) with ("mount" +:+ " " +:+ args) at 1. rewrite re_words_app. unfold proxy_extra.
    change (add_missing "--ignore-open-flags" "--ignore-open-flags=true" ("mount " +:+ args)) with a1. fold tag.
    assert (Contains a1 "--disable-version-check" = Contains args "--disable-version-check") as ->.
    { unfold a1. rewrite add_missing_Contains, mount_Contains by closed_bool. done. }
    rewrite mount_Contains by closed_bool. simpl. f_equal. f_equal. by rewrite <- !app_assoc.
  - unfold a2, a1, add_missing. destruct (Contains ("mount " +:+ args) _); destruct (Contains _ "--disable-version-check"); reflexivity.
Qed.

Lemma proxy_command_words_witness :
  proxy_command BlobfuseV1 "v1.27.0" "fuse2" "/var/t --log-level=LOG_OFF  --ignore-open-flags=false" =
  ("blobfuse2", "mount" :: re_words "/var/t --log-level=LOG_OFF  --ignore-open-flags=false" ++
     proxy_extra "v1.27.0" "/var/t --log-level=LOG_OFF  --ignore-open-flags=false").
Proof.
  apply proxy_command_words; [by left|vm_compute; reflexivity|]. apply (bool_decide_unpack _). vm_compute. exact I.
Defined.
