(* ===== verification/NetURL.v ===== *)
(** * NetURL: what the driver uses of Go's [net/url] and [net] packages

    [url.Parse] with the parts of the result that parseInlineVolumeServer reads, [URL.Hostname], [URL.Port], and whether
    [net.ParseIP] accepts a text. *)
From S2P Require Import Prelude GoUnicode GoStrings GoErr.
From stdpp Require Import options.

Record URL := {
  u_Scheme : string;
  u_has_user : bool;
  u_Host : string;
  u_Path : string;
  u_RawQuery : string;
  u_Fragment : string;
}.

Definition is_letter (c : ascii) : bool := let b := byte_val c in in_range 97 122 b || in_range 65 90 b.
Definition is_digit (c : ascii) : bool := in_range 48 57 (byte_val c).
Definition hex_val (c : ascii) : option N :=
  match digit_val c with Some d => if (d <? 16)%N then Some d else None | None => None end.
Definition char_in (c : ascii) (s : string) : bool := bool_decide (c ∈ chars s).

(** getScheme: [None] is the error "missing protocol scheme". *)
Fixpoint get_scheme_go (raw acc s : string) : option (string * string) :=
  match s with
  | EmptyString => Some ("", raw)
  | String c s' =>
    if is_letter c then get_scheme_go raw (acc +:+ String c "") s'
    else if is_digit c || char_in c "+-." then
      if decide (acc = "") then Some ("", raw) else get_scheme_go raw (acc +:+ String c "") s'
    else if Ascii.eqb c ":" then (if decide (acc = "") then None else Some (acc, s'))
    else Some ("", raw)
  end.
Definition get_scheme (raw : string) : option (string * string) := get_scheme_go raw "" raw.

(** unescape in the modes encodeHost ([host]) and encodePath, encodeFragment, encodeUserPassword. *)
Definition host_char_ok (c : ascii) : bool :=
  let b := byte_val c in
  (128 <=? b)%N || is_letter c || is_digit c || char_in c "!$&'()*+,;=:[]<>-_.~" || N.eqb b 34.

Fixpoint unescape (host : bool) (s : string) : option string :=
  match s with
  | EmptyString => Some ""
  | String c s1 =>
    if Ascii.eqb c "%" then
      match s1 with
      | String h (String l s2) =>
        match hex_val h, hex_val l with
        | Some vh, Some vl =>
          if host && (vh <? 8)%N && negb (N.eqb vh 2 && N.eqb vl 5) then None
          else String (byte_of (vh * 16 + vl)) <$> unescape host s2
        | _, _ => None
        end
      | _ => None
      end
    else if host && negb (host_char_ok c) then None
    else String c <$> unescape host s1
  end.

(** [s] cut at the last occurrence of [c]. *)
Fixpoint cut_last (s : string) (c : ascii) : option (string * string) :=
  match s with
  | EmptyString => None
  | String d s' =>
    match cut_last s' c with
    | Some (a, b) => Some (String d a, b)
    | None => if Ascii.eqb d c then Some ("", s') else None
    end
  end.

(** validOptionalPort of the text after the colon, and of a text that starts with one. *)
Definition valid_port (port : string) : bool := forallb is_digit (chars port).
Definition valid_optional_port (s : string) : bool :=
  match s with EmptyString => true | String c p => Ascii.eqb c ":" && valid_port p end.

Definition parse_host (host : string) : option string :=
  match host with
  | String "[" _ =>
    match cut_last host "]" with
    | None => None
    | Some (before, colonPort) =>
      if negb (valid_optional_port colonPort) then None
      else match cut_at before "%25" with
           | Some (h1, zone) =>
             match unescape true h1, unescape false zone, unescape true ("]" +:+ colonPort) with
             | Some a, Some b, Some c => Some (a +:+ "%" +:+ b +:+ c)
             | _, _, _ => None
             end
           | None => unescape true host
           end
    end
  | _ =>
    match cut_last host ":" with
    | Some (_, port) => if valid_port port then unescape true host else None
    | None => unescape true host
    end
  end.

Definition valid_userinfo (s : string) : bool :=
  forallb (λ c, is_letter c || is_digit c || char_in c "-._:~!$&'()*+,;=%@") (chars s).

(** parseAuthority: whether there is a user, and the host. *)
Definition parse_authority (authority : string) : option (bool * string) :=
  match cut_last authority "@" with
  | None => (λ h, (false, h)) <$> parse_host authority
  | Some (userinfo, rest) =>
    match parse_host rest with
    | None => None
    | Some h =>
      if negb (valid_userinfo userinfo) then None
      else let '(user, password, _) := Cut userinfo ":" in
           match unescape false user, unescape false password with
           | Some _, Some _ => Some (true, h)
           | _, _ => None
           end
    end
  end.

Definition has_ctl_byte (s : string) : bool := existsb (λ c, (byte_val c <? 32)%N || N.eqb (byte_val c) 127) (chars s).

Definition count_char (c : ascii) (s : string) : nat := length (filter (λ d, d = c) (chars s)).

(** The rest and the raw query: a lone question mark at the end is dropped. *)
Definition cut_query (rest : string) : string * string :=
  if HasSuffix rest "?" && (count_char "?" rest =? 1) then (str_take (slen rest - 1) rest, "")
  else let '(r, q, _) := Cut rest "?" in (r, q).

Definition parse_url_noerr (raw : string) : option URL :=
  if has_ctl_byte raw then None
  else if decide (raw = "*") then
    Some {| u_Scheme := ""; u_has_user := false; u_Host := ""; u_Path := "*"; u_RawQuery := ""; u_Fragment := "" |}
  else
    '(scheme, rest) ← get_scheme raw;
    let scheme := ToLower scheme in
    let '(rest, query) := cut_query rest in
    let mk user host path :=
      {| u_Scheme := scheme; u_has_user := user; u_Host := host; u_Path := path; u_RawQuery := query; u_Fragment := "" |} in
    if negb (HasPrefix rest "/") then
      if negb (bool_decide (scheme = "")) then Some (mk false "" "")   (* opaque *)
      else if Contains (Cut rest "/").1.1 ":" then None
      else mk false "" <$> unescape false rest
    else if (negb (bool_decide (scheme = "")) || negb (HasPrefix rest "///")) && HasPrefix rest "//" then
      let after := str_drop 2 rest in
      let '(authority, path) := match cut_at after "/" with
                                | Some (a, p) => (a, "/" +:+ p)
                                | None => (after, "")
                                end in
      '(user, host) ← parse_authority authority;
      mk user host <$> unescape false path
    else mk false "" <$> unescape false rest.

(** url.Parse; [None] is an error, which the driver only reports. *)
Definition url_Parse (raw : string) : option URL :=
  let '(u, frag, _) := Cut raw "#" in
  url ← parse_url_noerr u;
  if decide (frag = "") then Some url
  else f ← unescape false frag;
       Some {| u_Scheme := u_Scheme url; u_has_user := u_has_user url; u_Host := u_Host url; u_Path := u_Path url;
               u_RawQuery := u_RawQuery url; u_Fragment := f |}.

(** splitHostPort. *)
Definition split_host_port (hostPort : string) : string * string :=
  let '(host, port) := match cut_last hostPort ":" with
                       | Some (h, p) => if valid_port p then (h, p) else (hostPort, "")
                       | None => (hostPort, "")
                       end in
  if HasPrefix host "[" && HasSuffix host "]" then (str_take (slen host - 2) (str_drop 1 host), port) else (host, port).
Definition Hostname (u : URL) : string := (split_host_port (u_Host u)).1.
Definition Port (u : URL) : string := (split_host_port (u_Host u)).2.

(** ** IP addresses *)

Definition ipv4_field (s : string) : bool :=
  match s with
  | EmptyString => false
  | String c rest =>
    forallb is_digit (chars s) && (bool_decide (rest = "") || negb (Ascii.eqb c "0"))
    && match digits_val 10 0 (chars s) with Some v => (v <=? 255)%N | None => false end
  end.
Definition parse_ipv4 (s : string) : bool :=
  let parts := Split s "." in (length parts =? 4) && forallb ipv4_field parts.

(** The leading hexadecimal digits of a text, and the rest. *)
Fixpoint hex_span (s : string) : nat * string :=
  match s with
  | String c s' => match hex_val c with Some _ => let '(n, r) := hex_span s' in (S n, r) | None => (0, s) end
  | EmptyString => (0, "")
  end.

(** The loop of netip.parseIPv6: [fuel] fields of two bytes are still free, [ell] tells that "::" was seen. *)
Fixpoint ipv6_loop (fuel : nat) (ell : bool) (s : string) : bool :=
  match fuel with
  | 0 => bool_decide (s = "") && negb ell
  | S fuel' =>
    let '(n, rest) := hex_span s in
    if (n =? 0) || (4 <? n) then false
    else match rest with
         | EmptyString => if fuel' =? 0 then negb ell else ell
         | String "." _ =>
           if (negb ell && negb (fuel =? 2)) || (fuel <? 2) then false
           else parse_ipv4 s && (if fuel =? 2 then negb ell else ell)
         | String ":" EmptyString => false
         | String ":" (String ":" rest') =>
           if ell then false
           else match rest' with EmptyString => negb (fuel' =? 0) | _ => ipv6_loop fuel' true rest' end
         | String ":" rest' => ipv6_loop fuel' ell rest'
         | _ => false
         end
  end.

Definition parse_ipv6 (s : string) : bool :=
  if char_in "%" s then false
  else if HasPrefix s "::" then
    match str_drop 2 s with EmptyString => true | s' => ipv6_loop 8 true s' end
  else ipv6_loop 8 false s.

(** [net.ParseIP(s) != nil]: the first dot, colon or percent sign decides the syntax. *)
Fixpoint first_mark (s : string) : option ascii :=
  match s with
  | EmptyString => None
  | String c s' => if char_in c ".:%" then Some c else first_mark s'
  end.
Definition ParseIP (s : string) : bool :=
  match first_mark s with
  | Some "."%char => parse_ipv4 s
  | Some ":"%char => parse_ipv6 s
  | _ => false
  end.

Example url_ex : (λ u, (u_Scheme u, Hostname u, Port u, u_Path u, u_RawQuery u, u_has_user u)) <$> url_Parse "HTTPS://me@acct.blob.core.windows.net:443/a%20b?x=1#f" =
  Some ("https", "acct.blob.core.windows.net", "443", "/a b", "x=1", true).
Proof. vm_compute. reflexivity. Qed.
Example url_bad : (url_Parse "https://a b/", url_Parse "https://a:b/", url_Parse "://x") = (None, None, None).
Proof. vm_compute. reflexivity. Qed.
Example ip_ex : (ParseIP <$> ["10.0.0.1"; "::1"; "fe80::1:2"; "1:2:3:4:5:6:7:8"; "::ffff:1.2.3.4"; "1.2.3"; "01.2.3.4"; "1::2::3"; "a.b"; "1:2:3:4:5:6:7::"])
  = [true; true; true; true; true; false; false; false; false; true].
Proof. vm_compute. reflexivity. Qed.
