(* ===== verification/InlineServer.v ===== *)
(** * InlineServer: the server attribute of inline volumes that use a managed identity

    parseInlineVolumeServer, validateInlineVolumeServerHost, isAzureDNSZoneStorageHost and normalizeInlineVolumeServer of
    pkg/blob/blob.go. *)
From S2P Require Import Prelude GoUnicode GoStrings GoErr Fields NetURL.
From stdpp Require Import options.

Definition allowed_hosts (account suffix : string) : list string :=
  let secondaryAccount := account +:+ "-secondary" in
  (λ f, Sprintf f.1 [f.2 : string; suffix]) <$>
  [("%s.blob.%s", account); ("%s.dfs.%s", account); ("%s.privatelink.blob.%s", account); ("%s.privatelink.dfs.%s", account);
   ("%s.blob.%s", secondaryAccount); ("%s.dfs.%s", secondaryAccount);
   ("%s.privatelink.blob.%s", secondaryAccount); ("%s.privatelink.dfs.%s", secondaryAccount)].

(** The checks on the zone label "z<n>". *)
Definition zone_id_ok (zoneID : string) : bool :=
  match chars zoneID with
  | [c] => in_range 49 57 (byte_val c)
  | [c; d] => in_range 49 57 (byte_val c) && in_range 48 57 (byte_val d)
  | _ => false
  end.

Definition isAzureDNSZoneStorageHost (host account : string) : bool :=
  let parts := Split host "." in
  let part i := default "" (parts !! i) in
  if negb (length parts =? 6) && negb (length parts =? 7) then false
  else if negb (bool_decide (part 0 = account)) && negb (bool_decide (part 0 = account +:+ "-secondary")) then false
  else
    let '(zoneID, hasZonePrefix) := CutPrefix (part 1) "z" in
    if negb hasZonePrefix then false
    else if negb (zone_id_ok zoneID) then false
    else if (length parts =? 7) && negb (bool_decide (part 2 = "privatelink")) then false
    else
      let serviceIndex := if length parts =? 7 then 3 else 2 in
      if negb (bool_decide (part serviceIndex = "blob")) && negb (bool_decide (part serviceIndex = "dfs")) then false
      else bool_decide (Join (drop (S serviceIndex) parts) "." = "storage.azure.net").

Definition validateInlineVolumeServerHost (server host accountName storageEndpointSuffix : string) : result () :=
  let account := ToLower (TrimSpace accountName) in
  let suffix := ToLower (TrimChar (TrimSpace storageEndpointSuffix) ".") in
  if bool_decide (account = "") || bool_decide (suffix = "") then
    Err (errorf "cannot validate server %q without a storage account and endpoint suffix" [server])
  else if bool_decide (host ∈ allowed_hosts account suffix) then Ok ()
  else if bool_decide (suffix = defaultStorageEndPointSuffix) && isAzureDNSZoneStorageHost host account then Ok ()
  else Err (errorf "invalid server %q: hostname must match storage account %q in the configured Azure cloud" [server; accountName]).

Definition parseInlineVolumeServer (server : string) : result string :=
  _ ← guard_err (bool_decide (server = "")) (errorf "server must not be empty" []);
  _ ← guard_err (negb (bool_decide (TrimSpace server = server)))
        (errorf "server %q must not contain leading or trailing whitespace" [server]);
  let hasScheme := Contains server "://" in
  let serverURL := if hasScheme then server else "https://" +:+ server in
  match url_Parse serverURL with
  | None => Err (errorf "invalid server %q" [server])   (* the text of the url error is not modelled *)
  | Some parsed =>
    _ ← guard_err (hasScheme && negb (EqualFold (u_Scheme parsed) "https"))
          (errorf "invalid server %q: only HTTPS endpoints are allowed" [server]);
    _ ← guard_err (u_has_user parsed) (errorf "invalid server %q: user information is not allowed" [server]);
    _ ← guard_err (negb (bool_decide (Port parsed = ""))) (errorf "invalid server %q: explicit ports are not allowed" [server]);
    _ ← guard_err (negb (bool_decide (u_Path parsed = "")) && negb (bool_decide (u_Path parsed = "/")))
          (errorf "invalid server %q: paths are not allowed" [server]);
    _ ← guard_err (negb (bool_decide (u_RawQuery parsed = "")) || negb (bool_decide (u_Fragment parsed = "")))
          (errorf "invalid server %q: query strings and fragments are not allowed" [server]);
    let host := ToLower (TrimSuffix (Hostname parsed) ".") in
    _ ← guard_err (bool_decide (host = "")) (errorf "invalid server %q: hostname is required" [server]);
    _ ← guard_err (ParseIP host) (errorf "invalid server %q: IP addresses are not allowed" [server]);
    Ok host
  end.

Definition normalizeInlineVolumeServer (server accountName storageEndpointSuffix : string) : result string :=
  host ← parseInlineVolumeServer server;
  _ ← validateInlineVolumeServerHost server host accountName storageEndpointSuffix;
  Ok host.

Example server_ex1 : normalizeInlineVolumeServer "https://Acct.Blob.core.windows.net./" "acct" "core.windows.net" = Ok "acct.blob.core.windows.net".
Proof. vm_compute. reflexivity. Qed.
Example server_ex2 : normalizeInlineVolumeServer "acct.z12.privatelink.dfs.storage.azure.net" "acct" ".core.windows.net" = Ok "acct.z12.privatelink.dfs.storage.azure.net".
Proof. vm_compute. reflexivity. Qed.

(** ** Properties *)

(** A host of the storage account: the account or its secondary, an optional private link label, the service and the
    cloud's suffix; in the public cloud also the DNS zone form. *)
Definition account_host (account suffix host : string) : Prop :=
  ∃ lead mid svc, (lead = account ∨ lead = account +:+ "-secondary") ∧ (mid = "" ∨ mid = "privatelink.") ∧
    (svc = "blob" ∨ svc = "dfs") ∧
    (host = lead +:+ "." +:+ mid +:+ svc +:+ "." +:+ suffix ∨
     suffix = defaultStorageEndPointSuffix ∧
     ∃ zone, zone_id_ok zone = true ∧ host = lead +:+ ".z" +:+ zone +:+ "." +:+ mid +:+ svc +:+ ".storage.azure.net").

Lemma allowed_hosts_account account suffix host : host ∈ allowed_hosts account suffix → account_host account suffix host.
Proof.
  intros ((f & a) & -> & Hin)%list_elem_of_fmap. rewrite !elem_of_cons in Hin.
  assert (∀ lead mid svc, (lead = account ∨ lead = account +:+ "-secondary") → (mid = "" ∨ mid = "privatelink.") →
    (svc = "blob" ∨ svc = "dfs") → account_host account suffix (lead +:+ "." +:+ mid +:+ svc +:+ "." +:+ suffix)) as Hh.
  { intros lead mid svc ? ? ?. exists lead, mid, svc. auto. }
  assert (suffix +:+ "" = suffix) as Es by apply str_app_nil_r.
  destruct Hin as [[= -> ->]|[[= -> ->]|[[= -> ->]|[[= -> ->]|[[= -> ->]|[[= -> ->]|[[= -> ->]|[[= -> ->]|Hin%not_elem_of_nil]]]]]]]];
    [..|done]; cbn [fst snd Sprintf Ascii.eqb Bool.eqb]; simpl; rewrite Es;
    [ apply (Hh account "" "blob") | apply (Hh account "" "dfs")
    | apply (Hh account "privatelink." "blob") | apply (Hh account "privatelink." "dfs")
    | apply (Hh (account +:+ "-secondary") "" "blob") | apply (Hh (account +:+ "-secondary") "" "dfs")
    | apply (Hh (account +:+ "-secondary") "privatelink." "blob") | apply (Hh (account +:+ "-secondary") "privatelink." "dfs") ]; auto.
Qed.

Lemma dns_zone_account account host :
  isAzureDNSZoneStorageHost host account = true → account_host account defaultStorageEndPointSuffix host.
Proof.
  unfold isAzureDNSZoneStorageHost. intros H. pose proof (Join_Split host "." ltac:(done)) as Hj.
  destruct (Split host ".") as [|lead [|zone [|p2 [|p3 [|p4 [|p5 rest]]]]]] eqn:Es; try done.
  assert (rest = [] ∨ ∃ p6, rest = [p6]) as Hrest.
  { destruct rest as [|p6 [|p7 rest]]; [by left|right; by exists p6|]. cbn in H. done. }
  assert (∀ x a b : string, negb (bool_decide (x = a)) && negb (bool_decide (x = b)) = false → x = a ∨ x = b) as Hor.
  { intros x a b E. apply andb_false_iff in E. rewrite !negb_false_iff, !bool_decide_eq_true in E. tauto. }
  destruct Hrest as [->|[p6 ->]]; cbn -[bool_decide CutPrefix Join zone_id_ok String.append] in H;
    (destruct (negb _ && negb _) eqn:El in H; [done|]); apply Hor in El;
    unfold CutPrefix in H; (destruct (HasPrefix zone "z") eqn:Ez; [|done]); cbn [negb] in H;
    apply HasPrefix_drop in Ez; set (z := str_drop (slen "z") zone) in *;
    (destruct (zone_id_ok z) eqn:Ezone; [|done]); cbn [negb] in H.
  - destruct (negb _ && negb _) eqn:Es2 in H; [done|]. apply Hor in Es2. apply bool_decide_eq_true in H.
    exists lead, "", p2. split_and!; auto. right. split; [done|]. exists z. split; [done|].
    rewrite <- Hj, Ez. simpl. simpl in H. rewrite <- H. by str_assoc.
  - destruct (negb (bool_decide (p2 = "privatelink"))) eqn:Ep; [done|]. apply negb_false_iff, bool_decide_eq_true in Ep as ->.
    destruct (negb _ && negb _) eqn:Es2 in H; [done|]. apply Hor in Es2. apply bool_decide_eq_true in H.
    exists lead, "privatelink.", p3. split_and!; auto. right. split; [done|]. exists z. split; [done|].
    rewrite <- Hj, Ez. simpl. simpl in H. rewrite <- H. by str_assoc.
Qed.

(** C22 - A managed identity token is only sent to the selected account: when normalizeInlineVolumeServer accepts a server,
    the host it returns is a host of that storage account in the configured cloud (the account or its secondary, blob or
    dfs, possibly private link, or the DNS zone form in the public cloud), it is not an IP address, and both the account
    and the suffix are nonempty. *)
Theorem normalizeInlineVolumeServer_account server accountName suffix host :
  normalizeInlineVolumeServer server accountName suffix = Ok host →
  ToLower (TrimSpace accountName) ≠ "" ∧ ToLower (TrimChar (TrimSpace suffix) ".") ≠ "" ∧ ParseIP host = false ∧
  account_host (ToLower (TrimSpace accountName)) (ToLower (TrimChar (TrimSpace suffix) ".")) host.
Proof.
  unfold normalizeInlineVolumeServer. intros H. apply bind_Ok in H as (h & Hp & H). apply bind_Ok in H as ([] & Hv & [= <-]).
  assert (ParseIP h = false) as Hip.
  { unfold parseInlineVolumeServer in Hp. do 2 (apply bind_Ok in Hp as (? & _ & Hp)).
    destruct (url_Parse _) as [parsed|]; [|done]. do 6 (apply bind_Ok in Hp as (? & _ & Hp)).
    apply bind_Ok in Hp as (? & Hip%guard_err_Ok & [= <-]). done. }
  unfold validateInlineVolumeServerHost in Hv.
  set (account := ToLower (TrimSpace accountName)) in *. set (suf := ToLower (TrimChar (TrimSpace suffix) ".")) in *.
  destruct (bool_decide_reflect (account = "")) as [|Ha]; [done|].
  destruct (bool_decide_reflect (suf = "")) as [|Hs]; [done|]. split_and!; [done..|].
  cbn [orb] in Hv. destruct (bool_decide_reflect (h ∈ allowed_hosts account suf)) as [Hin|_]; [by apply allowed_hosts_account|].
  destruct (bool_decide_reflect (suf = defaultStorageEndPointSuffix)) as [Es|]; [|done].
  cbn [andb] in Hv. destruct (isAzureDNSZoneStorageHost h account) eqn:E; [|done]. rewrite Es. by apply dns_zone_account.
Qed.

Lemma normalizeInlineVolumeServer_account_witness :
  ToLower (TrimSpace "Acct") ≠ "" ∧ ToLower (TrimChar (TrimSpace "core.windows.net") ".") ≠ "" ∧
  ParseIP "acct-secondary.z5.blob.storage.azure.net" = false ∧
  account_host (ToLower (TrimSpace "Acct")) (ToLower (TrimChar (TrimSpace "core.windows.net") "."))
    "acct-secondary.z5.blob.storage.azure.net".
Proof.
  apply (normalizeInlineVolumeServer_account "https://ACCT-secondary.z5.blob.storage.azure.net/"). vm_compute. reflexivity.
Defined.
