(* ===== verification/Auth.v ===== *)
(** * Auth: account keys, secrets and the authentication environment of a mount

    getStorageAccount, GetInfoFromSecret, GetStorageAccesskey, setAzureCredentials and GetAuthEnv of pkg/blob/blob.go, with
    the small cloud helpers of pkg/blob/azure.go.  A range over a Go map is numbered by its line in the source.  A loop
    that overwrites a variable for each matching key leaves the value of the last matching entry. *)
From S2P Require Import Prelude GoUnicode GoStrings GoErr Fields Attributes CsiCommon Predicates VolumeIDs MountOptions Metrics Effects World.
From stdpp Require Import options.

(** The value of the last entry whose lower case key is one of [fields]. *)
Definition last_of (fields : list string) (entries : list (string * string)) (dflt : string) : string :=
  match find_last (λ kv, bool_decide (ToLower kv.1 ∈ fields)) entries with
  | Some kv => kv.2
  | None => dflt
  end.

Definition last_opt (fields : list string) (entries : list (string * string)) : option string :=
  snd <$> find_last (λ kv, bool_decide (ToLower kv.1 ∈ fields)) entries.

(** A map entry that an attribute sets. *)
Definition if_set (k : string) (o : option string) (m : strmap) : strmap := match o with Some v => <[k := v]> m | None => m end.

(** [if x == "" { x = y }]. *)
Definition or_default (x y : string) : string := if decide (x = "") then y else x.

(** [%v] of a string map: fmt prints the keys in order. *)
Definition fmt_map (m : gomap) : string :=
  let m := default ∅ m in
  "map[" +:+ Join ((λ k, k +:+ ":" +:+ default "" (m !! k)) <$> merge_sort str_le (map_to_list m).*1) " " +:+ "]".

Definition getStorageEndPointSuffix (c : CloudConfig) : string := or_default (c_StorageEndpointSuffix c) defaultStorageEndPointSuffix.

Definition IsAzureStackCloud (c : CloudConfig) : bool := negb (c_DisableAzureStackCloud c) && EqualFold (c_Cloud c) "AZURESTACKCLOUD".

(** The steps of getBackOff; the durations are left out. *)
Definition getBackOff (c : CloudConfig) : nat := Z.to_nat (if (c_CloudProviderBackoffRetries c <? 1)%Z then 1 else c_CloudProviderBackoffRetries c).

Definition getSubnetResourceID (c : CloudConfig) (vnetResourceGroup vnetName subnetName : string) : string :=
  let subsID := if decide (c_NetworkResourceSubscriptionID c = "") then c_SubscriptionID c else c_NetworkResourceSubscriptionID c in
  let vnetResourceGroup := or_default vnetResourceGroup (or_default (c_VnetResourceGroup c) (c_ResourceGroup c)) in
  Sprintf subnetTemplate [subsID; vnetResourceGroup; or_default vnetName (c_VnetName c); or_default subnetName (c_SubnetName c)].

Definition createStorageAccountSecret (account key : string) : strmap :=
  <[defaultSecretAccountKey := key]> (<[defaultSecretAccountName := account]> ∅).

Section auth.
Context {W : Type} `{Ops W} `{RangeOrder}.

(** The values of a secret are trimmed before use. *)
Definition trimmed (entries : list (string * string)) : list (string * string) := (λ kv, (kv.1, TrimSpace kv.2)) <$> entries.

Definition getStorageAccount (secrets : gomap) : result (string * string) :=
  match secrets with
  | None => Err (errorf "unexpected: getStorageAccount secrets is nil" [])
  | Some _ =>
    let entries := trimmed (mrange 1088 secrets) in
    let accountName := last_of [accountNameField; defaultSecretAccountName] entries "" in
    let accountKey := last_of [accountKeyField; defaultSecretAccountKey] entries "" in
    if decide (accountName = "") then
      Err (errorf "could not find %s or %s field in secrets" [accountNameField; defaultSecretAccountName])
    else if decide (accountKey = "") then
      Err (errorf "could not find %s or %s field in secrets" [accountKeyField; defaultSecretAccountKey])
    else Ok (TrimSpace accountName, accountKey)
  end.

Definition getContainerReference (containerName : string) (secrets : gomap) (storageEndpointSuffix : string) : result ContainerRef :=
  '(accountName, accountKey) ← getStorageAccount secrets;
  match op_new_client accountName accountKey storageEndpointSuffix with
  | Some e => Err e
  | None => Ok {| cr_account := accountName; cr_key := accountKey; cr_suffix := storageEndpointSuffix; cr_container := containerName |}
  end.

(** setAzureCredentials: the name of the secret, empty without a client; an existing secret is left as it is. *)
Definition setAzureCredentials (hasKubeClient : bool) (accountName accountKey secretNamespace : string) : IO string :=
  if negb hasKubeClient then mret ""
  else if bool_decide (accountName = "") || bool_decide (accountKey = "") then
    throw (errorf "the account info is not enough, accountName(%v), accountKey(%v)" [accountName; accountKey])
  else
    let secretName := Sprintf secretNameTemplate [accountName] in
    err ← ask (op_secret_create secretNamespace secretName (createStorageAccountSecret accountName accountKey));
    match err with
    | Some e => if is_already_exists e then mret secretName else throw (errorf "couldn't create secret %w" [Error e])
    | None => mret secretName
    end.

Record secret_info := {
  si_accountName : string; si_accountKey : string; si_accountSasToken : string; si_msiSecret : string;
  si_spnClientSecret : string; si_spnClientID : string; si_spnTenantID : string;
}.

Definition no_secret_info : secret_info :=
  {| si_accountName := ""; si_accountKey := ""; si_accountSasToken := ""; si_msiSecret := ""; si_spnClientSecret := "";
     si_spnClientID := ""; si_spnTenantID := "" |}.

(** GetInfoFromSecret reads the keys as they are written, without folding case. *)
Definition GetInfoFromSecret (d : Driver) (secretName secretNamespace : string) : IO secret_info :=
  if negb (d_has_kube d) then
    throw (errorf "could not get account key from secret(%s): KubeClient is nil" [secretName])
  else
    data ← wrap_err (λ e, errorf "could not get secret(%v): %w" [secretName; Error e]) (call (op_secret_get secretNamespace secretName));
    let value k := TrimSpace (mget (Some data) k) in
    mret {| si_accountName := value defaultSecretAccountName; si_accountKey := value defaultSecretAccountKey;
            si_accountSasToken := value accountSasTokenField; si_msiSecret := value msiSecretField;
            si_spnClientSecret := value storageSPNClientSecretField; si_spnClientID := value storageSPNClientIDField;
            si_spnTenantID := value storageSPNTenantIDField |}.

Definition GetStorageAccesskeyWithSubsID (d : Driver) (subsID account resourceGroup : string) (getLatestAccountKey : bool) : IO string :=
  if negb (c_has_compute_factory (d_cloud d)) then
    throw (errorf "could not get account key: cloud or ComputeClientFactory is nil" [])
  else
    _ ← call_err (op_account_client subsID);
    call (op_storage_accesskey subsID account resourceGroup getLatestAccountKey).

(** getKeyVaultSecretContent of pkg/blob/azure.go; the value of a secret is a pointer that is not checked, and a nil one is a
    panic: here an error with the text of the runtime. *)
Definition getKeyVaultSecretContent (vaultURL secretName secretVersion : string) : IO string :=
  _ ← call_err op_auth_provider;
  _ ← wrap_err (λ e, errorf "failed to get keyvaultClient: %w" [Error e]) (throw_some (op_vault_client vaultURL));
  secret ← wrap_err (λ e, errorf "get secret from vaultURL(%v), sercretName(%v), secretVersion(%v) failed with error: %w"
                            [vaultURL; secretName; secretVersion; Error e])
             (call (op_vault_secret vaultURL secretName secretVersion));
  match secret with
  | Some value => mret value
  | None => throw (errorf "runtime error: invalid memory address or nil pointer dereference" [])
  end.

(** GetStorageAccesskey: the secrets of the request, else the Kubernetes secret, else the cluster identity. *)
Definition GetStorageAccesskey (d : Driver) (ao : AccountOptions) (secrets : gomap) (secretName secretNamespace : string) :
    IO (string * string) :=
  if 0 <? mlen secrets then from_result (getStorageAccount secrets)
  else
    let secretName := or_default secretName (Sprintf secretNameTemplate [ao_Name ao]) in
    r ← attempt (GetInfoFromSecret d secretName secretNamespace);
    match r with
    | Ok info => mret (ao_Name ao, si_accountKey info)
    | Err _ =>
      accountKey ← GetStorageAccesskeyWithSubsID d (ao_SubscriptionID ao) (ao_Name ao) (ao_ResourceGroup ao) (ao_GetLatestAccountKey ao);
      mret (ao_Name ao, accountKey)
    end.

(** ** Caches *)

Definition useDataPlaneAPI (volumeID accountName : string) : IO bool :=
  hit ← dataPlaneAPIVolCache_get volumeID;
  match hit with
  | Some _ => mret true
  | None => hit ← dataPlaneAPIVolCache_get accountName; mret (bool_decide (is_Some hit))
  end.

(** ** Service account tokens *)

(** parseServiceAccountToken; json.Unmarshal is the library's. *)
Definition parseServiceAccountToken (tokenStr : string) : result string :=
  if decide (tokenStr = "") then Err (errorf "service account token is empty" [])
  else match op_unmarshal_token tokenStr with
       | Err e => Err (errorf "failed to unmarshal service account tokens, error: %w" [Error e])
       | Ok token =>
         if decide (token = "") then Err (errorf "token for audience %s not found" [DefaultTokenAudience]) else Ok token
       end.
End auth.


(** ** GetAuthEnv *)

(** The environment variable that an attribute sets by itself. *)
Definition attrib_env (kv : string * string) : list string :=
  switch (ToLower kv.1)
    [(storageAuthTypeField, ["AZURE_STORAGE_AUTH_TYPE=" +:+ kv.2]);
     (storageIdentityClientIDField, ["AZURE_STORAGE_IDENTITY_CLIENT_ID=" +:+ kv.2]);
     (storageIdentityObjectIDField, ["AZURE_STORAGE_IDENTITY_OBJECT_ID=" +:+ kv.2]);
     (storageIdentityResourceIDField, ["AZURE_STORAGE_IDENTITY_RESOURCE_ID=" +:+ kv.2]);
     (msiEndpointField, ["MSI_ENDPOINT=" +:+ kv.2]);
     (storageAADEndpointField, ["AZURE_STORAGE_AAD_ENDPOINT=" +:+ kv.2])] [].

(** The error of an attribute that must be a boolean. *)
Definition attrib_error (kv : string * string) : option error :=
  switch (ToLower kv.1)
    [(getLatestAccountKeyField,
      match ParseBool kv.2 with Some _ => None | None => Some (errorf "invalid %s: %s in volume context" [getLatestAccountKeyField; kv.2]) end);
     (mountWithWITokenField,
      match ParseBool kv.2 with Some _ => None | None => Some (errorf "invalid %s: %s in volume context" [mountWithWITokenField; kv.2]) end)] None.

Fixpoint first_error {A} (f : A → option error) (l : list A) : option error :=
  match l with [] => None | x :: l => match f x with Some e => Some e | None => first_error f l end end.

Definition parsed_bool (s : string) : bool := default false (ParseBool s).

Record auth_env := {
  ae_rgName : string;
  ae_accountName : string;
  ae_accountKey : string;
  ae_containerName : string;
  ae_authEnv : list string;
}.

Section get_auth_env.
Context {W : Type} `{Ops W} `{RangeOrder}.

(** The workload identity branch: the token file is written unless it already holds the token.  The
    name is checked first, so that filepath.Join only adds the directory. *)
Definition workload_identity_env (clientID tenantID accountName serviceAccountToken : string) (authEnv : list string) : IO (list string) :=
  workloadIdentityToken ← from_result (parseServiceAccountToken serviceAccountToken);
  let tokenFileName := clientID +:+ "-" +:+ accountName in
  _ ← throw_if (negb (isValidTokenFileName tokenFileName)) (errorf "the generated token file name %s is invalid" [tokenFileName]);
  let azureOAuthTokenFile := defaultAzureOAuthTokenDir +:+ "/" +:+ tokenFileName in
  existing ← attempt (call (op_read_file azureOAuthTokenFile));
  _ ← (if bool_decide (existing = Ok workloadIdentityToken) then mret ()
       else wrap_err (λ e, errorf "failed to write workload identity token file %s: %v" [azureOAuthTokenFile; Error e])
              (call_err (op_write_file azureOAuthTokenFile workloadIdentityToken)));
  mret (authEnv ++ ["AZURE_STORAGE_SPN_CLIENT_ID=" +:+ clientID]
        ++ (if decide (tenantID = "") then [] else ["AZURE_STORAGE_SPN_TENANT_ID=" +:+ tenantID])
        ++ ["AZURE_OAUTH_TOKEN_FILE=" +:+ azureOAuthTokenFile]).

(** Where the credentials come from when neither a workload identity token nor a client id decides: the key vault, else
    the secrets of the request, else the Kubernetes secret and, unless it is required, the cluster identity.  [init] holds
    the account name and the service principal of the attributes. *)
Definition kubernetes_credentials (d : Driver) (subsID rgName secretName secretNamespace azureStorageAuthType : string)
    (getAccountKeyFromSecret getLatestAccountKey : bool) (init : secret_info) : IO (secret_info * option error) :=
  let accountName := si_accountName init in
  let secretName := if bool_decide (secretName = "") && negb (bool_decide (accountName = ""))
                    then Sprintf secretNameTemplate [accountName] else secretName in
  if decide (secretName = "") then mret (init, None)
  else
    r ← attempt (GetInfoFromSecret d secretName secretNamespace);
    match r with
    | Ok info =>
      mret ({| si_accountName := or_default (si_accountName info) accountName; si_accountKey := si_accountKey info;
               si_accountSasToken := si_accountSasToken info; si_msiSecret := si_msiSecret info;
               si_spnClientSecret := si_spnClientSecret info;
               si_spnClientID := or_default (si_spnClientID info) (si_spnClientID init);
               si_spnTenantID := or_default (si_spnTenantID info) (si_spnTenantID init) |}, None)
    | Err e =>
      if EqualFold azureStorageAuthType storageAuthTypeMSI then mret (init, None)
      else if negb getAccountKeyFromSecret && (bool_decide (azureStorageAuthType = "") || EqualFold azureStorageAuthType "key") then
        accountKey ← wrap_err (λ e, errorf "no key for storage account(%s) under resource group(%s), err %w" [accountName; rgName; Error e])
                       (GetStorageAccesskeyWithSubsID d subsID accountName rgName getLatestAccountKey);
        mret ({| si_accountName := accountName; si_accountKey := accountKey; si_accountSasToken := ""; si_msiSecret := "";
                 si_spnClientSecret := ""; si_spnClientID := si_spnClientID init; si_spnTenantID := si_spnTenantID init |}, None)
      else mret (init, Some e)
    end.

Definition request_credentials (secrets : gomap) (init : secret_info) : secret_info :=
  let entries := trimmed (mrange 846 secrets) in
  {| si_accountName := last_of [accountNameField; defaultSecretAccountName] entries (si_accountName init);
     si_accountKey := last_of [accountKeyField; defaultSecretAccountKey] entries "";
     si_accountSasToken := last_of [accountSasTokenField] entries "";
     si_msiSecret := last_of [msiSecretField] entries "";
     si_spnClientSecret := last_of [storageSPNClientSecretField] entries "";
     si_spnClientID := last_of [storageSPNClientIDField] entries (si_spnClientID init);
     si_spnTenantID := last_of [storageSPNTenantIDField] entries (si_spnTenantID init) |}.

Definition keyvault_credentials (key : string) (init : secret_info) : secret_info :=
  {| si_accountName := si_accountName init; si_accountKey := if isSASToken key then "" else key;
     si_accountSasToken := if isSASToken key then key else ""; si_msiSecret := ""; si_spnClientSecret := "";
     si_spnClientID := si_spnClientID init; si_spnTenantID := si_spnTenantID init |}.

(** [if value != "" { authEnv = append(authEnv, key+"="+value) }]. *)
Definition env_unless_empty (key value : string) : list string := if decide (value = "") then [] else [key +:+ "=" +:+ value].

Definition credentials_env (c : secret_info) : list string :=
  env_unless_empty "AZURE_STORAGE_ACCESS_KEY" (si_accountKey c) ++ env_unless_empty "AZURE_STORAGE_SAS_TOKEN" (si_accountSasToken c)
  ++ env_unless_empty "MSI_SECRET" (si_msiSecret c) ++ env_unless_empty "AZURE_STORAGE_SPN_CLIENT_SECRET" (si_spnClientSecret c)
  ++ env_unless_empty "AZURE_STORAGE_SPN_CLIENT_ID" (si_spnClientID c) ++ env_unless_empty "AZURE_STORAGE_SPN_TENANT_ID" (si_spnTenantID c).

(** The identity of the driver, for the msi authentication type without an identity of its own. *)
Definition identity_env (d : Driver) (azureStorageAuthType : string) (authEnv : list string) : list string :=
  if bool_decide (azureStorageAuthType = storageAuthTypeMSI)
     && negb (existsb (λ env, HasPrefix env "AZURE_STORAGE_IDENTITY_") authEnv)
     && negb (bool_decide (c_UserAssignedIdentityID (d_cloud d) = ""))
  then ["AZURE_STORAGE_IDENTITY_CLIENT_ID=" +:+ c_UserAssignedIdentityID (d_cloud d)] else [].

(** The part of GetAuthEnv after the attributes are read and the protocol is found not to be NFS. *)
Definition auth_from_credentials (d : Driver) (subsID rgName accountName containerName secretName secretNamespace azureStorageAuthType : string)
    (getAccountKeyFromSecret getLatestAccountKey : bool) (secrets : gomap)
    (keyVaultURL keyVaultSecretName keyVaultSecretVersion : string) (init : secret_info) (missing : error) (authEnv : list string) :
    IO auth_env :=
  '(c, err) ←
    (if negb (bool_decide (keyVaultURL = "")) then
       key ← getKeyVaultSecretContent keyVaultURL keyVaultSecretName keyVaultSecretVersion;
       mret (keyvault_credentials key init, None)
     else if mlen secrets =? 0 then
       kubernetes_credentials d subsID rgName secretName secretNamespace azureStorageAuthType getAccountKeyFromSecret getLatestAccountKey init
     else mret (request_credentials secrets init, None));
  _ ← throw_some (if decide (containerName = "") then Some missing else err);
  let authEnv := authEnv ++ credentials_env c in
  mret {| ae_rgName := rgName; ae_accountName := si_accountName c; ae_accountKey := si_accountKey c;
          ae_containerName := containerName; ae_authEnv := authEnv ++ identity_env d azureStorageAuthType authEnv |}.

Definition GetAuthEnv (d : Driver) (volumeID protocol : string) (attrib secrets : gomap) : IO auth_env :=
  let info := match GetContainerInfo volumeID with Ok ci => ci | Err _ => empty_info end in
  let entries := mrange 671 attrib in
  let field names dflt := last_of names entries dflt in
  let subsID := field [subscriptionIDField] (ci_subsID info) in
  let rgName := field [resourceGroupField] (ci_resourceGroup info) in
  let containerName := field [containerNameField] (ci_container info) in
  let accountName := field [storageAccountField; storageAccountNameField] (ci_account info) in
  let authEnv := entries ≫= attrib_env in
  _ ← throw_some (first_error attrib_error entries);
  if decide (protocol = NFS) then
    mret {| ae_rgName := rgName; ae_accountName := accountName; ae_accountKey := ""; ae_containerName := containerName; ae_authEnv := authEnv |}
  else
    let secretNamespace := or_default (field [secretNamespaceField] (ci_secretNamespace info))
                                      (or_default (field [pvcNamespaceKey] "") defaultNamespace) in
    let rgName := or_default rgName (c_ResourceGroup (d_cloud d)) in
    let tenantID := or_default (field [tenantIDField] "") (c_TenantID (d_cloud d)) in
    let clientID := field [clientIDField] "" in
    let serviceAccountToken := field [ToLower serviceAccountTokenField] "" in
    if parsed_bool (field [mountWithWITokenField] "") then
      let clientID := or_default clientID (c_UserAssignedIdentityID (d_cloud d)) in
      _ ← throw_if (bool_decide (clientID = "")) (errorf "mountWithWorkloadIdentityToken is true but clientID is not specified" []);
      authEnv ← workload_identity_env clientID tenantID accountName serviceAccountToken authEnv;
      mret {| ae_rgName := rgName; ae_accountName := accountName; ae_accountKey := ""; ae_containerName := containerName; ae_authEnv := authEnv |}
    else if negb (bool_decide (clientID = "")) then
      let subsID := or_default subsID (c_SubscriptionID (d_cloud d)) in
      accountKey ← call (op_accesskey_from_token subsID accountName rgName clientID tenantID serviceAccountToken);
      mret {| ae_rgName := rgName; ae_accountName := accountName; ae_accountKey := accountKey; ae_containerName := containerName;
              ae_authEnv := authEnv ++ ["AZURE_STORAGE_ACCESS_KEY=" +:+ accountKey] |}
    else
      auth_from_credentials d subsID rgName accountName containerName (field [secretNameField] "") secretNamespace
        (field [storageAuthTypeField] "") (EqualFold (field [getAccountKeyFromSecretField] "") trueValue)
        (parsed_bool (field [getLatestAccountKeyField] "")) secrets (field [keyVaultURLField] "") (field [keyVaultSecretNameField] "")
        (field [keyVaultSecretVersionField] "")
        {| si_accountName := accountName; si_accountKey := ""; si_accountSasToken := ""; si_msiSecret := ""; si_spnClientSecret := "";
           si_spnClientID := field [storageSPNClientIDField] ""; si_spnTenantID := field [storageSPNTenantIDField] "" |}
        (errorf "could not find containerName from attributes(%v) or volumeID(%v)" [fmt_map attrib; volumeID]) authEnv.

(** GetStorageAccountAndContainer: account, key, SAS token and container.  Without secrets the account and the container
    are those of the volume id, whatever the attributes say. *)
Definition GetStorageAccountAndContainer (d : Driver) (volumeID : string) (attrib secrets : gomap) :
    IO (string * string * string * string) :=
  let entries := mrange 942 attrib in
  let field names := last_of names entries "" in
  let container_error := errorf "could not find containerName from attributes(%v) or volumeID(%v)" [fmt_map attrib; volumeID] in
  let accountName := field [storageAccountField; storageAccountNameField] in
  _ ← throw_some (first_error (λ kv, if decide (ToLower kv.1 = getLatestAccountKeyField) then attrib_error kv else None) entries);
  '(accountName, accountKey, accountSasToken, containerName) ←
    (if negb (bool_decide (field [keyVaultURLField] = "")) then
       key ← getKeyVaultSecretContent (field [keyVaultURLField]) (field [keyVaultSecretNameField]) (field [keyVaultSecretVersionField]);
       if isSASToken key then mret (accountName, "", key, field [containerNameField])
       else mret (accountName, key, "", field [containerNameField])
     else if mlen secrets =? 0 then
       ci ← from_result (GetContainerInfo volumeID);
       let rgName := or_default (ci_resourceGroup ci) (c_ResourceGroup (d_cloud d)) in
       accountKey ← wrap_err (λ e, errorf "no key for storage account(%s) under resource group(%s), err %w" [ci_account ci; rgName; Error e])
                      (GetStorageAccesskeyWithSubsID d (field [subscriptionIDField]) (ci_account ci) rgName
                         (parsed_bool (field [getLatestAccountKeyField])));
       mret (ci_account ci, accountKey, "", ci_container ci)
     else mret (accountName, "", "", field [containerNameField]));
  _ ← throw_if (bool_decide (containerName = "")) container_error;
  mret (accountName, accountKey, accountSasToken, containerName).
End get_auth_env.
