(* ===== verification/Containers.v ===== *)
(** * Containers: blob containers, azcopy authorization and copying

    CreateBlobContainer and DeleteBlobContainer with their retries, the authorization of azcopy (identity or SAS token),
    copyVolume and the rollback cleanupContainerOnFailure of pkg/blob/controllerserver.go, and the waiting helpers of
    pkg/util/util.go and k8s.io/apimachinery/pkg/util/wait. *)
From S2P Require Import Prelude GoUnicode GoStrings GoErr Fields Attributes CsiCommon Predicates VolumeIDs NetURL Metrics Effects World Azcopy Auth.
From stdpp Require Import options.

(** [%v] of a string slice. *)
Definition fmt_list (l : list string) : string := "[" +:+ Join l " " +:+ "]".

Definition azcopyAutoLoginType : string := "AZCOPY_AUTO_LOGIN_TYPE".
Definition azcopySPAApplicationID : string := "AZCOPY_SPA_APPLICATION_ID".
Definition azcopySPAClientSecret : string := "AZCOPY_SPA_CLIENT_SECRET".
Definition azcopyTenantID : string := "AZCOPY_TENANT_ID".
Definition azcopyMSIClientID : string := "AZCOPY_MSI_CLIENT_ID".
Definition MSI : string := "MSI".
Definition SPN : string := "SPN".
Definition authorizationPermissionMismatch : string := "AuthorizationPermissionMismatch".
Definition createdByMetadata : string := "createdBy".
Definition azcopyTrustedSuffixesAAD : string :=
  "*.core.windows.net;*.core.chinacloudapi.cn;*.core.cloudapi.de;*.core.usgovcloudapi.net;*.storage.azure.net".

(** The errors of a container that goes away: worth another attempt when creating, good enough when deleting. *)
Definition being_deleted (e : error) : bool :=
  Contains (Error e) containerBeingDeletedDataplaneAPIError || Contains (Error e) containerBeingDeletedManagementAPIError.
Definition delete_is_done (e : error) : bool :=
  being_deleted e || Contains (Error e) statusCodeNotFound || Contains (Error e) httpCodeNotFound.

(** The content sources of a request: a snapshot, a volume (whose message may be missing), none of them. *)
Inductive content_source := SnapshotSource | VolumeSource (volumeId : option string) | UnknownSource.

#[export] Instance content_source_eq_dec : EqDecision content_source.
Proof. solve_decision. Defined.

Section containers.
Context {W : Type} `{Ops W} `{RangeOrder}.

(** ** Creating and deleting *)

Definition CreateBlobContainer (d : Driver) (subsID resourceGroupName accountName containerName storageEndpointSuffix : string)
    (secrets : gomap) : IO () :=
  if decide (containerName = "") then throw (errorf "containerName is empty" [])
  else
    let metadata : strmap := {[ createdByMetadata := d_Name d ]} in
    let condition : IO (option ()) :=
      err ← (if 0 <? mlen secrets then
               container ← from_result (getContainerReference containerName secrets storageEndpointSuffix);
               ask (op_dp_create container metadata)
             else
               _ ← call_err (op_blob_client subsID);
               ask (op_create_container subsID resourceGroupName accountName containerName metadata));
      match err with
      | Some e => if being_deleted e then mret None else throw e
      | None => mret (Some ())
      end in
    with_azure_metric "blob_container_create" resourceGroupName subsID
      (ExponentialBackoff (getBackOff (d_cloud d)) condition).

Definition DeleteBlobContainer (d : Driver) (subsID resourceGroupName accountName containerName : string) (secrets : gomap) : IO () :=
  if decide (containerName = "") then throw (errorf "containerName is empty" [])
  else
    let condition : IO (option ()) :=
      err ← (if 0 <? mlen secrets then
               container ← from_result (getContainerReference containerName secrets (getStorageEndPointSuffix (d_cloud d)));
               ask (op_dp_delete container)
             else
               _ ← call_err (op_blob_client subsID);
               ask (op_delete_container subsID resourceGroupName accountName containerName));
      match err with
      | Some e =>
        if delete_is_done e then mret (Some ())
        else throw (errorf "failed to delete container(%s) on account(%s), error: %w" [containerName; accountName; Error e])
      | None => mret (Some ())
      end in
    with_azure_metric "blob_container_delete" resourceGroupName subsID
      (ExponentialBackoff (getBackOff (d_cloud d)) condition).

(** ** Authorizing azcopy *)

Definition authorizeAzcopyWithIdentity (c : CloudConfig) : result (list string) :=
  let env k v := Sprintf "%s=%s" [k; v] in
  if c_UseManagedIdentityExtension c then
    Ok (env azcopyAutoLoginType MSI ::
        (if decide (c_UserAssignedIdentityID c = "") then [] else [env azcopyMSIClientID (c_UserAssignedIdentityID c)]))
  else if negb (bool_decide (c_AADClientSecret c = "")) then
    if bool_decide (c_AADClientID c = "") || bool_decide (c_TenantID c = "") then
      Err (errorf "AADClientID and TenantID must be set when use service principal" [])
    else
      Ok [env azcopyAutoLoginType SPN; env azcopySPAApplicationID (c_AADClientID c); env azcopySPAClientSecret (c_AADClientSecret c);
          env azcopyTenantID (c_TenantID c)]
  else Err (errorf "service principle or managed identity are both not set" []).

Definition generateSASToken (accountName accountKey storageEndpointSuffix : string) (expiryTime : Z) : IO string :=
  cache ← azcopySasTokenCache_get accountName;
  match cache with
  | Some token => mret token
  | None =>
    _ ← (match op_shared_key_credential accountName accountKey with
         | Some e => throw (status_errorf Internal "failed to generate sas token in creating new shared key credential, accountName: %s, err: %v" [accountName; Error e])
         | None => mret ()
         end);
    let serviceURL := Sprintf "https://%s.blob.%s/" [accountName; storageEndpointSuffix] in
    _ ← (match op_service_client accountName accountKey serviceURL with
         | Some e => throw (status_errorf Internal "failed to generate sas token in creating new client with shared key credential, accountName: %s, err: %v" [accountName; Error e])
         | None => mret ()
         end);
    sasURL ← call (op_sas_url accountName accountKey serviceURL expiryTime);
    match url_Parse sasURL with
    | None => throw (url_parse_error sasURL)
    | Some u =>
      let sasToken := "?" +:+ u_RawQuery u in
      _ ← azcopySasTokenCache_set accountName sasToken;
      mret sasToken
    end
  end.

(** getAzcopyAuth: a SAS token, or the environment of an identity.  A failure of the identity is only logged; the SAS
    token is then the way out. *)
Definition getAzcopyAuth (d : Driver) (accountName accountKey storageEndpointSuffix : string) (accountOptions : AccountOptions)
    (secrets : gomap) (secretName secretNamespace : string) (useSasToken : bool) : IO (string * list string) :=
  let generate : IO (string * list string) :=
    accountKey ←
      (if decide (accountKey = "") then
         r ← GetStorageAccesskey d accountOptions secrets secretName secretNamespace; mret r.2
       else mret accountKey);
    sasToken ← generateSASToken accountName accountKey storageEndpointSuffix (d_sasTokenExpirationMinutes d);
    mret (sasToken, []) in
  dataPlane ← (if useSasToken then mret true else useDataPlaneAPI "" accountName);
  if negb dataPlane && (mlen secrets =? 0) && bool_decide (secretName = "") then
    cache ← azcopySasTokenCache_get accountName;
    match cache with
    | Some token => mret (token, [])
    | None =>
      match authorizeAzcopyWithIdentity (d_cloud d) with
      | Ok (e :: env) => mret ("", e :: env)
      | _ => generate
      end
    end
  else generate.

(** ** Waiting *)

Definition DeadlineExceeded : error := Plain "context deadline exceeded".

(** wait.PollUntilContextTimeout with [immediate]: the condition runs at once and then at every tick until it is done,
    fails or the deadline has passed; [polls] bounds the ticks that fit before the deadline. *)
Fixpoint PollUntilContextTimeout (polls : nat) (expired condition : io (st W) bool) : io (st W) () :=
  ok ← condition;
  if ok : bool then mret ()
  else match polls with
       | 0 => throw DeadlineExceeded
       | S polls =>
         e ← expired;
         if e : bool then throw DeadlineExceeded else PollUntilContextTimeout polls expired condition
       end.

(** The number of ticks of 20 seconds in a number of minutes. *)
Definition azcopy_polls (minutes : Z) : nat := Z.to_nat (minutes * 3).

(** util.WaitUntilTimeout: [execFunc] is started in any case, so what it does to the world is done; when the timer fires
    first its result is lost and [timeoutFunc] answers. *)
Definition WaitUntilTimeout (timeoutSeconds : Z) (execFunc timeoutFunc : IO ()) : IO () :=
  r ← attempt execFunc;
  fires ← ask (op_timer_fires timeoutSeconds);
  if fires : bool then timeoutFunc else from_result r.

(** ** Copying *)

Definition execAzcopyCopy (d : Driver) (srcPath dstPath : string) (azcopyCopyOptions authAzcopyEnv : list string) :
    IO (string * option error) :=
  let options :=
    if d_requiredAzCopyToTrust d
    then azcopyCopyOptions ++ [Sprintf "--trusted-microsoft-suffixes=%s" [getStorageEndPointSuffix (d_cloud d)]]
    else azcopyCopyOptions in
  ask (op_exec "azcopy" (["copy"; srcPath; dstPath] ++ options) authAzcopyEnv).

Definition source_account_options (accountOptions : AccountOptions) (name resourceGroup subsID : string) : AccountOptions :=
  {| ao_Name := name; ao_Type := ""; ao_Kind := ""; ao_SubscriptionID := subsID; ao_ResourceGroup := resourceGroup; ao_Location := "";
     ao_EnableHTTPSTrafficOnly := false; ao_VirtualNetworkResourceIDs := []; ao_Tags := ∅; ao_MatchTags := false;
     ao_IsHnsEnabled := None; ao_EnableNfsV3 := None; ao_AllowBlobPublicAccess := None; ao_PublicNetworkAccess := "";
     ao_AllowSharedKeyAccess := None; ao_RequireInfrastructureEncryption := None; ao_VNetResourceGroup := ""; ao_VNetName := "";
     ao_VNetLinkName := ""; ao_SubnetName := ""; ao_AccessTier := ""; ao_CreatePrivateEndpoint := None;
     ao_PrivateDNSZoneResourceGroup := ""; ao_StorageEndpointSuffix := ""; ao_EnableBlobVersioning := None; ao_SoftDeleteBlobs := 0;
     ao_SoftDeleteContainers := 0; ao_GetLatestAccountKey := ao_GetLatestAccountKey accountOptions; ao_SourceAccountName := "" |}.

(** Wait for a running azcopy job: any state but Running that comes without an error ends the wait. *)
Definition wait_for_job (d : Driver) (dstContainerName : string) (authAzcopyEnv : list string) : IO () :=
  PollUntilContextTimeout (azcopy_polls (d_waitForAzCopyTimeoutMinutes d)) (ask (op_timer_fires (d_waitForAzCopyTimeoutMinutes d * 60)))
    ('(jobState, _, err) ← GetAzcopyJob dstContainerName authAzcopyEnv;
     match err with
     | Some e => throw e
     | None => mret (negb (bool_decide (jobState = AzcopyJobRunning)))
     end).

Definition copyBlobContainer (d : Driver) (sourceVolumeID dstAccountName dstAccountSasToken : string) (authAzcopyEnv : list string)
    (dstContainerName secretNamespace : string) (accountOptions : AccountOptions) (storageEndpointSuffix : string) : IO () :=
  src ← wrap_err (λ e, Status NotFound (Error e)) (from_result (GetContainerInfo sourceVolumeID));
  let srcAccountName := ci_account src in
  let srcContainerName := ci_container src in
  let dstAccountName := or_default dstAccountName srcAccountName in
  _ ← throw_if (bool_decide (srcAccountName = "") || bool_decide (srcContainerName = "") || bool_decide (dstContainerName = ""))
        (errorf "srcAccountName(%s) or srcContainerName(%s) or dstContainerName(%s) is empty" [srcAccountName; srcContainerName; dstContainerName]);
  srcAccountSasToken ←
    (if negb (bool_decide (srcAccountName = dstAccountName)) && negb (bool_decide (dstAccountSasToken = "")) then
       r ← getAzcopyAuth d srcAccountName "" storageEndpointSuffix
             (source_account_options accountOptions srcAccountName (ci_resourceGroup src) (ci_subsID src)) None "" secretNamespace true;
       mret r.1
     else mret dstAccountSasToken);
  let srcPath := Sprintf "https://%s.blob.%s/%s%s" [srcAccountName; storageEndpointSuffix; srcContainerName; srcAccountSasToken] in
  let dstPath := Sprintf "https://%s.blob.%s/%s%s" [dstAccountName; storageEndpointSuffix; dstContainerName; dstAccountSasToken] in
  '(jobState, _, err) ← GetAzcopyJob dstContainerName authAzcopyEnv;
  let clean : IO () := _ ← CleanJobs; mret () in
  match jobState with
  | AzcopyJobError | AzcopyJobCompleted | AzcopyJobCompletedWithErrors | AzcopyJobCompletedWithSkipped
  | AzcopyJobCompletedWithErrorsAndSkipped => throw_some err
  | AzcopyJobRunning => _ ← wait_for_job d dstContainerName authAzcopyEnv; clean
  | AzcopyJobNotFound =>
    _ ← WaitUntilTimeout (d_waitForAzCopyTimeoutMinutes d * 60)
          ('(out, err) ← execAzcopyCopy d srcPath dstPath azcopyCloneVolumeOptions authAzcopyEnv;
           match err with
           | Some e => throw (errorf "exec error: %v, output: %v" [Error e; out])
           | None => mret ()
           end)
          ('(_, percent, _) ← GetAzcopyJob dstContainerName authAzcopyEnv;
           throw (errorf "timeout waiting for copy blob container %s to %s complete, current copy percent: %s%%" [srcContainerName; dstContainerName; percent]));
    clean
  end.

(** copyVolume; [sourceText] is the text of the content source in the message. *)
Definition copyVolume (d : Driver) (vs : content_source) (sourceText accountName accountSASToken : string) (authAzcopyEnv : list string)
    (dstContainerName secretNamespace : string) (accountOptions : AccountOptions) (storageEndpointSuffix : string) : IO () :=
  match vs with
  | SnapshotSource => throw (status_errorf InvalidArgument "VolumeContentSource Snapshot is not yet implemented" [])
  | VolumeSource volumeId =>
    copyBlobContainer d (default "" volumeId) accountName accountSASToken authAzcopyEnv dstContainerName secretNamespace accountOptions storageEndpointSuffix
  | UnknownSource => throw (status_errorf InvalidArgument "%v is not a proper volume source" [sourceText])
  end.

(** cleanupContainerOnFailure: its errors are only logged. *)
Definition cleanupContainerOnFailure (d : Driver) (shouldCleanupContainer : bool) (subsID resourceGroup accountName containerName : string)
    (secrets : gomap) (authAzcopyEnv : list string) : IO () :=
  if negb shouldCleanupContainer then mret ()
  else
    '(jobState, _, err) ← GetAzcopyJob containerName authAzcopyEnv;
    match err with
    | Some _ => mret ()
    | None =>
      if isAzcopyJobActiveOrCompleted jobState then mret ()
      else _ ← attempt (DeleteBlobContainer d subsID resourceGroup accountName containerName secrets); mret ()
    end.
End containers.
