(* ===== verification/Subnets.v ===== *)
(** * Subnets: updateSubnetServiceEndpoints of pkg/blob/azure.go

    An NFS account is reached through service endpoints: every subnet named gets the storage service endpoint, once, and
    the resource ids are cached under the virtual network and subnet. *)
From S2P Require Import Prelude GoUnicode GoStrings GoErr Fields Attributes Effects World Auth.
From stdpp Require Import options.

Definition storageService : string := "Microsoft.Storage".

Definition storageServiceExists (subnet : Subnet) : bool :=
  existsb (λ v, HasPrefix (default "" v.1) storageService) (sn_ServiceEndpoints subnet).

Section subnets.
Context {W : Type} `{Ops W}.

(** One iteration of the loop over the subnets. *)
Definition update_subnet (d : Driver) (vnetResourceGroup vnetName location : string) (vnetResourceIDs : list string) (subnet : Subnet) :
    IO (list string) :=
  match sn_Name subnet with
  | None => throw (errorf "subnet name is nil" [])
  | Some sn =>
    let vnetResourceIDs := vnetResourceIDs ++ [getSubnetResourceID (d_cloud d) vnetResourceGroup vnetName sn] in
    if storageServiceExists subnet then mret vnetResourceIDs
    else
      let subnet' := {| sn_Name := sn_Name subnet; sn_ServiceEndpoints := sn_ServiceEndpoints subnet ++ [(Some storageService, [location])] |} in
      _ ← wrap_err (λ e, errorf "failed to update the subnet %s under vnet %s: %v" [sn; vnetName; Error e])
            (call_err (op_subnet_update vnetResourceGroup vnetName sn subnet'));
      mret vnetResourceIDs
  end.

Definition get_subnets (vnetResourceGroup vnetName subnetName : string) : IO (list Subnet) :=
  if decide (subnetName = "") then
    wrap_err (λ e, errorf "failed to list the subnets under rg %s vnet %s: %v" [vnetResourceGroup; vnetName; Error e])
      (call (op_subnet_list vnetResourceGroup vnetName))
  else
    for_each (λ subnets sn,
        subnet ← wrap_err (λ e, errorf "failed to get the subnet %s under rg %s vnet %s: %v" [subnetName; vnetResourceGroup; vnetName; Error e])
                   (call (op_subnet_get vnetResourceGroup vnetName (TrimSpace sn)));
        mret (subnets ++ [subnet])) [] (Split subnetName ",").

Definition updateSubnetServiceEndpoints (d : Driver) (vnetResourceGroup vnetName subnetName : string) : IO (list string) :=
  let c := d_cloud d in
  _ ← throw_if (negb (d_has_network_factory d)) (errorf "networkClientFactory is nil" []);
  let vnetResourceGroup := or_default vnetResourceGroup (or_default (c_VnetResourceGroup c) (c_ResourceGroup c)) in
  let location := c_Location c in
  let vnetName := or_default vnetName (c_VnetName c) in
  _ ← throw_if (bool_decide (vnetName = "") || bool_decide (location = "")) (errorf "vnetName or location is empty" []);
  let lockKey := vnetResourceGroup +:+ vnetName +:+ subnetName in
  cache ← subnetCache_get lockKey;
  match cache with
  | Some vnetResourceIDs => mret vnetResourceIDs
  | None =>
    subnets ← get_subnets vnetResourceGroup vnetName subnetName;
    vnetResourceIDs ← for_each (update_subnet d vnetResourceGroup vnetName location) [] subnets;
    _ ← subnetCache_set lockKey vnetResourceIDs;
    mret vnetResourceIDs
  end.
End subnets.
