(* ===== verification/CreateVolume.v ===== *)
(** * CreateVolume: the provisioning handler of pkg/blob/controllerserver.go

    The parameters of the storage class are read and checked, the account is chosen (the request, the volume map, the
    search cache or the cloud provider), the container created, a source volume copied with a rollback on failure, and the
    account key stored.  The body after the checks runs under the lock of the volume name. *)
From S2P Require Import Prelude GoUnicode GoStrings GoErr Fields Attributes Util CsiCommon Predicates VolumeIDs ContainerNames MountOptions Metrics.
From S2P Require Import Effects World Azcopy Auth Containers Subnets.
From stdpp Require Import options.

(** ** Requests and responses *)

Record CreateVolumeRequest := {
  cv_Name : string;
  cv_VolumeCapabilities : list VolumeCapability;
  cv_CapacityRange : option Z;                       (* the required bytes *)
  cv_Parameters : gomap;
  cv_Secrets : gomap;
  cv_VolumeContentSource : option content_source;
  cv_sourceText : string;                            (* the content source as a message prints it *)
}.

Record Volume := { vol_VolumeId : string; vol_CapacityBytes : Z; vol_VolumeContext : gomap; vol_ContentSource : option content_source }.

Definition required_bytes (r : option Z) : Z := default 0%Z r.

(** ** Storage class parameters *)

Definition ignored_parameters : list string :=
  [serverNameField; storageIdentityClientIDField; storageIdentityObjectIDField; storageIdentityResourceIDField; clientIDField;
   tenantIDField; msiEndpointField; storageAADEndpointField; blobStorageAccountTypeField].
Definition known_parameters : list string :=
  [skuNameField; storageAccountTypeField; locationField; storageAccountField; subscriptionIDField; resourceGroupField; containerNameField;
   containerNamePrefixField; protocolField; tagsField; matchTagsField; secretNameField; secretNamespaceField; isHnsEnabledField;
   softDeleteBlobsField; softDeleteContainersField; enableBlobVersioningField; storeAccountKeyField; getLatestAccountKeyField;
   allowBlobPublicAccessField; publicNetworkAccessField; allowSharedKeyAccessField; requireInfraEncryptionField; pvcNamespaceKey;
   pvcNameKey; pvNameKey; storageAuthTypeField; mountWithWITokenField; storageEndpointSuffixField; vnetResourceGroupField; vnetNameField;
   vnetLinkNameField; subnetNameField; accessTierField; networkEndpointTypeField; privateDNSZoneResourceGroupField; mountPermissionsField;
   useDataPlaneAPIField; fsGroupChangePolicyField; tagValueDelimiterField].

(** The error of one parameter, if it has one. *)
Definition parameter_error (kv : string * string) : option error :=
  let '(k, v) := kv in
  let lower := ToLower k in
  let must_be_bool field := match ParseBool v with
                            | Some _ => None
                            | None => Some (status_errorf InvalidArgument "invalid %s: %s in volume context" [field; v])
                            end in
  let must_be_days := match parseDays v with Ok _ => None | Err e => Some e end in
  switch lower
    [(softDeleteBlobsField, must_be_days); (softDeleteContainersField, must_be_days);
     (getLatestAccountKeyField, must_be_bool getLatestAccountKeyField);
     (allowSharedKeyAccessField, must_be_bool allowSharedKeyAccessField);
     (mountPermissionsField,
      if decide (v = "") then None
      else match ParseUint v 8 32 with
           | Some _ => None
           | None => Some (status_errorf InvalidArgument "invalid mountPermissions %s in storage class" [v])
           end)]
    (if bool_decide (lower ∈ known_parameters) || bool_decide (lower ∈ ignored_parameters) then None
     else Some (status_errorf InvalidArgument "invalid parameter %q in storage class" [k])).

Record parameters := {
  p_storageAccountType : string; p_location : string; p_account : string; p_subsID : string; p_resourceGroup : string;
  p_containerName : string; p_containerNamePrefix : string; p_protocol : string; p_customTags : string; p_matchTags : bool;
  p_secretName : string; p_secretNamespace : string; p_pvcNamespace : string; p_isHnsEnabled : option bool;
  p_softDeleteBlobs : Z; p_softDeleteContainers : Z; p_enableBlobVersioning : option bool; p_storeAccountKey : bool;
  p_getLatestAccountKey : bool; p_allowBlobPublicAccess : option bool; p_publicNetworkAccess : string;
  p_allowSharedKeyAccess : option bool; p_requireInfraEncryption : option bool; p_replaceMap : strmap;
  p_storageEndpointSuffix : string; p_vnetResourceGroup : string; p_vnetName : string; p_vnetLinkName : string;
  p_subnetName : string; p_accessTier : string; p_networkEndpointType : string; p_privateDNSZoneResourceGroup : string;
  p_useDataPlaneAPI : bool; p_fsGroupChangePolicy : string; p_tagValueDelimiter : string;
}.

(** Some entry of the field is set to [value], in any letter case: the assignment is never undone. *)
Definition some_entry (field value : string) (entries : list (string * string)) : bool :=
  existsb (λ kv, bool_decide (ToLower kv.1 = field) && EqualFold kv.2 value) entries.

Definition days_of (o : option string) : Z :=
  match o with Some s => match parseDays s with Ok d => d | Err _ => 0%Z end | None => 0%Z end.

(** The variables after the loop over the parameters, when no entry is in error. *)
Definition read_parameters (entries : list (string * string)) : parameters :=
  let s fields := last_of fields entries "" in
  let o field := last_opt [field] entries in
  {| p_storageAccountType := s [skuNameField; storageAccountTypeField]; p_location := s [locationField];
     p_account := s [storageAccountField]; p_subsID := s [subscriptionIDField]; p_resourceGroup := s [resourceGroupField];
     p_containerName := s [containerNameField]; p_containerNamePrefix := s [containerNamePrefixField]; p_protocol := s [protocolField];
     p_customTags := s [tagsField]; p_matchTags := EqualFold (s [matchTagsField]) trueValue; p_secretName := s [secretNameField];
     p_secretNamespace := s [secretNamespaceField]; p_pvcNamespace := s [pvcNamespaceKey];
     p_isHnsEnabled := if some_entry isHnsEnabledField trueValue entries then Some true else None;
     p_softDeleteBlobs := days_of (o softDeleteBlobsField); p_softDeleteContainers := days_of (o softDeleteContainersField);
     p_enableBlobVersioning := (λ v, EqualFold v trueValue) <$> o enableBlobVersioningField;
     p_storeAccountKey := negb (some_entry storeAccountKeyField falseValue entries || some_entry storageAuthTypeField "MSI" entries
                                || some_entry mountWithWITokenField trueValue entries);
     p_getLatestAccountKey := parsed_bool (s [getLatestAccountKeyField]);
     p_allowBlobPublicAccess := Some (some_entry allowBlobPublicAccessField trueValue entries);
     p_publicNetworkAccess := s [publicNetworkAccessField]; p_allowSharedKeyAccess := parsed_bool <$> o allowSharedKeyAccessField;
     p_requireInfraEncryption := if some_entry requireInfraEncryptionField trueValue entries then Some true else None;
     p_replaceMap := if_set pvcNamespaceMetadata (o pvcNamespaceKey) (if_set pvcNameMetadata (o pvcNameKey)
                       (if_set pvNameMetadata (o pvNameKey) ∅));
     p_storageEndpointSuffix := s [storageEndpointSuffixField]; p_vnetResourceGroup := s [vnetResourceGroupField];
     p_vnetName := s [vnetNameField]; p_vnetLinkName := s [vnetLinkNameField]; p_subnetName := s [subnetNameField];
     p_accessTier := s [accessTierField]; p_networkEndpointType := s [networkEndpointTypeField];
     p_privateDNSZoneResourceGroup := s [privateDNSZoneResourceGroupField];
     p_useDataPlaneAPI := EqualFold (s [useDataPlaneAPIField]) trueValue; p_fsGroupChangePolicy := s [fsGroupChangePolicyField];
     p_tagValueDelimiter := s [tagValueDelimiterField] |}.

(** ** Checks *)

Definition privateEndpoint : string := "privateendpoint".
Definition KindStorageV2 : string := "StorageV2".
Definition KindBlockBlobStorage : string := "BlockBlobStorage".
Definition KindStorage : string := "Storage".
Definition SKUNameStandardLRS : string := "Standard_LRS".
Definition SKUNamePremiumLRS : string := "Premium_LRS".

Definition invalid (cond : bool) (fmt : string) (args : list string) : result () := guard_err cond (status_errorf InvalidArgument fmt args).

Definition resolved_protocol (p : parameters) : string := or_default (p_protocol p) Fuse.
Definition wants_private_endpoint (p : parameters) : bool := EqualFold (p_networkEndpointType p) privateEndpoint.

(** The checks before the network is touched, in their order. *)
Definition check_parameters (p : parameters) : result () :=
  let protocol := resolved_protocol p in
  _ ← invalid (default false (p_enableBlobVersioning p) && (isNFSProtocol (p_protocol p) || default false (p_isHnsEnabled p)))
        "enableBlobVersioning is not supported for NFS protocol or HNS enabled account" [];
  _ ← invalid (negb (isSupportedFSGroupChangePolicy (p_fsGroupChangePolicy p)))
        "fsGroupChangePolicy(%s) is not supported, supported fsGroupChangePolicy list: %v" [p_fsGroupChangePolicy p; fmt_list supportedFSGroupChangePolicyList];
  _ ← invalid (p_matchTags p && negb (bool_decide (p_account p = "")))
        "matchTags must set as false when storageAccount(%s) is provided" [p_account p];
  _ ← invalid (negb (isSupportedProtocol protocol))
        "protocol(%s) is not supported, supported protocol list: %v" [protocol; fmt_list supportedProtocolList];
  _ ← invalid (negb (isSupportedAccessTier (p_accessTier p)))
        "accessTier(%s) is not supported, supported AccessTier list: %v" [p_accessTier p; fmt_list PossibleAccessTierValues];
  _ ← invalid (negb (isSupportedPublicNetworkAccess (p_publicNetworkAccess p)))
        "publicNetworkAccess(%s) is not supported, supported PublicNetworkAccess list: %v" [p_publicNetworkAccess p; fmt_list PossiblePublicNetworkAccessValues];
  _ ← invalid (negb (bool_decide (p_containerName p = "")) && negb (bool_decide (p_containerNamePrefix p = "")))
        "containerName(%s) and containerNamePrefix(%s) could not be specified together" [p_containerName p; p_containerNamePrefix p];
  _ ← invalid (negb (isSupportedContainerNamePrefix (p_containerNamePrefix p)))
        "containerNamePrefix(%s) can only contain lowercase letters, numbers, hyphens, and length should be less than 21" [p_containerNamePrefix p];
  if wants_private_endpoint p then
    invalid (Contains (p_subnetName p) ",") "subnetName(%s) can only contain one subnet for private endpoint" [p_subnetName p]
  else
    invalid (negb (bool_decide (p_privateDNSZoneResourceGroup p = "")))
      "privateDNSZoneResourceGroup(%s) is only supported with private endpoint" [p_privateDNSZoneResourceGroup p].

Definition account_kind (c : CloudConfig) (storageAccountType : string) : string :=
  if IsAzureStackCloud c then KindStorage
  else if HasPrefix (ToLower storageAccountType) "premium" then KindBlockBlobStorage else KindStorageV2.

Definition stores_account_key (p : parameters) : bool := p_storeAccountKey p && negb (isNFSProtocol (resolved_protocol p)).

(** The checks after the service endpoints are updated; the tags are their result. *)
Definition check_account (c : CloudConfig) (p : parameters) (source : option content_source) : result strmap :=
  let sku := p_storageAccountType p in
  _ ← invalid (IsAzureStackCloud c && negb (bool_decide (sku = "")) && negb (bool_decide (sku = SKUNameStandardLRS))
               && negb (bool_decide (sku = SKUNamePremiumLRS)))
        "Invalid skuName value: %s, as Azure Stack only supports %s and %s Storage Account types." [sku; SKUNamePremiumLRS; SKUNameStandardLRS];
  tags ← match ConvertTagsToMap (p_customTags p) (p_tagValueDelimiter p) with
         | Ok tags => Ok tags
         | Err e => Err (status_errorf InvalidArgument "%v" [Error e])
         end;
  _ ← invalid (stores_account_key p && negb (default true (p_allowSharedKeyAccess p)))
        "storeAccountKey is not supported for account with shared access key disabled" [];
  _ ← invalid (bool_decide (source = Some SnapshotSource)) "VolumeContentSource Snapshot is not yet implemented" [];
  Ok tags.

(** serializeTags: json.Marshal of a map prints the keys in order and escapes for HTML. *)
Definition json_chunk (c : chunk) : string :=
  let r := c_rune c in
  let hex4 n := String (hex_digit (n / 4096)) (String (hex_digit ((n / 256) mod 16))
                  (String (hex_digit ((n / 16) mod 16)) (String (hex_digit (n mod 16)) EmptyString))) in
  if N.eqb r 34 then "\" +:+ String (byte_of 34) EmptyString
  else if N.eqb r 92 then "\\"
  else if N.eqb r 8 then "\b" else if N.eqb r 12 then "\f" else if N.eqb r 10 then "\n" else if N.eqb r 13 then "\r"
  else if N.eqb r 9 then "\t"
  else if (r <? 32)%N || N.eqb r 60 || N.eqb r 62 || N.eqb r 38 || N.eqb r 8232 || N.eqb r 8233
          || (N.eqb r rune_error && (slen (c_bytes c) =? 1)) then "\u" +:+ hex4 r
  else c_bytes c.

Definition json_string (s : string) : string :=
  let q := String (byte_of 34) EmptyString in q +:+ concat_str (json_chunk <$> runes s) +:+ q.

Definition serializeTags (tags : strmap) : string :=
  if decide (size tags = 0) then ""
  else "{" +:+ Join ((λ k, json_string k +:+ ":" +:+ json_string (default "" (tags !! k))) <$> merge_sort str_le (map_to_list tags).*1) "," +:+ "}".

(** ** The plan of a volume: what the checks fix *)

Record plan := {
  pl_p : parameters;
  pl_resourceGroup : string;
  pl_secretNamespace : string;
  pl_protocol : string;
  pl_createPrivateEndpoint : option bool;
  pl_vnetResourceIDs : list string;
  pl_accountKind : string;
  pl_isHnsEnabled : option bool;
  pl_enableNfsV3 : option bool;
  pl_storeAccountKey : bool;
  pl_tags : strmap;
  pl_storageEndpointSuffix : string;
  pl_requestName : string;
  pl_srcAccountName : string;
}.

Definition source_account (source : option content_source) : string :=
  match source with
  | Some (VolumeSource (Some sourceID)) => match GetContainerInfo sourceID with Ok ci => ci_account ci | Err _ => "" end
  | _ => ""
  end.

Definition make_plan (c : CloudConfig) (p : parameters) (vnetResourceIDs : list string) (tags : strmap) (source : option content_source) : plan :=
  let protocol := resolved_protocol p in
  let nfs := isNFSProtocol protocol in
  {| pl_p := p; pl_resourceGroup := or_default (p_resourceGroup p) (c_ResourceGroup c);
     pl_secretNamespace := or_default (p_secretNamespace p) (or_default (p_pvcNamespace p) defaultNamespace);
     pl_protocol := protocol; pl_createPrivateEndpoint := if wants_private_endpoint p then Some true else None;
     pl_vnetResourceIDs := vnetResourceIDs; pl_accountKind := account_kind c (p_storageAccountType p);
     pl_isHnsEnabled := if nfs then Some true else p_isHnsEnabled p; pl_enableNfsV3 := if nfs then Some true else None;
     pl_storeAccountKey := stores_account_key p; pl_tags := tags;
     pl_storageEndpointSuffix := if decide (TrimSpace (p_storageEndpointSuffix p) = "") then getStorageEndPointSuffix c else p_storageEndpointSuffix p;
     pl_requestName := match source with
                       | Some (VolumeSource _) => "controller_create_volume_from_volume"
                       | _ => "controller_create_volume"
                       end;
     pl_srcAccountName := source_account source |}.

Definition account_options (pl : plan) (name : string) : AccountOptions :=
  let p := pl_p pl in
  {| ao_Name := name; ao_Type := p_storageAccountType p; ao_Kind := pl_accountKind pl; ao_SubscriptionID := p_subsID p;
     ao_ResourceGroup := pl_resourceGroup pl; ao_Location := p_location p; ao_EnableHTTPSTrafficOnly := true;
     ao_VirtualNetworkResourceIDs := pl_vnetResourceIDs pl; ao_Tags := pl_tags pl; ao_MatchTags := p_matchTags p;
     ao_IsHnsEnabled := pl_isHnsEnabled pl; ao_EnableNfsV3 := pl_enableNfsV3 pl; ao_AllowBlobPublicAccess := p_allowBlobPublicAccess p;
     ao_PublicNetworkAccess := p_publicNetworkAccess p; ao_AllowSharedKeyAccess := p_allowSharedKeyAccess p;
     ao_RequireInfrastructureEncryption := p_requireInfraEncryption p; ao_VNetResourceGroup := p_vnetResourceGroup p;
     ao_VNetName := p_vnetName p; ao_VNetLinkName := p_vnetLinkName p; ao_SubnetName := p_subnetName p; ao_AccessTier := p_accessTier p;
     ao_CreatePrivateEndpoint := pl_createPrivateEndpoint pl; ao_PrivateDNSZoneResourceGroup := p_privateDNSZoneResourceGroup p;
     ao_StorageEndpointSuffix := pl_storageEndpointSuffix pl; ao_EnableBlobVersioning := p_enableBlobVersioning p;
     ao_SoftDeleteBlobs := p_softDeleteBlobs p; ao_SoftDeleteContainers := p_softDeleteContainers p;
     ao_GetLatestAccountKey := p_getLatestAccountKey p; ao_SourceAccountName := pl_srcAccountName pl |}.

(** The key of the account search cache. *)
Definition search_key (pl : plan) : string :=
  let p := pl_p pl in
  let b dflt o := FormatBool (default dflt o) in
  Sprintf "%s|%s|%s|%s|%s|%s|%s|%s|%v|%v|%v|%v|%v|%v|%v|%v|%v|%d|%d|%s|%s|%s|%s|%v|%v|%s|%s"
    [p_storageAccountType p; pl_accountKind pl; pl_resourceGroup pl; p_location p; pl_protocol pl; p_subsID p; p_accessTier p;
     p_privateDNSZoneResourceGroup p; b false (pl_createPrivateEndpoint pl); b false (p_allowBlobPublicAccess p);
     b false (p_requireInfraEncryption p); b true (p_allowSharedKeyAccess p); b false (pl_isHnsEnabled pl); b false (pl_enableNfsV3 pl);
     FormatBool true; p_publicNetworkAccess p; b false (p_enableBlobVersioning p); FormatInt (p_softDeleteBlobs p);
     FormatInt (p_softDeleteContainers p); p_vnetResourceGroup p; p_vnetName p; p_vnetLinkName p; p_subnetName p;
     FormatBool (p_matchTags p); serializeTags (pl_tags pl); pl_storageEndpointSuffix pl; pl_srcAccountName pl].

(** ** The handler *)

Definition volumeOperationAlreadyExistsWithAzcopyFmt : string :=
  "An operation using azcopy with the given Volume ID %s already exists. Azcopy job status: %s, copy percent: %s%%, error: %v".

Section create_volume.
Context {W : Type} `{Ops W} `{RangeOrder}.

(** A Go panic, which ends the process; [getValidContainerName_spec] shows when there is none. *)
Definition from_panic {A} (o : option A) : io (st W) A :=
  match o with Some a => mret a | None => throw (errorf "runtime error: index out of range" []) end.

(** The container of the volume; a UUID is drawn when the name needs one. *)
Definition choose_container (pl : plan) (volName : string) (params : gomap) : IO (string * gomap) :=
  let p := pl_p pl in
  let containerName := replaceWithMap 390 (p_containerName p) (p_replaceMap p) in
  if decide (containerName = "") then
    let name := if decide (p_containerNamePrefix p = "") then volName else p_containerNamePrefix p +:+ "-" +:+ volName in
    uuid ← (if default false (cut_name name ≫= regenerated) then ask op_uuid else mret "");
    name ← from_panic (getValidContainerName uuid name (pl_protocol pl));
    mret (name, setKeyValueInMap 398 params containerNameField name)
  else mret (containerName, params).

(** The account: named by the request, known for the volume, found in the cache, or ensured.  The last component are the
    samples that a deferred call records when CreateVolume returns. *)
Definition choose_account (d : Driver) (pl : plan) (volName : string) (secrets : gomap) : IO (string * string * list sample) :=
  let account := p_account (pl_p pl) in
  if (mlen secrets =? 0) && bool_decide (account = "") then
    known ← gets (λ s : st W, s_volMap s !! volName);
    match known with
    | Some accountName => mret (accountName, "", [])
    | None =>
      let lockKey := search_key pl in
      cache ← accountSearchCache_get lockKey;
      match cache with
      | Some accountName => mret (accountName, "", [])
      | None =>
        r ← attempt (ExponentialBackoff (getBackOff (d_cloud d))
              (r ← ask (op_ensure_account (account_options pl account) (pl_protocol pl));
               match r with
               | Ok found => mret (Some found)
               | Err e => if isRetriableError (Some e) then mret None else throw e
               end));
        let observed ok := [AzureOperation "storage_account_ensure" (c_ResourceGroup (d_cloud d)) (c_SubscriptionID (d_cloud d)) ok] in
        match r with
        | Err e =>
          _ ← modify (add_samples (observed false));
          throw (status_errorf Internal "ensure storage account failed with %v" [Error e])
        | Ok (accountName, accountKey) =>
          _ ← accountSearchCache_set lockKey accountName;
          _ ← modify (set_volMap <[volName := accountName]>);
          mret (accountName, accountKey, observed true)
        end
      end
    end
  else mret (account, "", []).
(** The copy of the source volume with its rollback; the container is only removed when its name was generated. *)
Definition copy_source (d : Driver) (pl : plan) (source : content_source) (sourceText optionsName accountName accountKey validContainerName : string)
    (shouldCleanupContainer : bool) (secrets : gomap) : IO () :=
  let p := pl_p pl in
  let accountOptions := account_options pl optionsName in
  let auth := getAzcopyAuth d accountName accountKey (pl_storageEndpointSuffix pl) accountOptions secrets (p_secretName p) (pl_secretNamespace pl) in
  let cleanup := cleanupContainerOnFailure d shouldCleanupContainer (p_subsID p) (pl_resourceGroup pl) accountName validContainerName secrets in
  let copy token env := copyVolume d source sourceText accountName token env validContainerName (pl_secretNamespace pl) accountOptions (pl_storageEndpointSuffix pl) in
  let auth_failure e := status_errorf Internal "failed to getAzcopyAuth on account(%s) rg(%s), error: %v" [optionsName; pl_resourceGroup pl; Error e] in
  let auth_or_cleanup useSasToken : IO (string * list string) :=
    r ← attempt (auth useSasToken);
    match r with
    | Ok a => mret a
    | Err e => _ ← cleanup []; throw (auth_failure e)
    end in
  '(accountSASToken, authAzcopyEnv) ← auth_or_cleanup false;
  copied ← attempt (copy accountSASToken authAzcopyEnv);
  '(copied, authAzcopyEnv) ←
    (match copied with
     | Err e =>
       if bool_decide (accountSASToken = "") && Contains (Error e) authorizationPermissionMismatch then
         '(accountSASToken, authAzcopyEnv) ← auth_or_cleanup true;
         copied ← attempt (copy accountSASToken authAzcopyEnv);
         mret (copied, authAzcopyEnv)
       else mret (copied, authAzcopyEnv)
     | Ok _ => mret (copied, authAzcopyEnv)
     end);
  match copied with
  | Ok _ => mret ()
  | Err e => _ ← cleanup authAzcopyEnv; throw e
  end.

(** The key of the account: the one that ensuring it returned, else the one GetStorageAccesskey finds. *)
Definition account_key (d : Driver) (pl : plan) (optionsName accountName accountKey : string) (secrets : gomap) : IO (string * string) :=
  if decide (accountKey = "") then
    wrap_err (λ e, status_errorf Internal "failed to GetStorageAccesskey on account(%s) rg(%s), error: %v" [optionsName; pl_resourceGroup pl; Error e])
      (GetStorageAccesskey d (account_options pl optionsName) secrets (p_secretName (pl_p pl)) (pl_secretNamespace pl))
  else mret (accountName, accountKey).

(** What happens under the lock once the account is chosen. *)
Definition provision (d : Driver) (req : CreateVolumeRequest) (pl : plan) (validContainerName : string) (params : gomap)
    (chosenAccount accountKey : string) : IO (Volume * bool) :=
  let p := pl_p pl in
  let volName := cv_Name req in
  let specified := replaceWithMap 390 (p_containerName p) (p_replaceMap p) in
  let params := if default false (pl_createPrivateEndpoint pl) && isNFSProtocol (pl_protocol pl)
                then setKeyValueInMap 474 params serverNameField (Sprintf "%s.privatelink.blob.%s" [chosenAccount; pl_storageEndpointSuffix pl])
                else params in
  '(accountName, accountKey, secrets) ←
    (if (mlen (cv_Secrets req) =? 0) && p_useDataPlaneAPI p then
       '(accountName, accountKey) ← account_key d pl chosenAccount chosenAccount accountKey (cv_Secrets req);
       mret (accountName, accountKey, Some (createStorageAccountSecret accountName accountKey))
     else mret (chosenAccount, accountKey, cv_Secrets req));
  let requestGiB := FormatInt (RoundUpGiB (required_bytes (cv_CapacityRange req))) in
  _ ← wrap_err (λ e, status_errorf Internal "failed to create container(%s) on account(%s) type(%s) rg(%s) location(%s) size(%d), error: %v"
                  [validContainerName; accountName; p_storageAccountType p; pl_resourceGroup pl; p_location p; requestGiB; Error e])
        (CreateBlobContainer d (p_subsID p) (pl_resourceGroup pl) accountName validContainerName (pl_storageEndpointSuffix pl) secrets);
  _ ← (match cv_VolumeContentSource req with
       | Some source => copy_source d pl source (cv_sourceText req) chosenAccount accountName accountKey validContainerName (bool_decide (specified = "")) secrets
       | None => mret ()
       end);
  accountName ←
    (if pl_storeAccountKey pl && (mlen (cv_Secrets req) =? 0) then
       '(accountName, accountKey) ← account_key d pl chosenAccount accountName accountKey secrets;
       _ ← wrap_err (λ e, status_errorf Internal "failed to store storage account key: %v" [Error e])
             (setAzureCredentials (d_has_kube d) accountName accountKey (pl_secretNamespace pl));
       mret accountName
     else mret accountName);
  let uuid := if decide (specified = "") then "" else volName in
  let volumeID := formatVolumeID (pl_resourceGroup pl) accountName validContainerName uuid (pl_secretNamespace pl) (p_subsID p) in
  _ ← when (p_useDataPlaneAPI p) (_ ← dataPlaneAPIVolCache_set volumeID; dataPlaneAPIVolCache_set accountName);
  mret ({| vol_VolumeId := volumeID; vol_CapacityBytes := required_bytes (cv_CapacityRange req);
           vol_VolumeContext := setKeyValueInMap 553 params secretNamespaceField (pl_secretNamespace pl);
           vol_ContentSource := cv_VolumeContentSource req |}, true).

(** CreateVolume under the lock: the account's metric is recorded after everything else, then the operation's own. *)
Definition create_volume_locked (d : Driver) (req : CreateVolumeRequest) (pl : plan) (validContainerName : string) (params : gomap) : IO Volume :=
  let csiMC := WithBasicVolumeInfo (NewCSIMetricContext (pl_requestName pl)) (c_ResourceGroup (d_cloud d)) (c_SubscriptionID (d_cloud d)) (d_Name d) in
  with_metric (λ ok, ObserveWithLabels csiMC ok [StorageAccountType; p_storageAccountType (pl_p pl); Protocol; pl_protocol pl])
    ('(accountName, accountKey, deferred) ← choose_account d pl (cv_Name req) (cv_Secrets req);
     defer (λ _, add_samples deferred) (provision d req pl validContainerName params accountName accountKey)).

(** The answer to a request whose volume is being worked on. *)
Definition create_volume_aborted (volName validContainerName : string) (source : option content_source) : IO Volume :=
  match source with
  | Some _ =>
    '(jobState, percent, err) ← GetAzcopyJob validContainerName [];
    throw (status_errorf Aborted volumeOperationAlreadyExistsWithAzcopyFmt [volName; AzcopyJobState_String jobState; percent; error_text err])
  | None => throw (status_errorf Aborted volumeOperationAlreadyExistsFmt [volName])
  end.

(** The request checks that need no parameter. *)
Definition check_request (d : Driver) (req : CreateVolumeRequest) : result () :=
  _ ← match ValidateControllerServiceRequest (d_csi d) CREATE_DELETE_VOLUME with Some e => Err e | None => Ok () end;
  _ ← guard_err (bool_decide (cv_Name req = "")) (Status InvalidArgument "CreateVolume Name must be provided");
  match isValidVolumeCapabilities (cv_VolumeCapabilities req) with Some e => Err (Status InvalidArgument (Error e)) | None => Ok () end.

Definition CreateVolume (d : Driver) (req : CreateVolumeRequest) : IO Volume :=
  _ ← from_result (check_request d req);
  let params : gomap := Some (default ∅ (cv_Parameters req)) in
  let entries := mrange 114 params in
  _ ← throw_some (first_error parameter_error entries);
  let p := read_parameters entries in
  _ ← from_result (check_parameters p);
  vnetResourceIDs ←
    (if isNFSProtocol (resolved_protocol p) && negb (wants_private_endpoint p) then
       wrap_err (λ e, status_errorf Internal "update service endpoints failed with error: %v" [Error e])
         (updateSubnetServiceEndpoints d (p_vnetResourceGroup p) (p_vnetName p) (p_subnetName p))
     else mret []);
  tags ← from_result (check_account (d_cloud d) p (cv_VolumeContentSource req));
  let pl := make_plan (d_cloud d) p vnetResourceIDs tags (cv_VolumeContentSource req) in
  '(validContainerName, params) ← choose_container pl (cv_Name req) params;
  with_volume_lock (cv_Name req)
    (create_volume_aborted (cv_Name req) validContainerName (cv_VolumeContentSource req))
    (create_volume_locked d req pl validContainerName params).
End create_volume.
