(* ===== verification/Parameters.v ===== *)
(** * Parameters: the order in which a map is ranged over

    CreateVolume reads the storage class parameters in the order of a Go map.  When is what it reads determined? *)
From S2P Require Import Prelude GoUnicode GoStrings GoErr Fields Attributes Predicates Effects World Auth Containers CreateVolume.
From stdpp Require Import options.

Implicit Types entries : list (string * string).

(** At most one entry satisfies [p]. *)
Definition at_most_one {A} (p : A → bool) (l : list A) : Prop := ∀ x y, x ∈ l → y ∈ l → p x = true → p y = true → x = y.

Lemma find_last_perm {A} (p : A → bool) (l l' : list A) : l ≡ₚ l' → at_most_one p l → find_last p l = find_last p l'.
Proof.
  intros Hp H1. destruct (find_last p l) as [x|] eqn:E, (find_last p l') as [y|] eqn:E'; [..|done].
  - apply find_last_Some in E as [Hx Px], E' as [Hy Py]. f_equal. apply H1; [done| |done..]. by rewrite Hp.
  - apply find_last_Some in E as [Hx Px]. apply (find_last_None _ _) with (x := x) in E'; [congruence|by rewrite <- Hp].
  - apply find_last_Some in E' as [Hy Py]. apply (find_last_None _ _) with (x := y) in E; [congruence|by rewrite Hp].
Qed.

Lemma existsb_perm {A} (p : A → bool) (l l' : list A) : l ≡ₚ l' → existsb p l = existsb p l'.
Proof.
  intros Hp. apply eq_iff_eq_true. rewrite !existsb_exists. split; intros (x & Hx & Px); exists x; split; try done;
    apply list_elem_of_In; apply list_elem_of_In in Hx; [by rewrite <- Hp|by rewrite Hp].
Qed.

Lemma first_error_None {A} (f : A → option error) (l : list A) : first_error f l = None ↔ ∀ x, x ∈ l → f x = None.
Proof.
  induction l as [|y l IH]; simpl.
  - split; [|done]. intros _ x Hx. by apply not_elem_of_nil in Hx.
  - split.
    + destruct (f y) eqn:E; [done|]. intros Hl x [->|Hx]%elem_of_cons; [done|by apply IH].
    + intros Hl. rewrite (Hl y) by left. apply IH. intros x Hx. apply Hl. by right.
Qed.

(** Distinct keys up to letter case, and not both names of the account type. *)
Definition unambiguous entries : Prop :=
  NoDup (ToLower ∘ fst <$> entries) ∧ ¬ (skuNameField ∈ (ToLower ∘ fst <$> entries) ∧ storageAccountTypeField ∈ (ToLower ∘ fst <$> entries)).

#[export] Instance unambiguous_dec entries : Decision (unambiguous entries).
Proof. unfold unambiguous. apply _. Defined.

Lemma NoDup_fmap_inj {A B} (f : A → B) (l : list A) x y : NoDup (f <$> l) → x ∈ l → y ∈ l → f x = f y → x = y.
Proof.
  induction l as [|z l IH]; [by intros _ ?%not_elem_of_nil|]. rewrite fmap_cons, NoDup_cons. intros [Hz Hl].
  intros [->|Hx]%elem_of_cons [->|Hy]%elem_of_cons E; [done|..|by apply IH].
  - destruct Hz. rewrite E. apply list_elem_of_fmap. eauto.
  - destruct Hz. rewrite <- E. apply list_elem_of_fmap. eauto.
Qed.

Lemma unambiguous_field field entries : unambiguous entries → at_most_one (λ kv, bool_decide (ToLower kv.1 ∈ [field])) entries.
Proof.
  intros [Hn _] x y Hx Hy. rewrite !bool_decide_eq_true, !list_elem_of_singleton. intros E1 E2.
  apply (NoDup_fmap_inj _ _ _ _ Hn Hx Hy). simpl. congruence.
Qed.

Lemma unambiguous_type entries :
  unambiguous entries → at_most_one (λ kv, bool_decide (ToLower kv.1 ∈ [skuNameField; storageAccountTypeField])) entries.
Proof.
  intros [Hn Hb] x y Hx Hy. rewrite !bool_decide_eq_true, !elem_of_cons, !elem_of_nil.
  assert (∀ z, z ∈ entries → ToLower z.1 ∈ (ToLower ∘ fst <$> entries)) as Hin by (intros z Hz; apply list_elem_of_fmap; eauto).
  pose proof (Hin x Hx) as Hx'. pose proof (Hin y Hy) as Hy'. intros [E1|[E1|[]]] [E2|[E2|[]]];
    try (apply (NoDup_fmap_inj _ _ _ _ Hn Hx Hy); simpl; congruence);
    destruct Hb; rewrite E1 in Hx'; rewrite E2 in Hy'; done.
Qed.

Lemma parameters_read_alike entries entries' : unambiguous entries → entries ≡ₚ entries' → read_parameters entries = read_parameters entries'.
Proof.
  intros Hu Hp.
  assert (∀ field dflt, last_of [field] entries dflt = last_of [field] entries' dflt) as Hs.
  { intros. unfold last_of. by rewrite (find_last_perm _ _ _ Hp (unambiguous_field _ _ Hu)). }
  assert (∀ field, last_opt [field] entries = last_opt [field] entries') as Ho.
  { intros. unfold last_opt. by rewrite (find_last_perm _ _ _ Hp (unambiguous_field _ _ Hu)). }
  assert (∀ dflt, last_of [skuNameField; storageAccountTypeField] entries dflt = last_of [skuNameField; storageAccountTypeField] entries' dflt) as Ht.
  { intros. unfold last_of. by rewrite (find_last_perm _ _ _ Hp (unambiguous_type _ Hu)). }
  assert (∀ field value, some_entry field value entries = some_entry field value entries') as He.
  { intros. unfold some_entry. by apply existsb_perm. }
  unfold read_parameters. by rewrite !Hs, !Ho, Ht, !He.
Qed.

(** C34 - The order of the map does not matter for an unambiguous storage class: when the keys differ up to letter case and
    skuName and storageAccountType are not both given, any two orders of the parameters are accepted alike and read as the
    same values. *)
Theorem parameters_order_independent entries entries' :
  unambiguous entries → entries ≡ₚ entries' →
  (first_error parameter_error entries = None ↔ first_error parameter_error entries' = None) ∧
  read_parameters entries = read_parameters entries'.
Proof.
  intros Hu Hp. split; [|by apply parameters_read_alike].
  rewrite !first_error_None. split; intros Hf x Hx; apply Hf; [by rewrite Hp|by rewrite <- Hp].
Qed.

Lemma parameters_order_independent_witness :
  (first_error parameter_error [("skuName", "Premium_LRS"); ("protocol", "nfs")] = None ↔
   first_error parameter_error [("protocol", "nfs"); ("skuName", "Premium_LRS")] = None) ∧
  read_parameters [("skuName", "Premium_LRS"); ("protocol", "nfs")] = read_parameters [("protocol", "nfs"); ("skuName", "Premium_LRS")].
Proof. apply parameters_order_independent; [apply (bool_decide_unpack _); vm_compute; exact I|constructor]. Defined.

(** With both names of the account type the result is up to the order in which Go happens to range over the map: the same
    accepted storage class provisions a Premium or a Standard account. *)
Theorem parameters_order_dependent :
  ∃ entries entries', entries ≡ₚ entries' ∧ first_error parameter_error entries = None ∧ first_error parameter_error entries' = None ∧
    p_storageAccountType (read_parameters entries) = "Premium_LRS" ∧ p_storageAccountType (read_parameters entries') = "Standard_LRS".
Proof.
  exists [("storageAccountType", "Standard_LRS"); ("skuName", "Premium_LRS")], [("skuName", "Premium_LRS"); ("storageAccountType", "Standard_LRS")].
  split; [constructor|]. by vm_compute.
Qed.
