(* ===== verification/Controller.v ===== *)
(** * Controller: the other handlers of pkg/blob/controllerserver.go

    DeleteVolume, ValidateVolumeCapabilities, ControllerExpandVolume, the handlers that are not implemented and the
    capabilities. *)
From S2P Require Import Prelude GoUnicode GoStrings GoErr Fields Attributes Util CsiCommon Predicates VolumeIDs Metrics Effects World.
From S2P Require Import Azcopy Auth Containers.
From stdpp Require Import options.

(** A request carries the text that a message prints for it. *)
Record DeleteVolumeRequest := { dv_VolumeId : string; dv_Secrets : gomap; dv_text : string }.
Record ValidateVolumeCapabilitiesRequest := { vv_VolumeId : string; vv_VolumeCapabilities : list VolumeCapability; vv_Secrets : gomap }.
Record ControllerExpandVolumeRequest := { ev_VolumeId : string; ev_CapacityRange : option Z; ev_text : string }.

Section controller.
Context {W : Type} `{Ops W} `{RangeOrder}.

(** DeleteVolume under the lock of the volume id; an identifier that cannot be read is deleted already. *)
Definition delete_volume_locked (d : Driver) (req : DeleteVolumeRequest) : IO () :=
  let volumeID := dv_VolumeId req in
  match GetContainerInfo volumeID with
  | Err _ => mret ()
  | Ok ci =>
    let accountName := ci_account ci in
    dataPlane ← (if mlen (dv_Secrets req) =? 0 then useDataPlaneAPI volumeID accountName else mret false);
    secrets ←
      (if dataPlane : bool then
         env ← wrap_err (λ e, status_errorf Internal "GetAuthEnv(%s) failed with %v" [volumeID; Error e])
                 (GetAuthEnv d volumeID "" None (dv_Secrets req));
         mret (if bool_decide (ae_accountName env = "") || bool_decide (ae_accountKey env = "") then dv_Secrets req
               else Some (createStorageAccountSecret (ae_accountName env) (ae_accountKey env)))
       else mret (dv_Secrets req));
    let csiMC := WithBasicVolumeInfo (NewCSIMetricContext "controller_delete_volume")
                   (c_ResourceGroup (d_cloud d)) (c_SubscriptionID (d_cloud d)) (d_Name d) in
    with_metric (Observe csiMC)
      (let resourceGroupName := or_default (ci_resourceGroup ci) (c_ResourceGroup (d_cloud d)) in
       _ ← wrap_err (λ e, status_errorf Internal "failed to delete container(%s) under rg(%s) account(%s) volumeID(%s), error: %v"
                       [ci_container ci; resourceGroupName; accountName; volumeID; Error e])
             (DeleteBlobContainer d (ci_subsID ci) resourceGroupName accountName (ci_container ci) secrets);
       mret ((), true))
  end.

Definition DeleteVolume (d : Driver) (req : DeleteVolumeRequest) : IO () :=
  let volumeID := dv_VolumeId req in
  _ ← throw_if (bool_decide (volumeID = "")) (Status InvalidArgument "Volume ID missing in request");
  _ ← (match ValidateControllerServiceRequest (d_csi d) CREATE_DELETE_VOLUME with
       | Some _ => throw (status_errorf Internal "invalid delete volume req: %v" [dv_text req])
       | None => mret ()
       end);
  with_volume_lock volumeID (throw (status_errorf Aborted volumeOperationAlreadyExistsFmt [volumeID])) (delete_volume_locked d req).

Definition internal (e : error) : error := Status Internal (Error e).

(** Whether the container of a volume exists: asked of the data plane with the secrets, of the management plane without. *)
Definition container_exists (d : Driver) (volumeID : string) (ci : ContainerInfo) (secrets : gomap) : IO bool :=
  if 0 <? mlen secrets then
    container ← wrap_err internal (from_result (getContainerReference (ci_container ci) secrets (getStorageEndPointSuffix (d_cloud d))));
    wrap_err internal (call (op_dp_exists container))
  else
    let resourceGroupName := or_default (ci_resourceGroup ci) (c_ResourceGroup (d_cloud d)) in
    _ ← wrap_err internal (call_err (op_blob_client (ci_subsID ci)));
    properties ← wrap_err internal (call (op_get_container (ci_subsID ci) resourceGroupName (ci_account ci) (ci_container ci)));
    match properties with
    | None => throw (status_errorf Internal "ContainerProperties of volume(%s) is nil" [volumeID])
    | Some deleted => mret (bool_decide (deleted = Some false))
    end.

Definition ValidateVolumeCapabilities (d : Driver) (req : ValidateVolumeCapabilitiesRequest) : IO (list VolumeCapability) :=
  let volumeID := vv_VolumeId req in
  _ ← throw_if (bool_decide (volumeID = "")) (Status InvalidArgument "Volume ID missing in request");
  _ ← (match isValidVolumeCapabilities (vv_VolumeCapabilities req) with
       | Some e => throw (Status InvalidArgument (Error e))
       | None => mret ()
       end);
  with_metric (Observe (NewCSIMetricContext "controller_validate_volume_capabilities"))
    (ci ← wrap_err (λ e, Status NotFound (Error e)) (from_result (GetContainerInfo volumeID));
     exist ← container_exists d volumeID ci (vv_Secrets req);
     _ ← throw_if (negb exist) (status_errorf NotFound "requested volume(%s) does not exist" [volumeID]);
     mret (vv_VolumeCapabilities req, true)).

(** ControllerExpandVolume: a container has no quota, the request is only checked. *)
Definition expand_volume (d : Driver) (req : ControllerExpandVolumeRequest) : result Z :=
  _ ← guard_err (bool_decide (ev_VolumeId req = "")) (Status InvalidArgument "Volume ID missing in request");
  match ev_CapacityRange req with
  | None => Err (Status InvalidArgument "Capacity Range missing in request")
  | Some volSizeBytes =>
    _ ← match ValidateControllerServiceRequest (d_csi d) EXPAND_VOLUME with
        | Some _ => Err (status_errorf Internal "invalid expand volume req: %v" [ev_text req])
        | None => Ok ()
        end;
    _ ← guard_err (containerMaxSize <? volSizeBytes)%Z
          (status_errorf OutOfRange "required bytes (%d) exceeds the maximum supported bytes (%d)" [FormatInt volSizeBytes; FormatInt containerMaxSize]);
    Ok volSizeBytes
  end.

Definition ControllerExpandVolume (d : Driver) (req : ControllerExpandVolumeRequest) : io (st W) Z :=
  with_metric (Observe (NewCSIMetricContext "controller_expand_volume")) (z ← from_result (expand_volume d req); mret (z, true)).

(** The handlers that answer Unimplemented. *)
Definition unimplemented (method : string) : io (st W) () := throw (status_errorf Unimplemented "%s is not yet implemented" [method]).
Definition ControllerModifyVolume : io (st W) () := throw (Status Unimplemented "").
Definition ControllerPublishVolume : io (st W) () := unimplemented "ControllerPublishVolume".
Definition ControllerUnpublishVolume : io (st W) () := unimplemented "ControllerUnpublishVolume".
Definition ControllerGetVolume : io (st W) () := unimplemented "ControllerGetVolume".
Definition GetCapacity : io (st W) () := unimplemented "GetCapacity".
Definition ListVolumes : io (st W) () := unimplemented "ListVolumes".
Definition CreateSnapshot : io (st W) () := unimplemented "CreateSnapshot".
Definition DeleteSnapshot : io (st W) () := unimplemented "DeleteSnapshot".
Definition ListSnapshots : io (st W) () := unimplemented "ListSnapshots".

Definition ControllerGetCapabilities (d : Driver) : list ControllerCap := csi_Cap (d_csi d).
End controller.
