(* ===== verification/Mounts.v ===== *)
(** * Mounts: mount points, permissions and the two ways to run blobfuse

    ensureMountPoint, waitForMount, isDistributedCacheSupported and the mount calls of pkg/blob/nodeserver.go,
    chmodIfPermissionMismatch and IsCorruptedDir of pkg/blob/blob.go, MakeDir and SetVolumeOwnership of pkg/util/util.go. *)
From S2P Require Import Prelude GoUnicode GoStrings GoErr Fields Attributes Util MountOptions Metrics Effects World Containers Proxy.
From stdpp Require Import options.

(** os.ModePerm, and the conversion of a uint64 to os.FileMode. *)
Definition ModePerm : N := 511.
Definition FileMode (n : N) : N := (n mod 2 ^ 32)%N.

(** The text of an error of strconv.Atoi. *)
Definition atoi_error (s : string) : error :=
  let digits := match chars s with
                | c :: l => if Ascii.eqb c "-" || Ascii.eqb c "+" then l else c :: l
                | [] => []
                end in
  let reason := if bool_decide (digits ≠ []) && forallb (λ c, in_range 48 57 (byte_val c)) digits then "value out of range" else "invalid syntax" in
  errorf "strconv.Atoi: parsing %q: %s" [s; reason].

Section mounts.
Context {W : Type} `{Ops W}.

Definition MakeDir (pathname : string) (perm : N) : IO (option error) :=
  err ← ask (op_mkdir_all pathname perm);
  mret (match err with Some e => if is_exist e then None else Some e | None => None end).

Definition IsCorruptedDir (dir : string) : IO bool :=
  '(_, pathErr) ← ask (op_path_exists dir);
  mret (match pathErr with Some e => is_corrupted_mnt e | None => false end).

(** ensureMountPoint returns whether the target is a mount point together with an error. *)
Definition ensureMountPoint (target : string) (perm : N) (shouldUnmount : bool) : IO (bool * option error) :=
  '(notMnt, err) ← ask (op_is_likely_not_mnt target);
  let failed := match err with Some e => if is_not_exist e then None else Some e | None => None end in
  corrupted ← (match failed with Some _ => IsCorruptedDir target | None => mret false end);
  match failed, corrupted with
  | Some e, false => mret (negb notMnt, Some e)
  | _, _ =>
    let notMnt := if corrupted : bool then false else notMnt in
    mountList ← ask op_mount_list;
    match mountList with
    | Err e => mret (negb notMnt, Some e)
    | Ok mountPoints =>
      abs ← ask (op_abs target);
      match abs with
      | Err e => mret (negb notMnt, Some e)
      | Ok targetAbs =>
        let notMnt := if existsb (λ path, bool_decide (path = targetAbs)) mountPoints then false else notMnt in
        if negb notMnt then
          if negb shouldUnmount then mret (true, None)
          else
            err ← ask (op_probe_mount target);
            match err with
            | None => mret (true, None)
            | Some probe_err =>
              err ← ask (op_unmount target);
              match err with
              | Some e => mret (true, Some e)
              | None => mret (false, Some probe_err)
              end
            end
        else
          err ← MakeDir target perm;
          mret (false, err)
      end
    end
  end.

Definition waitForMountTimeoutSeconds : Z := 110.
(** The ticks of waitForMountInterval, 20 milliseconds, in waitForMountTimeout. *)
Definition waitForMountTicks : nat := Z.to_nat (waitForMountTimeoutSeconds * 50).

Fixpoint waitForMount (ticks : nat) (path : string) : io (st W) () :=
  let timeout := throw (errorf "timeout waiting for mount %s" [path]) in
  match ticks with
  | 0 => timeout
  | S ticks =>
    fires ← ask (op_timer_fires waitForMountTimeoutSeconds);
    if fires : bool then timeout
    else
      '(notMount, err) ← ask (op_is_likely_not_mnt path);
      match err with
      | Some e => throw e
      | None => if notMount : bool then waitForMount ticks path else mret ()
      end
  end.

Definition chmodIfPermissionMismatch (targetPath : string) (mode : N) : IO () :=
  info ← call (op_lstat targetPath);
  let expectedPerms := N.land mode ModePerm in
  if N.eqb (N.land info ModePerm) expectedPerms then mret ()
  else call_err (op_chmod targetPath (N.lor (N.ldiff info ModePerm) expectedPerms)).

Definition SetVolumeOwnership (path gid policy : string) : IO () :=
  match Atoi gid with
  | None => throw (errorf "convert %s to int failed with %v" [gid; Error (atoi_error gid)])
  | Some id => call_err (op_set_ownership path id (if decide (policy = "") then FSGroupChangeOnRootMismatch else policy))
  end.

(** ** Blobfuse *)

Definition isDistributedCacheSupported (d : Driver) (protocol : string) : IO bool :=
  if d_enableBlobfuseProxy d then
    _ ← wrap_err (λ e, errorf "failed to connect to blobfuse proxy: %w" [Error e]) (call_err op_proxy_dial);
    wrap_err (λ e, errorf "failed to get blobfuse capabilities from proxy: %w" [Error e]) (call (op_proxy_capabilities protocol))
  else if negb (bool_decide (protocol = Fuse2)) then mret false
  else
    '(output, err) ← ask (op_exec "blobfuse2" ["mount"; "--help"] []);
    match err with
    | Some e => throw (errorf "failed to inspect blobfuse2 mount capabilities: %w: %s" [Error e; TrimSpace output])
    | None => mret (Contains output distributedCacheDiscoveryFlag)
    end.

(** A mount call returns its output together with its error, and is counted as succeeded without one. *)
Definition counted (operation protocol : string) (mount : io (st W) (string * option error)) : io (st W) (string * option error) :=
  with_metric (λ ok, ObserveWithLabels (NewCSIMetricContext operation) ok [Protocol; protocol])
    (r ← mount; mret (r, bool_decide (r.2 = None))).

Definition mountBlobfuseWithProxy (args protocol : string) (authEnv : list string) : IO (string * option error) :=
  counted "node_blobfuse_proxy_mount" protocol
    (err ← ask op_proxy_dial;
     match err with
     | Some e => mret ("", Some e)
     | None => ask (op_proxy_mount args protocol authEnv)
     end).

Definition mountBlobfuseInsideDriver (args protocol : string) (authEnv : list string) : IO (string * option error) :=
  counted "node_blobfuse_mount" protocol
    (if decide (protocol = Fuse2) then ask (op_exec "blobfuse2" (blobfuse2_argv args) authEnv)
     else ask (op_exec "blobfuse" (blobfuse_argv args) authEnv)).
End mounts.
