(* ===== verification/Node.v ===== *)
(** * Node: the handlers of pkg/blob/nodeserver.go

    NodePublishVolume, NodeStageVolume and their counterparts, NodeGetVolumeStats and the small handlers.  Volume
    attributes are a Go map, so the loops over them follow a [RangeOrder]. *)
From S2P Require Import Prelude GoUnicode GoStrings GoErr Fields Attributes Util CsiCommon Predicates ContainerNames MountOptions Metrics.
From S2P Require Import Effects World Azcopy Auth Containers Proxy InlineServer Mounts.
From stdpp Require Import options.

Record NodeStageVolumeRequest := {
  ns_VolumeId : string; ns_StagingTargetPath : string; ns_VolumeCapability : option VolumeCapability; ns_VolumeContext : gomap; ns_Secrets : gomap;
}.
Record NodePublishVolumeRequest := {
  np_VolumeId : string; np_TargetPath : string; np_StagingTargetPath : string; np_VolumeCapability : option VolumeCapability;
  np_VolumeContext : gomap; np_Secrets : gomap; np_Readonly : bool;
}.

(** ** Service account tokens *)

Section tokens.
Context `{RangeOrder}.

(** The sites number the range statements of the calls to getValueInMap. *)
Definition useWorkloadIdentity (attrib : gomap) : bool :=
  negb (bool_decide (getValueInMap 1029 attrib clientIDField = "")) || bool_decide (getValueInMap 1030 attrib mountWithWITokenField = trueValue).

Definition getServiceAccountTokens (secrets volumeContext : gomap) : string :=
  match secrets ≫= (λ m, m !! serviceAccountTokenField) with
  | Some tokens => tokens
  | None => getValueInMap 1045 volumeContext serviceAccountTokenField
  end.

(** The copy of the attributes that carries a token delivered with the secrets. *)
Definition with_token (tokens : string) (attrib : gomap) : gomap :=
  if negb (bool_decide (tokens = "")) && bool_decide (getValueInMap 402 attrib serviceAccountTokenField = "")
  then Some (<[serviceAccountTokenField := tokens]> (default ∅ attrib)) else attrib.

(** What NodePublishVolume forces on the attributes of an inline volume. *)
Definition guard_ephemeral (d : Driver) (context : gomap) : gomap :=
  let context := setKeyValueInMap 126 context secretNamespaceField (mget context podNamespaceField) in
  if negb (d_allowInlineVolumeKeyAccessWithIdentity d) && negb (useWorkloadIdentity context) then
    setKeyValueInMap 131 (setKeyValueInMap 130 (setKeyValueInMap 129 context getAccountKeyFromSecretField trueValue)
      storageAccountField "") storageAccountNameField ""
  else context.

(** The checks of the attributes at the head of both handlers; inline volumes must have ASCII keys. *)
Definition check_attributes (handler : string) (site site' : nat) (attrib : gomap) : result gomap :=
  _ ← (if isEphemeralVolume attrib then
         match ValidateASCIIVolumeAttributeKeys site attrib with
         | Err e => Err (status_errorf InvalidArgument "%s: %v" [handler; Error e])
         | Ok _ => Ok ()
         end
       else Ok ());
  match ValidateVolumeAttributeKeys site' attrib with
  | Err e => Err (status_errorf InvalidArgument "%s: %v" [handler; Error e])
  | Ok attrib => Ok attrib
  end.
End tokens.

(** ** The attributes of a staged volume *)

Record stage_params := {
  sp_serverAddress : string; sp_protocol : string; sp_storageEndpointSuffix : string; sp_ephemeralVol : bool;
  sp_mountOptions : string; sp_isHnsEnabled : bool; sp_replaceMap : strmap; sp_mountPermissions : N; sp_performChmodOp : bool;
  sp_fsGroupChangePolicy : string; sp_blobStorageAccountType : string;
}.

Definition permissions_error (kv : string * string) : option error :=
  if bool_decide (ToLower kv.1 = mountPermissionsField) && negb (bool_decide (kv.2 = "")) then
    match ParseUint kv.2 8 32 with
    | Some _ => None
    | None => Some (status_errorf InvalidArgument "invalid mountPermissions %s" [kv.2])
    end
  else None.

(** The permissions that the attributes ask for, in the order of the loop. *)
Definition permissions (entries : list (string * string)) : list N :=
  omap (λ kv, if bool_decide (ToLower kv.1 = mountPermissionsField) then ParseUint kv.2 8 32 else None) entries.

Definition read_attributes (d : Driver) (entries : list (string * string)) : stage_params :=
  let field name := last_of [name] entries "" in
  let opt name := last_opt [name] entries in
  let perms := permissions entries in
  {| sp_serverAddress := field serverNameField; sp_protocol := field protocolField;
     sp_storageEndpointSuffix := field storageEndpointSuffixField; sp_ephemeralVol := EqualFold (field ephemeralField) trueValue;
     sp_mountOptions := field mountOptionsField; sp_isHnsEnabled := EqualFold (field isHnsEnabledField) trueValue;
     sp_replaceMap := if_set pvcNamespaceMetadata (opt pvcNamespaceKey) (if_set pvcNameMetadata (opt pvcNameKey)
                        (if_set pvNameMetadata (opt pvNameKey) ∅));
     sp_mountPermissions := default (d_mountPermissions d) (find_last (λ perm, negb (N.eqb perm 0)) perms);
     sp_performChmodOp := (0 <? d_mountPermissions d)%N && forallb (λ perm, negb (N.eqb perm 0)) perms;
     sp_fsGroupChangePolicy := last_of [fsGroupChangePolicyField] entries (d_fsGroupChangePolicy d);
     sp_blobStorageAccountType := field blobStorageAccountTypeField |}.

(** The mount flags of the capability, made read-only when its access mode is. *)
Definition stage_flags (vc : VolumeCapability) (nfs : bool) : list string :=
  if isReadOnlyFromCapability vc then JoinMountOptions (mount_flags vc) [if nfs then "ro" else "-o ro"] else mount_flags vc.

(** The options of an NFS mount. *)
Definition nfs_options (mountFlags : list string) : list string := JoinMountOptions mountFlags ["sec=sys,vers=3,nolock"].

Section node.
Context {W : Type} `{Ops W} `{RangeOrder}.

Definition canSkipRepublishNodeStage (volumeContext : gomap) (target : string) : IO bool :=
  if EqualFold (getValueInMap 1062 volumeContext mountWithWITokenField) trueValue then mret false
  else
    '(notMnt, err) ← ask (op_is_likely_not_mnt target);
    if bool_decide (err ≠ None) || notMnt then mret false
    else r ← ask (op_lstat target); mret (match r with Ok _ => true | Err _ => false end).

Definition helpLinkMsg (d : Driver) : string :=
  if d_appendMountErrorHelpLink d
  then newline +:+ "Please refer to http://aka.ms/blobmounterror for possible causes and solutions for mount errors." else "".

(** ** NFS *)

Definition mount_nfs (d : Driver) (volumeID targetPath volumeMountGroup serverAddress accountName containerName storageEndpointSuffix : string)
    (readOnly : bool) (mountFlags : list string) (sp : stage_params) : IO () :=
  let mountType := if negb (d_enableAznfsMount d) || bool_decide (sp_protocol sp = NFSv3) then NFS else AZNFS in
  _ ← when (negb (bool_decide (storageEndpointSuffix = "")) && bool_decide (mountType = AZNFS))
        (ask (λ w, ((), op_setenv "AZURE_ENDPOINT_OVERRIDE" (ReplaceOne storageEndpointSuffix "core." "") w)));
  let source := Sprintf "%s:/%s/%s" [serverAddress; accountName; containerName] in
  let mountOptions := nfs_options mountFlags in
  _ ← wrap_err (λ e, Status Internal (Sprintf "volume(%s) mount %q on %q failed with %v%s" [volumeID; source; targetPath; Error e; helpLinkMsg d]))
        (WaitUntilTimeout 90 (call_err (op_mount source targetPath mountType mountOptions)) (throw (errorf "time out" [])));
  _ ← when (sp_performChmodOp sp && negb readOnly)
        (wrap_err (λ e, Status Internal (Error e)) (chmodIfPermissionMismatch targetPath (FileMode (sp_mountPermissions sp))));
  when (negb (bool_decide (volumeMountGroup = "")) && negb (bool_decide (sp_fsGroupChangePolicy sp = FSGroupChangeNone)))
    (wrap_err (λ e, Status Internal (Sprintf "SetVolumeOwnership with volume(%s) on %s failed with %v" [volumeID; targetPath; Error e]))
       (SetVolumeOwnership targetPath volumeMountGroup (sp_fsGroupChangePolicy sp))).

(** ** Blobfuse *)

(** After a failed mount: unmount what may be there and remove the directory, unless the mount point cannot be released. *)
Definition remove_failed_mount (targetPath : string) : IO () :=
  '(notMnt, mntErr) ← ask (op_is_likely_not_mnt targetPath);
  match mntErr with
  | Some _ => mret ()
  | None =>
    if notMnt : bool then _ ← ask (op_remove targetPath); mret ()
    else
      err ← ask (op_unmount targetPath);
      match err with
      | Some _ => mret ()
      | None =>
        '(notMnt, mntErr) ← ask (op_is_likely_not_mnt targetPath);
        match mntErr with
        | Some _ => mret ()
        | None => if notMnt : bool then _ ← ask (op_remove targetPath); mret () else mret ()
        end
      end
  end.

(** The distributed cache is used only when the binary supports it; a failed probe counts as no. *)
Definition distributed_cache_check (d : Driver) (protocol : string) (mountOptions : list string) : IO bool :=
  if hasDistributedCacheMountOptions mountOptions then
    r ← attempt (isDistributedCacheSupported d protocol);
    mret (match r with Ok b => b | Err _ => false end)
  else mret true.

Definition mount_blobfuse (d : Driver) (volumeID targetPath volumeMountGroup serverAddress accountName containerName : string)
    (mountFlags authEnv : list string) (sp : stage_params) : IO (() * bool) :=
  mountOptions ← from_result (stage_options (sp_ephemeralVol sp) (sp_isHnsEnabled sp) (sp_mountOptions sp) volumeMountGroup mountFlags);
  supported ← distributed_cache_check d (sp_protocol sp) mountOptions;
  stamp ← (if d_appendTimeStampInCacheDir d then now ← ask op_now; mret ("#" +:+ FormatInt (now / 1000000000)) else mret "");
  let tmpPath := "/mnt/" +:+ volumeID +:+ stamp in
  let args := mount_args targetPath (finish_options 1609 supported mountOptions tmpPath containerName) in
  let authEnv := authEnv ++ ["AZURE_STORAGE_ACCOUNT=" +:+ accountName; "AZURE_STORAGE_BLOB_ENDPOINT=" +:+ serverAddress]
                 ++ (if decide (sp_blobStorageAccountType sp = "") then []
                     else ["AZURE_STORAGE_ACCOUNT_TYPE=" +:+ sp_blobStorageAccountType sp]) in
  if d_enableBlobMockMount d then
    err ← MakeDir targetPath (FileMode (sp_mountPermissions sp));
    match err with
    | Some e => throw (status_errorf Internal "%v" [Error e])
    | None => mret ((), false)
    end
  else
    '(output, err) ← (if d_enableBlobfuseProxy d then mountBlobfuseWithProxy args (sp_protocol sp) authEnv
                      else mountBlobfuseInsideDriver args (sp_protocol sp) authEnv);
    match err with
    | Some e =>
      _ ← remove_failed_mount targetPath;
      throw (status_errorf Internal "Mount failed with error: %v, output: %v%s" [Error e; output; helpLinkMsg d])
    | None =>
      _ ← wrap_err (λ e, errorf "failed to wait for mount: %w" [Error e]) (waitForMount waitForMountTicks targetPath);
      mret ((), true)
    end.

(** ** NodeStageVolume *)

(** The checks between the attributes and the mount point; the result is the endpoint suffix to go on with. *)
Definition check_stage (d : Driver) (attrib : gomap) (sp : stage_params) (isInlineMSI : bool) : result string :=
  let trusted := getStorageEndPointSuffix (d_cloud d) in
  let suffix := sp_storageEndpointSuffix sp in
  _ ← guard_err (negb (isSupportedFSGroupChangePolicy (sp_fsGroupChangePolicy sp)))
        (status_errorf InvalidArgument "fsGroupChangePolicy(%s) is not supported, supported fsGroupChangePolicy list: %v"
           [sp_fsGroupChangePolicy sp; fmt_list supportedFSGroupChangePolicyList]);
  _ ← guard_err (sp_ephemeralVol sp && bool_decide (getValueInMap 468 attrib containerNameField = ""))
        (status_errorf InvalidArgument "NodeStageVolume: containerName must be specified for ephemeral volumes" []);
  if isInlineMSI : bool then
    _ ← guard_err (negb (bool_decide (TrimSpace suffix = "")) && negb (EqualFold (TrimChar suffix ".") (TrimChar trusted ".")))
          (status_errorf InvalidArgument "NodeStageVolume: storageEndpointSuffix must match the configured Azure cloud for inline MSI volumes" []);
    Ok trusted
  else Ok suffix.

(** The server that the credentials of the mount are sent to. *)
Definition stage_server (trusted storageEndpointSuffix accountName serverAddress : string) (isInlineMSI : bool) : result string :=
  let serverAddress := if decide (TrimSpace serverAddress = "") then Sprintf "%s.blob.%s" [accountName; storageEndpointSuffix] else serverAddress in
  if isInlineMSI : bool then
    match normalizeInlineVolumeServer serverAddress accountName trusted with
    | Ok server => Ok server
    | Err e => Err (status_errorf InvalidArgument "NodeStageVolume: %v" [Error e])
    end
  else Ok serverAddress.

(** From the mount point to the mount, under the metric. *)
Definition stage_mount (d : Driver) (req : NodeStageVolumeRequest) (vc : VolumeCapability) (attrib : gomap) (sp : stage_params)
    (isInlineMSI : bool) (storageEndpointSuffix : string) : IO (() * bool) :=
  let volumeID := ns_VolumeId req in
  let targetPath := ns_StagingTargetPath req in
  let trusted := getStorageEndPointSuffix (d_cloud d) in
  let protocol := sp_protocol sp in
  '(mnt, err) ← ensureMountPoint targetPath (FileMode (sp_mountPermissions sp)) true;
  _ ← throw_some ((λ e, status_errorf Internal "Could not mount target %q: %v" [targetPath; Error e]) <$> err);
  env ← attempt (GetAuthEnv d volumeID protocol attrib (ns_Secrets req));
  if mnt : bool then mret ((), true)
  else
    env ← wrap_err (λ e, status_errorf Internal "%v" [Error e]) (from_result env);
    let accountName := ae_accountName env in
    let containerName := replaceWithMap 509 (ae_containerName env) (sp_replaceMap sp) in
    _ ← (if sp_ephemeralVol sp then
           wrap_err (λ e, status_errorf InvalidArgument "NodeStageVolume: %v" [Error e]) (from_result (ValidateContainerName containerName))
         else mret ());
    let storageEndpointSuffix := if decide (TrimSpace storageEndpointSuffix = "") then trusted else storageEndpointSuffix in
    serverAddress ← from_result (stage_server trusted storageEndpointSuffix accountName (sp_serverAddress sp) isInlineMSI);
    let readOnly := isReadOnlyFromCapability vc in
    let nfs := isNFSProtocol protocol in
    let mountFlags := stage_flags vc nfs in
    if nfs then
      _ ← mount_nfs d volumeID targetPath (mount_group vc) serverAddress accountName containerName storageEndpointSuffix readOnly mountFlags sp;
      mret ((), true)
    else
      mount_blobfuse d volumeID targetPath (mount_group vc) serverAddress accountName containerName mountFlags (ae_authEnv env) sp.

(** NodeStageVolume under its lock.  With a workload identity and no token there is nothing to do yet. *)
Definition stage_locked (d : Driver) (req : NodeStageVolumeRequest) (vc : VolumeCapability) : IO () :=
  attrib ← from_result (check_attributes "NodeStageVolume" 379 385 (ns_VolumeContext req));
  let serviceAccountTokens := getServiceAccountTokens (ns_Secrets req) attrib in
  if useWorkloadIdentity attrib && bool_decide (serviceAccountTokens = "") then mret ()
  else
    let attrib := with_token serviceAccountTokens attrib in
    let entries := mrange 420 attrib in
    _ ← throw_some (first_error permissions_error entries);
    let sp := read_attributes d entries in
    let isInlineMSI := sp_ephemeralVol sp && EqualFold (getValueInMap 473 attrib storageAuthTypeField) storageAuthTypeMSI in
    storageEndpointSuffix ← from_result (check_stage d attrib sp isInlineMSI);
    let mc := WithBasicVolumeInfo (NewCSIMetricContext "node_stage_volume") (c_ResourceGroup (d_cloud d)) "" (d_Name d) in
    with_metric (λ ok, ObserveWithLabels mc ok [Protocol; sp_protocol sp; StorageAccountType; sp_blobStorageAccountType sp;
                                                IsHnsEnabled; FormatBool (sp_isHnsEnabled sp)])
      (stage_mount d req vc attrib sp isInlineMSI storageEndpointSuffix).

Definition stage_lock_key (volumeID targetPath : string) : string := Sprintf "%s-%s" [volumeID; targetPath].

Definition NodeStageVolume (d : Driver) (req : NodeStageVolumeRequest) : IO () :=
  _ ← throw_if (bool_decide (ns_VolumeId req = "")) (Status InvalidArgument "Volume ID missing in request");
  _ ← throw_if (bool_decide (ns_StagingTargetPath req = "")) (Status InvalidArgument "Staging target not provided");
  match ns_VolumeCapability req with
  | None => throw (Status InvalidArgument "Volume capability not provided")
  | Some vc =>
    with_volume_lock (stage_lock_key (ns_VolumeId req) (ns_StagingTargetPath req))
      (throw (status_errorf Aborted volumeOperationAlreadyExistsFmt [ns_VolumeId req]))
      (stage_locked d req vc)
  end.

(** ** NodePublishVolume *)

(** The bind mount of the staging path, under the metric.  A mock mount is answered with success but counted as failed. *)
Definition publish_bind (d : Driver) (source target : string) (readonly : bool) (mountPermissions : N) : IO (() * bool) :=
  let mountOptions := "bind" :: (if readonly then ["ro"] else []) in
  '(mnt, err) ← ensureMountPoint target (FileMode mountPermissions) false;
  _ ← throw_some ((λ e, status_errorf Internal "Could not mount target %q: %v" [target; Error e]) <$> err);
  if mnt : bool then mret ((), true)
  else if d_enableBlobMockMount d then
    err ← MakeDir target (FileMode mountPermissions);
    match err with
    | Some e => throw (status_errorf Internal "%v" [Error e])
    | None => mret ((), false)
    end
  else
    err ← ask (op_mount source target "" mountOptions);
    match err with
    | Some e =>
      removed ← ask (op_remove target);
      match removed with
      | Some e' => throw (status_errorf Internal "Could not remove mount target %q: %v" [target; Error e'])
      | None => throw (status_errorf Internal "Could not mount %q at %q: %v" [source; target; Error e])
      end
    | None => mret ((), true)
    end.

(** The request that NodePublishVolume hands to NodeStageVolume. *)
Definition stage_request (req : NodePublishVolumeRequest) (vc : VolumeCapability) (context secrets : gomap) : NodeStageVolumeRequest :=
  {| ns_VolumeId := np_VolumeId req; ns_StagingTargetPath := np_TargetPath req; ns_VolumeCapability := Some vc; ns_VolumeContext := context;
     ns_Secrets := secrets |}.

Definition stage_unless_mounted (d : Driver) (req : NodePublishVolumeRequest) (vc : VolumeCapability) (context secrets : gomap) : IO () :=
  skip ← canSkipRepublishNodeStage context (np_TargetPath req);
  if skip : bool then mret () else NodeStageVolume d (stage_request req vc context secrets).

Definition publish_staged (d : Driver) (req : NodePublishVolumeRequest) (mountPermissions : N) : IO () :=
  _ ← throw_if (bool_decide (np_StagingTargetPath req = "")) (Status InvalidArgument "Staging target not provided");
  with_metric (Observe (NewCSIMetricContext "node_publish_volume"))
    (publish_bind d (np_StagingTargetPath req) (np_TargetPath req) (np_Readonly req) mountPermissions).

Definition NodePublishVolume (d : Driver) (req : NodePublishVolumeRequest) : IO () :=
  match np_VolumeCapability req with
  | None => throw (Status InvalidArgument "Volume capability missing in request")
  | Some vc =>
    _ ← throw_if (bool_decide (np_VolumeId req = "")) (Status InvalidArgument "Volume ID missing in request");
    _ ← throw_if (bool_decide (np_TargetPath req = "")) (Status InvalidArgument "Target path not provided");
    let ephemeral := isEphemeralVolume (np_VolumeContext req) in
    context ← from_result (check_attributes "NodePublishVolume" 94 100 (np_VolumeContext req));
    let serviceAccountTokens := getServiceAccountTokens (np_Secrets req) context in
    match context with
    | None => publish_staged d req (d_mountPermissions d)
    | Some _ =>
      if negb (bool_decide (serviceAccountTokens = "")) && useWorkloadIdentity context then
        stage_unless_mounted d req vc context (np_Secrets req)
      else if ephemeral then
        stage_unless_mounted d req vc (guard_ephemeral d context) None
      else
        let perm := getValueInMap 147 context mountPermissionsField in
        if decide (perm = "") then publish_staged d req (d_mountPermissions d)
        else match ParseUint perm 8 32 with
             | None => throw (status_errorf InvalidArgument "invalid mountPermissions %s" [perm])
             | Some n => publish_staged d req n
             end
    end
  end.

(** ** The other handlers *)

Definition unmount_or_fail (fmt path : string) : IO (() * bool) :=
  _ ← wrap_err (λ e, status_errorf Internal fmt [path; Error e]) (call_err (op_cleanup_mount_point path));
  mret ((), true).

Definition NodeUnpublishVolume (volumeID targetPath : string) : IO () :=
  _ ← throw_if (bool_decide (volumeID = "")) (Status InvalidArgument "Volume ID missing in request");
  _ ← throw_if (bool_decide (targetPath = "")) (Status InvalidArgument "Target path missing in request");
  with_metric (Observe (NewCSIMetricContext "node_unpublish_volume")) (unmount_or_fail "failed to unmount target %q: %v" targetPath).

Definition NodeUnstageVolume (d : Driver) (volumeID stagingTargetPath : string) : IO () :=
  _ ← throw_if (bool_decide (volumeID = "")) (Status InvalidArgument "Volume ID not provided");
  _ ← throw_if (bool_decide (stagingTargetPath = "")) (Status InvalidArgument "Staging target not provided");
  with_volume_lock (stage_lock_key volumeID stagingTargetPath)
    (throw (status_errorf Aborted volumeOperationAlreadyExistsFmt [volumeID]))
    (with_metric (Observe (WithBasicVolumeInfo (NewCSIMetricContext "node_unstage_volume") (c_ResourceGroup (d_cloud d)) "" (d_Name d)))
       (unmount_or_fail "failed to unmount staging target %q: %v" stagingTargetPath)).

(** A quantity that does not fit an int64 is an error. *)
Definition as_int64 (what : string) (q : quantity) : result Z :=
  match q_AsInt64 q with
  | Some z => Ok z
  | None => Err (status_errorf Internal ("failed to transform " +:+ what +:+ "(%v)") [q_text q])
  end.

Definition volume_stats_of (m : fs_metrics) : result volume_stats :=
  available ← as_int64 "volume available size" (fm_Available m);
  capacity ← as_int64 "volume capacity size" (fm_Capacity m);
  used ← as_int64 "volume used size" (fm_Used m);
  inodesFree ← as_int64 "disk inodes free" (fm_InodesFree m);
  inodes ← as_int64 "disk inodes" (fm_Inodes m);
  inodesUsed ← as_int64 "disk inodes used" (fm_InodesUsed m);
  Ok {| vs_available := available; vs_capacity := capacity; vs_used := used; vs_inodesFree := inodesFree; vs_inodes := inodes;
        vs_inodesUsed := inodesUsed |}.

Definition NodeGetVolumeStats (d : Driver) (volumeId volumePath : string) : IO volume_stats :=
  _ ← throw_if (bool_decide (volumeId = "")) (Status InvalidArgument "NodeGetVolumeStats volume ID was empty");
  _ ← throw_if (bool_decide (volumePath = "")) (Status InvalidArgument "NodeGetVolumeStats volume path was empty");
  cache ← volStatsCache_get (d_volStatsCacheMinutes d) volumeId;
  match cache with
  | Some resp => mret resp
  | None =>
    with_metric (Observe (WithBasicVolumeInfo (NewCSIMetricContext "node_get_volume_stats") (c_ResourceGroup (d_cloud d)) "" (d_Name d)))
      (_ ← wrap_err (λ e, if is_not_exist e then status_errorf NotFound "path %s does not exist" [volumePath]
                          else status_errorf Internal "failed to stat file %s: %v" [volumePath; Error e])
             (call (op_lstat volumePath));
       metrics ← wrap_err (λ e, status_errorf Internal "failed to get metrics: %v" [Error e]) (call (op_fs_metrics volumePath));
       resp ← from_result (volume_stats_of metrics);
       _ ← volStatsCache_set volumeId resp;
       mret (resp, true))
  end.

Definition NodeGetCapabilities (d : Driver) : list NodeCap := csi_NSCap (d_csi d).

Definition NodeGetInfo (d : Driver) : io (st W) string :=
  defer (λ _, add_samples (Observe (NewCSIMetricContext "node_get_info") true)) (mret (csi_NodeID (d_csi d))).

Definition NodeExpandVolume : io (st W) () := throw (Status Unimplemented "NodeExpandVolume is not yet implemented").
End node.
