(* ===== verification/DriverInit.v ===== *)
(** * DriverInit: NewDriver, the identity service, the user agent and the proxy monitor

    The driver that NewDriver (pkg/blob/blob.go) builds from the options and the cloud configuration, its initial state,
    the identity handlers of pkg/blob/identityserver.go, GetVersion and GetUserAgent of pkg/blob/version.go, and one health
    check of pkg/blob/proxy_monitor.go. *)
From S2P Require Import Prelude GoUnicode GoStrings GoErr Fields Attributes CsiCommon Metrics Effects World Auth Containers Proxy.
From stdpp Require Import options.

Record DriverOptions := {
  o_NodeID : string; o_DriverName : string; o_BlobfuseProxyEndpoint : string; o_EnableBlobfuseProxy : bool; o_EnableBlobMockMount : bool;
  o_AllowInlineVolumeKeyAccessWithIdentity : bool; o_EnableGetVolumeStats : bool; o_AppendMountErrorHelpLink : bool; o_MountPermissions : N;
  o_AppendTimeStampInCacheDir : bool; o_EnableAznfsMount : bool; o_VolStatsCacheExpireInMinutes : Z; o_SasTokenExpirationMinutes : Z;
  o_WaitForAzCopyTimeoutMinutes : Z; o_EnableVolumeMountGroup : bool; o_FSGroupChangePolicy : string;
}.

Definition driver_controller_caps : list ControllerCap := [CREATE_DELETE_VOLUME; EXPAND_VOLUME; CTRL_SINGLE_NODE_MULTI_WRITER; CLONE_VOLUME].
Definition driver_access_modes : list AccessMode :=
  [SINGLE_NODE_WRITER; SINGLE_NODE_READER_ONLY; SINGLE_NODE_SINGLE_WRITER; SINGLE_NODE_MULTI_WRITER; MULTI_NODE_READER_ONLY;
   MULTI_NODE_SINGLE_WRITER; MULTI_NODE_MULTI_WRITER].
Definition driver_node_caps (enableGetVolumeStats enableVolumeMountGroup : bool) : list NodeCap :=
  [STAGE_UNSTAGE_VOLUME; NODE_SINGLE_NODE_MULTI_WRITER] ++ (if enableGetVolumeStats then [GET_VOLUME_STATS] else [])
  ++ (if enableVolumeMountGroup then [VOLUME_MOUNT_GROUP] else []).

(** NewDriver.  The option AppendTimeStampInCacheDir is not copied into the driver, whose field keeps its zero value. *)
Definition NewDriver (o : DriverOptions) (driverVersion : string) (hasKubeClient : bool) (c : CloudConfig) : Driver :=
  let csi := {| csi_Name := o_DriverName o; csi_NodeID := o_NodeID o; csi_Version := driverVersion; csi_Cap := []; csi_VC := []; csi_NSCap := [] |} in
  let csi := AddControllerServiceCapabilities csi driver_controller_caps in
  let csi := AddVolumeCapabilityAccessModes csi driver_access_modes in
  let csi := AddNodeServiceCapabilities csi (driver_node_caps (o_EnableGetVolumeStats o) (o_EnableVolumeMountGroup o)) in
  let suffix := getStorageEndPointSuffix c in
  {| d_csi := csi; d_cloud := c; d_has_kube := hasKubeClient; d_has_network_factory := c_has_network_factory c || c_has_compute_factory c;
     d_blobfuseProxyEndpoint := o_BlobfuseProxyEndpoint o;
     d_enableBlobMockMount := o_EnableBlobMockMount o; d_enableBlobfuseProxy := o_EnableBlobfuseProxy o;
     d_allowInlineVolumeKeyAccessWithIdentity := o_AllowInlineVolumeKeyAccessWithIdentity o; d_appendTimeStampInCacheDir := false;
     d_appendMountErrorHelpLink := o_AppendMountErrorHelpLink o; d_mountPermissions := o_MountPermissions o;
     d_enableAznfsMount := o_EnableAznfsMount o; d_fsGroupChangePolicy := o_FSGroupChangePolicy o;
     d_sasTokenExpirationMinutes := o_SasTokenExpirationMinutes o; d_waitForAzCopyTimeoutMinutes := o_WaitForAzCopyTimeoutMinutes o;
     d_volStatsCacheMinutes := if (o_VolStatsCacheExpireInMinutes o <=? 0)%Z then 10 else o_VolStatsCacheExpireInMinutes o;
     d_requiredAzCopyToTrust := negb (bool_decide (suffix = "")) && negb (Contains azcopyTrustedSuffixesAAD suffix) |}.

(** No lock is held, nothing is cached or recorded. *)
Definition initial_state {W} (w : W) : st W :=
  {| s_locks := ∅; s_volMap := ∅; s_dataPlaneAPIVolCache := ∅; s_accountSearchCache := ∅; s_azcopySasTokenCache := ∅;
     s_volStatsCache := ∅; s_subnetCache := ∅; s_samples := []; s_world := w |}.

(** ** Identity and version *)

Definition GetPluginInfo (d : Driver) : result (string * string) :=
  _ ← guard_err (bool_decide (csi_Name (d_csi d) = "")) (Status Unavailable "Driver name not configured");
  _ ← guard_err (bool_decide (csi_Version (d_csi d) = "")) (Status Unavailable "Driver is missing version");
  Ok (csi_Name (d_csi d), csi_Version (d_csi d)).

Definition Probe : bool := true.

Inductive PluginCapability := CONTROLLER_SERVICE.
Definition GetPluginCapabilities : list PluginCapability := [CONTROLLER_SERVICE].

(** The build information, and the runtime that reports the rest, are arguments. *)
Record VersionInfo := {
  DriverName : string; DriverVersion : string; GitCommit : string; BuildDate : string; GoVersion : string; Compiler : string; Platform : string;
}.
Definition GetVersion (driverVersion gitCommit buildDate goVersion compiler goos goarch driverName : string) : VersionInfo :=
  {| DriverName := driverName; DriverVersion := driverVersion; GitCommit := gitCommit; BuildDate := buildDate; GoVersion := goVersion;
     Compiler := compiler; Platform := Sprintf "%s/%s" [goos; goarch] |}.

Definition GetUserAgent (driverVersion driverName customUserAgent userAgentSuffix : string) : string :=
  let customUserAgent := TrimSpace customUserAgent in
  let userAgent := if decide (customUserAgent = "") then Sprintf "%s/%s" [driverName; driverVersion] else customUserAgent in
  let userAgentSuffix := TrimSpace userAgentSuffix in
  if decide (userAgentSuffix = "") then userAgent else userAgent +:+ " " +:+ userAgentSuffix.

(** ** The proxy monitor *)

Section monitor.
Context {W : Type} `{Ops W}.

(** A failure to close the connection is only logged. *)
Definition isProxyReachable (endpoint : string) : IO bool :=
  err ← ask (op_dial_unix (proxy_address endpoint));
  mret (bool_decide (err = None)).

Definition checkHealth (endpoint : string) : IO () :=
  ok ← isProxyReachable endpoint;
  modify (add_samples (Observe (WithLogLevel (NewCSIMetricContext "blobfuse_proxy_health") 6) ok)).

(** The checks of a monitor that is stopped after [ticks] ticks. *)
Fixpoint monitor_run (endpoint : string) (ticks : nat) : io (st W) () :=
  match ticks with
  | 0 => checkHealth endpoint
  | S ticks => _ ← monitor_run endpoint ticks; checkHealth endpoint
  end.
End monitor.
