(* ===== verification/Interference.v ===== *)
(** * Interference: what an operation cannot observe

    Two outsides that differ only in one call are compared: a computation that behaves the same with both, from every
    state, never makes that call.  [replace_calls] changes the listing of account keys, the deletion of containers, the
    unmounting and the search for an account; the other calls stay. *)
From S2P Require Import Prelude GoUnicode GoStrings GoErr Fields Attributes CsiCommon Metrics Effects World.
From stdpp Require Import options.

Section replace.
Context {W : Type}.

Definition replace_calls (H : Ops W) (list_keys : string → string → string → bool → W → result string * W)
    (del : string → string → string → string → W → option error * W) (dp_del : ContainerRef → W → option error * W)
    (unmnt : string → W → option error * W) (ensure : AccountOptions → string → W → result (string * string) * W) : Ops W :=
  {|
    op_now := op_now; op_uuid := op_uuid; op_secret_get := op_secret_get; op_secret_create := op_secret_create;
    is_already_exists := is_already_exists; op_auth_provider := op_auth_provider; op_vault_client := op_vault_client; op_vault_secret := op_vault_secret; op_account_client := op_account_client;
    op_storage_accesskey := list_keys; op_accesskey_from_token := op_accesskey_from_token; op_ensure_account := ensure;
    op_blob_client := op_blob_client; op_create_container := op_create_container; op_delete_container := del;
    op_get_container := op_get_container; op_new_client := op_new_client; op_dp_create := op_dp_create; op_dp_delete := dp_del;
    op_dp_exists := op_dp_exists; op_subnet_get := op_subnet_get; op_subnet_list := op_subnet_list; op_subnet_update := op_subnet_update;
    op_shared_key_credential := op_shared_key_credential; op_service_client := op_service_client; op_sas_url := op_sas_url;
    url_parse_error := url_parse_error; op_shell := op_shell; op_exec := op_exec; op_timer_fires := op_timer_fires;
    op_proxy_dial := op_proxy_dial; op_dial_unix := op_dial_unix; op_proxy_mount := op_proxy_mount;
    op_proxy_capabilities := op_proxy_capabilities; is_not_exist := is_not_exist; is_exist := is_exist;
    is_corrupted_mnt := is_corrupted_mnt; op_read_file := op_read_file; op_write_file := op_write_file; op_lstat := op_lstat;
    op_chmod := op_chmod; op_mkdir_all := op_mkdir_all; op_remove := op_remove; op_setenv := op_setenv; op_path_exists := op_path_exists;
    op_is_likely_not_mnt := op_is_likely_not_mnt; op_mount_list := op_mount_list; op_abs := op_abs; op_mount := op_mount;
    op_unmount := unmnt; op_probe_mount := op_probe_mount; op_cleanup_mount_point := op_cleanup_mount_point;
    op_set_ownership := op_set_ownership; op_fs_metrics := op_fs_metrics; op_unmarshal_token := op_unmarshal_token
  |}.

Definition with_list_keys (H : Ops W) f : Ops W := replace_calls H f op_delete_container op_dp_delete op_unmount op_ensure_account.
Definition with_deletes (H : Ops W) del dp_del : Ops W := replace_calls H op_storage_accesskey del dp_del op_unmount op_ensure_account.
Definition with_unmount (H : Ops W) f : Ops W := replace_calls H op_storage_accesskey op_delete_container op_dp_delete f op_ensure_account.
Definition with_ensure (H : Ops W) f : Ops W := replace_calls H op_storage_accesskey op_delete_container op_dp_delete op_unmount f.
End replace.

(** ** Computations that agree from every state *)

Section same.
Context {S : Type}.

Definition same {A} (m n : io S A) : Prop := ∀ s, m s = n s.

#[export] Instance same_equivalence A : Equivalence (@same A).
Proof. split; [by intros m s|by intros m n Hs s|by intros m n k H1 H2 s; rewrite H1]. Qed.

Lemma same_bind {A B} (m n : io S A) (f g : A → io S B) : same m n → (∀ a, same (f a) (g a)) → same (m ≫= f) (n ≫= g).
Proof. intros Hm Hf s. rewrite !run_bind, Hm. destruct (n s) as [[a|e] s']; [apply Hf|done]. Qed.
Lemma same_attempt {A} (m n : io S A) : same m n → same (attempt m) (attempt n).
Proof. intros Hm s. unfold attempt. by rewrite Hm. Qed.
Lemma same_wrap_err {A} f (m n : io S A) : same m n → same (wrap_err f m) (wrap_err f n).
Proof. intros Hm s. unfold wrap_err. by rewrite Hm. Qed.
Lemma same_defer {A} f (m n : io S A) : same m n → same (defer f m) (defer f n).
Proof. intros Hm s. unfold defer. by rewrite Hm. Qed.
(** The continuations need to agree only on the values that the first part can return. *)
Lemma same_bind_value {A B} (P : A → Prop) (m : io S A) (f g : A → io S B) :
  (∀ s a s', m s = (Ok a, s') → P a) → (∀ a, P a → same (f a) (g a)) → same (m ≫= f) (m ≫= g).
Proof. intros HP Hf s. rewrite !run_bind. destruct (m s) as [[a|e] s'] eqn:E; [|done]. eapply Hf, HP, E. Qed.
(** From one state: the continuations need to agree on what the first part returns there. *)
Lemma run_bind_alike {A B} (m n : io S A) (f g : A → io S B) s :
  m s = n s → (∀ a s', n s = (Ok a, s') → f a s' = g a s') → (m ≫= f) s = (n ≫= g) s.
Proof. intros Hm Hf. rewrite !run_bind, Hm. destruct (n s) as [[a|e] s']; [by apply Hf|done]. Qed.
Lemma same_from_result {A B} (r : result A) (g h : A → io S B) :
  (∀ a, r = Ok a → same (g a) (h a)) → same (from_result r ≫= g) (from_result r ≫= h).
Proof. intros Hg. apply (same_bind_value (λ a, r = Ok a)); [|done]. unfold from_result. by intros s a s' [= -> _]. Qed.
Lemma same_backoff {A} n (c c' : io S (option A)) : same c c' → same (ExponentialBackoff n c) (ExponentialBackoff n c').
Proof. intros Hc. induction n as [|n IH]; [reflexivity|]. apply same_bind; [done|]. intros [a|]; [reflexivity|done]. Qed.
End same.

Section same_locks.
Context {W : Type}.

Lemma same_with_metric {A} f (m n : io (st W) (A * bool)) : same m n → same (with_metric f m) (with_metric f n).
Proof. intros Hm. apply same_bind; [by apply same_defer|done]. Qed.
Lemma same_with_lock {A} key (a b m n : io (st W) A) : same a b → same m n → same (with_volume_lock key a m) (with_volume_lock key b n).
Proof. intros Ha Hm. apply same_bind; [done|]. intros [|]; [by apply same_defer|done]. Qed.
End same_locks.

(** Compare two runs of the same code.  A leaf that does not depend on the changed call is convertible; the operations of
    the driver are compared by the lemmas of the database [same]. *)
Create HintDb same.

Ltac same_leaf :=
  match goal with
  | |- same ?m _ =>
    match m with
    | mret _ => idtac | throw _ => idtac | gets _ => idtac | modify _ => idtac | from_result _ => idtac | throw_if _ _ => idtac
    | throw_some _ => idtac | ask _ => idtac | call _ => idtac | call_err _ => idtac
    end; reflexivity
  end.

Ltac same_code :=
  cbv zeta;
  repeat first
    [ progress intros
    | same_leaf
    | solve [auto 2 with same]
    | apply same_with_lock | apply same_with_metric
    | apply same_bind | apply same_attempt | apply same_wrap_err | apply same_defer
    | match goal with |- same (match ?x with _ => _ end) _ => destruct x end ].
