(* ===== verification/VolumeLocks.v ===== *)
(** * VolumeLocks: volumeLocks of pkg/blob/volume_lock.go refines the atomic locks of World

    World gives TryAcquire and Release as single steps on a set.  Here they are the code: a mutex around a set, goroutines
    interleaved instruction by instruction.  Each instruction is either invisible or one of the atomic operations. *)
From S2P Require Import Prelude Effects GoErr World Locks.
From stdpp Require Import options.

Module volumeLocks.

Inductive pc :=
| Idle
| Lock (volumeID : string)             (* TryAcquire: vl.mux.Lock() *)
| Has (volumeID : string)              (* if vl.locks.Has, return false *)
| Insert (volumeID : string)           (* vl.locks.Insert *)
| Unlock (volumeID : string) (acquired : bool)   (* deferred vl.mux.Unlock(), return acquired *)
| Running (volumeID : string)          (* the handler between TryAcquire and Release *)
| RLock (volumeID : string)            (* Release: vl.mux.Lock() *)
| Delete (volumeID : string)           (* vl.locks.Delete *)
| RUnlock.                             (* deferred vl.mux.Unlock() *)

Record state := { mux : mutex; locks : gset string; threads : list pc }.

Definition set_pc (t : nat) (p : pc) (s : state) : state := {| mux := mux s; locks := locks s; threads := <[t := p]> (threads s) |}.
Definition with_mux (m : mutex) (s : state) : state := {| mux := m; locks := locks s; threads := threads s |}.
Definition with_locks (f : gset string → gset string) (s : state) : state := {| mux := mux s; locks := f (locks s); threads := threads s |}.

Definition instruction (t : nat) (p : pc) (s : state) : outcome state :=
  let lock q := match mux s with None => Next (set_pc t q (with_mux (Some t) s)) | Some _ => Blocked end in
  let unlock q := match mux s with Some _ => Next (set_pc t q (with_mux None s)) | None => Fatal end in
  match p with
  | Idle => Blocked
  | Lock k => lock (Has k)
  | Has k => Next (set_pc t (if decide (k ∈ locks s) then Unlock k false else Insert k) s)
  | Insert k => Next (set_pc t (Unlock k true) (with_locks (λ l, {[ k ]} ∪ l) s))
  | Unlock k b => unlock (if b : bool then Running k else Idle)
  | Running k => Next (set_pc t (RLock k) s)
  | RLock k => lock (Delete k)
  | Delete k => Next (set_pc t RUnlock (with_locks (λ l, l ∖ {[ k ]}) s))
  | RUnlock => unlock Idle
  end.

Inductive step : state → state → Prop :=
| step_call t k s : threads s !! t = Some Idle → step s (set_pc t (Lock k) s)
| step_next t p s s' : threads s !! t = Some p → instruction t p s = Next s' → step s s'.

Definition newVolumeLocks (n : nat) : state := {| mux := None; locks := ∅; threads := replicate n Idle |}.
Definition reachable (n : nat) (s : state) : Prop := rtc step (newVolumeLocks n) s.

(** ** The invariant *)

Definition in_mux (p : pc) : bool :=
  match p with Has _ | Insert _ | Unlock _ _ | Delete _ | RUnlock => true | _ => false end.
(** The volume whose lock a goroutine has. *)
Definition holds (p : pc) : option string :=
  match p with Unlock k true | Running k | RLock k | Delete k => Some k | _ => None end.

Record inv (s : state) : Prop := {
  inv_mux t : mux s = Some t ↔ ∃ p, threads s !! t = Some p ∧ in_mux p = true;
  inv_locks k : k ∈ locks s ↔ ∃ t p, threads s !! t = Some p ∧ holds p = Some k;
  inv_unique t1 t2 p1 p2 k :
    threads s !! t1 = Some p1 → threads s !! t2 = Some p2 → holds p1 = Some k → holds p2 = Some k → t1 = t2;
  inv_insert t k : threads s !! t = Some (Insert k) → k ∉ locks s;
}.

Lemma vl_inv_init n : inv (newVolumeLocks n).
Proof.
  split; simpl.
  - intros t. split; [done|]. by intros (p & [-> _]%lookup_replicate & ?).
  - intros k. rewrite elem_of_empty. split; [done|]. by intros (t & p & [-> _]%lookup_replicate & ?).
  - by intros t1 t2 p1 p2 k [-> _]%lookup_replicate.
  - by intros t k [? _]%lookup_replicate.
Qed.

(** A step of a goroutine that keeps what it holds. *)
Lemma vl_inv_pc s t p p' m' :
  inv s → threads s !! t = Some p → holds p' = holds p → (∀ k, p' = Insert k → k ∉ locks s) →
  (∀ t', m' = Some t' ↔ if decide (t' = t) then in_mux p' = true else mux s = Some t') →
  inv (set_pc t p' (with_mux m' s)).
Proof.
  intros Hi Ht Ho Hins Hm. assert (t < length (threads s)) as Hlt by by apply lookup_lt_Some in Ht.
  assert (∀ t' q, <[t := p']> (threads s) !! t' = Some q → ∃ q', threads s !! t' = Some q' ∧ holds q' = holds q) as Hold.
  { intros t' q [[-> ->]|[_ Hq]]%list_insert_lookup_inv; eauto. }
  split; simpl.
  - intros t'. rewrite Hm. destruct (decide (t' = t)) as [->|Hne].
    + rewrite list_lookup_insert_eq by done. split; [eauto|by intros (q & [= <-] & ?)].
    + by rewrite list_lookup_insert_ne, (inv_mux _ Hi).
  - intros k. rewrite (inv_locks _ Hi). split.
    + intros (t' & q & Hq & Hh). destruct (decide (t' = t)) as [->|Hne].
      * exists t, p'. rewrite list_lookup_insert_eq, Ho by done. split; [done|]. by simplify_eq.
      * exists t', q. by rewrite list_lookup_insert_ne.
    + intros (t' & q & (q' & Hq' & E)%Hold & Hh). exists t', q'. by rewrite E.
  - intros t1 t2 p1 p2 k (q1 & Hq1 & E1)%Hold (q2 & Hq2 & E2)%Hold H1 H2. apply (inv_unique _ Hi t1 t2 q1 q2 k); congruence.
  - intros t' k [[_ Hk]|[_ Hq]]%list_insert_lookup_inv; [by apply Hins|by apply (inv_insert _ Hi t')].
Qed.

Lemma in_mux_alone s t p t' p' : inv s → threads s !! t = Some p → in_mux p = true → threads s !! t' = Some p' → in_mux p' = true → t' = t.
Proof.
  intros Hi Ht Hm Ht' Hm'. assert (mux s = Some t) as E1 by (apply (inv_mux _ Hi); eauto).
  assert (mux s = Some t') as E2 by (apply (inv_mux _ Hi); eauto). congruence.
Qed.

(** The two instructions that change the set. *)
Lemma vl_inv_set s t p p' f :
  inv s → threads s !! t = Some p → in_mux p = true → in_mux p' = true → (∀ k, p' ≠ Insert k) →
  (∀ k, k ∈ f (locks s) ↔ holds p' = Some k ∨ (k ∈ locks s ∧ holds p ≠ Some k)) →
  (∀ k, holds p' = Some k → k ∉ locks s) →
  inv (set_pc t p' (with_locks f s)).
Proof.
  intros Hi Ht Hm Hm' Hins Hf Hnew. assert (t < length (threads s)) as Hlt by by apply lookup_lt_Some in Ht. split; simpl.
  - intros t'. rewrite (inv_mux _ Hi). destruct (decide (t' = t)) as [->|Hne].
    + rewrite list_lookup_insert_eq by done. split; [eauto|]. by intros; eauto.
    + by rewrite list_lookup_insert_ne.
  - intros k. rewrite Hf. split.
    + intros [Hh|[(t' & q & Hq & Hh)%(inv_locks _ Hi) Hp]].
      * exists t, p'. by rewrite list_lookup_insert_eq.
      * exists t', q. destruct (decide (t' = t)) as [->|Hne]; [by simplify_eq|]. by rewrite list_lookup_insert_ne.
    + intros (t' & q & [[-> ->]|[Hne Hq]]%list_insert_lookup_inv & Hh); [by left|]. right.
      split; [apply (inv_locks _ Hi); eauto|]. intros Hp. destruct Hne. by apply (inv_unique _ Hi t' t q p k).
  - intros t1 t2 p1 p2 k [[-> ->]|[N1 H1]]%list_insert_lookup_inv [[-> ->]|[N2 H2]]%list_insert_lookup_inv O1 O2; [done|..].
    + destruct (Hnew k O1). apply (inv_locks _ Hi). eauto.
    + destruct (Hnew k O2). apply (inv_locks _ Hi). eauto.
    + by apply (inv_unique _ Hi t1 t2 p1 p2 k).
  - intros t' k [[_ Hk]|[Hne Hq]]%list_insert_lookup_inv; [by destruct (Hins k)|].
    destruct Hne. by apply (in_mux_alone s t p t' (Insert k)).
Qed.

Lemma with_mux_id s : with_mux (mux s) s = s.
Proof. by destruct s. Qed.
Lemma vl_inv_pc_only s t p p' :
  inv s → threads s !! t = Some p → holds p' = holds p → in_mux p' = in_mux p → (∀ k, p' = Insert k → k ∉ locks s) → inv (set_pc t p' s).
Proof.
  intros Hi Ht Ho Hm Hins. rewrite <- (with_mux_id s) at 1. apply (vl_inv_pc _ _ p); [done..|]. intros t'. destruct (decide (t' = t)) as [->|]; [|done].
  rewrite (inv_mux _ Hi), Hm. split; [by intros (q & Hq & ?); simplify_eq|eauto].
Qed.
Lemma vl_inv_lock s t p p' :
  inv s → threads s !! t = Some p → mux s = None → holds p' = holds p → in_mux p' = true → (∀ k, p' ≠ Insert k) →
  inv (set_pc t p' (with_mux (Some t) s)).
Proof.
  intros Hi Ht Hm Ho Hi' Hins. apply (vl_inv_pc _ _ p); [done..|by intros k ?%Hins|]. intros t'. rewrite Hm.
  destruct (decide (t' = t)) as [->|Hne]; [done|]. split; congruence.
Qed.
Lemma vl_inv_unlock s t p p' :
  inv s → threads s !! t = Some p → in_mux p = true → holds p' = holds p → in_mux p' = false → inv (set_pc t p' (with_mux None s)).
Proof.
  intros Hi Ht Hm Ho Hi'. assert (mux s = Some t) as Hmt by (apply (inv_mux _ Hi); eauto).
  apply (vl_inv_pc _ _ p); [done..|by intros k ->|]. intros t'. rewrite Hmt. destruct (decide (t' = t)) as [->|Hne]; [|split; congruence]. by rewrite Hi'.
Qed.

Ltac split_mux := match goal with E : context [match mux ?s with _ => _ end] |- _ => destruct (mux s) eqn:?; try discriminate E end.

Lemma vl_inv_instruction s t p s' : inv s → threads s !! t = Some p → instruction t p s = Next s' → inv s'.
Proof.
  intros Hi Ht. destruct p as [|k|k|k|k b|k|k|k|]; cbn [instruction]; intros E; try discriminate E.
  - split_mux. injection E as <-. by apply (vl_inv_lock _ _ _ _ Hi Ht).
  - injection E as <-. apply (vl_inv_pc_only _ _ _ _ Hi Ht); destruct (decide (k ∈ locks s)); try done. by intros k' [= <-].
  - injection E as <-. pose proof (inv_insert _ Hi _ _ Ht) as Hk. apply (vl_inv_set _ _ _ _ _ Hi Ht); [done..| |].
    + intros k'. rewrite elem_of_union, elem_of_singleton. simpl. split; [intros [->|]; auto|]. intros [[= ->]|[? _]]; auto.
    + by intros k' [= <-].
  - split_mux. injection E as <-. destruct b; by apply (vl_inv_unlock _ _ _ _ Hi Ht).
  - injection E as <-. by apply (vl_inv_pc_only _ _ _ _ Hi Ht).
  - split_mux. injection E as <-. by apply (vl_inv_lock _ _ _ _ Hi Ht).
  - injection E as <-. apply (vl_inv_set _ _ _ _ _ Hi Ht); [done..| |done].
    intros k'. rewrite elem_of_difference, elem_of_singleton. simpl. split.
    + intros [? Hne]. right. split; [done|]. congruence.
    + intros [|[? Hne]]; [done|]. split; [done|]. by intros ->.
  - split_mux. injection E as <-. by apply (vl_inv_unlock _ _ _ _ Hi Ht).
Qed.

Lemma vl_reachable_inv n s : reachable n s → inv s.
Proof.
  intros Hr. unfold reachable in Hr. remember (newVolumeLocks n) as s0 eqn:E0. assert (inv s0) as Hi by (subst; apply vl_inv_init). clear E0.
  induction Hr as [|s0 s1 s2 Hs _ IH]; [done|]. apply IH. destruct Hs as [t k s Ht|t p s s' Ht En].
  - by apply (vl_inv_pc_only _ _ Idle).
  - by apply (vl_inv_instruction _ _ _ _ Hi Ht En).
Qed.

(** ** Refinement *)

Section refinement.
Context {W : Type} (base : st W).

(** Goroutines over the atomic operations of World: each has the key of the operation it runs, if any. *)
Inductive atomic : st W * list (option string) → st W * list (option string) → Prop :=
| atomic_acquire t k a a' l : l !! t = Some None → TryAcquire k a = (Ok true, a') → atomic (a, l) (a', <[t := Some k]> l)
| atomic_refuse t k a l : l !! t = Some None → TryAcquire k a = (Ok false, a) → atomic (a, l) (a, l)
| atomic_release t k a l : l !! t = Some (Some k) → atomic (a, l) (Release k a, <[t := None]> l).

Definition abstraction (s : state) : st W * list (option string) := (set_locks (λ _, locks s) base, holds <$> threads s).

Lemma holds_unchanged s t p p' : threads s !! t = Some p → holds p' = holds p → holds <$> <[t := p']> (threads s) = holds <$> threads s.
Proof. intros Ht Ho. rewrite list_fmap_insert. apply list_insert_id. by rewrite list_lookup_fmap, Ht, Ho. Qed.

Lemma refines_instruction s t p s' :
  inv s → threads s !! t = Some p → instruction t p s = Next s' →
  abstraction s' = abstraction s ∨ atomic (abstraction s) (abstraction s').
Proof.
  intros Hi Ht. assert (∀ s', locks s' = locks s → holds <$> threads s' = holds <$> threads s → abstraction s' = abstraction s) as Hsame.
  { intros s1 E1 E2. unfold abstraction. by rewrite E1, E2. }
  assert ((holds <$> threads s) !! t = Some (holds p)) as Hl by by rewrite list_lookup_fmap, Ht.
  destruct p as [|k|k|k|k b|k|k|k|]; cbn [instruction]; intros E; try discriminate E; try split_mux; injection E as <-;
    try (left; apply Hsame; [done|by apply (holds_unchanged _ _ _ _ Ht)]).
  - destruct (decide (k ∈ locks s)) as [Hk|Hk]; [|left; apply Hsame; [done|by apply (holds_unchanged _ _ _ _ Ht)]].
    right. unfold abstraction. cbn [locks threads set_pc]. rewrite (holds_unchanged _ _ _ _ Ht) by done. apply (atomic_refuse t k); [done|].
    unfold TryAcquire. by rewrite decide_True.
  - right. unfold abstraction. cbn [locks threads set_pc with_locks]. rewrite list_fmap_insert. apply atomic_acquire; [done|].
    pose proof (inv_insert _ Hi _ _ Ht). unfold TryAcquire. by rewrite decide_False.
  - left. apply Hsame; [done|]. apply (holds_unchanged _ _ _ _ Ht). by destruct b.
  - right. unfold abstraction. cbn [locks threads set_pc with_locks]. rewrite list_fmap_insert.
    by apply (atomic_release t k).
Qed.

(** C10 - volumeLocks refines the atomic volume locks: however the goroutines are interleaved, each instruction of TryAcquire and
    Release either leaves the abstract state alone or performs exactly one atomic TryAcquire or Release on the locks that
    the handlers are modelled with; the locked volumes are those of the goroutines that acquired and have not released,
    and no two of them have the same volume. *)
Theorem volumeLocks_refines n s :
  reachable n s →
  (∀ s', step s s' → abstraction s' = abstraction s ∨ atomic (abstraction s) (abstraction s')) ∧
  (∀ k, k ∈ s_locks (abstraction s).1 ↔ ∃ t, (abstraction s).2 !! t = Some (Some k)) ∧
  (∀ t1 t2 k, (abstraction s).2 !! t1 = Some (Some k) → (abstraction s).2 !! t2 = Some (Some k) → t1 = t2).
Proof.
  intros Hi%vl_reachable_inv.
  assert (∀ t k, (holds <$> threads s) !! t = Some (Some k) ↔ ∃ p, threads s !! t = Some p ∧ holds p = Some k) as Hh.
  { intros t k. rewrite list_lookup_fmap, fmap_Some. split; intros (p & ? & ?); eauto. }
  split_and!.
  - clear Hh. intros s' Hs. destruct Hs as [t k s Ht|t p s s' Ht En]; [|by apply (refines_instruction _ _ _ _ Hi Ht)]. left.
    unfold abstraction. cbn [locks threads set_pc]. by rewrite (holds_unchanged _ _ _ _ Ht).
  - intros k. simpl. rewrite (inv_locks _ Hi). by setoid_rewrite Hh.
  - intros t1 t2 k. simpl. rewrite !Hh. intros (p1 & H1 & O1) (p2 & H2 & O2). by apply (inv_unique _ Hi t1 t2 p1 p2 k).
Qed.
End refinement.

(** One goroutine has the lock, the other none. *)
Definition held : state := {| mux := None; locks := {[ "vol" ]}; threads := [Running "vol"; Idle] |}.

Lemma held_reachable : reachable 2 held.
Proof.
  assert (∀ s t k s', threads s !! t = Some Idle → rtc step (set_pc t (Lock k) s) s' → rtc step s s') as Hcall.
  { intros s t k s' Ht Hr. eapply rtc_l; [|done]. by apply step_call. }
  assert (∀ s t p s1 s', threads s !! t = Some p → instruction t p s = Next s1 → rtc step s1 s' → rtc step s s') as Hnext.
  { intros s t p s1 s' Ht En Hr. eapply rtc_l; [|done]. by eapply step_next. }
  apply (Hcall _ 0 "vol"); [done|]. do 4 (eapply (Hnext _ 0); [vm_compute; reflexivity|vm_compute; reflexivity|]).
  assert (∀ s s', s = s' → rtc step s s') as Hrefl by (by intros s s' ->). apply Hrefl. vm_compute. reflexivity.
Defined.

Definition unit_state : st unit :=
  {| s_locks := ∅; s_volMap := ∅; s_dataPlaneAPIVolCache := ∅; s_accountSearchCache := ∅; s_azcopySasTokenCache := ∅; s_volStatsCache := ∅;
     s_subnetCache := ∅; s_samples := []; s_world := () |}.

Lemma volumeLocks_refines_witness :
  "vol" ∈ s_locks (abstraction unit_state held).1 ∧
  (abstraction unit_state (set_pc 1 (Lock "vol") held) = abstraction unit_state held ∨
   atomic (abstraction unit_state held) (abstraction unit_state (set_pc 1 (Lock "vol") held))).
Proof.
  destruct (volumeLocks_refines unit_state 2 held held_reachable) as (Hstep & Hlocks & _). split.
  - apply Hlocks. exists 0. vm_compute. reflexivity.
  - apply Hstep. by apply step_call.
Defined.
End volumeLocks.
