(* ===== verification/Toy.v ===== *)
(** * Toy: a concrete outside

    An instance of [Ops] to run the handlers on: a log of the calls that change something, a table of answers for the
    calls whose answer matters, and success elsewhere.  The witnesses evaluate on it. *)
From S2P Require Import Prelude GoUnicode GoStrings GoErr Attributes CsiCommon Metrics Effects World DriverInit.
From stdpp Require Import options.

Record toy := {
  t_log : list string;                       (* oldest first *)
  t_now : Z;
  t_mounts : gset string;
  t_deny : gset string;                      (* calls that fail *)
  t_secrets : gmap string strmap;            (* namespace/name *)
  t_shell : list (string * option error);    (* answers of the next shell commands *)
  t_busy : nat;                              (* attempts at creating a container that find it being deleted *)
}.

Definition calm : toy := {| t_log := []; t_now := 0; t_mounts := ∅; t_deny := ∅; t_secrets := ∅; t_shell := []; t_busy := 0 |}.

Definition logged (e : string) (w : toy) : toy :=
  {| t_log := t_log w ++ [e]; t_now := t_now w; t_mounts := t_mounts w; t_deny := t_deny w; t_secrets := t_secrets w; t_shell := t_shell w; t_busy := t_busy w |}.
Definition set_mounts (f : gset string → gset string) (w : toy) : toy :=
  {| t_log := t_log w; t_now := t_now w; t_mounts := f (t_mounts w); t_deny := t_deny w; t_secrets := t_secrets w; t_shell := t_shell w; t_busy := t_busy w |}.
Definition set_shell (l : list (string * option error)) (w : toy) : toy :=
  {| t_log := t_log w; t_now := t_now w; t_mounts := t_mounts w; t_deny := t_deny w; t_secrets := t_secrets w; t_shell := l; t_busy := t_busy w |}.
Definition set_busy (n : nat) (w : toy) : toy :=
  {| t_log := t_log w; t_now := t_now w; t_mounts := t_mounts w; t_deny := t_deny w; t_secrets := t_secrets w; t_shell := t_shell w; t_busy := n |}.

(** An effect that is logged, or denied. *)
Definition effect (e : string) (f : toy → toy) (w : toy) : option error * toy :=
  if decide (e ∈ t_deny w) then (Some (Plain ("denied: " +:+ e)), w) else (None, logged e (f w)).
Definition answer {A} (e : string) (a : A) (w : toy) : result A * toy :=
  if decide (e ∈ t_deny w) then (Err (Plain ("denied: " +:+ e)), w) else (Ok a, logged e w).

#[export] Instance toy_ops : Ops toy := {
  op_now w := (t_now w, w);
  op_uuid w := ("0ab1cdef-0123-4567-89ab-0123456789ab", w);
  op_secret_get ns n w := (match t_secrets w !! (ns +:+ "/" +:+ n) with Some m => Ok m | None => Err (Plain "not found") end, w);
  op_secret_create ns n m := effect ("create secret " +:+ ns +:+ "/" +:+ n) id;
  is_already_exists e := Contains (Error e) "already exists";
  op_auth_provider w := (None, w);
  op_vault_client u := None;
  op_vault_secret u n v := answer ("key vault " +:+ n) (Some "vault-key");
  op_account_client s := effect ("account client " +:+ s) id;
  op_storage_accesskey s a r l := answer ("list keys " +:+ a) "listed-key";
  op_accesskey_from_token s a r c t k := answer ("list keys with token " +:+ a) "token-key";
  op_ensure_account ao p := answer "ensure account" ("ensured", "ensured-key");
  op_blob_client s w := (None, w);
  op_create_container s r a c m w :=
    match t_busy w with
    | S n => (Some (Plain "ContainerBeingDeleted"), set_busy n w)
    | 0 => effect ("create container " +:+ a +:+ "/" +:+ c) id w
    end;
  op_delete_container s r a c := effect ("delete container " +:+ a +:+ "/" +:+ c) id;
  op_get_container s r a c w := (Ok (Some (Some false)), w);
  op_new_client a k s := None;
  op_dp_create c m := effect ("dp create " +:+ cr_account c +:+ "/" +:+ cr_container c) id;
  op_dp_delete c := effect ("dp delete " +:+ cr_account c +:+ "/" +:+ cr_container c) id;
  op_dp_exists c w := (Ok true, w);
  op_subnet_get r v n := answer ("get subnet " +:+ n) {| sn_Name := Some n; sn_ServiceEndpoints := [] |};
  op_subnet_list r v := answer "list subnets" [{| sn_Name := Some "default"; sn_ServiceEndpoints := [] |}];
  op_subnet_update r v n s := effect ("update subnet " +:+ n) id;
  op_shared_key_credential a k := None;
  op_service_client a k u := None;
  op_sas_url a k u m := answer ("sas " +:+ a) (u +:+ "?sig=1");
  url_parse_error s := Plain "parse error";
  op_shell c env w := match t_shell w with [] => (("", None), w) | r :: l => (r, set_shell l w) end;
  op_exec n args env := λ w, let '(e, w) := effect ("exec " +:+ n) id w in (("", e), w);
  op_timer_fires t w := (false, w);
  op_proxy_dial w := (None, w);
  op_dial_unix a w := (None, w);
  op_proxy_mount a p env := λ w, let '(e, w) := effect "proxy mount" (set_mounts (union {[ default a (Split a " " !! 0) ]})) w in (("", e), w);
  op_proxy_capabilities p w := (Ok true, w);
  is_not_exist e := Contains (Error e) "no such file";
  is_exist e := Contains (Error e) "file exists";
  is_corrupted_mnt e := Contains (Error e) "stale";
  op_read_file f w := (Err (Plain "no such file"), w);
  op_write_file f c := effect ("write " +:+ f) id;
  op_lstat f w := (Ok 493%N, w);
  op_chmod f m := effect ("chmod " +:+ f) id;
  op_mkdir_all f m := effect ("mkdir " +:+ f) id;
  op_remove f := effect ("remove " +:+ f) id;
  op_setenv k v := logged ("setenv " +:+ k);
  op_path_exists f w := ((true, None), w);
  op_is_likely_not_mnt f w := ((bool_decide (f ∉ t_mounts w), None), w);
  op_mount_list w := (Ok (elements (t_mounts w)), w);
  op_abs f w := (Ok f, w);
  op_mount s t f o := effect ("mount " +:+ t) (set_mounts (union {[ t ]}));
  op_unmount t := effect ("unmount " +:+ t) (set_mounts (λ m, m ∖ {[ t ]}));
  op_probe_mount t w := (if decide (("probe " +:+ t) ∈ t_deny w) then (Some (Plain "transport endpoint is not connected"), w) else (None, w));
  op_cleanup_mount_point t := effect ("cleanup " +:+ t) (set_mounts (λ m, m ∖ {[ t ]}));
  op_set_ownership p g c := effect ("chown " +:+ p) id;
  op_fs_metrics p w :=
    let q z := {| q_text := pretty z; q_AsInt64 := Some z |} in
    (Ok {| fm_Available := q 1%Z; fm_Capacity := q 2%Z; fm_Used := q 1%Z; fm_InodesFree := q 1%Z; fm_Inodes := q 2%Z; fm_InodesUsed := q 1%Z |}, w);
  op_unmarshal_token s := Ok s;
}.

Definition toy_state (locks : gset string) (w : toy) : st toy :=
  {| s_locks := locks; s_volMap := ∅; s_dataPlaneAPIVolCache := ∅; s_accountSearchCache := ∅; s_azcopySasTokenCache := ∅;
     s_volStatsCache := ∅; s_subnetCache := ∅; s_samples := []; s_world := w |}.

Definition toy_cloud : CloudConfig :=
  {| c_Cloud := "AZUREPUBLICCLOUD"; c_DisableAzureStackCloud := false; c_ResourceGroup := "rg"; c_SubscriptionID := "sub"; c_TenantID := "tenant";
     c_Location := "eastus"; c_VnetName := "vnet"; c_VnetResourceGroup := ""; c_SubnetName := "subnet"; c_NetworkResourceSubscriptionID := "";
     c_StorageEndpointSuffix := "core.windows.net"; c_UseManagedIdentityExtension := true; c_UserAssignedIdentityID := "uai"; c_AADClientID := "";
     c_AADClientSecret := ""; c_CloudProviderBackoffRetries := 3; c_has_compute_factory := true; c_has_network_factory := true |}.

Definition toy_options : DriverOptions :=
  {| o_NodeID := "node"; o_DriverName := "blob.csi.azure.com"; o_BlobfuseProxyEndpoint := "unix://tmp/blobfuse-proxy.sock";
     o_EnableBlobfuseProxy := true; o_EnableBlobMockMount := false; o_AllowInlineVolumeKeyAccessWithIdentity := false;
     o_EnableGetVolumeStats := true; o_AppendMountErrorHelpLink := true; o_MountPermissions := 511; o_AppendTimeStampInCacheDir := true;
     o_EnableAznfsMount := false; o_VolStatsCacheExpireInMinutes := 10; o_SasTokenExpirationMinutes := 1440;
     o_WaitForAzCopyTimeoutMinutes := 18; o_EnableVolumeMountGroup := true; o_FSGroupChangePolicy := "" |}.

Definition toy_driver : Driver := NewDriver toy_options "v1.27.0" true toy_cloud.

Definition mount_capability (flags : list string) (group : string) : VolumeCapability :=
  {| vc_access_type := MountType {| mv_fs_type := ""; mv_flags := flags; mv_mount_group := group |};
     vc_access_mode := Some MULTI_NODE_MULTI_WRITER |}.
