(* ===== verification/Frames.v ===== *)
(** * Frames: what every operation of the driver leaves as it found it

    A computation respects a relation between the states before and after it when it does so from every state and whatever
    the world answers.  A relation that allows changes of the world, of the caches other than the search cache and samples
    of the Azure API is a [Frame]; every operation below the handlers respects every frame.  The main one is [later]: the
    set of volume locks changes only in [with_volume_lock], samples are only appended, and the account that a volume is known
    by is never changed.  The lemmas are collected in the hint database [locks], from which the theorems on the handlers follow. *)
From S2P Require Import Prelude GoUnicode GoStrings GoErr Fields Attributes CsiCommon Predicates Metrics Effects World Azcopy Auth Containers Subnets.
From S2P Require Import CreateVolume Controller Proxy Mounts Node.
From stdpp Require Import options.
#[local] Set Default Proof Using "Type*".

Create HintDb locks.

(** ** Frames *)

Class Frame {W} (R : relation (st W)) : Prop := {
  #[global] frame_preorder :: PreOrder R;
  frame_world s w : R s (set_world w s);
  frame_azure s operation resourceGroup subsID ok : R s (add_samples [AzureOperation operation resourceGroup subsID ok] s);
  frame_dataPlane c s : R s (set_dataPlane c s);
  frame_sasTokens c s : R s (set_sasTokens c s);
  frame_volStats c s : R s (set_volStats c s);
  frame_subnets c s : R s (set_subnets c s);
}.

Definition respects {W} (R : relation (st W)) {A} (m : io (st W) A) : Prop := ∀ s, R s (m s).2.

Section frames.
Context {W : Type} `{Ops W} {R : relation (st W)} `{!Frame R}.

Lemma keeps_ret {A} (a : A) : respects R (mret a).
Proof. by intros s. Qed.
Lemma keeps_throw {A} e : respects R (throw (A := A) e).
Proof. by intros s. Qed.
Lemma keeps_bind {A B} (m : io (st W) A) (f : A → io (st W) B) : respects R m → (∀ a, respects R (f a)) → respects R (m ≫= f).
Proof.
  intros Hm Hf s. rewrite run_bind. specialize (Hm s). destruct (m s) as [[a|e] s']; [|done]. simpl in Hm. transitivity s'; [done|apply Hf].
Qed.
Lemma keeps_ask {A} (op : W → A * W) : respects R (ask op).
Proof. intros s. unfold ask. destruct (op _). apply frame_world. Qed.
Lemma keeps_call {A} (op : W → result A * W) : respects R (call op).
Proof. intros s. unfold call. destruct (op _). apply frame_world. Qed.
Lemma keeps_throw_some o : respects R (throw_some o).
Proof. destruct o; [apply keeps_throw|apply keeps_ret]. Qed.
Lemma keeps_throw_if b e : respects R (throw_if b e).
Proof. destruct b; [apply keeps_throw|apply keeps_ret]. Qed.
Lemma keeps_call_err op : respects R (call_err op).
Proof. apply keeps_bind; [apply keeps_ask|]. intros o. apply keeps_throw_some. Qed.
Lemma keeps_gets {A} (f : st W → A) : respects R (gets f).
Proof. by intros s. Qed.
Lemma keeps_from_result {A} (r : result A) : respects R (from_result r).
Proof. by intros s. Qed.
Lemma keeps_from_panic {A} (o : option A) : respects R (from_panic o).
Proof. destruct o; [apply keeps_ret|apply keeps_throw]. Qed.
Lemma keeps_attempt {A} (m : io (st W) A) : respects R m → respects R (attempt m).
Proof. intros Hm s. unfold attempt. specialize (Hm s). by destruct (m s). Qed.
Lemma keeps_wrap_err {A} f (m : io (st W) A) : respects R m → respects R (wrap_err f m).
Proof. intros Hm s. unfold wrap_err. specialize (Hm s). by destruct (m s) as [[|]]. Qed.
Lemma keeps_when b (m : io (st W) ()) : respects R m → respects R (when b m).
Proof. intros Hm. destruct b; [done|apply keeps_ret]. Qed.
Lemma keeps_for_each {A B} (f : B → A → io (st W) B) l b : (∀ b a, respects R (f b a)) → respects R (for_each f b l).
Proof.
  intros Hf. revert b. induction l as [|a l IH]; intros b; [apply keeps_ret|]. apply keeps_bind; [apply Hf|auto].
Qed.
Lemma keeps_backoff {A} n (c : io (st W) (option A)) : respects R c → respects R (ExponentialBackoff n c).
Proof.
  intros Hc. induction n as [|n IH]; [apply keeps_throw|]. apply keeps_bind; [done|]. intros [a|]; [apply keeps_ret|done].
Qed.
Lemma keeps_deferred {A} (f : result A → st W → st W) (m : io (st W) A) :
  (∀ r s, R s (f r s)) → respects R m → respects R (defer f m).
Proof. intros Hf Hm s. rewrite run_defer. transitivity (m s).2; [apply Hm|apply Hf]. Qed.
Lemma keeps_azure_metric {A} o r b (m : io (st W) A) : respects R m → respects R (with_azure_metric o r b m).
Proof. apply keeps_deferred. intros. apply frame_azure. Qed.

(** A cache whose update the frame allows. *)
Lemma keeps_read_cache {V} ttl (proj : st W → timed_cache V) upd key : (∀ c s, R s (upd c s)) → respects R (read_cache ttl proj upd key).
Proof.
  intros Hu s. unfold read_cache. destruct (op_now _) as [now w]. destruct (cache_get _ _ _ _) as [v c]. simpl.
  transitivity (set_world w s); [apply frame_world|apply Hu].
Qed.
Lemma keeps_write_cache {V} (proj : st W → timed_cache V) upd key v : (∀ c s, R s (upd c s)) → respects R (write_cache proj upd key v).
Proof.
  intros Hu s. unfold write_cache. destruct (op_now _) as [now w]. simpl. transitivity (set_world w s); [apply frame_world|apply Hu].
Qed.
End frames.

(** ** States that follow each other *)

Section later.
Context {W : Type} `{Ops W}.
Implicit Types s : st W.

(** The cloud answered a search for the account of some plan with that key. *)
Definition ensured (key account : string) : Prop :=
  ∃ pl accountKey w w', search_key pl = key ∧ p_account (pl_p pl) = "" ∧
    op_ensure_account (account_options pl "") (pl_protocol pl) w = (Ok (account, accountKey), w').

Record later (s s' : st W) : Prop := {
  later_locks : s_locks s' = s_locks s;
  later_samples : s_samples s `prefix_of` s_samples s';
  later_volMap : s_volMap s ⊆ s_volMap s';
  later_search key e : s_accountSearchCache s' !! key = Some e → s_accountSearchCache s !! key = Some e ∨ ensured key e.1;
}.

#[export] Instance later_preorder : PreOrder later.
Proof.
  split; [by intros s; split; [..|left]|]. intros s1 s2 s3 [H1 H2 H3 H4] [K1 K2 K3 K4].
  split; [congruence|by transitivity (s_samples s2)|by transitivity (s_volMap s2)|]. intros key e [He|]%K4; [by apply H4|by right].
Qed.

Lemma later_add_samples l s : later s (add_samples l s).
Proof. split; [done|by apply prefix_app_r|done|by left]. Qed.

#[export] Instance later_frame : Frame later.
Proof. split; [apply _| |intros; apply later_add_samples|..]; by split; [..|left]. Qed.

Abbreviation keeps m := (respects later m).

Lemma keeps_add_samples l : keeps (modify (add_samples l)).
Proof. intros s. apply later_add_samples. Qed.
Lemma keeps_defer {A} (f : result A → list sample) (m : io (st W) A) : keeps m → keeps (defer (λ r, add_samples (f r)) m).
Proof. apply keeps_deferred. intros. apply later_add_samples. Qed.
Lemma keeps_with_metric {A} f (m : io (st W) (A * bool)) : keeps m → keeps (with_metric f m).
Proof.
  intros Hm. apply keeps_bind; [|intros r; apply keeps_ret]. apply (keeps_defer (λ r, f (match r with Ok (_, b) => b | Err _ => false end))), Hm.
Qed.

(** Reading the account search cache forgets at most the entry that is read; only answers of the cloud are written. *)
Lemma keeps_accountSearchCache_get key : keeps (accountSearchCache_get key).
Proof.
  intros s. unfold accountSearchCache_get, read_cache. destruct (op_now _) as [now w]. unfold cache_get.
  destruct (s_accountSearchCache s !! key) as [[v created]|] eqn:E; [destruct (_ <? _)%Z|]; split; simpl; try done; intros key' e He; left; try done.
  by apply lookup_delete_Some in He as [_ He].
Qed.
Lemma keeps_accountSearchCache_set key v : ensured key v → keeps (accountSearchCache_set key v).
Proof.
  intros He s. unfold accountSearchCache_set, write_cache. destruct (op_now _) as [now w]. split; simpl; [done..|]. intros key' e.
  unfold cache_set. intros [[<- <-]|[_ Hl]]%lookup_insert_Some; [by right|by left].
Qed.

(** The volume lock is taken before the body and released after it, on every path. *)
Lemma keeps_with_volume_lock {A} key (aborted body : io (st W) A) : keeps aborted → keeps body → keeps (with_volume_lock key aborted body).
Proof.
  intros Ha Hb s. unfold with_volume_lock. rewrite run_bind. unfold TryAcquire.
  destruct (decide (key ∈ s_locks s)) as [Hin|Hin]; [by apply Ha|]. rewrite run_defer.
  destruct (Hb (set_locks (λ l, {[ key ]} ∪ l) s)) as [H1 H2 H3 H4]. split; [|done..]. simpl in *. rewrite H1. clear -Hin.
  apply set_eq. intros x. rewrite elem_of_difference, elem_of_union, elem_of_singleton. destruct (decide (x = key)) as [->|]; tauto.
Qed.
End later.

Abbreviation keeps m := (respects later m).

#[export] Hint Resolve keeps_ret keeps_throw keeps_ask keeps_call keeps_throw_some keeps_throw_if keeps_call_err keeps_gets
  keeps_from_result keeps_from_panic keeps_attempt keeps_wrap_err keeps_when keeps_backoff keeps_azure_metric
  keeps_add_samples keeps_with_metric keeps_with_volume_lock : locks.

#[export] Hint Extern 0 (Frame _) => apply _ : locks.

(** Walk through a handler: binds, branches and loops. *)
Ltac keep_locks :=
  cbv zeta;
  repeat first
    [ progress intros
    | solve [eauto 3 with locks]
    | apply keeps_with_volume_lock | apply keeps_with_metric | apply keeps_azure_metric
    | apply keeps_bind
    | apply keeps_for_each
    | apply keeps_attempt | apply keeps_wrap_err | apply keeps_when | apply keeps_backoff
    | match goal with |- respects later (defer (λ _, add_samples ?l) _) => apply (keeps_defer (λ _, l)) end
    | apply keeps_read_cache | apply keeps_write_cache
    | apply frame_dataPlane | apply frame_sasTokens | apply frame_volStats | apply frame_subnets
    | match goal with |- respects _ (match ?x with _ => _ end) => destruct x end
    | done ].

(** ** The operations *)

Section operations.
Context {W : Type} `{Ops W} `{RangeOrder} {R : relation (st W)} `{!Frame R}.

Lemma keeps_useDataPlaneAPI v a : respects R (useDataPlaneAPI v a).
Proof. unfold useDataPlaneAPI, dataPlaneAPIVolCache_get. keep_locks. Qed.
Lemma keeps_GetInfoFromSecret d n ns : respects R (GetInfoFromSecret d n ns).
Proof. unfold GetInfoFromSecret. keep_locks. Qed.
Lemma keeps_GetStorageAccesskeyWithSubsID d s a r l : respects R (GetStorageAccesskeyWithSubsID d s a r l).
Proof. unfold GetStorageAccesskeyWithSubsID. keep_locks. Qed.
Lemma keeps_getKeyVaultSecretContent u n v : respects R (getKeyVaultSecretContent u n v).
Proof.
  unfold getKeyVaultSecretContent. apply keeps_bind; [apply keeps_call_err|intros _].
  apply keeps_bind; [apply keeps_wrap_err, keeps_throw_some|intros _]. apply keeps_bind; [apply keeps_wrap_err, keeps_call|].
  intros [value|]; [apply keeps_ret|apply keeps_throw].
Qed.
#[local] Hint Resolve keeps_useDataPlaneAPI keeps_GetInfoFromSecret keeps_GetStorageAccesskeyWithSubsID keeps_getKeyVaultSecretContent : locks.
Lemma keeps_GetStorageAccesskey d ao s n ns : respects R (GetStorageAccesskey d ao s n ns).
Proof. unfold GetStorageAccesskey. keep_locks. Qed.
Lemma keeps_setAzureCredentials b n k ns : respects R (setAzureCredentials b n k ns).
Proof. unfold setAzureCredentials. keep_locks. Qed.
#[local] Hint Resolve keeps_GetStorageAccesskey keeps_setAzureCredentials : locks.
Lemma keeps_workload_identity_env c t a tok env : respects R (workload_identity_env c t a tok env).
Proof. unfold workload_identity_env. keep_locks. Qed.
Lemma keeps_kubernetes_credentials d s rg n ns t b1 b2 i : respects R (kubernetes_credentials d s rg n ns t b1 b2 i).
Proof. unfold kubernetes_credentials. keep_locks. Qed.
#[local] Hint Resolve keeps_workload_identity_env keeps_kubernetes_credentials : locks.
Lemma keeps_GetAuthEnv d v p a s : respects R (GetAuthEnv d v p a s).
Proof. unfold GetAuthEnv, auth_from_credentials. keep_locks. Qed.

Lemma keeps_CreateBlobContainer d s r a c e m : respects R (CreateBlobContainer d s r a c e m).
Proof. unfold CreateBlobContainer. keep_locks. Qed.
Lemma keeps_DeleteBlobContainer d s r a c m : respects R (DeleteBlobContainer d s r a c m).
Proof. unfold DeleteBlobContainer. keep_locks. Qed.
Lemma keeps_GetAzcopyJob c e : respects R (GetAzcopyJob c e).
Proof. unfold GetAzcopyJob. keep_locks. Qed.
#[local] Hint Resolve keeps_GetAuthEnv keeps_CreateBlobContainer keeps_DeleteBlobContainer keeps_GetAzcopyJob : locks.
Lemma keeps_cleanup d b s r a c m e : respects R (cleanupContainerOnFailure d b s r a c m e).
Proof. unfold cleanupContainerOnFailure. keep_locks. Qed.
Lemma keeps_generateSASToken a k e t : respects R (generateSASToken a k e t).
Proof. unfold generateSASToken, azcopySasTokenCache_get, azcopySasTokenCache_set. keep_locks. Qed.
#[local] Hint Resolve keeps_cleanup keeps_generateSASToken : locks.
Lemma keeps_getAzcopyAuth d a k e ao s n ns b : respects R (getAzcopyAuth d a k e ao s n ns b).
Proof. unfold getAzcopyAuth, azcopySasTokenCache_get. keep_locks. Qed.
#[local] Hint Resolve keeps_getAzcopyAuth : locks.
Lemma keeps_poll n (e c : io (st W) bool) : respects R e → respects R c → respects R (PollUntilContextTimeout n e c).
Proof. intros He Hc. induction n; simpl; keep_locks. Qed.
Lemma keeps_WaitUntilTimeout t (e f : io (st W) ()) : respects R e → respects R f → respects R (WaitUntilTimeout t e f).
Proof. intros. unfold WaitUntilTimeout. keep_locks. Qed.
Lemma keeps_copyBlobContainer d v a t env c ns ao e : respects R (copyBlobContainer d v a t env c ns ao e).
Proof.
  unfold copyBlobContainer, CleanJobs, wait_for_job, WaitUntilTimeout, execAzcopyCopy. keep_locks. apply keeps_poll; keep_locks.
Qed.
#[local] Hint Resolve keeps_copyBlobContainer : locks.
Lemma keeps_copyVolume d vs t a tok env c ns ao e : respects R (copyVolume d vs t a tok env c ns ao e).
Proof. unfold copyVolume. keep_locks. Qed.
#[local] Hint Resolve keeps_copyVolume : locks.
Lemma keeps_updateSubnet d r v s : respects R (updateSubnetServiceEndpoints d r v s).
Proof. unfold updateSubnetServiceEndpoints, get_subnets, update_subnet, subnetCache_get, subnetCache_set. keep_locks. Qed.
#[local] Hint Resolve keeps_updateSubnet : locks.

Lemma keeps_copy_source d pl so t o a k c b s : respects R (copy_source d pl so t o a k c b s).
Proof. unfold copy_source. keep_locks. Qed.
Lemma keeps_account_key d pl o a k s : respects R (account_key d pl o a k s).
Proof. unfold account_key. keep_locks. Qed.
#[local] Hint Resolve keeps_copy_source keeps_account_key : locks.
Lemma keeps_provision d req pl c p a k : respects R (provision d req pl c p a k).
Proof. unfold provision, dataPlaneAPIVolCache_set. keep_locks. Qed.
Lemma keeps_MakeDir p m : respects R (MakeDir p m).
Proof. unfold MakeDir. keep_locks. Qed.
#[local] Hint Resolve keeps_MakeDir : locks.
Lemma keeps_ensureMountPoint t p b : respects R (ensureMountPoint t p b).
Proof. unfold ensureMountPoint, IsCorruptedDir. keep_locks. Qed.
Lemma keeps_waitForMount n p : respects R (waitForMount n p).
Proof. induction n; simpl; keep_locks. Qed.
Lemma keeps_chmod p m : respects R (chmodIfPermissionMismatch p m).
Proof. unfold chmodIfPermissionMismatch. keep_locks. Qed.
Lemma keeps_SetVolumeOwnership p g c : respects R (SetVolumeOwnership p g c).
Proof. unfold SetVolumeOwnership. keep_locks. Qed.
#[local] Hint Resolve keeps_ensureMountPoint keeps_waitForMount keeps_chmod keeps_SetVolumeOwnership keeps_WaitUntilTimeout : locks.
Lemma keeps_mount_nfs d v t g a n c e b f sp : respects R (mount_nfs d v t g a n c e b f sp).
Proof. unfold mount_nfs. keep_locks. Qed.
End operations.

#[export] Hint Resolve keeps_useDataPlaneAPI keeps_GetInfoFromSecret keeps_GetStorageAccesskey keeps_GetStorageAccesskeyWithSubsID keeps_getKeyVaultSecretContent keeps_setAzureCredentials keeps_workload_identity_env keeps_kubernetes_credentials keeps_GetAuthEnv keeps_CreateBlobContainer keeps_DeleteBlobContainer keeps_GetAzcopyJob keeps_cleanup keeps_generateSASToken keeps_getAzcopyAuth keeps_poll keeps_WaitUntilTimeout keeps_copyBlobContainer keeps_copyVolume keeps_updateSubnet keeps_copy_source keeps_account_key keeps_provision keeps_MakeDir keeps_ensureMountPoint keeps_waitForMount keeps_chmod keeps_SetVolumeOwnership keeps_mount_nfs : locks.

(** ** The handlers *)

Section handlers.
Context {W : Type} `{Ops W} `{RangeOrder}.
Implicit Types s : st W.

(** An update of a cache. *)
Definition cache_field {V} (upd : V → st W → st W) : Prop := ∀ c s, s_volMap (upd c s) = s_volMap s.

(** The account is remembered only when none was. *)
Lemma later_bind (P : st W → Prop) {A B} (Q : A → Prop) (m : io (st W) A) (f : A → io (st W) B) s :
  later s (m s).2 → P (m s).2 → (∀ a, (m s).1 = Ok a → Q a) → (∀ a s', P s' → Q a → later s' (f a s').2) → later s ((m ≫= f) s).2.
Proof.
  intros Hm HP HQ Hf. rewrite run_bind. destruct (m s) as [[a|e] s']; simpl in *; [|done]. transitivity s'; [done|]. apply Hf; auto.
Qed.

Lemma later_gets {A B} (g : st W → A) (f : A → io (st W) B) : (∀ s, later s (f (g s) s).2) → keeps (gets g ≫= f).
Proof. by intros Hf s. Qed.

Lemma unknown_ask {A} v (op : W → A * W) : preserves (λ s, s_volMap s !! v = None) (ask op).
Proof. intros s Hs. unfold ask. by destruct (op _). Qed.
Lemma unknown_read_cache {V} ttl proj (upd : timed_cache V → st W → st W) key v s :
  cache_field upd → s_volMap s !! v = None → s_volMap (read_cache ttl proj upd key s).2 !! v = None.
Proof.
  intros Hu Hs. unfold read_cache. destruct (op_now _) as [now w]. destruct (cache_get _ _ _ _) as [x c]. simpl.
  by rewrite Hu.
Qed.
Lemma unknown_write_cache {V} proj (upd : timed_cache V → st W → st W) key x v s :
  cache_field upd → s_volMap s !! v = None → s_volMap (write_cache proj upd key x s).2 !! v = None.
Proof.
  intros Hu Hs. unfold write_cache. destruct (op_now _) as [now w]. simpl.
  by rewrite Hu.
Qed.

(** One attempt at finding an account, and what its answers are. *)
Definition ensure_attempt (pl : plan) : io (st W) (option (string * string)) :=
  r ← ask (op_ensure_account (account_options pl (p_account (pl_p pl))) (pl_protocol pl));
  match r with
  | Ok found => mret (Some found)
  | Err e => if isRetriableError (Some e) then mret None else throw e
  end.

Lemma ensure_attempt_ensured pl s account key s' :
  p_account (pl_p pl) = "" → ensure_attempt pl s = (Ok (Some (account, key)), s') → ensured (search_key pl) account.
Proof.
  intros Ha. unfold ensure_attempt. rewrite Ha. intros (r & s1 & E & Hr)%bind_inv_Ok. unfold ask in E.
  destruct (op_ensure_account _ _ _) as [r' w'] eqn:Eo. injection E as -> _. destruct r as [[a k]|e].
  - injection Hr as -> -> _. by exists pl, key, (s_world s), w'.
  - by destruct (isRetriableError (Some e)).
Qed.

Lemma keeps_choose_account d pl v m : keeps (choose_account d pl v m).
Proof.
  unfold choose_account. destruct (_ && _) eqn:Ea; [|apply keeps_ret]. apply andb_true_iff in Ea as [_ Ea%bool_decide_eq_true].
  apply later_gets. intros s. destruct (s_volMap s !! v) as [a|] eqn:Hv; [apply keeps_ret|].
  cbv zeta. fold (ensure_attempt pl). apply (later_bind (λ s, s_volMap s !! v = None) (λ _, True)); [apply keeps_accountSearchCache_get|by apply unknown_read_cache|done|].
  clear s Hv. intros [a|] s Hv _; [apply keeps_ret|].
  apply (later_bind (λ s, s_volMap s !! v = None) (λ r, ∀ a k, r = Ok (a, k) → ensured (search_key pl) a)).
  - apply (keeps_attempt (R := later)), keeps_backoff. unfold ensure_attempt. keep_locks.
  - apply preserves_attempt; [|done]. apply preserves_backoff. apply preserves_bind; [by apply unknown_ask|].
    intros [a|e]; [apply preserves_ret|]. destruct (isRetriableError (Some e)); [apply preserves_ret|apply preserves_throw].
  - intros r Hr a k ->. unfold attempt in Hr. destruct (ExponentialBackoff _ _ s) as [r s1] eqn:E. injection Hr as ->.
    apply backoff_inv_Ok in E as (t & t' & E). by apply ensure_attempt_ensured in E.
  - clear s Hv. intros [[accountName accountKey]|e] s Hv Hens.
    + apply (later_bind (λ s, s_volMap s !! v = None) (λ _, True)); [by eapply keeps_accountSearchCache_set, Hens|by apply unknown_write_cache|done|].
      intros _ s' Hv' _. split; [done|done|by apply insert_subseteq|by left].
    + apply (keeps_bind (R := later) _ _ (keeps_add_samples _)). intros _. apply keeps_throw.
Qed.
#[local] Hint Resolve keeps_choose_account : locks.
Lemma keeps_CreateVolume d req : keeps (CreateVolume d req).
Proof. unfold CreateVolume, choose_container, create_volume_aborted, create_volume_locked. keep_locks. Qed.
Lemma keeps_DeleteVolume d req : keeps (DeleteVolume d req).
Proof. unfold DeleteVolume, delete_volume_locked. keep_locks. Qed.
Lemma keeps_ValidateVolumeCapabilities d req : keeps (ValidateVolumeCapabilities d req).
Proof. unfold ValidateVolumeCapabilities, container_exists. keep_locks. Qed.
Lemma keeps_ControllerExpandVolume d req : keeps (ControllerExpandVolume d req : io (st W) Z).
Proof. unfold ControllerExpandVolume. keep_locks. Qed.

Lemma keeps_mount_blobfuse d v t g a n c f env sp : keeps (mount_blobfuse d v t g a n c f env sp).
Proof.
  unfold mount_blobfuse, distributed_cache_check, isDistributedCacheSupported, mountBlobfuseWithProxy, mountBlobfuseInsideDriver, counted,
    remove_failed_mount. keep_locks.
Qed.
#[local] Hint Resolve keeps_mount_nfs keeps_mount_blobfuse : locks.
Lemma keeps_NodeStageVolume d req : keeps (NodeStageVolume d req).
Proof. unfold NodeStageVolume, stage_locked, stage_mount. keep_locks. Qed.
#[local] Hint Resolve keeps_NodeStageVolume : locks.
Lemma keeps_NodePublishVolume d req : keeps (NodePublishVolume d req).
Proof. unfold NodePublishVolume, stage_unless_mounted, canSkipRepublishNodeStage, publish_staged, publish_bind. keep_locks. Qed.
Lemma keeps_NodeUnstageVolume d v t : keeps (NodeUnstageVolume d v t).
Proof. unfold NodeUnstageVolume, unmount_or_fail. keep_locks. Qed.
Lemma keeps_NodeUnpublishVolume v t : keeps (NodeUnpublishVolume v t).
Proof. unfold NodeUnpublishVolume, unmount_or_fail. keep_locks. Qed.
Lemma keeps_NodeGetVolumeStats d v p : keeps (NodeGetVolumeStats d v p).
Proof. unfold NodeGetVolumeStats, volStatsCache_get, volStatsCache_set. keep_locks. Qed.
End handlers.

#[export] Hint Resolve keeps_CreateVolume keeps_DeleteVolume keeps_ValidateVolumeCapabilities keeps_ControllerExpandVolume keeps_NodeStageVolume
  keeps_NodePublishVolume keeps_NodeUnstageVolume keeps_NodeUnpublishVolume keeps_NodeGetVolumeStats keeps_choose_account : locks.
