(* ===== verification/Server.v ===== *)
(** * Server: the driver as a state machine of RPCs

    One constructor per RPC that touches the state; [serve] runs it.  The volume locks protect an operation against a
    second one on the same volume: a locked RPC answers Aborted and changes nothing, and no path leaks a lock. *)
From S2P Require Import Prelude GoUnicode GoStrings GoErr Fields Attributes CsiCommon Predicates VolumeIDs Metrics Effects World Azcopy Auth.
From S2P Require Import Containers Subnets CreateVolume Controller Proxy Mounts Node DriverInit Toy Frames.
From stdpp Require Import options.

Inductive rpc :=
| CreateVolumeCall (req : CreateVolumeRequest)
| DeleteVolumeCall (req : DeleteVolumeRequest)
| ValidateVolumeCapabilitiesCall (req : ValidateVolumeCapabilitiesRequest)
| ControllerExpandVolumeCall (req : ControllerExpandVolumeRequest)
| NodeStageVolumeCall (req : NodeStageVolumeRequest)
| NodeUnstageVolumeCall (volumeID stagingTargetPath : string)
| NodePublishVolumeCall (req : NodePublishVolumeRequest)
| NodeUnpublishVolumeCall (volumeID targetPath : string)
| NodeGetVolumeStatsCall (volumeId volumePath : string).

Section server.
Context {W : Type} `{Ops W} `{RangeOrder}.
Implicit Types s : st W.

Definition done_with {A} (m : io (st W) A) : io (st W) () := _ ← m; mret ().

Definition serve (d : Driver) (c : rpc) : io (st W) () :=
  match c with
  | CreateVolumeCall req => done_with (CreateVolume d req)
  | DeleteVolumeCall req => DeleteVolume d req
  | ValidateVolumeCapabilitiesCall req => done_with (ValidateVolumeCapabilities d req)
  | ControllerExpandVolumeCall req => done_with (ControllerExpandVolume d req)
  | NodeStageVolumeCall req => NodeStageVolume d req
  | NodeUnstageVolumeCall v t => NodeUnstageVolume d v t
  | NodePublishVolumeCall req => NodePublishVolume d req
  | NodeUnpublishVolumeCall v t => NodeUnpublishVolume v t
  | NodeGetVolumeStatsCall v p => done_with (NodeGetVolumeStats d v p)
  end.

(** The states of a driver that has answered RPCs one after the other. *)
Inductive reachable (d : Driver) : st W → Prop :=
| reachable_init w : reachable d (initial_state w)
| reachable_serve s c : reachable d s → reachable d (serve d c s).2.

(** The key under which a well-formed call is serialized, and the volume that the refusal names. *)
Definition lock_of (d : Driver) (c : rpc) : option (string * string) :=
  match c with
  | DeleteVolumeCall req =>
    if bool_decide (dv_VolumeId req ≠ "" ∧ ValidateControllerServiceRequest (d_csi d) CREATE_DELETE_VOLUME = None)
    then Some (dv_VolumeId req, dv_VolumeId req) else None
  | NodeStageVolumeCall req =>
    if bool_decide (ns_VolumeId req ≠ "" ∧ ns_StagingTargetPath req ≠ "" ∧ ns_VolumeCapability req ≠ None)
    then Some (stage_lock_key (ns_VolumeId req) (ns_StagingTargetPath req), ns_VolumeId req) else None
  | NodeUnstageVolumeCall v t => if bool_decide (v ≠ "" ∧ t ≠ "") then Some (stage_lock_key v t, v) else None
  | _ => None
  end.

Lemma keeps_serve d c : keeps (serve d c).
Proof. destruct c; unfold serve, done_with; keep_locks. Qed.

Lemma locked_aborts {A} key e (body : io (st W) A) s :
  key ∈ s_locks s → with_volume_lock key (throw e) body s = (Err e, s).
Proof. intros Hin. unfold with_volume_lock. rewrite run_bind. unfold TryAcquire. by rewrite decide_True. Qed.


(** A computation that answers no value while the key is locked. *)
Definition refuses {A} (key : string) (m : io (st W) A) : Prop := ∀ s, key ∈ s_locks s → ∀ a, (m s).1 ≠ Ok a.

Lemma refuses_bind {A B} key (m : io (st W) A) (f : A → io (st W) B) :
  keeps m → (∀ a, refuses key (f a)) → refuses key (m ≫= f).
Proof.
  intros Hm Hf s Hk b. rewrite run_bind. pose proof (later_locks _ _ (Hm s)) as Hl.
  destruct (m s) as [[a|e] s']; [|done]. apply Hf. simpl in Hl. by rewrite Hl.
Qed.

Lemma refuses_lock {A} key (aborted body : io (st W) A) :
  (∀ s a, (aborted s).1 ≠ Ok a) → refuses key (with_volume_lock key aborted body).
Proof. intros Ha s Hk a. unfold with_volume_lock. rewrite run_bind. unfold TryAcquire. rewrite decide_True by done. apply Ha. Qed.

Lemma create_volume_aborted_fails v c source s a : (create_volume_aborted v c source s).1 ≠ Ok a.
Proof.
  unfold create_volume_aborted. destruct source; [|done]. rewrite run_bind. destruct (GetAzcopyJob c [] s) as [[[[]]|] ?]; done.
Qed.

Lemma CreateVolume_refuses d req : refuses (cv_Name req) (CreateVolume d req).
Proof.
  unfold CreateVolume. do 5 (apply refuses_bind; [keep_locks|intros]).
  apply refuses_bind; [unfold choose_container; keep_locks|]. intros [? ?]. apply refuses_lock. intros. apply create_volume_aborted_fails.
Qed.

(** C3 - No lock leaks: whatever the request and whatever the cluster, the cloud, the file system and the processes
    answer, every RPC returns with exactly the volume locks it found, on success and on every error path; so a driver
    that has answered any sequence of RPCs holds no lock at all. *)
Theorem no_lock_leaks d s :
  (∀ c, s_locks (serve d c s).2 = s_locks s) ∧ (reachable d s → s_locks s = ∅).
Proof.
  split; [intros c; apply (later_locks _ _ (keeps_serve d c s))|].
  induction 1 as [w|s c _ IH]; [done|]. by rewrite (later_locks _ _ (keeps_serve d c s)).
Qed.

(** C15 - Serialization: while the key of a well-formed DeleteVolume, NodeStageVolume or NodeUnstageVolume is locked, the
    call answers Aborted naming the volume and changes nothing, neither the driver's state nor the outside. *)
Theorem locked_calls_abort d s c key volumeID :
  lock_of d c = Some (key, volumeID) → key ∈ s_locks s →
  serve d c s = (Err (status_errorf Aborted volumeOperationAlreadyExistsFmt [volumeID]), s).
Proof.
  intros Hl Hk. destruct c as [|req| | |req|v t| | |]; try done; simpl in Hl; case_bool_decide as Hc; try done; simplify_eq.
  - destruct Hc as [Hv Hcap]. simpl. unfold DeleteVolume. rewrite run_bind, (bool_decide_eq_false_2 _ Hv). simpl.
    rewrite run_bind, Hcap. simpl. by apply locked_aborts.
  - destruct Hc as (Hv & Ht & Hcap). simpl. unfold NodeStageVolume. rewrite run_bind, (bool_decide_eq_false_2 _ Hv). simpl.
    rewrite run_bind, (bool_decide_eq_false_2 _ Ht). simpl. destruct (ns_VolumeCapability req); [|done]. by apply locked_aborts.
  - destruct Hc as [Hv Ht]. simpl. unfold NodeUnstageVolume. rewrite run_bind, (bool_decide_eq_false_2 _ Hv). simpl.
    rewrite run_bind, (bool_decide_eq_false_2 _ Ht). simpl. by apply locked_aborts.
Qed.

(** One provisioning at a time: while the name of a volume is locked, CreateVolume for that name returns no volume. *)
Theorem locked_create_volume d s req volume : cv_Name req ∈ s_locks s → (CreateVolume d req s).1 ≠ Ok volume.
Proof. intros Hk. by apply CreateVolume_refuses. Qed.
End server.

Lemma no_lock_leaks_witness :
  s_locks (serve (H0 := canonical_order) toy_driver (NodeUnstageVolumeCall "vol" "/mnt/a") (toy_state ∅ calm)).2 = ∅.
Proof. apply (no_lock_leaks (H0 := canonical_order)). Defined.

Lemma locked_calls_abort_witness :
  serve (H0 := canonical_order) toy_driver (NodeUnstageVolumeCall "vol" "/mnt/a") (toy_state {[ "vol-/mnt/a" ]} calm) =
  (Err (status_errorf Aborted volumeOperationAlreadyExistsFmt ["vol"]), toy_state {[ "vol-/mnt/a" ]} calm).
Proof.
  apply (locked_calls_abort (H0 := canonical_order) _ _ _ "vol-/mnt/a"); [vm_compute; reflexivity|].
  apply (bool_decide_unpack _). vm_compute. exact I.
Defined.

Definition toy_request (name : string) (params secrets : gomap) : CreateVolumeRequest :=
  {| cv_Name := name; cv_VolumeCapabilities := [mount_capability [] ""]; cv_CapacityRange := Some 1073741824%Z; cv_Parameters := params;
     cv_Secrets := secrets; cv_VolumeContentSource := None; cv_sourceText := "" |}.

Definition any_volume : Volume := {| vol_VolumeId := "id"; vol_CapacityBytes := 0; vol_VolumeContext := None; vol_ContentSource := None |}.

Lemma locked_create_volume_witness :
  (CreateVolume (H0 := canonical_order) toy_driver (toy_request "pvc-1" None None) (toy_state {[ "pvc-1" ]} calm)).1 ≠ Ok any_volume.
Proof. apply (locked_create_volume (H0 := canonical_order)). apply (bool_decide_unpack _). vm_compute. exact I. Defined.
