(* ===== verification/Counters.v ===== *)
(** * Counters: what an RPC adds to the counter of its operation

    operations_total has a series per operation and result.  [results op] lists what was added to the series of [op], in
    order.  Below the handlers only the two mount operations are counted, so every other series sees an RPC at most once. *)
From S2P Require Import Prelude GoUnicode GoStrings GoErr Fields Attributes Predicates VolumeIDs Metrics Effects World Auth Containers CreateVolume Controller.
From S2P Require Import Mounts Node DriverInit Toy Frames Server.
From stdpp Require Import options.
#[local] Set Default Proof Using "Type*".

Definition counted_for (op : string) (x : sample) : option string :=
  match x with OperationTotal o success => if decide (o = op) then Some success else None | _ => None end.
Definition results (op : string) (l : list sample) : list string := omap (counted_for op) l.

Definition mount_operations : list string := ["node_blobfuse_proxy_mount"; "node_blobfuse_mount"].

Lemma results_app op l k : results op (l ++ k) = results op l ++ results op k.
Proof. apply omap_app. Qed.

Lemma results_Observe op mc b : results op (Observe mc b) = if decide (mc_operation mc = op) then [FormatBool b] else [].
Proof. unfold results, Observe. simpl. destruct (decide (mc_operation mc = op)), (decide (size (mc_labels mc) = 0)); simpl; done. Qed.

Lemma results_ObserveWithLabels op mc b l : results op (ObserveWithLabels mc b l) = if decide (mc_operation mc = op) then [FormatBool b] else [].
Proof. unfold ObserveWithLabels. destruct (Nat.even _); rewrite results_Observe; by rewrite ?with_labels_operation. Qed.

(** ** Computations that are not counted *)

Section silent.
Context {W : Type} `{Ops W} `{RangeOrder}.
Implicit Types s : st W.

Definition silent (op : string) (s s' : st W) : Prop := results op (s_samples s') = results op (s_samples s).

#[export] Instance silent_frame op : Frame (silent op).
Proof. split; unfold silent; [split; [done|by intros s1 s2 s3 -> ->]|done| |done..]. intros. simpl. rewrite results_app. apply app_nil_r. Qed.

Lemma silent_defer {A} op l (m : io (st W) A) : results op l = [] → respects (silent op) m → respects (silent op) (defer (λ _, add_samples l) m).
Proof. intros Hl. apply keeps_deferred. intros _ s. unfold silent. simpl. by rewrite results_app, Hl, app_nil_r. Qed.

Lemma silent_with_metric {A} op f (m : io (st W) (A * bool)) : (∀ b, results op (f b) = []) → respects (silent op) m → respects (silent op) (with_metric f m).
Proof.
  intros Hf Hm. apply keeps_bind; [|intros r; apply keeps_ret]. apply keeps_deferred; [|done].
  intros r s. unfold silent. simpl. by rewrite results_app, Hf, app_nil_r.
Qed.

Lemma silent_bind_Ok {A B} op (m : io (st W) A) (f : A → io (st W) B) :
  respects (silent op) m → (∀ s a, (m s).1 = Ok a → respects (silent op) (f a)) → respects (silent op) (m ≫= f).
Proof.
  intros Hm Hf s. rewrite run_bind. specialize (Hm s). destruct (m s) as [[a|e] s'] eqn:E; [|done]. simpl in Hm.
  transitivity s'; [done|]. apply (Hf s). by rewrite E.
Qed.

Lemma silent_counted op operation protocol (m : io (st W) (string * option error)) :
  operation ≠ op → respects (silent op) m → respects (silent op) (counted operation protocol m).
Proof.
  intros Hne Hm. apply silent_with_metric; [intros b; rewrite results_ObserveWithLabels; by apply decide_False|].
  apply keeps_bind; [done|]. intros r. apply keeps_ret.
Qed.

(** The sample that choosing an account leaves to be recorded is one of the Azure API. *)
Lemma choose_account_deferred op d pl v secrets s a k l : (choose_account d pl v secrets s).1 = Ok (a, k, l) → results op l = [].
Proof.
  unfold choose_account. destruct (_ && _); [|by intros [= _ _ <-]]. cbv zeta. rewrite run_bind. simpl.
  destruct (s_volMap s !! v); [by intros [= _ _ <-]|]. rewrite run_bind. destruct (accountSearchCache_get _ s) as [[[?|]|?] s1]; [by intros [= _ _ <-]| |done].
  rewrite run_bind. destruct (attempt _ s1) as [[[[a' k']|e]|e] s2]; [|done..]. rewrite run_bind.
  destruct (accountSearchCache_set _ _ s2) as [[[]|?] s3]; [|done]. simpl. by intros [= _ _ <-].
Qed.

Lemma silent_choose_account op d pl v secrets : respects (silent op) (choose_account d pl v secrets).
Proof.
  unfold choose_account. destruct (_ && _); [|apply keeps_ret]. cbv zeta. apply keeps_bind; [apply keeps_gets|]. intros [a|]; [apply keeps_ret|].
  apply keeps_bind; [by apply keeps_read_cache|]. intros [a|]; [apply keeps_ret|]. apply keeps_bind; [keep_locks|]. intros [[a k]|e].
  - apply keeps_bind; [by apply keeps_write_cache|]. intros _. apply keeps_bind; [done|]. intros _. apply keeps_ret.
  - apply keeps_bind; [intros s; apply frame_azure|]. intros _. apply keeps_throw.
Qed.

Lemma silent_mount_blobfuse op d v t g a n c f env sp : op ∉ mount_operations → respects (silent op) (mount_blobfuse d v t g a n c f env sp).
Proof.
  intros [Hp [Hi _]%not_elem_of_cons]%not_elem_of_cons.
  assert (∀ args protocol env, respects (silent op) (mountBlobfuseWithProxy args protocol env)) as Hproxy
    by (intros; unfold mountBlobfuseWithProxy; apply silent_counted; [done|keep_locks]).
  assert (∀ args protocol env, respects (silent op) (mountBlobfuseInsideDriver args protocol env)) as Hinside
    by (intros; unfold mountBlobfuseInsideDriver; apply silent_counted; [done|keep_locks]).
  unfold mount_blobfuse, distributed_cache_check, isDistributedCacheSupported, remove_failed_mount. keep_locks; first [apply Hproxy|apply Hinside].
Qed.
End silent.

(** ** Computations that are counted once *)

Section counted_once.
Context {W : Type} `{Ops W} `{RangeOrder}.
Implicit Types s : st W.

(** At most one result is counted; a counted success is one, and if [exact] a success is counted as one. *)
Definition once (op : string) (exact : Prop) {A} (m : io (st W) A) : Prop := ∀ s, ∃ l,
  results op (s_samples (m s).2) = results op (s_samples s) ++ l ∧
  (l = [] ∨ ∃ b, l = [FormatBool b] ∧ (b = true → ∃ a, (m s).1 = Ok a) ∧ (exact → (∃ a, (m s).1 = Ok a) → b = true)).

(** The flag of a handler's body is set when it succeeds. *)
Definition flagged {A} (m : io (st W) (A * bool)) : Prop := ∀ s a b s', m s = (Ok (a, b), s') → b = true.

Lemma flagged_ret {A} (a : A) : flagged (mret (a, true)).
Proof. by intros s ? ? ? [= _ <- _]. Qed.
Lemma flagged_throw {A} e : flagged (throw (A := A * bool) e).
Proof. by intros s. Qed.
Lemma flagged_bind {A B} (m : io (st W) A) (f : A → io (st W) (B * bool)) : (∀ a, flagged (f a)) → flagged (m ≫= f).
Proof. intros Hf s b ok s' (a & s1 & _ & E)%bind_inv_Ok. by apply (Hf a s1 b ok s'). Qed.
Lemma flagged_defer {A} f (m : io (st W) (A * bool)) : flagged m → flagged (defer f m).
Proof. intros Hm s a b s'. rewrite run_defer. destruct (m s) as [r s1] eqn:E. simpl. intros [= -> _]. by apply (Hm s a b s1). Qed.

Context (op : string) (exact : Prop).

Lemma once_silent {A} (m : io (st W) A) : respects (silent op) m → once op exact m.
Proof. intros Hm s. exists []. rewrite app_nil_r. split; [apply Hm|by left]. Qed.

Lemma once_bind {A B} (m : io (st W) A) (f : A → io (st W) B) : respects (silent op) m → (∀ a, once op exact (f a)) → once op exact (m ≫= f).
Proof.
  intros Hm Hf s. rewrite run_bind. specialize (Hm s). destruct (m s) as [[a|e] s']; simpl in Hm; [|by exists []; rewrite app_nil_r; split; [|left]].
  destruct (Hf a s') as (l & Hl & Hor). exists l. by rewrite Hl, Hm.
Qed.

Lemma once_then {A B} (m : io (st W) A) (g : A → B) : once op exact m → once op exact (a ← m; mret (g a)).
Proof.
  intros Hm s. rewrite run_bind. destruct (Hm s) as (l & Hl & Hor). destruct (m s) as [[a|e] s']; exists l; (split; [exact Hl|]);
    destruct Hor as [?|(b & -> & H1 & H2)]; [by left| |by left|]; right; exists b; (split; [done|split]).
  - intros _. by eexists.
  - intros He _. apply H2; [done|by eexists].
  - by intros [? ?]%H1.
  - by intros _ [? ?].
Qed.

Lemma once_with_metric {A} f mc (m : io (st W) (A * bool)) :
  (∀ b, results op (f b) = if decide (mc_operation mc = op) then [FormatBool b] else []) →
  respects (silent op) m → (exact → flagged m) → once op exact (with_metric f m).
Proof.
  intros Hf Hm He. apply once_then. intros s. rewrite run_defer. specialize (Hm s). unfold silent in Hm. destruct (m s) as [r s1] eqn:E. simpl in *.
  eexists. split; [by rewrite results_app, Hf, Hm|]. destruct (decide _); [|by left]. right. eexists. split; [done|].
  destruct r as [[a b]|err]; simpl; (split; [|intros Hex [? [=]]]); [intros _; by eexists| |done].
  by apply (He Hex s a b s1).
Qed.

Lemma once_observe {A} mc (m : io (st W) (A * bool)) : respects (silent op) m → (exact → flagged m) → once op exact (with_metric (Observe mc) m).
Proof. apply (once_with_metric _ mc). intros. apply results_Observe. Qed.
Lemma once_observe_labels {A} mc l (m : io (st W) (A * bool)) :
  respects (silent op) m → (exact → flagged m) → once op exact (with_metric (λ ok, ObserveWithLabels mc ok l) m).
Proof. apply (once_with_metric _ mc). intros. apply results_ObserveWithLabels. Qed.

Lemma once_lock {A} key (aborted body : io (st W) A) :
  respects (silent op) aborted → once op exact body → once op exact (with_volume_lock key aborted body).
Proof.
  intros Ha Hb. apply once_bind; [intros s; unfold TryAcquire; by destruct (decide _)|]. intros []; [|by apply once_silent].
  intros s. rewrite run_defer. destruct (Hb s) as (l & Hl & Hor). destruct (body s) as [r s1]. by exists l.
Qed.
End counted_once.

(** ** The handlers *)

Section handlers.
Context {W : Type} `{Ops W} `{RangeOrder}.
Implicit Types s : st W.
Context (d : Driver) (op : string).
Hypothesis not_mount : op ∉ mount_operations.

(** Without mock mounts, which are answered with success but counted as failures. *)
Definition real_mounts : Prop := d_enableBlobMockMount d = false.

Lemma once_CreateVolume req : once op real_mounts (CreateVolume (W := W) d req).
Proof.
  unfold CreateVolume. do 5 (apply once_bind; [keep_locks|intros]). apply once_bind; [unfold choose_container; keep_locks|]. intros [container params].
  apply once_lock; [unfold create_volume_aborted; keep_locks|]. apply once_observe_labels.
  - apply silent_bind_Ok; [apply silent_choose_account|]. intros s [[acct k] l] E. apply silent_defer; [by eapply choose_account_deferred|keep_locks].
  - intros _. apply flagged_bind. intros [[acct k] l]. apply flagged_defer. unfold provision. cbv zeta.
    apply flagged_bind. intros [[? ?] ?]. do 4 (apply flagged_bind; intros ?). apply flagged_ret.
Qed.

Lemma once_DeleteVolume req : once op real_mounts (DeleteVolume (W := W) d req).
Proof.
  unfold DeleteVolume. do 2 (apply once_bind; [keep_locks|intros _]). apply once_lock; [keep_locks|]. unfold delete_volume_locked. cbv zeta.
  destruct (GetContainerInfo _); [|by apply once_silent; keep_locks]. do 2 (apply once_bind; [keep_locks|intros ?]).
  apply once_observe; [keep_locks|]. intros _. apply flagged_bind. intros _. apply flagged_ret.
Qed.

Lemma once_ValidateVolumeCapabilities req : once op real_mounts (ValidateVolumeCapabilities (W := W) d req).
Proof.
  unfold ValidateVolumeCapabilities. cbv zeta. do 2 (apply once_bind; [keep_locks|intros _]). apply once_observe; [unfold container_exists; keep_locks|].
  intros _. do 3 (apply flagged_bind; intros ?). apply flagged_ret.
Qed.

Lemma once_ControllerExpandVolume req : once op real_mounts (ControllerExpandVolume d req : io (st W) Z).
Proof. apply once_observe; [keep_locks|]. intros _. apply flagged_bind. intros z. apply flagged_ret. Qed.

Lemma once_unmount fmt path mc : once op real_mounts (with_metric (W := W) (Observe mc) (unmount_or_fail fmt path)).
Proof. apply once_observe; [unfold unmount_or_fail; keep_locks|]. intros _. apply flagged_bind. intros _. apply flagged_ret. Qed.

Lemma once_NodeUnpublishVolume v t : once op real_mounts (NodeUnpublishVolume (W := W) v t).
Proof. unfold NodeUnpublishVolume. do 2 (apply once_bind; [keep_locks|intros _]). apply once_unmount. Qed.

Lemma once_NodeUnstageVolume v t : once op real_mounts (NodeUnstageVolume (W := W) d v t).
Proof. unfold NodeUnstageVolume. do 2 (apply once_bind; [keep_locks|intros _]). apply once_lock; [keep_locks|apply once_unmount]. Qed.

Lemma once_NodeGetVolumeStats v p : once op real_mounts (NodeGetVolumeStats (W := W) d v p).
Proof.
  unfold NodeGetVolumeStats. do 2 (apply once_bind; [keep_locks|intros _]). apply once_bind; [unfold volStatsCache_get; keep_locks|].
  intros [resp|]; [apply once_silent; keep_locks|].
  apply once_observe; [unfold volStatsCache_set; keep_locks|]. intros _. do 4 (apply flagged_bind; intros ?). apply flagged_ret.
Qed.

(** A mount that is not mocked sets the flag. *)
Lemma flagged_stage_mount req vc attrib sp isInlineMSI suffix : real_mounts → flagged (W := W) (stage_mount d req vc attrib sp isInlineMSI suffix).
Proof.
  intros Hreal. unfold stage_mount. apply flagged_bind. intros [mnt err]. do 2 (apply flagged_bind; intros ?). destruct mnt; [apply flagged_ret|].
  do 3 (apply flagged_bind; intros ?). destruct (isNFSProtocol _); [apply flagged_bind; intros _; apply flagged_ret|].
  unfold mount_blobfuse. do 3 (apply flagged_bind; intros ?). rewrite Hreal. apply flagged_bind. intros [output [e|]]; apply flagged_bind; intros _.
  - apply flagged_throw.
  - apply flagged_ret.
Qed.

Lemma once_NodeStageVolume req : once op real_mounts (NodeStageVolume (W := W) d req).
Proof.
  unfold NodeStageVolume. do 2 (apply once_bind; [keep_locks|intros _]). destruct (ns_VolumeCapability req) as [vc|]; [|apply once_silent; keep_locks].
  apply once_lock; [keep_locks|]. unfold stage_locked. apply once_bind; [keep_locks|intros attrib]. cbv zeta.
  destruct (_ && _); [apply once_silent; keep_locks|]. do 2 (apply once_bind; [keep_locks|intros ?]).
  apply once_observe_labels; [|apply flagged_stage_mount]. unfold stage_mount. pose proof (silent_mount_blobfuse (W := W) op) as Hm. keep_locks.
Qed.

Lemma once_publish_staged req perm : once op real_mounts (publish_staged (W := W) d req perm).
Proof.
  unfold publish_staged. apply once_bind; [keep_locks|intros _]. unfold publish_bind. apply once_observe; [keep_locks|]. intros Hreal.
  apply flagged_bind. intros [mnt err]. apply flagged_bind. intros _. destruct mnt; [apply flagged_ret|]. rewrite Hreal.
  apply flagged_bind. intros [e|]; [|apply flagged_ret]. apply flagged_bind. intros [e'|]; apply flagged_throw.
Qed.

Lemma once_NodePublishVolume req : once op real_mounts (NodePublishVolume (W := W) d req).
Proof.
  assert (∀ vc context secrets, once op real_mounts (stage_unless_mounted (W := W) d req vc context secrets)) as Hstage.
  { intros. unfold stage_unless_mounted. apply once_bind; [unfold canSkipRepublishNodeStage; keep_locks|].
    intros [|]; [apply once_silent; keep_locks|apply once_NodeStageVolume]. }
  unfold NodePublishVolume. destruct (np_VolumeCapability req) as [vc|]; [|apply once_silent; keep_locks].
  do 2 (apply once_bind; [keep_locks|intros _]). apply once_bind; [keep_locks|]. intros [context|]; [|apply once_publish_staged]. cbv zeta.
  destruct (_ && _); [apply Hstage|]. destruct (isEphemeralVolume _); [apply Hstage|].
  destruct (decide _); [apply once_publish_staged|]. destruct (ParseUint _ _ _); [apply once_publish_staged|apply once_silent; keep_locks].
Qed.

(** C4 - The counters tell the truth: an RPC is counted at most once in operations_total of any operation (the two inner mount
    operations apart), as a success only if it answers without an error, and, unless mounts are mocked, as a failure only if
    it answers with one. *)
Theorem rpc_counted_once c s : ∃ l,
  results op (s_samples (serve d c s).2) = results op (s_samples s) ++ l ∧
  (l = [] ∨ ∃ b, l = [FormatBool b] ∧ (b = true → (serve d c s).1 = Ok ()) ∧ (d_enableBlobMockMount d = false → (serve d c s).1 = Ok () → b = true)).
Proof using not_mount.
  assert (once op real_mounts (serve (W := W) d c)) as Hc.
  { destruct c; simpl; unfold done_with; try apply once_then.
    - apply once_CreateVolume.
    - apply once_DeleteVolume.
    - apply once_ValidateVolumeCapabilities.
    - apply once_ControllerExpandVolume.
    - apply once_NodeStageVolume.
    - apply once_NodeUnstageVolume.
    - apply once_NodePublishVolume.
    - apply once_NodeUnpublishVolume.
    - apply once_NodeGetVolumeStats. }
  destruct (Hc s) as (l & Hl & [->|(b & -> & H1 & H2)]); eexists; (split; [exact Hl|]); [by left|right].
  exists b. split_and!; [done|by intros [[] ?]%H1|]. intros Hr E. apply H2; [done|by exists ()].
Qed.
End handlers.

(** ** Witness *)

Lemma rpc_counted_once_witness :
  results "node_unstage_volume" (s_samples (serve (H0 := canonical_order) toy_driver (NodeUnstageVolumeCall "vol" "/mnt/a") (toy_state ∅ calm)).2) = ["true"] ∧
  ∃ l : list string, l = ["true"] ∧ (l = [] ∨ ∃ b, l = [FormatBool b] ∧
    (b = true → (serve (H0 := canonical_order) toy_driver (NodeUnstageVolumeCall "vol" "/mnt/a") (toy_state ∅ calm)).1 = Ok ())).
Proof.
  split; [vm_compute; reflexivity|].
  destruct (rpc_counted_once (H0 := canonical_order) toy_driver "node_unstage_volume" ltac:(apply (bool_decide_unpack _); vm_compute; exact I)
    (NodeUnstageVolumeCall "vol" "/mnt/a") (toy_state ∅ calm)) as (l & Hl & Hor).
  exists l. split; [vm_compute in Hl; by rewrite Hl|]. destruct Hor as [?|(b & ? & ? & _)]; [by left|right]. by exists b.
Defined.
