(* ===== verification/MountTable.v ===== *)
(** * MountTable: the node service refines a table of mount points

    What the host promises about its mount table is the class [MountTable]: which calls change it and how, and which answers
    tell what it holds.  Against that interface, publishing a staged volume, unpublishing and unstaging are the insertion
    and the deletion of one path ([mount_spec]). *)
From S2P Require Import Prelude GoUnicode GoStrings GoErr Fields Attributes CsiCommon Predicates Metrics Effects World Mounts Node DriverInit Toy.
From S2P Require Import Frames Server.
From stdpp Require Import options.

(** The mount table of the host.  Calls that read, and those that make or remove directories, leave it alone.  The other
    promises are for [clean] paths only: absolute ones, free of links and of dots, below healthy directories.  There a mount
    that succeeds adds the path; one that fails may leave it mounted, since a bind mount with options is mounted first and
    remounted with them; CleanupMountPoint may fail before or after it has unmounted; and a path that is said to be mounted,
    or whose mount is said to be corrupted, is in the table. *)
Class MountTable (W : Type) `{Ops W} := {
  table : W → gset string;
  clean : string → Prop;
  mount_adds src t fs opts w : clean t →
    match (op_mount src t fs opts w).1 with
    | None => table (op_mount src t fs opts w).2 = {[ t ]} ∪ table w
    | Some _ => table (op_mount src t fs opts w).2 = table w ∨ table (op_mount src t fs opts w).2 = {[ t ]} ∪ table w
    end;
  cleanup_removes t w : clean t →
    match (op_cleanup_mount_point t w).1 with
    | None => table (op_cleanup_mount_point t w).2 = table w ∖ {[ t ]}
    | Some _ => table (op_cleanup_mount_point t w).2 = table w ∨ table (op_cleanup_mount_point t w).2 = table w ∖ {[ t ]}
    end;
  list_reads w : table (op_mount_list w).2 = table w;
  list_lists w l : (op_mount_list w).1 = Ok l → list_to_set l = table w;
  likely_reads t w : table (op_is_likely_not_mnt t w).2 = table w;
  likely_mounted t w err : clean t → (op_is_likely_not_mnt t w).1 = (false, err) → t ∈ table w;
  path_reads t w : table (op_path_exists t w).2 = table w;
  path_corrupted t w b e : clean t → (op_path_exists t w).1 = (b, Some e) → is_corrupted_mnt e = true → t ∈ table w;
  abs_reads t w : table (op_abs t w).2 = table w;
  abs_clean t w a : clean t → (op_abs t w).1 = Ok a → a = t;
  mkdir_reads t perm w : table (op_mkdir_all t perm w).2 = table w;
  remove_reads t w : table (op_remove t w).2 = table w;
}.

(** What an RPC that answers [r] does to the table: an abstract node service.  A driver that mocks its mounts publishes
    without mounting. *)
Definition mount_spec (mock : bool) (c : rpc) (r : result ()) (M M' : gset string) : Prop :=
  match c, r with
  | NodePublishVolumeCall req, Ok _ => M' = if mock then M else {[ np_TargetPath req ]} ∪ M
  | NodePublishVolumeCall req, Err _ => M' = M ∨ (mock = false ∧ M' = {[ np_TargetPath req ]} ∪ M)
  | NodeUnpublishVolumeCall _ t, Ok _ | NodeUnstageVolumeCall _ t, Ok _ => M' = M ∖ {[ t ]}
  | NodeUnpublishVolumeCall _ t, Err _ | NodeUnstageVolumeCall _ t, Err _ => M' = M ∨ M' = M ∖ {[ t ]}
  | _, _ => False
  end.

Section table.
Context {W : Type} `{MountTable W} `{RangeOrder}.
Implicit Types s : st W.

(** The mount table of a state. *)
Definition mounts s : gset string := table (s_world s).

(** A publish that bind mounts the staging path: the volume is not inline, and no token asks for a mount of its own. *)
Definition binds (req : NodePublishVolumeRequest) : Prop :=
  isEphemeralVolume (np_VolumeContext req) = false ∧
  ∀ context, check_attributes "NodePublishVolume" 94 100 (np_VolumeContext req) = Ok context →
    getServiceAccountTokens (np_Secrets req) context = "" ∨ useWorkloadIdentity context = false.

(** The calls that the specification covers. *)
Definition covered (c : rpc) : Prop :=
  match c with
  | NodePublishVolumeCall req => binds req ∧ clean (np_TargetPath req)
  | NodeUnpublishVolumeCall _ t | NodeUnstageVolumeCall _ t => clean t
  | _ => False
  end.

(** [m] moves the table as [Q] says of its result. *)
Definition moves {A} (Q : result A → gset string → gset string → Prop) (m : io (st W) A) : Prop := ∀ s, Q (m s).1 (mounts s) (mounts (m s).2).
Definition still {A} (m : io (st W) A) : Prop := moves (λ _ M M', M' = M) m.

Lemma ask_run {A} (op : W → A * W) s : ask op s = (Ok (op (s_world s)).1, set_world (op (s_world s)).2 s).
Proof. unfold ask. by destruct (op (s_world s)). Qed.

Lemma moves_still_bind {A B} (Q : result B → gset string → gset string → Prop) (m : io (st W) A) (f : A → io (st W) B) :
  still m → (∀ e M, Q (Err e) M M) → (∀ a, moves Q (f a)) → moves Q (m ≫= f).
Proof.
  intros Hm He Hf s. rewrite run_bind. specialize (Hm s). destruct (m s) as [[a|e] s']; simpl in Hm; [|simpl; rewrite Hm; apply He].
  rewrite <- Hm. apply Hf.
Qed.

Lemma moves_with_metric {A} (Q : result A → gset string → gset string → Prop) f (m : io (st W) (A * bool)) :
  moves (λ r, Q (r ≫= λ v, Ok v.1)) m → moves Q (with_metric f m).
Proof. intros Hm s. unfold with_metric. rewrite run_bind, run_defer. specialize (Hm s). by destruct (m s) as [[[a b]|e] s']. Qed.

Lemma moves_lock {A} (Q : result A → gset string → gset string → Prop) key (aborted body : io (st W) A) :
  moves Q aborted → moves Q body → moves Q (with_volume_lock key aborted body).
Proof.
  intros Ha Hb s. unfold with_volume_lock. rewrite run_bind. unfold TryAcquire. destruct (decide _); [apply Ha|]. rewrite run_defer.
  apply (Hb (set_locks (λ l, {[ key ]} ∪ l) s)).
Qed.

(** Computations that leave the table alone and say that [t] is mounted only when it is. *)
Definition honest (t : string) (M : gset string) (m : io (st W) (bool * option error)) : Prop :=
  ∀ s, mounts s = M → mounts (m s).2 = M ∧ ((m s).1 = Ok (true, None) → t ∈ M).

Lemma honest_ask {A} t M (op : W → A * W) f :
  (∀ w, table (op w).2 = table w) → (∀ w, table w = M → honest t M (f (op w).1)) → honest t M (ask op ≫= f).
Proof. intros Hop Hf s Hs. rewrite run_bind, ask_run. apply (Hf (s_world s) Hs). unfold mounts. simpl. by rewrite Hop. Qed.

Lemma honest_ret t M b err : (b = true → err = None → t ∈ M) → honest t M (mret (b, err)).
Proof. intros Hb s Hs. split; [done|]. intros [= -> ->]. by apply Hb. Qed.

Lemma honest_error t M b e : honest t M (mret (b, Some e)).
Proof. by apply honest_ret. Qed.

(** The part of ensureMountPoint that reads the list, without unmounting. *)
Definition ensure_listed (t : string) (perm : N) (notMnt : bool) : io (st W) (bool * option error) :=
  mountList ← ask op_mount_list;
  match mountList with
  | Err e => mret (negb notMnt, Some e)
  | Ok mountPoints =>
    abs ← ask (op_abs t);
    match abs with
    | Err e => mret (negb notMnt, Some e)
    | Ok targetAbs =>
      if negb (if existsb (λ path, bool_decide (path = targetAbs)) mountPoints then false else notMnt) then mret (true, None)
      else err ← MakeDir t perm; mret (false, err)
    end
  end.

Lemma honest_listed t perm M notMnt : clean t → (notMnt = false → t ∈ M) → honest t M (ensure_listed t perm notMnt).
Proof.
  intros Hc Hn. apply honest_ask; [apply list_reads|]. intros w Hw. destruct (op_mount_list w).1 as [l|e] eqn:El; [|apply honest_error].
  apply list_lists in El. apply honest_ask; [apply abs_reads|]. intros w' _. destruct (op_abs t w').1 as [a|e] eqn:Ea; [|apply honest_error].
  apply abs_clean in Ea as ->; [|done]. destruct (existsb _ l) eqn:Ex.
  - apply honest_ret. intros _ _. apply existsb_exists in Ex as (x & Hin & ->%bool_decide_eq_true). rewrite <- Hw, <- El.
    by apply elem_of_list_to_set, list_elem_of_In.
  - destruct notMnt; simpl; [|apply honest_ret; auto]. intros s Hs. rewrite run_bind. unfold MakeDir. rewrite run_bind, ask_run.
    split; [|done]. unfold mounts. simpl. by rewrite mkdir_reads.
Qed.

Lemma corrupted_is_mounted t s : clean t → ∃ b, IsCorruptedDir t s = (Ok b, set_world (op_path_exists t (s_world s)).2 s) ∧ (b = true → t ∈ mounts s).
Proof.
  intros Hc. unfold IsCorruptedDir. rewrite run_bind, ask_run. destruct (op_path_exists t (s_world s)).1 as [x pathErr] eqn:E. eexists. split; [done|].
  destruct pathErr as [e|]; [|done]. intros He. by eapply path_corrupted.
Qed.

(** ensureMountPoint without unmounting. *)
Lemma honest_ensure t perm M : clean t → honest t M (ensureMountPoint t perm false).
Proof.
  intros Hc. unfold ensureMountPoint. apply honest_ask; [apply likely_reads|]. intros w Hw.
  destruct (op_is_likely_not_mnt t w).1 as [notMnt err] eqn:El. cbv zeta.
  assert (notMnt = false → t ∈ M) as Hnot by (intros ->; rewrite <- Hw; by eapply likely_mounted).
  destruct err as [e|]; [destruct (is_not_exist e)|]; [by apply honest_listed| |by apply honest_listed].
  intros s Hs. rewrite run_bind. destruct (corrupted_is_mounted t s Hc) as (b & -> & Hb).
  assert (mounts (set_world (op_path_exists t (s_world s)).2 s) = M) as Hs' by (rewrite <- Hs; apply path_reads).
  destruct b; [apply honest_listed; [done| |done]; by rewrite <- Hs; auto|by apply honest_error].
Qed.

(** ** The calls *)

Context (d : Driver).
Abbreviation mock := (d_enableBlobMockMount d).

(** A bind mount of the staging path, of a target that may be mounted already. *)
Lemma moves_publish_bind source t readonly perm :
  clean t →
  moves (λ r M M', match r with
                   | Ok _ => M' = if mock then M else {[ t ]} ∪ M
                   | Err _ => M' = M ∨ (mock = false ∧ M' = {[ t ]} ∪ M)
                   end) (publish_bind d source t readonly perm).
Proof.
  intros Hc s. unfold publish_bind. cbv zeta. rewrite run_bind. destruct (honest_ensure t (FileMode perm) (mounts s) Hc s eq_refl) as [Hm Ht].
  destruct (ensureMountPoint _ _ _ s) as [[[mnt err]|e] s1]; [|by left]. simpl in Hm, Ht.
  rewrite run_bind. destruct err as [e|]; [by left|]. simpl. destruct mnt.
  { simpl. specialize (Ht eq_refl). rewrite Hm. destruct mock; [done|]. symmetry. by apply subseteq_union_1_L, singleton_subseteq_l. }
  destruct mock.
  - rewrite run_bind. unfold MakeDir. rewrite run_bind, ask_run. unfold mounts in *. simpl.
    destruct (op_mkdir_all _ _ _).1 as [e|]; [destruct (is_exist e)|]; simpl; rewrite mkdir_reads; auto.
  - rewrite run_bind, ask_run. pose proof (mount_adds source t "" ("bind" :: (if readonly then ["ro"] else [])) (s_world s1) Hc) as Ha.
    unfold mounts in *. rewrite Hm in Ha. destruct (op_mount _ _ _ _ _).1 as [e|]; [|exact Ha].
    rewrite run_bind, ask_run. simpl. destruct (op_remove t _).1; simpl; rewrite remove_reads; destruct Ha as [->| ->]; auto.
Qed.

Lemma moves_weaken {A} (Q Q' : result A → gset string → gset string → Prop) (m : io (st W) A) :
  (∀ r M M', Q r M M' → Q' r M M') → moves Q m → moves Q' m.
Proof. intros HQ Hm s. apply HQ, Hm. Qed.

Lemma still_throw_if b e : still (throw_if b e).
Proof. by destruct b. Qed.
Lemma moves_from_result {A B} (Q : result B → gset string → gset string → Prop) (r : result A) (f : A → io (st W) B) :
  (∀ e M, Q (Err e) M M) → (∀ a, r = Ok a → moves Q (f a)) → moves Q (from_result r ≫= f).
Proof. intros He Hf. destruct r as [a|e]; [by apply Hf|]. intros s. apply He. Qed.

(** The body of NodeUnpublishVolume and NodeUnstageVolume. *)
Lemma moves_unmount fmt t f :
  clean t → moves (λ r M M', match r with Ok _ => M' = M ∖ {[ t ]} | Err _ => M' = M ∨ M' = M ∖ {[ t ]} end) (with_metric f (unmount_or_fail fmt t)).
Proof.
  intros Hc. apply moves_with_metric. intros s. unfold unmount_or_fail, call_err, wrap_err. rewrite run_bind, run_bind, ask_run. pose proof (cleanup_removes t (s_world s) Hc) as Hr.
  by destruct (op_cleanup_mount_point t (s_world s)).1.
Qed.

Lemma moves_publish_staged req perm :
  clean (np_TargetPath req) → moves (mount_spec mock (NodePublishVolumeCall req)) (publish_staged d req perm).
Proof.
  intros Hc. unfold publish_staged. apply moves_still_bind; [apply still_throw_if|by left|intros _]. apply moves_with_metric.
  eapply moves_weaken; [|by apply moves_publish_bind]. by intros [[]|].
Qed.

Lemma moves_publish req : covered (NodePublishVolumeCall req) → moves (mount_spec mock (NodePublishVolumeCall req)) (NodePublishVolume d req).
Proof.
  intros [[Heph Htok] Hc]. pose proof (λ perm, moves_publish_staged req perm Hc) as Hstaged. unfold NodePublishVolume.
  destruct (np_VolumeCapability req) as [vc|]; [|by left]. do 2 (apply moves_still_bind; [apply still_throw_if|by left|intros _]). rewrite Heph.
  apply moves_from_result; [by left|]. intros context Htok'%Htok. clear Htok. rename Htok' into Htok. destruct context as [context|]; [|apply Hstaged]. cbv zeta.
  replace (negb (bool_decide (getServiceAccountTokens (np_Secrets req) (Some context) = "")) && useWorkloadIdentity (Some context)) with false.
  - destruct (decide _); [apply Hstaged|]. destruct (ParseUint _ _ _); [apply Hstaged|by left].
  - destruct Htok as [->| ->]; [done|by rewrite andb_false_r].
Qed.

(** C8 - The node service is a mount table.  Take a host that keeps its promises on mounts ([MountTable]), and clean paths.
    Publishing a staged volume (not inline, and without a token that asks for a mount of its own) adds its target to the
    mount table, also when the target is mounted already, which counts as success; when it fails nothing is added but
    possibly the target, and no path is ever removed.  Unpublishing and unstaging remove the path, and when they fail nothing
    but possibly that path.  A driver with enableBlobMockMount answers success to a publish that changes nothing.  So what is
    published at a free target and then unpublished leaves the table as it was. *)
Theorem mounts_refined :
  (∀ c s, covered c → mount_spec (d_enableBlobMockMount d) c (serve d c s).1 (mounts s) (mounts (serve d c s).2)) ∧
  (∀ req v s s' s'', covered (NodePublishVolumeCall req) → np_TargetPath req ∉ mounts s →
     NodePublishVolume d req s = (Ok (), s') → NodeUnpublishVolume v (np_TargetPath req) s' = (Ok (), s'') → mounts s'' = mounts s).
Proof.
  assert (∀ c s, covered c → mount_spec mock c (serve d c s).1 (mounts s) (mounts (serve d c s).2)) as Hall.
  { intros [| | | | |v t|req|v t|] s Hc; try done; simpl serve.
    - unfold NodeUnstageVolume. do 2 (apply moves_still_bind; [apply still_throw_if|by left|intros _]). apply moves_lock; [by left|by apply moves_unmount].
    - by apply moves_publish.
    - unfold NodeUnpublishVolume. do 2 (apply moves_still_bind; [apply still_throw_if|by left|intros _]). by apply moves_unmount. }
  split; [done|]. intros req v s s' s'' Hc Hfree E1 E2.
  pose proof (Hall _ s Hc) as Hp. pose proof (Hall (NodeUnpublishVolumeCall v (np_TargetPath req)) s' (proj2 Hc)) as Hu. simpl serve in *.
  rewrite E1 in Hp. rewrite E2 in Hu. simpl in Hp, Hu. rewrite Hu, Hp.
  destruct mock; [|rewrite difference_union_distr_l_L, difference_diag_L, (left_id_L ∅ (∪))]; by apply difference_disjoint_L, disjoint_singleton_r.
Qed.
End table.

(** ** The concrete outside keeps a mount table *)

Lemma effect_mounts e f w : t_mounts (effect e f w).2 = match (effect e f w).1 with None => t_mounts (f w) | Some _ => t_mounts w end.
Proof. unfold effect. by destruct (decide _). Qed.

#[export] Program Instance toy_mount_table : MountTable toy := {| table := t_mounts; clean := λ t, HasPrefix t "/" = true |}.
Next Obligation. intros. simpl. rewrite effect_mounts. destruct (effect _ _ _).1; [by left|done]. Qed.
Next Obligation. intros. simpl. rewrite effect_mounts. destruct (effect _ _ _).1; [by left|done]. Qed.
Next Obligation. done. Qed.
Next Obligation. intros w l [= <-]. apply list_to_set_elements_L. Qed.
Next Obligation. done. Qed.
Next Obligation. intros t w err _ [= Hb _]. apply bool_decide_eq_false in Hb. by apply dec_stable. Qed.
Next Obligation. done. Qed.
Next Obligation. done. Qed.
Next Obligation. done. Qed.
Next Obligation. by intros t w a _ [= <-]. Qed.
Next Obligation. intros. simpl. rewrite effect_mounts. by destruct (effect _ _ _).1. Qed.
Next Obligation. intros. simpl. rewrite effect_mounts. by destruct (effect _ _ _).1. Qed.

Lemma run_Ok {S A} (m : io S A) s a : (m s).1 = Ok a → m s = (Ok a, (m s).2).
Proof. intros <-. by destruct (m s). Qed.

Definition staged_publish : NodePublishVolumeRequest :=
  {| np_VolumeId := "vol"; np_TargetPath := "/pod/a"; np_StagingTargetPath := "/mnt/a"; np_VolumeCapability := Some (mount_capability [] "");
     np_VolumeContext := Some {[ mountPermissionsField := "0755" ]}; np_Secrets := None; np_Readonly := true |}.
Definition one_mount : st toy := toy_state ∅ (set_mounts (λ _, {[ "/mnt/a" ]}) calm).
Definition published : st toy := (NodePublishVolume (H0 := canonical_order) toy_driver staged_publish one_mount).2.

Lemma mounts_refined_witness :
  mounts published = {[ "/pod/a" ]} ∪ mounts one_mount ∧
  mounts (NodeUnpublishVolume "vol" "/pod/a" published).2 = mounts one_mount.
Proof.
  assert (covered (H1 := canonical_order) (NodePublishVolumeCall staged_publish)) as Hc.
  { split; [|done]. split; [vm_compute; reflexivity|]. intros context E. left. vm_compute in E. injection E as <-. vm_compute. reflexivity. }
  destruct (mounts_refined (H1 := canonical_order) toy_driver) as [H1 H2]. split.
  - pose proof (H1 _ one_mount Hc) as Hp. change (mounts published) with (mounts (serve (H0 := canonical_order) toy_driver (NodePublishVolumeCall staged_publish) one_mount).2).
    replace (serve (H0 := canonical_order) toy_driver (NodePublishVolumeCall staged_publish) one_mount).1 with (Ok ()) in Hp by (vm_compute; reflexivity).
    exact Hp.
  - eapply (H2 staged_publish "vol" one_mount published); [exact Hc|apply (bool_decide_unpack _); vm_compute; exact I| |].
    + apply run_Ok. vm_compute. reflexivity.
    + apply run_Ok. vm_compute. reflexivity.
Defined.
