(* ===== verification/ControllerSafety.v ===== *)
(** * ControllerSafety: properties of the controller handlers *)
From S2P Require Import Prelude GoUnicode GoStrings GoErr Fields Attributes Util CsiCommon Predicates VolumeIDs ContainerNames Metrics.
From S2P Require Import Effects World Azcopy Auth Containers Subnets CreateVolume Controller DriverInit Interference Toy Frames Server.
From stdpp Require Import options.

Section controller_safety.
Context {W : Type} `{Ops W} `{RangeOrder}.
Implicit Types s : st W.

(** The parameters that a request gives, in the order of the loop. *)
Definition request_entries (req : CreateVolumeRequest) : list (string * string) := mrange 114 (Some (default ∅ (cv_Parameters req))).
Definition request_parameters (req : CreateVolumeRequest) : parameters := read_parameters (request_entries req).

(** The container name that the user chose, empty when it is generated. *)
Definition chosen_name (req : CreateVolumeRequest) : string :=
  let p := request_parameters req in replaceWithMap 390 (p_containerName p) (p_replaceMap p).

(** C6 - A container that the user named is never deleted by a failed provisioning: when the container name of the request is
    not empty, CreateVolume makes no call that deletes a container, neither of the management nor of the data plane, since
    it behaves the same from every state whatever those calls do. *)
Theorem named_container_never_deleted d req del dp_del :
  chosen_name req ≠ "" → same (CreateVolume (H := with_deletes H del dp_del) d req) (CreateVolume d req).
Proof.
  intros Hn. unfold CreateVolume. do 6 (apply same_bind; [reflexivity|intros ?]). destruct a4 as [name params].
  apply same_with_lock; [reflexivity|]. unfold create_volume_locked. apply same_with_metric.
  apply same_bind; [reflexivity|]. intros [[accountName accountKey] deferred]. apply same_defer. unfold provision.
  cbv zeta. apply same_bind; [reflexivity|]. intros [[a5 a6] a7]. apply same_bind; [reflexivity|]. intros _.
  apply same_bind; [|intros ?; reflexivity]. destruct (cv_VolumeContentSource req); [|reflexivity].
  unfold chosen_name, request_parameters, request_entries in Hn. simpl pl_p. rewrite (bool_decide_eq_false_2 _ Hn). reflexivity.
Qed.

(** ** Rollback *)

(** GetAzcopyJob always returns its three values; the state Error comes with an error. *)
Lemma GetAzcopyJob_returns c env s :
  ∃ state percent err s1, GetAzcopyJob c env s = (Ok (state, percent, err), s1) ∧ (state = AzcopyJobError → err ≠ None).
Proof.
  unfold GetAzcopyJob. rewrite run_bind. unfold ask at 1. destruct (op_shell _ _ _) as [[out e1] w1]. destruct (list_failed e1).
  { by do 4 eexists. }
  destruct (parseAzcopyJobList out) as [[jobid state] perr]. destruct (parse_failed state perr) eqn:Ef; [by do 4 eexists|].
  assert (state ≠ AzcopyJobError) as Hne by (unfold parse_failed in Ef; apply orb_false_iff in Ef as [_ Ef]; by apply bool_decide_eq_false in Ef).
  destruct (is_completed state); [by do 4 eexists|]. destruct (decide (jobid = "")); [by do 4 eexists|].
  rewrite run_bind. unfold ask. destruct (op_shell _ _ _) as [[summary serr] w2]. destruct serr; [by do 4 eexists|].
  destruct (parseAzcopyJobShow summary) as [[st2 pct] perr2]. destruct (parse_failed st2 perr2) eqn:Eg; [by do 4 eexists|].
  do 4 eexists. split; [done|]. unfold parse_failed in Eg. apply orb_false_iff in Eg as [_ Eg]. by apply bool_decide_eq_false in Eg.
Qed.

(** C19 - The rollback is conservative: cleanupContainerOnFailure never fails; it asks nothing when the container is not the
    driver's own, and otherwise asks for the azcopy job and deletes the container exactly when the answer is that there is
    no such job, without an error: a running, finished or unknown job keeps the container. *)
Theorem cleanup_only_without_job d should subsID rg account container secrets env s :
  ∃ state percent err s1,
    GetAzcopyJob container env s = (Ok (state, percent, err), s1) ∧
    cleanupContainerOnFailure d should subsID rg account container secrets env s =
    (Ok (), if should then
              if bool_decide (state = AzcopyJobNotFound ∧ err = None)
              then (DeleteBlobContainer d subsID rg account container secrets s1).2 else s1
            else s).
Proof.
  destruct (GetAzcopyJob_returns container env s) as (state & percent & err & s1 & E & Hs).
  exists state, percent, err, s1. split; [done|]. unfold cleanupContainerOnFailure. destruct should; [|done]. cbn [negb].
  rewrite run_bind, E. destruct err as [e|].
  - rewrite bool_decide_eq_false_2; [done|]. by intros [_ ?].
  - destruct (decide (state = AzcopyJobNotFound)) as [->|Hn].
    + rewrite bool_decide_eq_true_2 by done. cbn [isAzcopyJobActiveOrCompleted]. rewrite run_bind. unfold attempt.
      by destruct (DeleteBlobContainer _ _ _ _ _ _ _).
    + rewrite bool_decide_eq_false_2 by by intros [? _]. destruct state; try done. by destruct Hs.
Qed.

(** ** Rejected requests *)

(** The first error among the checks that precede every effect of CreateVolume. *)
Definition create_request_error (d : Driver) (req : CreateVolumeRequest) : option error :=
  match check_request d req with
  | Err e => Some e
  | Ok _ =>
    match first_error parameter_error (request_entries req) with
    | Some e => Some e
    | None => match check_parameters (request_parameters req) with Err e => Some e | Ok _ => None end
    end
  end.

(** What CreateVolume does to the subnets before it checks the account: for NFS without a private endpoint it updates their
    service endpoints, for any other request nothing. *)
Definition subnets_before_account (d : Driver) (req : CreateVolumeRequest) : io (st W) (list string) :=
  let p := request_parameters req in
  if isNFSProtocol (resolved_protocol p) && negb (wants_private_endpoint p) then
    wrap_err (λ e, status_errorf Internal "update service endpoints failed with error: %v" [Error e])
      (updateSubnetServiceEndpoints d (p_vnetResourceGroup p) (p_vnetName p) (p_subnetName p))
  else mret [].

(** C24 - A rejected CreateVolume does nothing, or next to nothing.  When the request fails one of the first checks
    (capability, name, volume capabilities, an unknown or malformed storage class parameter, an unsupported value or
    combination of values), CreateVolume returns that error from every state, with no effect on the driver or on the outside.
    When it passes them and fails a check of the account (the SKU on Azure Stack, the tags, storing the key of an account without
    shared key access, a snapshot as the source), a request other than NFS without a private endpoint has no effect either; an NFS request without one has
    updated the service endpoints of its subnets by then, fails with that update's error if it failed, and with the error
    of the check otherwise, having done nothing else. *)
Theorem rejected_create_does_nothing d req e s :
  (create_request_error d req = Some e → CreateVolume d req s = (Err e, s)) ∧
  (create_request_error d req = None → check_account (d_cloud d) (request_parameters req) (cv_VolumeContentSource req) = Err e →
   (isNFSProtocol (resolved_protocol (request_parameters req)) = false ∨ wants_private_endpoint (request_parameters req) = true →
    CreateVolume d req s = (Err e, s)) ∧
   CreateVolume d req s = match subnets_before_account d req s with (Ok _, s') => (Err e, s') | (Err e', s') => (Err e', s') end).
Proof.
  unfold create_request_error, subnets_before_account, request_parameters, request_entries, CreateVolume. cbv zeta.
  destruct (check_request d req) as [[]|e'] eqn:E1; [|split; [by intros [= ->]|done]].
  rewrite (run_bind_Ok _ _ s () s) by done.
  destruct (first_error _ _) as [e'|] eqn:E2; [split; [by intros [= ->]|done]|].
  rewrite (run_bind_Ok _ _ s () s) by done.
  destruct (check_parameters _) as [[]|e'] eqn:E3; [|split; [by intros [= ->]|done]].
  rewrite (run_bind_Ok _ _ s () s) by done. split; [done|]. intros _ Ec. rewrite run_bind, Ec. split.
  - by intros [-> | ->]; rewrite ?andb_false_r.
  - match goal with |- context [match ?run with _ => _ end] => destruct run as [[ids|e'] s'] eqn:Es end; [|done].
    reflexivity.
Qed.

(** ** Deleting *)

(** Deleting is idempotent and never retried: with a container name and without secrets, DeleteBlobContainer makes exactly
    one call to the management plane; it succeeds when that call does, or fails with an error that says the container is
    gone or going, and records the outcome. *)
Theorem DeleteBlobContainer_once d subsID rg account container secrets s :
  container ≠ "" → mlen secrets = 0 →
  DeleteBlobContainer d subsID rg account container secrets s =
  let '(client, w1) := op_blob_client subsID (s_world s) in
  let '(r, w) := match client with
                 | Some e => (Err e, w1)
                 | None =>
                   let '(deleted, w2) := op_delete_container subsID rg account container w1 in
                   (match deleted with
                    | None => Ok ()
                    | Some e => if delete_is_done e then Ok ()
                                else Err (errorf "failed to delete container(%s) on account(%s), error: %w" [container; account; Error e])
                    end, w2)
                 end in
  (r, add_samples [AzureOperation "blob_container_delete" rg subsID (match r with Ok _ => true | Err _ => false end)] (set_world w s)).
Proof.
  intros Hc Hsec. unfold DeleteBlobContainer. rewrite decide_False by done. unfold with_azure_metric. rewrite run_defer, Hsec. cbn [Nat.ltb Nat.leb].
  assert (∃ n, getBackOff (d_cloud d) = S n) as [n ->].
  { unfold getBackOff. destruct (Z.ltb_spec (c_CloudProviderBackoffRetries (d_cloud d)) 1).
    - by exists 0.
    - exists (Z.to_nat (c_CloudProviderBackoffRetries (d_cloud d) - 1)). lia. }
  cbn [ExponentialBackoff]. rewrite run_bind, run_bind, run_bind. unfold call_err. rewrite run_bind. unfold ask.
  destruct (op_blob_client _ _) as [[e|] w1]; simpl; [done|].
  destruct (op_delete_container _ _ _ _ _) as [[e|] w2]; simpl; [|done]. by destruct (delete_is_done e).
Qed.

(** DeleteVolume of an identifier that GetContainerInfo cannot read succeeds and changes nothing: such a volume cannot
    exist. *)
Theorem DeleteVolume_unreadable d req s :
  dv_VolumeId req ≠ "" → CREATE_DELETE_VOLUME ∈ csi_Cap (d_csi d) → dv_VolumeId req ∉ s_locks s →
  length (Split (dv_VolumeId req) "#") < 3 → DeleteVolume d req s = (Ok (), s).
Proof.
  intros Hid Hcap Hl Hlen. unfold DeleteVolume. rewrite run_bind, (bool_decide_eq_false_2 _ Hid). simpl.
  rewrite run_bind, (proj2 (ValidateControllerServiceRequest_None _ _)) by by right. simpl.
  unfold with_volume_lock. rewrite run_bind. unfold TryAcquire. rewrite decide_False by done. rewrite run_defer. unfold delete_volume_locked.
  unfold GetContainerInfo, separator. rewrite (proj2 (Nat.ltb_lt _ _) Hlen). simpl. f_equal. by apply Release_acquired.
Qed.

(** ** Success *)

(** The plan that a successful request is carried out with. *)
Definition request_plan (d : Driver) (req : CreateVolumeRequest) (vnetResourceIDs : list string) (tags : strmap) : plan :=
  make_plan (d_cloud d) (request_parameters req) vnetResourceIDs tags (cv_VolumeContentSource req).

Lemma with_metric_inv_Ok {A} f (m : io (st W) (A * bool)) s a s' :
  with_metric f m s = (Ok a, s') → ∃ b s1, m s = (Ok (a, b), s1) ∧ s' = add_samples (f b) s1.
Proof.
  unfold with_metric. intros E. apply bind_inv_Ok in E as ([a' b] & s1 & E & [= -> ->]). rewrite run_defer in E.
  destruct (m s) as [r s2]. simpl in E. injection E as -> <-. eauto.
Qed.

Lemma with_metric_Ok {A} f (m : io (st W) (A * bool)) s a b s1 : m s = (Ok (a, b), s1) → with_metric f m s = (Ok a, add_samples (f b) s1).
Proof. intros E. unfold with_metric. by rewrite run_bind, run_defer, E. Qed.

Lemma with_volume_lock_inv_Ok {A} key (aborted body : io (st W) A) s a s' :
  (∀ s a s', aborted s ≠ (Ok a, s')) → with_volume_lock key aborted body s = (Ok a, s') →
  ∃ s1, (key ∉ s_locks s) ∧ body (set_locks (λ l, {[ key ]} ∪ l) s) = (Ok a, s1) ∧ s' = Release key s1.
Proof.
  intros Ha. unfold with_volume_lock. rewrite run_bind. unfold TryAcquire. destruct (decide (key ∈ s_locks s)); [by intros ?%Ha|].
  rewrite run_defer. destruct (body _) as [r s1]. simpl. intros [= -> <-]. by exists s1.
Qed.

(** The key that a secret of the data plane carries is not empty when it is read. *)
Lemma keyless_secret account a : getStorageAccount (Some (createStorageAccountSecret account "")) ≠ Ok a.
Proof.
  assert (last_of [accountKeyField; defaultSecretAccountKey] (trimmed (mrange 1088 (Some (createStorageAccountSecret account "")))) "" = "") as E.
  { unfold last_of. destruct (find_last _ _) as [[k v]|] eqn:Ef; [|done]. apply find_last_Some in Ef as [Hin Hk%bool_decide_eq_true].
    apply list_elem_of_fmap in Hin as ([k' v'] & [= -> ->] & (m & [= <-] & Hm)%elem_of_mrange). unfold createStorageAccountSecret in Hm.
    apply lookup_insert_Some in Hm as [[_ <-]|[_ Hm]]; [done|]. apply lookup_insert_Some in Hm as [[<- _]|[_ Hm]]; [|by rewrite lookup_empty in Hm].
    apply (bool_decide_pack _) in Hk. by vm_compute in Hk. }
  unfold getStorageAccount. cbv zeta. rewrite E. by destruct (decide _).
Qed.

(** The account does not change when its key is looked up: without secrets the name is kept, and a secret made of the
    account itself is read only when it has no key. *)
Lemma account_key_same d pl account key secrets s a k s' :
  mlen secrets = 0 ∨ secrets = Some (createStorageAccountSecret account key) →
  account_key d pl account account key secrets s = (Ok (a, k), s') → a = account.
Proof.
  intros Hs. unfold account_key. destruct (decide (key = "")) as [->|]; [|by intros [= -> _ _]].
  intros E%wrap_err_inv_Ok. unfold GetStorageAccesskey in E. destruct Hs as [Hs| ->].
  - rewrite Hs in E. cbn [Nat.ltb Nat.leb] in E. apply bind_inv_Ok in E as ([info|e] & s1 & _ & E); [by injection E|].
    apply bind_inv_Ok in E as (k' & s2 & _ & E). by injection E.
  - destruct (0 <? mlen _); [by apply from_result_inv_Ok in E as [?%keyless_secret _]|].
    apply bind_inv_Ok in E as ([info|e] & s1 & _ & E); [by injection E|]. apply bind_inv_Ok in E as (k' & s2 & _ & E). by injection E.
Qed.

(** The parameters that provisioning takes over into the context of the volume. *)
Definition provision_params (pl : plan) (account : string) (params : gomap) : gomap :=
  if default false (pl_createPrivateEndpoint pl) && isNFSProtocol (pl_protocol pl)
  then setKeyValueInMap 474 params serverNameField (Sprintf "%s.privatelink.blob.%s" [account; pl_storageEndpointSuffix pl])
  else params.

(** What provisioning answers; the account is the one that was chosen, and the container of the answer was created. *)
Lemma provision_inv d req pl c params a k s v b s' :
  provision d req pl c params a k s = (Ok (v, b), s') →
  b = true ∧ vol_CapacityBytes v = required_bytes (cv_CapacityRange req) ∧ vol_ContentSource v = cv_VolumeContentSource req ∧
  vol_VolumeContext v = setKeyValueInMap 553 (provision_params pl a params) secretNamespaceField (pl_secretNamespace pl) ∧
  vol_VolumeId v = formatVolumeID (pl_resourceGroup pl) a c
                     (if decide (replaceWithMap 390 (p_containerName (pl_p pl)) (p_replaceMap (pl_p pl)) = "") then "" else cv_Name req)
                     (pl_secretNamespace pl) (p_subsID (pl_p pl)) ∧
  ∃ secrets s1 s2,
    (p_useDataPlaneAPI (pl_p pl) = false → secrets = cv_Secrets req) ∧
    CreateBlobContainer d (p_subsID (pl_p pl)) (pl_resourceGroup pl) a c (pl_storageEndpointSuffix pl) secrets s1 = (Ok (), s2).
Proof.
  unfold provision. cbv zeta. intros E. apply bind_inv_Ok in E as ([[a1 k1] sec] & s1 & E1 & E).
  assert (a1 = a ∧ (mlen (cv_Secrets req) = 0 → mlen sec = 0 ∨ sec = Some (createStorageAccountSecret a k1)) ∧
          (p_useDataPlaneAPI (pl_p pl) = false → sec = cv_Secrets req)) as (-> & Hsec & Hplane).
  { destruct (mlen (cv_Secrets req) =? 0) eqn:Em; [|by injection E1 as <- <- <-; apply Nat.eqb_neq in Em].
    destruct (p_useDataPlaneAPI (pl_p pl)); simpl in E1; [|by injection E1 as <- <- <-; split_and!; [done|left|]].
    apply bind_inv_Ok in E1 as ([a2 k2] & s2 & E1 & [= <- <- <- _]). apply Nat.eqb_eq in Em.
    assert (a2 = a) as -> by (by apply (account_key_same _ _ _ _ _ _ _ _ _ (or_introl Em) E1)). split_and!; [done|by right|done]. }
  apply bind_inv_Ok in E as ([] & s2 & Ec%wrap_err_inv_Ok & E). apply bind_inv_Ok in E as (? & s3 & _ & E).
  apply bind_inv_Ok in E as (acct & s4 & Ea & E). apply bind_inv_Ok in E as (? & s5 & _ & E). injection E as <- <- _. simpl.
  assert (acct = a) as ->.
  { destruct (mlen (cv_Secrets req) =? 0) eqn:Em; rewrite ?andb_false_r in Ea; [|by injection Ea]. destruct (pl_storeAccountKey pl); [|by injection Ea].
    simpl in Ea. apply bind_inv_Ok in Ea as ([a2 k2] & s6 & E2 & Ea). apply bind_inv_Ok in Ea as (? & s7 & _ & Ea). injection Ea as <- _.
    apply Nat.eqb_eq in Em. apply (account_key_same _ _ _ _ _ _ _ _ _ (Hsec Em) E2). }
  split_and!; [done..|]. by exists sec, s1, s2.
Qed.

(** The name of the container when the UUID, if one is drawn, is [uuid]. *)
Definition container_name (req : CreateVolumeRequest) (uuid : string) : option string :=
  let p := request_parameters req in
  if decide (chosen_name req = "") then
    getValidContainerName uuid (if decide (p_containerNamePrefix p = "") then cv_Name req else p_containerNamePrefix p +:+ "-" +:+ cv_Name req)
      (resolved_protocol p)
  else Some (chosen_name req).

(** The parameters of the request, with the name of the container when it was generated. *)
Definition named_params (req : CreateVolumeRequest) (container : string) : gomap :=
  let params := Some (default ∅ (cv_Parameters req)) in
  if decide (chosen_name req = "") then setKeyValueInMap 398 params containerNameField container else params.

(** The steps of a successful request. *)
Lemma CreateVolume_inv d req s v s' :
  CreateVolume d req s = (Ok v, s') →
  create_request_error d req = None ∧ (cv_Name req ∉ s_locks s) ∧
  ∃ vnets tags uuid container params account key deferred s1 s2 s3,
    let pl := request_plan d req vnets tags in
    check_account (d_cloud d) (request_parameters req) (cv_VolumeContentSource req) = Ok tags ∧
    container_name req uuid = Some container ∧ params = named_params req container ∧ s_volMap s ⊆ s_volMap s1 ∧
    choose_account d pl (cv_Name req) (cv_Secrets req) s1 = (Ok (account, key, deferred), s2) ∧
    provision d req pl container params account key s2 = (Ok (v, true), s3).
Proof.
  unfold CreateVolume. intros E. apply bind_inv_Ok in E as ([] & s1 & [E1 ->]%from_result_inv_Ok & E).
  apply bind_inv_Ok in E as ([] & s1 & [E2 ->]%throw_some_inv_Ok & E). apply bind_inv_Ok in E as ([] & s1 & [E3 ->]%from_result_inv_Ok & E).
  apply bind_inv_Ok in E as (vnets & s2 & Ev & E). apply bind_inv_Ok in E as (tags & s3 & [E4 ->]%from_result_inv_Ok & E).
  apply bind_inv_Ok in E as ([container params] & s3 & Ec & E).
  assert (later s s2) as Hl2.
  { assert (s2 = (snd (Ok vnets, s2))) as -> by done. rewrite <- Ev. destruct (_ && _); [|done].
    apply (keeps_wrap_err _ _ (keeps_updateSubnet _ _ _ _)). }
  assert (later s2 s3) as Hl3.
  { replace s3 with (snd (Ok (container, params), s3)) by done. rewrite <- Ec. apply (λ K : keeps (choose_container _ _ _), K s2).
    unfold choose_container. keep_locks. }
  assert (later s s3) as [Hl _ Hm] by by transitivity s2.
  apply with_volume_lock_inv_Ok in E as (s4 & Hlock & E & _).
  2:{ intros s0 a0 s5 E0. unfold create_volume_aborted in E0. destruct (cv_VolumeContentSource req); [|done].
      apply bind_inv_Ok in E0 as ([[? ?] ?] & ? & _ & ?). done. }
  unfold create_volume_locked in E. apply with_metric_inv_Ok in E as (b & s5 & E & _).
  apply bind_inv_Ok in E as ([[account key] deferred] & s6 & Ea & E). rewrite run_defer in E.
  destruct (provision _ _ _ _ _ _ _ _) as [r s7] eqn:Ep. simpl in E. injection E as -> _.
  pose proof Ep as Ep'. apply provision_inv in Ep' as [-> _].
  split. { unfold create_request_error, request_entries, request_parameters, request_entries. by rewrite E1, E2, E3. }
  split; [by rewrite <- Hl|]. unfold choose_container in Ec. cbv zeta in Ec.
  assert (∃ uuid, container_name req uuid = Some container ∧ params = named_params req container) as (uuid & Hu & Hparams).
  { unfold container_name, named_params. cbv zeta. change (replaceWithMap 390 _ _) with (chosen_name req) in Ec. destruct (decide (chosen_name req = "")).
    - apply bind_inv_Ok in Ec as (uuid & s8 & _ & Ec). apply bind_inv_Ok in Ec as (name & s9 & En & Ec). exists uuid.
      injection Ec as <- <- _. split; [|done]. unfold from_panic in En. revert En. destruct (getValidContainerName _ _ _) eqn:Eg; [|done]. intros [= <- _].
      revert Eg. by destruct (decide _).
    - exists "". by injection Ec as <- <- _. }
  exists vnets, tags, uuid, container, params, account, key, deferred, (set_locks (λ l, {[ cv_Name req ]} ∪ l) s3), s6, s7.
  by split_and!.
Qed.

(** An entry for a key, in whatever spelling. *)
Definition names (m : strmap) (key v : string) : Prop := ∃ k, m !! k = Some v ∧ EqualFold k key = true.

Lemma set_names site m m' key v :
  setKeyValueInMap site (Some m) key v = Some m' → names m' key v ∧ ∀ k, EqualFold k key = false → m' !! k = m !! k.
Proof.
  destruct (setKeyValueInMap_lookup site m key v) as (k0 & -> & Hf & _). intros [= <-]. split.
  - exists k0. split; [apply lookup_insert_eq|done].
  - intros k Hk. apply lookup_insert_ne. intros ->. congruence.
Qed.

Lemma names_kept (m m' : strmap) key key' v :
  (∀ k, EqualFold k key = false → m' !! k = m !! k) → EqualFold key key' = false → names m key' v → names m' key' v.
Proof.
  intros Hk Hne (k & Hl & Hf). exists k. split; [|done]. rewrite Hk; [done|]. destruct (EqualFold k key) eqn:E; [|done].
  rewrite EqualFold_sym in E. by rewrite (EqualFold_trans _ _ _ E Hf) in Hne.
Qed.

(** What the context of a volume holds: the namespace of the secret, the container when its name was generated, the server
    of an NFS volume with a private endpoint, and under every other key what the request has there. *)
Definition volume_context (req : CreateVolumeRequest) (pl : plan) (account container : string) (context : gomap) : Prop :=
  let generated := bool_decide (chosen_name req = "") in
  let private := default false (pl_createPrivateEndpoint pl) && isNFSProtocol (pl_protocol pl) in
  ∃ m, context = Some m ∧ names m secretNamespaceField (pl_secretNamespace pl) ∧
    (generated = true → names m containerNameField container) ∧
    (private = true → names m serverNameField (Sprintf "%s.privatelink.blob.%s" [account; pl_storageEndpointSuffix pl])) ∧
    ∀ k, EqualFold k secretNamespaceField = false → (generated && EqualFold k containerNameField) = false →
         (private && EqualFold k serverNameField) = false → m !! k = default ∅ (cv_Parameters req) !! k.

Lemma provisioned_context req pl account container :
  volume_context req pl account container
    (setKeyValueInMap 553 (provision_params pl account (named_params req container)) secretNamespaceField (pl_secretNamespace pl)).
Proof.
  unfold volume_context, provision_params, named_params. cbv zeta. set (m0 := default ∅ (cv_Parameters req)).
  assert (∀ site m key v, ∃ m', setKeyValueInMap site (Some m) key v = Some m' ∧ names m' key v ∧ ∀ k, EqualFold k key = false → m' !! k = m !! k) as Hset.
  { intros site m key v. destruct (setKeyValueInMap_lookup site m key v) as (k & E & _). eexists. split; [exact E|]. by eapply set_names. }
  set (generated := bool_decide (chosen_name req = "")). set (private := default false (pl_createPrivateEndpoint pl) && _).
  assert (∃ m1, (if decide (chosen_name req = "") then setKeyValueInMap 398 (Some m0) containerNameField container else Some m0) = Some m1 ∧
            (generated = true → names m1 containerNameField container) ∧
            ∀ k, (generated && EqualFold k containerNameField) = false → m1 !! k = m0 !! k) as (m1 & -> & N1 & K1).
  { unfold generated. case_decide; [rewrite bool_decide_eq_true_2 by done; destruct (Hset 398 m0 containerNameField container) as (m1 & ? & ? & ?); eauto|].
    rewrite bool_decide_eq_false_2 by done. by exists m0. }
  assert (∃ m2, (if private then setKeyValueInMap 474 (Some m1) serverNameField (Sprintf "%s.privatelink.blob.%s" [account; pl_storageEndpointSuffix pl]) else Some m1) = Some m2 ∧
            (private = true → names m2 serverNameField (Sprintf "%s.privatelink.blob.%s" [account; pl_storageEndpointSuffix pl])) ∧
            (generated = true → names m2 containerNameField container) ∧
            ∀ k, (private && EqualFold k serverNameField) = false → m2 !! k = m1 !! k) as (m2 & -> & N2 & N1' & K2).
  { destruct private; [|by exists m1]. destruct (Hset 474 m1 serverNameField (Sprintf "%s.privatelink.blob.%s" [account; pl_storageEndpointSuffix pl])) as (m2 & E & Hn & Hk).
    exists m2. split_and!; [done|done| |done]. intros Hg. by apply (names_kept m1 m2 _ _ _ Hk); [vm_compute|apply N1]. }
  destruct (Hset 553 m2 secretNamespaceField (pl_secretNamespace pl)) as (m3 & E & Hn & Hk). exists m3. split_and!; [done|done|..].
  - intros Hg. apply (names_kept m2 m3 _ _ _ Hk); [vm_compute; reflexivity|by apply N1'].
  - intros Hp. apply (names_kept m2 m3 _ _ _ Hk); [vm_compute; reflexivity|by apply N2].
  - intros k H1 H2 H3. by rewrite Hk, K2, K1.
Qed.

(** The account that the request or the driver settles: with secrets, or when it names one, the request; else the map of
    volume names, as it is before the call. *)
Lemma choose_account_named d pl volName secrets s account key deferred s' :
  choose_account d pl volName secrets s = (Ok (account, key, deferred), s') →
  (mlen secrets ≠ 0 ∨ p_account (pl_p pl) ≠ "" → account = p_account (pl_p pl)) ∧
  (mlen secrets = 0 → p_account (pl_p pl) = "" → ∀ a, s_volMap s !! volName = Some a → account = a).
Proof.
  unfold choose_account. cbv zeta. destruct ((mlen secrets =? 0) && _) eqn:Ec.
  - apply andb_true_iff in Ec as [Em%Nat.eqb_eq Ea%bool_decide_eq_true]. intros E. split; [by intros [?|?]|]. intros _ _ a Hl.
    rewrite run_bind in E. unfold gets in E. rewrite Hl in E. by injection E.
  - intros [= <- _ _ _]. split; [done|]. intros Hm Ha. by rewrite Hm, Ha in Ec.
Qed.


(** ** Retrying *)

Definition container_metadata (d : Driver) : strmap := {[ createdByMetadata := d_Name d ]}.

(** [n] attempts at creating the container were answered that it is being deleted, and led from a world to another. *)
Inductive busy (d : Driver) (subsID rg account container : string) : nat → W → W → Prop :=
| busy_done w : busy d subsID rg account container 0 w w
| busy_again n w w1 w2 e w3 :
    op_blob_client subsID w = (None, w1) → op_create_container subsID rg account container (container_metadata d) w1 = (Some e, w2) →
    being_deleted e = true → busy d subsID rg account container n w2 w3 → busy d subsID rg account container (S n) w w3.

(** The condition of the backoff loop. *)
Definition create_attempt (d : Driver) (subsID rg account container : string) : io (st W) (option ()) :=
  err ← (_ ← call_err (op_blob_client subsID); ask (op_create_container subsID rg account container (container_metadata d)));
  match err with
  | Some e => if being_deleted e then mret None else throw e
  | None => mret (Some ())
  end.

Lemma create_attempt_run d subsID rg account container s w1 answer w2 :
  op_blob_client subsID (s_world s) = (None, w1) → op_create_container subsID rg account container (container_metadata d) w1 = (answer, w2) →
  create_attempt d subsID rg account container s =
  (match answer with Some e => if being_deleted e then Ok None else Err e | None => Ok (Some ()) end, set_world w2 s).
Proof.
  intros E1 E2. unfold create_attempt. rewrite run_bind.
  assert (call_err (op_blob_client subsID) s = (Ok (), set_world w1 s)) as E.
  { unfold call_err. rewrite run_bind. unfold ask. by rewrite E1. }
  rewrite (run_bind_Ok _ _ _ _ _ E). unfold ask. simpl. rewrite E2. destruct answer as [e|]; [|done]. by destruct (being_deleted e).
Qed.

Lemma backoff_busy d subsID rg account container n w w' k s :
  busy d subsID rg account container n w w' → s_world s = w →
  ExponentialBackoff (n + k) (create_attempt d subsID rg account container) s =
  ExponentialBackoff k (create_attempt d subsID rg account container) (set_world w' s).
Proof.
  intros Hb. revert s. induction Hb as [w|n w w1 w2 e w3 E1 E2 Hd Hb IH]; intros s Hs; [subst w; by destruct s|].
  subst w. cbn [Nat.add ExponentialBackoff]. rewrite run_bind, (create_attempt_run _ _ _ _ _ _ _ _ _ E1 E2), Hd. by rewrite IH.
Qed.

(** C23 - Creating a container waits for one that is being deleted, for a bounded number of attempts: after [n] answers that the
    container is being deleted, CreateBlobContainer without secrets gives up with a timeout when [n] is the number of steps
    of the backoff, and with fewer it makes the next attempt, whose success or other error is its result. *)
Theorem CreateBlobContainer_retries d subsID rg account container suffix secrets n s w :
  container ≠ "" → mlen secrets = 0 → busy d subsID rg account container n (s_world s) w →
  let outcome r w' := (r, add_samples [AzureOperation "blob_container_create" rg subsID (match r with Ok _ => true | Err _ => false end)] (set_world w' s)) in
  let run := CreateBlobContainer d subsID rg account container suffix secrets s in
  (n = getBackOff (d_cloud d) → run = outcome (Err ErrWaitTimeout) w) ∧
  (n < getBackOff (d_cloud d) → ∀ w1 w2 answer, op_blob_client subsID w = (None, w1) →
     op_create_container subsID rg account container (container_metadata d) w1 = (answer, w2) → (∀ e, answer = Some e → being_deleted e = false) →
     run = outcome (match answer with None => Ok () | Some e => Err e end) w2).
Proof.
  intros Hc Hs Hb. cbv zeta. unfold CreateBlobContainer. rewrite decide_False by done. rewrite Hs. cbn [Nat.ltb Nat.leb].
  unfold with_azure_metric. rewrite run_defer. split.
  - intros Hn. pose proof (backoff_busy _ _ _ _ _ _ _ _ 0 s Hb eq_refl) as E. rewrite Nat.add_0_r, Hn in E.
    unfold create_attempt, container_metadata in E. by rewrite E.
  - intros Hn w1 w2 answer E1 E2 Hans. pose proof (backoff_busy _ _ _ _ _ _ _ _ (getBackOff (d_cloud d) - n) s Hb eq_refl) as E.
    replace (n + (getBackOff (d_cloud d) - n)) with (getBackOff (d_cloud d)) in E by lia.
    destruct (getBackOff (d_cloud d) - n) as [|k] eqn:Ek; [lia|]. cbn [ExponentialBackoff] in E.
    rewrite (run_bind (create_attempt _ _ _ _ _)), (create_attempt_run _ _ _ _ _ (set_world w s) _ _ _ E1 E2) in E.
    unfold create_attempt, container_metadata in E. rewrite E. destruct answer as [e|]; [|done]. by rewrite (Hans e eq_refl).
Qed.

(** ** Expanding *)

(** ControllerExpandVolume accepts a capacity exactly when the identifier is given, the range is given, the capability is
    declared and the size is at most that of a container, answers the capacity that was asked, and counts its result. *)
Theorem ControllerExpandVolume_spec d req s :
  ControllerExpandVolume d req s =
    (expand_volume d req,
     add_samples (Observe (NewCSIMetricContext "controller_expand_volume") (match expand_volume d req with Ok _ => true | Err _ => false end)) s) ∧
  ∀ z, expand_volume d req = Ok z ↔
    ev_VolumeId req ≠ "" ∧ ev_CapacityRange req = Some z ∧ EXPAND_VOLUME ∈ csi_Cap (d_csi d) ∧ (z ≤ 109951162777600)%Z.
Proof.
  split.
  - unfold ControllerExpandVolume, with_metric. rewrite run_bind, run_defer, run_bind. unfold from_result. by destruct (expand_volume d req).
  - intros z. unfold expand_volume. change containerMaxSize with 109951162777600%Z. rewrite bind_Ok. split.
    + intros ([] & Hid%guard_err_Ok & E). apply bool_decide_eq_false in Hid. destruct (ev_CapacityRange req) as [v|]; [|done].
      destruct (ValidateControllerServiceRequest _ _) eqn:Ev; [done|]. apply ValidateControllerServiceRequest_None in Ev as [?|Ev]; [done|].
      apply bind_Ok in E as ([] & _ & E). apply bind_Ok in E as ([] & Hz%guard_err_Ok & [= ->]). apply Z.ltb_ge in Hz. done.
    + intros (Hid & Hr & Hcap & Hz). exists (). split; [by apply guard_err_Ok, bool_decide_eq_false|]. rewrite Hr.
      rewrite (proj2 (ValidateControllerServiceRequest_None _ _)) by by right. simpl.
      rewrite (proj2 (Z.ltb_ge _ _) Hz). done.
Qed.
End controller_safety.

(** ** Witnesses *)

Definition named_request : CreateVolumeRequest :=
  toy_request "pvc-1" (Some {[ containerNameField := "data"; "resourceGroup" := "rg" ]}) None.

Lemma named_container_never_deleted_witness :
  same (CreateVolume (H := with_deletes toy_ops (λ _ _ _ _ w, (None, logged "lost" w)) (λ _ w, (None, logged "lost" w))) (H0 := canonical_order) toy_driver named_request)
       (CreateVolume (H := toy_ops) (H0 := canonical_order) toy_driver named_request).
Proof. apply (named_container_never_deleted (H0 := canonical_order)). vm_compute. discriminate. Defined.

(** A request whose tags are malformed. *)
Definition badly_tagged : CreateVolumeRequest := toy_request "pvc-1" (Some {[ tagsField := "key" ]}) None.

Lemma rejected_create_does_nothing_witness :
  CreateVolume (H0 := canonical_order) toy_driver (toy_request "" None None) (toy_state ∅ calm) =
    (Err (Status InvalidArgument "CreateVolume Name must be provided"), toy_state ∅ calm) ∧
  ∃ e, CreateVolume (H0 := canonical_order) toy_driver badly_tagged (toy_state ∅ calm) = (Err e, toy_state ∅ calm).
Proof.
  split; [refine (proj1 (rejected_create_does_nothing (H0 := canonical_order) _ _ _ _) _); vm_compute; reflexivity|].
  assert (match check_account (d_cloud toy_driver) (request_parameters (H0 := canonical_order) badly_tagged) None with Ok _ => false | _ => true end = true)
    as Hbad by (vm_compute; reflexivity).
  destruct (check_account _ _ _) as [tags|e] eqn:E; [discriminate Hbad|]. exists e.
  refine (proj1 (proj2 (rejected_create_does_nothing (H0 := canonical_order) toy_driver badly_tagged e (toy_state ∅ calm)) _ E) _); [vm_compute; reflexivity|].
  left. vm_compute. reflexivity.
Defined.

Lemma DeleteBlobContainer_once_witness :
  DeleteBlobContainer (H0 := canonical_order) toy_driver "sub" "rg" "account" "data" None (toy_state ∅ calm) =
  (Ok (), add_samples [AzureOperation "blob_container_delete" "rg" "sub" true] (set_world (logged "delete container account/data" calm) (toy_state ∅ calm))).
Proof. rewrite (DeleteBlobContainer_once (H0 := canonical_order) toy_driver "sub" "rg" "account" "data" None (toy_state ∅ calm)); [vm_compute; reflexivity|discriminate|reflexivity]. Defined.

Lemma DeleteVolume_unreadable_witness :
  DeleteVolume (H0 := canonical_order) toy_driver {| dv_VolumeId := "vol"; dv_Secrets := None; dv_text := "" |} (toy_state ∅ calm) = (Ok (), toy_state ∅ calm).
Proof.
  apply (DeleteVolume_unreadable (H0 := canonical_order)); [discriminate|by left|apply not_elem_of_empty|vm_compute; lia].
Defined.


(** The container is being deleted at the first attempt. *)
Lemma CreateBlobContainer_retries_witness :
  CreateBlobContainer (H0 := canonical_order) toy_driver "sub" "rg" "account" "data" "" None (toy_state ∅ (set_busy 1 calm)) =
  (Ok (), add_samples [AzureOperation "blob_container_create" "rg" "sub" true]
            (set_world (logged "create container account/data" calm) (toy_state ∅ (set_busy 1 calm)))).
Proof.
  refine (proj2 (CreateBlobContainer_retries (H0 := canonical_order) toy_driver "sub" "rg" "account" "data" "" None 1
                   (toy_state ∅ (set_busy 1 calm)) calm _ _ _) _ calm _ None _ _ _).
  - discriminate.
  - reflexivity.
  - eapply busy_again; [reflexivity|reflexivity|vm_compute; reflexivity|apply busy_done].
  - vm_compute. lia.
  - reflexivity.
  - vm_compute. reflexivity.
  - discriminate.
Defined.
