(* ===== verification/Accounts.v ===== *)
(** * Accounts: the choice of the account, the copy and the counters of CreateVolume *)
From S2P Require Import Prelude GoUnicode GoStrings GoErr Fields Attributes Util CsiCommon Predicates VolumeIDs ContainerNames Metrics.
From S2P Require Import Effects World Azcopy Auth Containers Subnets CreateVolume Controller DriverInit Toy Frames Server.
From stdpp Require Import options.

Section accounts.
Context {W : Type} `{Ops W} `{RangeOrder}.
Implicit Types s : st W.

(** One RPC after another. *)
Definition step (d : Driver) (s s' : st W) : Prop := ∃ c, s' = (serve d c s).2.

Lemma steps_later d s s' : rtc (step d) s s' → later s s'.
Proof. induction 1 as [s|s s1 s2 [c ->] _ IH]; [done|]. transitivity (serve d c s).2; [apply keeps_serve|done]. Qed.

(** C30 - A retried provisioning uses the same account: once the driver knows the account of a volume name, whatever RPCs it
    answers afterwards, a CreateVolume for that name that gives neither secrets nor an account chooses that account, at once
    and without asking the cloud. *)
Theorem known_account_stable d s s' volName account pl :
  s_volMap s !! volName = Some account → rtc (step d) s s' → p_account (pl_p pl) = "" →
  choose_account d pl volName None s' = (Ok (account, "", []), s').
Proof.
  intros Hs Hstep Ha. apply steps_later in Hstep as [_ _ Hsub]. unfold choose_account. rewrite Ha. cbn [mlen Nat.eqb andb bool_decide].
  rewrite bool_decide_eq_true_2 by done. rewrite run_bind. unfold gets. by rewrite (lookup_weaken _ _ _ _ Hs Hsub).
Qed.

(** What a search leaves behind: choosing an account by searching stores it in the cache and in the volume map, but
    taking it from the cache leaves the volume map as it is: such a volume is not among "all volumes created by this driver",
    and a retry after the cache entry has expired searches again. *)
Theorem cached_account_not_remembered d pl volName account s :
  s_volMap s !! volName = None → p_account (pl_p pl) = "" → (accountSearchCache_get (search_key pl) s).1 = Ok (Some account) →
  (choose_account d pl volName None s).1 = Ok (account, "", []) ∧ s_volMap (choose_account d pl volName None s).2 = s_volMap s.
Proof.
  intros Hs Ha Hc. unfold choose_account. rewrite Ha. cbn [mlen Nat.eqb andb]. rewrite bool_decide_eq_true_2 by done.
  rewrite run_bind. unfold gets. rewrite Hs. cbv zeta. rewrite run_bind. unfold accountSearchCache_get, read_cache in *.
  destruct (op_now _) as [now w]. destruct (cache_get _ _ _ _) as [data c]. simpl in *. by injection Hc as ->.
Qed.

(** The counters of CreateVolume tell its result: under the lock, whatever happens, the samples recorded last are one
    observation of the operation whose success label is whether a volume is returned; earlier samples are kept. *)
Theorem create_volume_counted d req pl container params s :
  ∃ l, s_samples (create_volume_locked d req pl container params s).2 =
       s_samples s ++ l ++
       ObserveWithLabels (WithBasicVolumeInfo (NewCSIMetricContext (pl_requestName pl)) (c_ResourceGroup (d_cloud d)) (c_SubscriptionID (d_cloud d)) (d_Name d))
         (match (create_volume_locked d req pl container params s).1 with Ok _ => true | Err _ => false end)
         [StorageAccountType; p_storageAccountType (pl_p pl); Protocol; pl_protocol pl].
Proof.
  unfold create_volume_locked, with_metric. set (body := choose_account _ _ _ _ ≫= _). rewrite run_bind, run_defer.
  assert (later s (body s).2) as [_ [l Hl] _].
  { apply (λ K : keeps body, K s). unfold body. keep_locks. }
  assert (∀ v b, (body s).1 = Ok (v, b) → b = true) as Hb.
  { intros v b. unfold body. rewrite run_bind. destruct (choose_account _ _ _ _ s) as [[[[account key] deferred]|e] s1]; [|done].
    rewrite run_defer. simpl. destruct (provision _ _ _ _ _ _ _ s1) as [r s2] eqn:Ep. simpl. intros ->.
    unfold provision in Ep. apply bind_inv_Ok in Ep as ([[? ?] ?] & ? & _ & Ep). do 4 (apply bind_inv_Ok in Ep as (? & ? & _ & Ep)).
    by injection Ep as _ <- _. }
  exists l. destruct (body s) as [[[v b]|e] s1]; simpl in *; rewrite Hl, <- app_assoc; [|done]. by rewrite (Hb v b).
Qed.

(** ** The azcopy authorization *)

(** A SAS token is the last resort: without secrets, a secret name or a demand for a token, for an account whose data
    plane is not in use and that has no cached token, a driver with an identity authorizes azcopy with it and asks for no
    key and no token. *)
Theorem getAzcopyAuth_identity d account key suffix ao ns env s :
  authorizeAzcopyWithIdentity (d_cloud d) = Ok env →
  s_dataPlaneAPIVolCache s = ∅ → s_azcopySasTokenCache s = ∅ →
  (getAzcopyAuth d account key suffix ao None "" ns false s).1 = Ok ("", env) ∧ env ≠ [].
Proof.
  intros He Hd Ht.
  assert (env ≠ []) as Hne.
  { unfold authorizeAzcopyWithIdentity in He. destruct (c_UseManagedIdentityExtension _); [by injection He as <-|].
    destruct (negb _); [|done]. destruct (_ || _); [done|by injection He as <-]. }
  split; [|done]. unfold getAzcopyAuth. cbv zeta. unfold useDataPlaneAPI, dataPlaneAPIVolCache_get. rewrite run_bind, run_bind.
  unfold read_cache at 1. destruct (op_now _) as [n1 w1]. rewrite Hd. unfold cache_get at 1. rewrite lookup_empty.
  rewrite run_bind. unfold read_cache at 1. simpl. destruct (op_now _) as [n2 w2]. unfold cache_get at 1. rewrite lookup_empty. simpl.
  rewrite run_bind. unfold azcopySasTokenCache_get, read_cache. simpl. destruct (op_now _) as [n3 w3]. rewrite Ht. unfold cache_get.
  rewrite lookup_empty, He. by destruct env.
Qed.

(** Waiting for a copy ends with success on any state but Running that comes without an error: in particular when the
    azcopy job that was running is no longer listed, as after another volume's CleanJobs, the copy counts as complete. *)
Theorem wait_for_job_not_found d container env s percent s1 state :
  GetAzcopyJob container env s = (Ok (state, percent, None), s1) → state ≠ AzcopyJobRunning → wait_for_job d container env s = (Ok (), s1).
Proof.
  intros E Hs. unfold wait_for_job. destruct (azcopy_polls _); simpl PollUntilContextTimeout; rewrite run_bind, run_bind, E;
    simpl; by rewrite bool_decide_eq_false_2.
Qed.
End accounts.

(** ** Witnesses *)

Definition empty_plan : plan := make_plan toy_cloud (read_parameters []) [] ∅ None.
Definition knows_account : st toy := set_volMap (λ _, {[ "pvc-1" := "account" ]}) (toy_state ∅ calm).
Definition after_unstage : st toy := (serve (H0 := canonical_order) toy_driver (NodeUnstageVolumeCall "vol" "/mnt/a") knows_account).2.

Lemma known_account_stable_witness :
  choose_account toy_driver empty_plan "pvc-1" None after_unstage = (Ok ("account", "", []), after_unstage).
Proof.
  apply (known_account_stable (H0 := canonical_order) toy_driver knows_account).
  - apply lookup_insert_eq.
  - apply rtc_once. by exists (NodeUnstageVolumeCall "vol" "/mnt/a").
  - vm_compute. reflexivity.
Defined.
