(* ===== verification/AccountTypes.v ===== *)
(** * AccountTypes: what CreateVolume asks the cloud provider for

    The checks of the storage class establish a type of account options.  Whatever the request, an account is only ever
    searched or created with options of this type. *)
From S2P Require Import Prelude GoUnicode GoStrings GoErr Fields Attributes Util CsiCommon Predicates ContainerNames MountOptions Metrics.
From S2P Require Import Effects World Auth Containers Subnets CreateVolume Interference Toy Server.
From stdpp Require Import options.

(** The options of an account for a volume of the given protocol, on the given cloud. *)
Record well_typed (c : CloudConfig) (protocol : string) (ao : AccountOptions) : Prop := {
  wt_protocol : protocol ∈ [Fuse; Fuse2; NFS; AZNFS; NFSv3];
  wt_name : ao_Name ao = "";                                           (* a named account is not searched for *)
  wt_https : ao_EnableHTTPSTrafficOnly ao = true;
  wt_nfs : if isNFSProtocol protocol then ao_EnableNfsV3 ao = Some true ∧ ao_IsHnsEnabled ao = Some true else ao_EnableNfsV3 ao = None;
  wt_versioning : ao_EnableBlobVersioning ao = Some true → ao_EnableNfsV3 ao = None ∧ ao_IsHnsEnabled ao = None;
  wt_tier : ao_AccessTier ao ∈ "" :: PossibleAccessTierValues;
  wt_network : ao_PublicNetworkAccess ao ∈ "" :: PossiblePublicNetworkAccessValues;
  wt_days : (0 ≤ ao_SoftDeleteBlobs ao ≤ 365)%Z ∧ (0 ≤ ao_SoftDeleteContainers ao ≤ 365)%Z;
  wt_subnets : ao_VirtualNetworkResourceIDs ao ≠ [] → isNFSProtocol protocol = true ∧ ao_CreatePrivateEndpoint ao = None;
  wt_endpoint : match ao_CreatePrivateEndpoint ao with
                | Some b => b = true ∧ Contains (ao_SubnetName ao) "," = false
                | None => ao_PrivateDNSZoneResourceGroup ao = ""
                end;
  wt_stack : if IsAzureStackCloud c then ao_Kind ao = KindStorage ∧ ao_Type ao ∈ [""; SKUNameStandardLRS; SKUNamePremiumLRS]
             else ao_Kind ao = if HasPrefix (ToLower (ao_Type ao)) "premium" then KindBlockBlobStorage else KindStorageV2;
}.

(** ** What the checks establish *)

Lemma invalid_Ok b fmt args : invalid b fmt args = Ok () → b = false.
Proof. by destruct b. Qed.

Lemma supported_in (x : string) l : bool_decide (x = "") || existsb (λ v, bool_decide (x = v)) l = true → x ∈ "" :: l.
Proof. rewrite orb_true_iff, bool_decide_eq_true, elem_of_existsb. intros [->|Hx]; [by left|by right]. Qed.

Lemma days_of_bounds o : (0 ≤ days_of o ≤ 365)%Z.
Proof. unfold days_of. destruct o as [s|]; [|lia]. destruct (parseDays s) as [d|] eqn:E; [|lia]. apply parseDays_Ok in E. lia. Qed.

(** An empty protocol is not an NFS one, and neither is its default. *)
Lemma resolved_nfs p : isNFSProtocol (resolved_protocol p) = isNFSProtocol (p_protocol p).
Proof. unfold resolved_protocol, or_default. by destruct (decide (p_protocol p = "")) as [->|]. Qed.

Lemma resolved_supported p : isSupportedProtocol (resolved_protocol p) = true → resolved_protocol p ∈ [Fuse; Fuse2; NFS; AZNFS; NFSv3].
Proof.
  intros [E|Hin]%isSupportedProtocol_cases%elem_of_cons; [|done]. exfalso. revert E. unfold resolved_protocol, or_default. by case_decide.
Qed.

(** The parameters that pass the checks before the network. *)
Record accepted (p : parameters) : Prop := {
  acc_versioning : default false (p_enableBlobVersioning p) = true → isNFSProtocol (p_protocol p) = false ∧ default false (p_isHnsEnabled p) = false;
  acc_protocol : isSupportedProtocol (resolved_protocol p) = true;
  acc_tier : isSupportedAccessTier (p_accessTier p) = true;
  acc_network : isSupportedPublicNetworkAccess (p_publicNetworkAccess p) = true;
  acc_endpoint : if wants_private_endpoint p then Contains (p_subnetName p) "," = false else p_privateDNSZoneResourceGroup p = "";
}.

Lemma check_parameters_accepted p : check_parameters p = Ok () → accepted p.
Proof.
  unfold check_parameters. cbv zeta.
  intros Hc. repeat (apply bind_Ok in Hc as ([] & ?E%invalid_Ok & Hc)). split; try (by bools).
  - intros Hv. rewrite Hv in E. by apply orb_false_iff in E.
  - destruct (wants_private_endpoint p); apply invalid_Ok in Hc; [done|]. by bools.
Qed.

Lemma check_account_stack c p source tags :
  check_account c p source = Ok tags → IsAzureStackCloud c = true → p_storageAccountType p ∈ [""; SKUNameStandardLRS; SKUNamePremiumLRS].
Proof.
  unfold check_account. intros ([] & E%invalid_Ok & _)%bind_Ok Hc. rewrite Hc in E. simpl in E. rewrite !elem_of_cons.
  destruct (decide (p_storageAccountType p = "")), (decide (p_storageAccountType p = SKUNameStandardLRS)),
    (decide (p_storageAccountType p = SKUNamePremiumLRS)); try tauto. by rewrite !bool_decide_eq_false_2 in E.
Qed.

(** The subnets are given only to NFS accounts without a private endpoint. *)
Definition wants_subnets (p : parameters) : bool := isNFSProtocol (resolved_protocol p) && negb (wants_private_endpoint p).

Lemma accepted_options c entries ids source tags :
  let p := read_parameters entries in
  let pl := make_plan c p ids tags source in
  check_parameters p = Ok () → (ids ≠ [] → wants_subnets p = true) → check_account c p source = Ok tags → p_account p = "" →
  well_typed c (pl_protocol pl) (account_options pl (p_account p)).
Proof.
  cbv zeta. assert (p_isHnsEnabled (read_parameters entries) ≠ Some false) as Hh by by (simpl; destruct (some_entry _ _ _)).
  assert (∃ o1 o2, p_softDeleteBlobs (read_parameters entries) = days_of o1 ∧ p_softDeleteContainers (read_parameters entries) = days_of o2) as (o1 & o2 & Hd1 & Hd2) by by do 2 eexists.
  revert Hh Hd1 Hd2. generalize (read_parameters entries) as p. intros p Hh Hd1 Hd2 [Hv Hp Ht Hn He]%check_parameters_accepted Hids Hc Ha.
  apply resolved_supported in Hp. apply supported_in in Ht, Hn. unfold account_options, make_plan. split; simpl; try done.
  - destruct (isNFSProtocol (resolved_protocol p)); [by split|done].
  - intros E. rewrite E in Hv. destruct Hv as [Hnfs Hhns]; [done|]. rewrite resolved_nfs, Hnfs. split; [done|].
    by destruct (p_isHnsEnabled p) as [[]|].
  - rewrite Hd1, Hd2. split; apply days_of_bounds.
  - intros [Hnfs Hpe]%Hids%andb_true_iff. split; [done|]. by destruct (wants_private_endpoint p).
  - by destruct (wants_private_endpoint p).
  - unfold account_kind. pose proof (check_account_stack _ _ _ _ Hc) as Hs. destruct (IsAzureStackCloud c); [auto|done].
Qed.

Section account_types.
Context {W : Type} `{Ops W} `{RangeOrder}.
Context (ensure : AccountOptions → string → W → result (string * string) * W).

Lemma choose_account_typed d pl volName secrets :
  (p_account (pl_p pl) = "" → ∀ w, ensure (account_options pl (p_account (pl_p pl))) (pl_protocol pl) w =
                                  op_ensure_account (account_options pl (p_account (pl_p pl))) (pl_protocol pl) w) →
  same (choose_account (H := with_ensure H ensure) d pl volName secrets) (choose_account d pl volName secrets).
Proof.
  intros He. unfold choose_account. cbv zeta. destruct (_ && _) eqn:Ea; [|reflexivity]. apply andb_true_iff in Ea as [_ Ea%bool_decide_eq_true].
  apply same_bind; [reflexivity|]. intros [|]; [reflexivity|]. apply same_bind; [reflexivity|]. intros [|]; [reflexivity|].
  apply same_bind; [|reflexivity]. apply same_attempt, same_backoff, same_bind; [|reflexivity].
  intros s. unfold ask. simpl op_ensure_account. by rewrite (He Ea).
Qed.

(** C13 - The accounts that CreateVolume asks for are well typed: whatever the request, the state and the answers of the
    outside, an account is searched or created only with options of the type [well_typed] (a supported protocol, HNS
    exactly as NFS demands it and no blob versioning with it, supported tiers and network access, at most 365 days of
    soft delete, subnets only for NFS without a private endpoint, one subnet with it, an account kind that the cloud
    offers): what the cloud would answer to any other options makes no difference. *)
Theorem accounts_well_typed d req :
  (∀ ao protocol w, well_typed (d_cloud d) protocol ao → ensure ao protocol w = op_ensure_account ao protocol w) →
  same (CreateVolume (H := with_ensure H ensure) d req) (CreateVolume d req).
Proof.
  intros Hens. unfold CreateVolume. apply same_bind; [reflexivity|]. intros _. apply same_bind; [reflexivity|]. intros _. cbv zeta.
  set (entries := mrange 114 _). apply same_from_result. intros [] Hc. fold (wants_subnets (read_parameters entries)).
  apply (same_bind_value (λ ids, ids ≠ [] → wants_subnets (read_parameters entries) = true)).
  { intros s ids s'. destruct (wants_subnets _); [done|]. by intros [= <- _]. }
  intros ids Hids. apply same_from_result. intros tags Ht. apply same_bind; [reflexivity|]. intros [name params].
  apply same_with_lock; [reflexivity|]. apply same_with_metric. apply same_bind; [|reflexivity].
  apply choose_account_typed. intros Ha w. apply Hens. by apply accepted_options.
Qed.
End account_types.

(** ** Witness *)

(** A cloud that refuses the options of a named account, which are of no type. *)
Definition refusing (ao : AccountOptions) (protocol : string) (w : toy) : result (string * string) * toy :=
  if decide (ao_Name ao = "") then op_ensure_account ao protocol w else (Err (Plain "named"), w).

Lemma accounts_well_typed_witness :
  same (CreateVolume (H := with_ensure toy_ops refusing) (H0 := canonical_order) toy_driver (toy_request "pvc-1" None None))
       (CreateVolume (H := toy_ops) (H0 := canonical_order) toy_driver (toy_request "pvc-1" None None)).
Proof.
  apply (accounts_well_typed (H0 := canonical_order)). intros ao protocol w Hw. unfold refusing. rewrite decide_True; [reflexivity|].
  exact (wt_name _ _ _ Hw).
Defined.
