(* ===== verification/SearchCache.v ===== *)
(** * SearchCache: the account search cache of CreateVolume is sound

    An account found for one volume is used for another when the keys of their plans agree.  The key determines what is
    asked of the cloud, and every entry was answered by the cloud for its key. *)
From S2P Require Import Prelude GoUnicode GoStrings GoErr Fields Attributes Util CsiCommon Predicates Metrics Effects World Auth Containers CreateVolume.
From S2P Require Import Controller Node DriverInit Toy Frames Server.
From stdpp Require Import options.

(** The parts of the key. *)
Definition key_fields (pl : plan) : list string :=
  let p := pl_p pl in
  let b dflt o := FormatBool (default dflt o) in
  [p_storageAccountType p; pl_accountKind pl; pl_resourceGroup pl; p_location p; pl_protocol pl; p_subsID p; p_accessTier p;
   p_privateDNSZoneResourceGroup p; b false (pl_createPrivateEndpoint pl); b false (p_allowBlobPublicAccess p);
   b false (p_requireInfraEncryption p); b true (p_allowSharedKeyAccess p); b false (pl_isHnsEnabled pl); b false (pl_enableNfsV3 pl);
   FormatBool true; p_publicNetworkAccess p; b false (p_enableBlobVersioning p); FormatInt (p_softDeleteBlobs p);
   FormatInt (p_softDeleteContainers p); p_vnetResourceGroup p; p_vnetName p; p_vnetLinkName p; p_subnetName p;
   FormatBool (p_matchTags p); serializeTags (pl_tags pl); pl_storageEndpointSuffix pl; pl_srcAccountName pl].

Lemma search_key_Join pl : search_key pl = Join (key_fields pl) "|".
Proof. unfold search_key, key_fields. cbv zeta. simpl. str_assoc. by rewrite ?app_nil_r. Qed.

Lemma search_key_fields pl pl' :
  occurrences "|"%char (search_key pl) = 26 → search_key pl' = search_key pl → key_fields pl' = key_fields pl.
Proof.
  intros Hb He. pose proof Hb as Hb'. rewrite <- He in Hb'. rewrite search_key_Join in Hb. rewrite search_key_Join in Hb'. rewrite !search_key_Join in He.
  rewrite <- (Split_Join (key_fields pl') "|"%char), <- (Split_Join (key_fields pl) "|"%char); [by rewrite He|done|..|done|];
    by apply Join_separators.
Qed.

(** What two plans ask of the cloud in the same way; a flag that is not set counts as its default.  The resource ids of the
    subnets follow from the network that is named, and the demand for the latest key does not concern the account. *)
Record alike (p1 : string) (a1 : AccountOptions) (p2 : string) (a2 : AccountOptions) : Prop := {
  alike_protocol : p1 = p2;
  alike_name : ao_Name a1 = ao_Name a2;
  alike_type : ao_Type a1 = ao_Type a2 ∧ ao_Kind a1 = ao_Kind a2 ∧ ao_AccessTier a1 = ao_AccessTier a2;
  alike_place : ao_SubscriptionID a1 = ao_SubscriptionID a2 ∧ ao_ResourceGroup a1 = ao_ResourceGroup a2 ∧ ao_Location a1 = ao_Location a2;
  alike_network : ao_PublicNetworkAccess a1 = ao_PublicNetworkAccess a2 ∧ ao_VNetResourceGroup a1 = ao_VNetResourceGroup a2 ∧
                  ao_VNetName a1 = ao_VNetName a2 ∧ ao_VNetLinkName a1 = ao_VNetLinkName a2 ∧ ao_SubnetName a1 = ao_SubnetName a2;
  alike_endpoint : default false (ao_CreatePrivateEndpoint a1) = default false (ao_CreatePrivateEndpoint a2) ∧
                   ao_PrivateDNSZoneResourceGroup a1 = ao_PrivateDNSZoneResourceGroup a2 ∧
                   ao_StorageEndpointSuffix a1 = ao_StorageEndpointSuffix a2 ∧ ao_EnableHTTPSTrafficOnly a1 = ao_EnableHTTPSTrafficOnly a2;
  alike_access : default false (ao_AllowBlobPublicAccess a1) = default false (ao_AllowBlobPublicAccess a2) ∧
                 default true (ao_AllowSharedKeyAccess a1) = default true (ao_AllowSharedKeyAccess a2) ∧
                 default false (ao_RequireInfrastructureEncryption a1) = default false (ao_RequireInfrastructureEncryption a2);
  alike_files : default false (ao_IsHnsEnabled a1) = default false (ao_IsHnsEnabled a2) ∧
                default false (ao_EnableNfsV3 a1) = default false (ao_EnableNfsV3 a2);
  alike_blobs : default false (ao_EnableBlobVersioning a1) = default false (ao_EnableBlobVersioning a2) ∧
                ao_SoftDeleteBlobs a1 = ao_SoftDeleteBlobs a2 ∧ ao_SoftDeleteContainers a1 = ao_SoftDeleteContainers a2;
  alike_tags : ao_MatchTags a1 = ao_MatchTags a2 ∧ serializeTags (ao_Tags a1) = serializeTags (ao_Tags a2);
  alike_source : ao_SourceAccountName a1 = ao_SourceAccountName a2;
}.

#[export] Instance FormatInt_inj : Inj (=) (=) FormatInt.
Proof. intros x y E. by apply (inj (pretty (A := Z))). Qed.

Lemma key_fields_alike pl pl' name :
  key_fields pl' = key_fields pl → alike (pl_protocol pl') (account_options pl' name) (pl_protocol pl) (account_options pl name).
Proof.
  unfold key_fields. cbv zeta. intros E.
  injection E as E1 E2 E3 E4 E5 E6 E7 E8 E9%(inj FormatBool) E10%(inj FormatBool) E11%(inj FormatBool) E12%(inj FormatBool) E13%(inj FormatBool)
    E14%(inj FormatBool) E15 E16%(inj FormatBool) E17%(inj FormatInt) E18%(inj FormatInt) E19 E20 E21 E22 E23%(inj FormatBool) E24 E25 E26.
  by split.
Qed.

Section search_cache.
Context {W : Type} `{Ops W} `{RangeOrder}.
Implicit Types s : st W.

(** Every entry of the cache of a running driver was an answer of the cloud. *)
Lemma reachable_search d s key e : reachable d s → s_accountSearchCache s !! key = Some e → ensured key e.1.
Proof.
  induction 1 as [w|s c _ IH]; [simpl; by rewrite lookup_empty|]. intros [He|He]%(later_search _ _ (keeps_serve d c s)); [by apply IH|done].
Qed.

(** A hit is an entry. *)
Lemma accountSearchCache_hit key account s :
  (accountSearchCache_get key s).1 = Ok (Some account) → ∃ created, s_accountSearchCache s !! key = Some (account, created).
Proof.
  unfold accountSearchCache_get, read_cache. destruct (op_now _) as [now w]. unfold cache_get.
  destruct (s_accountSearchCache s !! key) as [[v created]|]; [|done]. destruct (_ <? _)%Z; [|done]. intros [= ->]. by exists created.
Qed.

(** C14 - The account search cache is sound: in every state that the driver can reach by answering RPCs, when the cache answers
    an account for a plan, the cloud has answered that account to a search that asked for the same: the same type, place,
    network, access, protection, tags and protocol, provided that the key of the plan holds no bar but the 26 of its
    format. *)
Theorem cached_account_was_asked_for d s pl account :
  reachable d s → occurrences "|"%char (search_key pl) = 26 → (accountSearchCache_get (search_key pl) s).1 = Ok (Some account) →
  ∃ pl' accountKey w w', op_ensure_account (account_options pl' "") (pl_protocol pl') w = (Ok (account, accountKey), w') ∧
    alike (pl_protocol pl') (account_options pl' "") (pl_protocol pl) (account_options pl "").
Proof.
  intros Hr Hb [created He]%accountSearchCache_hit. apply (reachable_search _ _ _ _ Hr) in He as (pl' & key & w & w' & Hkey & _ & Hop).
  exists pl', key, w, w'. split; [exact Hop|]. by apply key_fields_alike, search_key_fields.
Qed.
End search_cache.

(** ** Witness *)

(** A driver that has provisioned one volume, and the plan of another one of the same class. *)
Definition served : st toy := (serve (H0 := canonical_order) toy_driver (CreateVolumeCall (toy_request "pvc-1" None None)) (initial_state calm)).2.
Definition next_plan : plan := make_plan toy_cloud (read_parameters []) [] ∅ None.

Lemma cached_account_was_asked_for_witness :
  ∃ pl' accountKey w w', op_ensure_account (account_options pl' "") (pl_protocol pl') w = (Ok ("ensured", accountKey), w') ∧
    alike (pl_protocol pl') (account_options pl' "") (pl_protocol next_plan) (account_options next_plan "").
Proof.
  apply (cached_account_was_asked_for (H0 := canonical_order) toy_driver served).
  - apply reachable_serve, reachable_init.
  - vm_compute. reflexivity.
  - vm_compute. reflexivity.
Defined.
