(* ===== verification/Lifecycle.v ===== *)
(** * Lifecycle: requests that follow one another on the same volume

    A retried CreateVolume answers the same volume, and DeleteVolume of the identifier that was answered deletes the
    container that was created and no other one. *)
From S2P Require Import Prelude GoUnicode GoStrings GoErr Fields Attributes Util CsiCommon Predicates VolumeIDs ContainerNames Metrics.
From S2P Require Import Effects World Azcopy Auth Containers Subnets CreateVolume Parameters Controller DriverInit Interference Toy Frames Server.
From S2P Require Import ControllerSafety.
From stdpp Require Import options.

(** ** Retrying *)

Section retry.
Context {W : Type} `{Ops W}.
Implicit Types s : st W.

(** One RPC after another, each ranging over maps in an order of its own. *)
Definition later_step (d : Driver) (s s' : st W) : Prop := ∃ (O : RangeOrder) c, s' = (serve d c s).2.

Lemma later_steps d s s' : rtc (later_step d) s s' → later s s'.
Proof. induction 1 as [s|s s1 s2 (O & c & ->) _ IH]; [done|]. transitivity (serve d c s).2; [apply keeps_serve|done]. Qed.

(** The account is settled: the request decides it, or the driver knows the account of the volume name. *)
Definition account_settled {O : RangeOrder} (req : CreateVolumeRequest) (s : st W) : Prop :=
  mlen (cv_Secrets req) ≠ 0 ∨ p_account (request_parameters req) ≠ "" ∨ is_Some (s_volMap s !! cv_Name req).

(** The account that a settled request uses. *)
Definition settled_account {O : RangeOrder} (req : CreateVolumeRequest) (s : st W) : string :=
  if (mlen (cv_Secrets req) =? 0) && bool_decide (p_account (request_parameters req) = "")
  then default "" (s_volMap s !! cv_Name req) else p_account (request_parameters req).

Lemma choose_settled {O : RangeOrder} d req vnets tags s0 s account key deferred s' :
  account_settled req s0 → s_volMap s0 ⊆ s_volMap s →
  choose_account d (request_plan d req vnets tags) (cv_Name req) (cv_Secrets req) s = (Ok (account, key, deferred), s') →
  account = settled_account req s0.
Proof.
  intros Hs Hsub. unfold choose_account, settled_account. simpl pl_p. destruct (_ && _) eqn:E; [|by intros [= <- _ _ _]].
  apply andb_true_iff in E as [Em%Nat.eqb_eq Ea%bool_decide_eq_true]. destruct Hs as [?|[?|[a Hk]]]; [done..|].
  rewrite run_bind. unfold gets. rewrite (lookup_weaken _ _ _ _ Hk Hsub), Hk. by intros [= <- _ _ _].
Qed.
End retry.

(** C12 - Provisioning is idempotent: once the account of a request is settled (the request brings secrets or names the account,
    or the driver knows the account of the volume name), two CreateVolume calls for it that succeed, with any RPCs before
    the first and between the two, answer the same identifier, capacity and source, even though Go ranges over the
    parameters in another order and draws another UUID; provided that the parameters do not depend on the order and the
    container name not on the UUID. *)
Theorem CreateVolume_idempotent {W : Type} `{Ops W} (O O' : RangeOrder) d req (s0 s s' s1 s1' : st W) v v' :
  account_settled (O := O) req s0 → rtc (later_step d) s0 s → rtc (later_step d) s0 s' →
  unambiguous (request_entries (H0 := O) req) → (chosen_name (H0 := O) req = "" ↔ chosen_name (H0 := O') req = "") →
  (∀ u u', container_name (H0 := O) req u = container_name (H0 := O') req u') →
  CreateVolume (H0 := O) d req s = (Ok v, s1) → CreateVolume (H0 := O') d req s' = (Ok v', s1') →
  vol_VolumeId v' = vol_VolumeId v ∧ vol_CapacityBytes v' = vol_CapacityBytes v ∧ vol_ContentSource v' = vol_ContentSource v.
Proof.
  intros Hset Hs%later_steps Hs'%later_steps Hu Hch Hname.
  assert (request_parameters (H0 := O) req = request_parameters (H0 := O') req) as Hp.
  { apply parameters_read_alike; [done|]. unfold request_entries, mrange. by rewrite !range_perm. }
  assert (account_settled (O := O') req s0) as Hset' by by (unfold account_settled in *; rewrite <- Hp).
  intros (_ & _ & vn & tags & u & c & params & a & k & l & t1 & t2 & t3 & _ & Hc & _ & Hm & Ea & Ep)%CreateVolume_inv.
  intros (_ & _ & vn' & tags' & u' & c' & params' & a' & k' & l' & t1' & t2' & t3' & _ & Hc' & _ & Hm' & Ea' & Ep')%CreateVolume_inv.
  assert (a' = a) as ->.
  { rewrite (choose_settled _ _ _ _ _ _ _ _ _ _ Hset (transitivity (later_volMap _ _ Hs) Hm) Ea).
    rewrite (choose_settled _ _ _ _ _ _ _ _ _ _ Hset' (transitivity (later_volMap _ _ Hs') Hm') Ea'). unfold settled_account. by rewrite Hp. }
  assert (c' = c) as -> by (rewrite (Hname u u'), Hc' in Hc; congruence).
  apply provision_inv in Ep as (_ & Hcap & Hsrc & _ & Hid & _), Ep' as (_ & Hcap' & Hsrc' & _ & Hid' & _).
  split; [|split; congruence]. rewrite Hid, Hid'.
  change (replaceWithMap (H := O) 390 _ _) with (chosen_name (H0 := O) req). change (replaceWithMap (H := O') 390 _ _) with (chosen_name (H0 := O') req).
  unfold request_plan. rewrite Hp.
  destruct (decide (chosen_name (H0 := O) req = "")) as [E|E], (decide (chosen_name (H0 := O') req = "")) as [E'|E']; tauto.
Qed.

(** ** Deleting *)

Section delete.
Context {W : Type} `{Ops W} `{RangeOrder}.
Implicit Types s : st W.

(** A container that is created without secrets was created by the management plane. *)
Lemma CreateBlobContainer_created d subsID rg account container suffix secrets s s' :
  mlen secrets = 0 → CreateBlobContainer d subsID rg account container suffix secrets s = (Ok (), s') →
  ∃ w w', op_create_container subsID rg account container (container_metadata d) w = (None, w').
Proof.
  intros Hsec. unfold CreateBlobContainer. destruct (decide _); [done|]. cbv zeta. unfold with_azure_metric. rewrite run_defer, Hsec. cbn [Nat.ltb Nat.leb].
  destruct (ExponentialBackoff _ _ s) as [r s1] eqn:E. simpl. intros [= -> _].
  apply backoff_inv_Ok in E as (t & t' & E). apply bind_inv_Ok in E as (err & t1 & E & Hr). apply bind_inv_Ok in E as ([] & t2 & _ & E).
  unfold ask in E. destruct (op_create_container _ _ _ _ _ _) as [answer w] eqn:Eo. injection E as -> _.
  destruct err as [e|]; [by destruct (being_deleted e)|]. by do 2 eexists.
Qed.

Lemma CreateBlobContainer_container d subsID rg account container suffix secrets s a s' :
  CreateBlobContainer d subsID rg account container suffix secrets s = (Ok a, s') → container ≠ "".
Proof. unfold CreateBlobContainer. by destruct (decide _). Qed.

Lemma accepted_capability d req : create_request_error d req = None → ValidateControllerServiceRequest (d_csi d) CREATE_DELETE_VOLUME = None.
Proof. unfold create_request_error, check_request. by destruct (ValidateControllerServiceRequest _ _). Qed.

(** The parts of the identifier that a volume gets, by the request, the account and the container. *)
Definition id_resourceGroup (d : Driver) (req : CreateVolumeRequest) : string := or_default (p_resourceGroup (request_parameters req)) (c_ResourceGroup (d_cloud d)).
Definition id_suffix (req : CreateVolumeRequest) : string := if decide (chosen_name req = "") then "" else cv_Name req.
Definition id_namespace (req : CreateVolumeRequest) : string :=
  or_default (p_secretNamespace (request_parameters req)) (or_default (p_pvcNamespace (request_parameters req)) defaultNamespace).

Lemma or_default_twice x y : or_default (or_default x y) y = or_default x y.
Proof. unfold or_default. by destruct (decide (x = "")) as [->|]; repeat destruct (decide _). Qed.

Lemma readable_id id ci : GetContainerInfo id = Ok ci → id ≠ "".
Proof. by intros E ->. Qed.

(** A free lock is taken before the body and released after it. *)
Lemma with_volume_lock_free {A} key (aborted body : io (st W) A) s :
  key ∉ s_locks s →
  with_volume_lock key aborted body s = let '(r, s') := body (set_locks (λ l, {[ key ]} ∪ l) s) in (r, Release key s').
Proof.
  intros Hl. unfold with_volume_lock. rewrite run_bind. unfold TryAcquire. rewrite decide_False by done. rewrite run_defer. by destruct (body _).
Qed.

(** A volume and an account that are not in the cache do not use the data plane: only the clock is read. *)
Lemma useDataPlaneAPI_unused v a s :
  s_dataPlaneAPIVolCache s !! v = None → s_dataPlaneAPIVolCache s !! a = None →
  useDataPlaneAPI v a s = (Ok false, set_world (op_now (op_now (s_world s)).2).2 s).
Proof.
  intros Hv Ha. unfold useDataPlaneAPI, dataPlaneAPIVolCache_get. rewrite run_bind. unfold read_cache at 1.
  destruct (op_now (s_world s)) as [n1 w1] eqn:E1. unfold cache_get at 1. rewrite Hv. rewrite run_bind. unfold read_cache. simpl.
  destruct (op_now w1) as [n2 w2] eqn:E2. unfold cache_get. rewrite Ha. done.
Qed.

(** The calls of a DeleteVolume whose identifier is read as [ci] and whose volume does not use the data plane. *)
Lemma delete_locked_run d dreq ci s w1 w2 :
  GetContainerInfo (dv_VolumeId dreq) = Ok ci → ci_container ci ≠ "" → mlen (dv_Secrets dreq) = 0 →
  s_dataPlaneAPIVolCache s !! dv_VolumeId dreq = None → s_dataPlaneAPIVolCache s !! ci_account ci = None →
  op_blob_client (ci_subsID ci) (op_now (op_now (s_world s)).2).2 = (None, w1) →
  op_delete_container (ci_subsID ci) (or_default (ci_resourceGroup ci) (c_ResourceGroup (d_cloud d))) (ci_account ci) (ci_container ci) w1 = (None, w2) →
  ∃ s', delete_volume_locked d dreq s = (Ok (), s') ∧ s_world s' = w2.
Proof.
  intros Hci Hne Hsec Hv Ha Hb Hdel. eexists. split.
  - unfold delete_volume_locked. rewrite Hci, Hsec. cbv zeta. cbn [Nat.eqb].
    rewrite (run_bind_Ok _ _ _ _ _ (useDataPlaneAPI_unused _ _ _ Hv Ha)), run_bind. unfold mret at 1, io_ret at 1.
    apply with_metric_Ok. rewrite run_bind. unfold wrap_err. rewrite DeleteBlobContainer_once by done. simpl s_world. rewrite Hb, Hdel. reflexivity.
  - done.
Qed.

Lemma DeleteVolume_run d dreq ci s w1 w2 :
  GetContainerInfo (dv_VolumeId dreq) = Ok ci → ci_container ci ≠ "" → mlen (dv_Secrets dreq) = 0 →
  ValidateControllerServiceRequest (d_csi d) CREATE_DELETE_VOLUME = None → dv_VolumeId dreq ∉ s_locks s →
  s_dataPlaneAPIVolCache s !! dv_VolumeId dreq = None → s_dataPlaneAPIVolCache s !! ci_account ci = None →
  op_blob_client (ci_subsID ci) (op_now (op_now (s_world s)).2).2 = (None, w1) →
  op_delete_container (ci_subsID ci) (or_default (ci_resourceGroup ci) (c_ResourceGroup (d_cloud d))) (ci_account ci) (ci_container ci) w1 = (None, w2) →
  ∃ s', DeleteVolume d dreq s = (Ok (), s') ∧ s_world s' = w2.
Proof.
  intros Hci Hne Hsec Hcap Hl Hv Ha Hb Hdel. pose proof (readable_id _ _ Hci) as Hid.
  destruct (delete_locked_run d dreq ci (set_locks (λ l, {[ dv_VolumeId dreq ]} ∪ l) s) w1 w2) as (s' & E & Hw); [done..|].
  exists (Release (dv_VolumeId dreq) s'). split; [|done]. unfold DeleteVolume. rewrite run_bind, (bool_decide_eq_false_2 _ Hid). simpl.
  rewrite run_bind, Hcap. simpl. by rewrite with_volume_lock_free, E by done.
Qed.
(** The separators of an identifier: the five of the format, and those in its parts. *)
Definition separators (id : string) : nat := occurrences "#"%char id.

Lemma five_separators rg account container suffix ns subsID :
  separators (formatVolumeID rg account container suffix ns subsID) = 5 → Forall no_sep [rg; account; container; suffix; ns; subsID].
Proof. rewrite formatVolumeID_Join. intros Hs. by apply Join_separators. Qed.

Lemma container_reference_spec c secrets suffix ref :
  getContainerReference c secrets suffix = Ok ref → cr_container ref = c ∧ getStorageAccount secrets = Ok (cr_account ref, cr_key ref).
Proof. unfold getContainerReference. intros ([a k] & E & E')%bind_Ok. destruct (op_new_client _ _ _); [done|]. by injection E' as <-. Qed.

(** The subscription that is read back from an identifier: a malformed one is read as none. *)
Definition read_subscription (subsID : string) : string := if isValidSubscriptionID subsID then subsID else "".

(** Two clouds that differ at most in what the deletion of other containers does.  On the management plane there is one
    container that is not other.  On the data plane it is the container of that name, in the account whose name and key are
    in the secrets when the request brings some; without secrets the data plane counts only when the volume or its account
    is recorded as using it, and then the credentials are those that the driver finds for the volume. *)
Definition others_differ (dreq : DeleteVolumeRequest) (t : st W) (subsID rg account container : string)
    (del : string → string → string → string → W → option error * W) (dp_del : ContainerRef → W → option error * W) : Prop :=
  (∀ w, del subsID rg account container w = op_delete_container subsID rg account container w) ∧
  (∀ ref w, cr_container ref = container →
     (if mlen (dv_Secrets dreq) =? 0
      then is_Some (s_dataPlaneAPIVolCache t !! dv_VolumeId dreq) ∨ is_Some (s_dataPlaneAPIVolCache t !! account)
      else getStorageAccount (dv_Secrets dreq) = Ok (cr_account ref, cr_key ref)) →
     dp_del ref w = op_dp_delete ref w).

Lemma DeleteBlobContainer_only d subsID rg account container secrets del dp_del :
  (∀ w, del subsID rg account container w = op_delete_container subsID rg account container w) →
  (mlen secrets ≠ 0 → ∀ ref w, cr_container ref = container → getStorageAccount secrets = Ok (cr_account ref, cr_key ref) →
     dp_del ref w = op_dp_delete ref w) →
  same (DeleteBlobContainer (H := with_deletes H del dp_del) d subsID rg account container secrets) (DeleteBlobContainer d subsID rg account container secrets).
Proof.
  intros Hdel Hdp. unfold DeleteBlobContainer. destruct (decide _); [reflexivity|]. cbv zeta. apply same_defer, same_backoff, same_bind; [|reflexivity].
  destruct (0 <? mlen secrets) eqn:El.
  - apply Nat.ltb_lt in El. apply same_from_result. intros ref [Hc Ha]%container_reference_spec s. unfold ask. simpl op_dp_delete.
    rewrite Hdp; [done|lia|done|done].
  - apply same_bind; [reflexivity|]. intros _ s. unfold ask. simpl op_delete_container. by rewrite Hdel.
Qed.

(** The secrets of the deletion, other than the request's, come with the use of the data plane. *)
Lemma useDataPlaneAPI_recorded v a s s' :
  useDataPlaneAPI v a s = (Ok true, s') → is_Some (s_dataPlaneAPIVolCache s !! v) ∨ is_Some (s_dataPlaneAPIVolCache s !! a).
Proof.
  intros E. destruct (s_dataPlaneAPIVolCache s !! v) eqn:Ev; [by left|]. destruct (s_dataPlaneAPIVolCache s !! a) eqn:Ea; [by right|].
  by rewrite useDataPlaneAPI_unused in E.
Qed.

Lemma delete_locked_only d dreq ci del dp_del s :
  GetContainerInfo (dv_VolumeId dreq) = Ok ci →
  others_differ dreq s (ci_subsID ci) (or_default (ci_resourceGroup ci) (c_ResourceGroup (d_cloud d))) (ci_account ci) (ci_container ci) del dp_del →
  delete_volume_locked (H := with_deletes H del dp_del) d dreq s = delete_volume_locked d dreq s.
Proof.
  intros Hci [Hdel Hdp]. unfold delete_volume_locked. rewrite Hci. cbv zeta.
  apply run_bind_alike; [reflexivity|]. intros plane s1 Eplane. apply run_bind_alike; [reflexivity|]. intros secrets s2 Esecrets.
  apply same_with_metric, same_bind; [|reflexivity]. apply same_wrap_err, DeleteBlobContainer_only; [done|].
  intros Hs ref w Hc Ha. apply Hdp; [done|]. destruct (mlen (dv_Secrets dreq) =? 0) eqn:Em.
  - destruct plane; [by apply useDataPlaneAPI_recorded in Eplane|]. injection Esecrets as <- _. by apply Nat.eqb_eq in Em.
  - injection Eplane as <- _. by injection Esecrets as <- _.
Qed.

Lemma DeleteVolume_only d dreq ci del dp_del s :
  GetContainerInfo (dv_VolumeId dreq) = Ok ci →
  others_differ dreq s (ci_subsID ci) (or_default (ci_resourceGroup ci) (c_ResourceGroup (d_cloud d))) (ci_account ci) (ci_container ci) del dp_del →
  DeleteVolume (H := with_deletes H del dp_del) d dreq s = DeleteVolume d dreq s.
Proof.
  intros Hci Hothers. unfold DeleteVolume. apply run_bind_alike; [reflexivity|]. intros _ s1 [_ ->]%throw_if_inv_Ok.
  apply run_bind_alike; [reflexivity|]. intros ? s2 E2. assert (s2 = s) as ->. { by destruct (ValidateControllerServiceRequest _ _); injection E2. } clear E2.
  unfold with_volume_lock. apply run_bind_alike; [reflexivity|]. unfold TryAcquire. intros acquired s3 E3.
  destruct (decide _); injection E3 as <- <-; [reflexivity|].
  unfold defer. erewrite delete_locked_only; [reflexivity|exact Hci|exact Hothers].
Qed.

(** C7 - What is created is what is deleted.  A CreateVolume without secrets and without useDataPlaneAPI that succeeds has
    created a container of some account through the management plane.  Take an identifier of the volume that holds no
    separator but the five of its format, and a DeleteVolume of it, from any state.  It deletes nothing else: the outcome
    is the same whatever deletion does to any other container, which on the management plane is any other subscription,
    group, account or name, and on the data plane any other name, and with secrets in the request any other account; and
    without secrets the data plane is not used at all unless the volume or its account is recorded for it.  And it does
    delete: without secrets, from a state that does not record the volume or the account for the data plane and in which no
    operation on the volume runs, it makes the call for that container and its success is the call's.  The subscription of
    the deletion is the one read back from the identifier: the requested one, but none when that is malformed. *)
Theorem created_then_deleted d req s v s' :
  let subsID := p_subsID (request_parameters req) in
  let rg := id_resourceGroup d req in
  CreateVolume d req s = (Ok v, s') → mlen (cv_Secrets req) = 0 → p_useDataPlaneAPI (request_parameters req) = false →
  ∃ account container w w',
    op_create_container subsID rg account container (container_metadata d) w = (None, w') ∧
    (separators (vol_VolumeId v) = 5 → ∀ dreq t, dv_VolumeId dreq = vol_VolumeId v →
       (∀ del dp_del, others_differ dreq t (read_subscription subsID) rg account container del dp_del →
          DeleteVolume (H := with_deletes H del dp_del) d dreq t = DeleteVolume d dreq t) ∧
       (∀ w1 w2, mlen (dv_Secrets dreq) = 0 → dv_VolumeId dreq ∉ s_locks t →
          s_dataPlaneAPIVolCache t !! dv_VolumeId dreq = None → s_dataPlaneAPIVolCache t !! account = None →
          op_blob_client (read_subscription subsID) (op_now (op_now (s_world t)).2).2 = (None, w1) →
          op_delete_container (read_subscription subsID) rg account container w1 = (None, w2) →
          ∃ t', DeleteVolume d dreq t = (Ok (), t') ∧ s_world t' = w2)).
Proof.
  intros subsID rg Hrun Hsec Hplane.
  destruct (CreateVolume_inv _ _ _ _ _ Hrun) as (Herr & _ & vnets & tags & u & container & params & account & k & l & s1 & s2 & s3 & _ & Hc & _ & _ & _ & Ep).
  apply provision_inv in Ep as (_ & _ & _ & _ & Hid & secrets & t1 & t2 & Hsecrets & Ec). rewrite (Hsecrets Hplane) in Ec. clear secrets Hsecrets.
  pose proof (CreateBlobContainer_container _ _ _ _ _ _ _ _ _ _ Ec) as Hne.
  apply CreateBlobContainer_created in Ec as (w & w' & Ec); [|done]. exists account, container, w, w'. split; [exact Ec|].
  change (vol_VolumeId v = formatVolumeID rg account container (id_suffix req) (id_namespace req) subsID) in Hid.
  rewrite Hid. intros Hsep%five_separators dreq t Hdreq. rewrite !Forall_cons in Hsep. destruct Hsep as (Nrg & Nacct & Ncont & Nuuid & Nns & Nsubs & _).
  assert (GetContainerInfo (dv_VolumeId dreq) = Ok {| ci_resourceGroup := rg; ci_account := account; ci_container := container;
            ci_secretNamespace := id_namespace req; ci_subsID := read_subscription subsID |}) as Hci.
  { by rewrite Hdreq, GetContainerInfo_six. }
  assert (or_default rg (c_ResourceGroup (d_cloud d)) = rg) as Hrg by apply or_default_twice.
  split.
  - intros del dp_del Hothers. apply (DeleteVolume_only _ _ _ _ _ _ Hci). simpl. by rewrite Hrg.
  - intros w1 w2 Hds Hl Hv Ha Hb Hdel. apply (DeleteVolume_run d dreq _ t w1 w2 Hci); simpl; rewrite ?Hrg; try done.
    by eapply accepted_capability.
Qed.
End delete.

(** ** Witnesses *)

Definition retried_request : CreateVolumeRequest := toy_request "pvc-1" (Some {[ containerNameField := "data"; storageAccountField := "account" ]}) None.

Lemma CreateVolume_idempotent_witness :
  match CreateVolume (H0 := canonical_order) toy_driver retried_request (toy_state ∅ calm) with
  | (Ok v, s1) =>
    match CreateVolume (H0 := canonical_order) toy_driver retried_request s1 with (Ok v', _) => vol_VolumeId v' = vol_VolumeId v | _ => False end
  | _ => False
  end.
Proof.
  assert (match CreateVolume (H0 := canonical_order) toy_driver retried_request (toy_state ∅ calm) with
          | (Ok v, s1) => match CreateVolume (H0 := canonical_order) toy_driver retried_request s1 with (Ok v', _) => true | _ => false end
          | _ => false
          end = true) as Hok by (vm_compute; reflexivity).
  destruct (CreateVolume _ _ (toy_state ∅ calm)) as [[v|e] s1] eqn:E; [|discriminate Hok].
  destruct (CreateVolume _ _ s1) as [[v'|e'] s1'] eqn:E'; [|discriminate Hok].
  apply (CreateVolume_idempotent canonical_order canonical_order toy_driver retried_request (toy_state ∅ calm) (toy_state ∅ calm) s1 s1 s1' v v').
  - right. left. vm_compute. discriminate.
  - reflexivity.
  - apply rtc_once. exists canonical_order, (CreateVolumeCall retried_request). simpl. unfold done_with. rewrite run_bind, E. reflexivity.
  - apply (bool_decide_unpack _). vm_compute. exact I.
  - reflexivity.
  - intros u u'. vm_compute. reflexivity.
  - exact E.
  - exact E'.
Defined.

Definition delete_request (id : string) : DeleteVolumeRequest := {| dv_VolumeId := id; dv_Secrets := None; dv_text := "" |}.

Lemma created_then_deleted_witness :
  match CreateVolume (H0 := canonical_order) toy_driver named_request (toy_state ∅ calm) with
  | (Ok v, _) => ∃ t', DeleteVolume (H0 := canonical_order) toy_driver (delete_request (vol_VolumeId v)) (toy_state ∅ calm) = (Ok (), t')
  | _ => False
  end.
Proof.
  assert (match CreateVolume (H0 := canonical_order) toy_driver named_request (toy_state ∅ calm) with
          | (Ok v, _) => separators (vol_VolumeId v) =? 5 | _ => false end = true) as Hok by (vm_compute; reflexivity).
  destruct (CreateVolume _ _ _) as [[v|e] s'] eqn:E; [|discriminate Hok]. apply Nat.eqb_eq in Hok.
  destruct (created_then_deleted (H0 := canonical_order) _ _ _ _ _ E) as (account & container & w & w' & _ & Hdel);
    [reflexivity|vm_compute; reflexivity|].
  destruct (Hdel Hok (delete_request (vol_VolumeId v)) (toy_state ∅ calm) eq_refl) as [_ Hrun].
  destruct (Hrun calm (logged ("delete container " +:+ account +:+ "/" +:+ container) calm)) as (t' & Ht & _);
    [reflexivity|apply not_elem_of_empty|reflexivity|reflexivity|reflexivity|reflexivity|]. exists t'. exact Ht.
Defined.
