(* ===== verification/NodeSafety.v ===== *)
(** * NodeSafety: properties of the mount point, the mounts and the node handlers *)
From S2P Require Import Prelude GoUnicode GoStrings GoErr Fields Attributes Util CsiCommon Predicates ContainerNames MountOptions Metrics.
From S2P Require Import Effects World Azcopy Auth Containers Proxy NetURL InlineServer Mounts Node DriverInit Interference Toy Frames.
From stdpp Require Import options.

Section node_safety.
Context {W : Type} `{Ops W} `{RangeOrder}.
Implicit Types s : st W.

(** ** The mount point *)

Lemma ensure_without_unmount target perm f :
  same (ensureMountPoint (H := with_unmount H f) target perm false) (ensureMountPoint target perm false).
Proof.
  unfold ensureMountPoint. apply same_bind; [reflexivity|]. intros [notMnt err]. cbv zeta.
  change (@is_not_exist W (with_unmount H f)) with (@is_not_exist W H).
  set (failed := match err with Some e => if is_not_exist e then None else Some e | None => None end).
  apply same_bind; [reflexivity|]. intros corrupted.
  destruct failed as [e|], corrupted; try reflexivity;
    (apply same_bind; [reflexivity|]; intros [l|e']; [|reflexivity]; apply same_bind; [reflexivity|]; intros [a|e']; [|reflexivity];
     destruct (existsb _ l), notMnt; reflexivity).
Qed.

(** C25 - Publishing never unmounts: the bind mount of NodePublishVolume, whatever the state of the target, behaves the same
    whatever the unmount call does, so a republish cannot take the volume from under a running container. *)
Theorem publish_never_unmounts d req perm f :
  same (publish_staged (H := with_unmount H f) d req perm) (publish_staged d req perm).
Proof.
  unfold publish_staged. apply same_bind; [reflexivity|]. intros _. apply same_with_metric. unfold publish_bind. cbv zeta.
  apply same_bind; [|intros [mnt err]; reflexivity]. apply ensure_without_unmount.
Qed.

(** A mount table that lists the target, seen from a world. *)
Inductive listed (target : string) (w w' : W) : Prop :=
| is_listed w1 w2 notMnt mounts abs :
    op_is_likely_not_mnt target w = ((notMnt, None), w1) → op_mount_list w1 = (Ok mounts, w2) → op_abs target w2 = (Ok abs, w') →
    notMnt = false ∨ abs ∈ mounts → listed target w w'.

(** C26 - A listed mount point: without leave to unmount it is taken as mounted; with leave it is probed, and is mounted when the
    probe succeeds; when the probe fails it is unmounted, and the call then answers "not mounted" together with the error
    of the probe, also when the unmount succeeds, where its comment promises no error. *)
Theorem ensureMountPoint_listed target perm s w :
  listed target (s_world s) w →
  ensureMountPoint target perm false s = (Ok (true, None), set_world w s) ∧
  ∀ probed w1, op_probe_mount target w = (probed, w1) →
    ensureMountPoint target perm true s =
    match probed with
    | None => (Ok (true, None), set_world w1 s)
    | Some probe_err =>
      let '(unmounted, w2) := op_unmount target w1 in
      (Ok (match unmounted with Some e => (true, Some e) | None => (false, Some probe_err) end), set_world w2 s)
    end.
Proof.
  intros [w1 w2 notMnt mounts abs E1 E2 E3 Hin].
  assert ((if existsb (λ path, bool_decide (path = abs)) mounts then false else notMnt) = false) as Hm.
  { destruct Hin as [->|Hin]; [by destruct (existsb _ _)|].
    assert (existsb (λ path, bool_decide (path = abs)) mounts = true) as ->; [|done].
    apply existsb_exists. exists abs. split; [by apply list_elem_of_In|by apply bool_decide_eq_true]. }
  assert (∀ b, ensureMountPoint target perm b s =
    (if negb b then mret (true, None) else
       err ← ask (op_probe_mount target);
       match err with
       | None => mret (true, None)
       | Some probe_err => err ← ask (op_unmount target); match err with Some e => mret (true, Some e) | None => mret (false, Some probe_err) end
       end) (set_world w s)) as Hrun.
  { intros b. unfold ensureMountPoint. rewrite run_bind. unfold ask at 1. rewrite E1. cbv zeta. rewrite run_bind. simpl mret at 1.
    unfold mret at 1, io_ret at 1. rewrite run_bind. unfold ask at 1. simpl s_world. rewrite E2. rewrite run_bind. unfold ask at 1. simpl s_world. rewrite E3.
    rewrite Hm. cbn [negb]. by destruct b. }
  split; [by rewrite Hrun|]. intros probed w3 Ep. rewrite Hrun. cbn [negb]. rewrite run_bind. unfold ask at 1. simpl s_world. rewrite Ep.
  destruct probed as [e|]; [|done]. rewrite run_bind. unfold ask. simpl s_world. destruct (op_unmount target w3) as [[e'|] w4]; done.
Qed.

(** ** A mount that is there *)

Lemma waitForMount_mounted ticks path s s' :
  waitForMount ticks path s = (Ok (), s') → ∃ w, op_is_likely_not_mnt path w = ((false, None), s_world s').
Proof.
  revert s. induction ticks as [|ticks IH]; intros s; cbn [waitForMount]; [done|]. intros E.
  apply bind_inv_Ok in E as (fires & s1 & _ & E). destruct fires; [done|]. apply bind_inv_Ok in E as ([notMount err] & s2 & Ea & E).
  unfold ask in Ea. destruct (op_is_likely_not_mnt path (s_world s1)) as [[nm er] w] eqn:Eo. injection Ea as -> -> <-.
  destruct err; [done|]. destruct notMount; [by apply (IH (set_world w s1))|]. injection E as <-. by exists (s_world s1).
Qed.

(** C27 - A blobfuse mount is reported only when it is there: when the blobfuse part of NodeStageVolume succeeds and counts as
    succeeded, the last thing it learned from the host is that the target is a mount point; a mock mount may succeed but is
    counted as failed. *)
Theorem blobfuse_success_is_mounted d volumeID target group server account container flags env sp s b s' :
  mount_blobfuse d volumeID target group server account container flags env sp s = (Ok ((), b), s') →
  b = negb (d_enableBlobMockMount d) ∧
  (d_enableBlobMockMount d = false → ∃ w, op_is_likely_not_mnt target w = ((false, None), s_world s')).
Proof.
  unfold mount_blobfuse. intros E. apply bind_inv_Ok in E as (opts & s1 & _ & E). apply bind_inv_Ok in E as (supported & s2 & _ & E).
  apply bind_inv_Ok in E as (stamp & s3 & _ & E). cbv zeta in E. destruct (d_enableBlobMockMount d).
  - apply bind_inv_Ok in E as (err & s4 & _ & E). destruct err; [done|]. by injection E as <- _.
  - apply bind_inv_Ok in E as ([output err] & s4 & _ & E). destruct err as [e|]; [by apply bind_inv_Ok in E as (? & ? & _ & ?)|].
    apply bind_inv_Ok in E as ([] & s5 & Ew%wrap_err_inv_Ok & E). injection E as <- <-. split; [done|]. intros _. by apply waitForMount_mounted in Ew.
Qed.

(** ** Permissions *)

(** chmodIfPermissionMismatch changes the permission bits only: the mode it sets has the permission bits that were asked
    for and keeps every other bit of the target's mode, and nothing is set when they already agree. *)
Theorem chmod_permission_bits target mode s info w1 :
  op_lstat target (s_world s) = (Ok info, w1) →
  (N.land info ModePerm = N.land mode ModePerm → chmodIfPermissionMismatch target mode s = (Ok (), set_world w1 s)) ∧
  (N.land info ModePerm ≠ N.land mode ModePerm → ∃ m,
     chmodIfPermissionMismatch target mode s = call_err (op_chmod target m) (set_world w1 s) ∧
     (∀ i, N.testbit m i = if N.testbit ModePerm i then N.testbit mode i else N.testbit info i)).
Proof.
  intros E. unfold chmodIfPermissionMismatch. rewrite run_bind. unfold call at 1 2. rewrite E. split; intros Hp.
  - by rewrite (proj2 (N.eqb_eq _ _) Hp).
  - rewrite (proj2 (N.eqb_neq _ _) Hp). eexists. split; [done|]. intros i. rewrite N.lor_spec, N.ldiff_spec, N.land_spec.
    destruct (N.testbit ModePerm i); [by rewrite andb_false_r, andb_true_r|by rewrite andb_true_r, andb_false_r, orb_false_r].
Qed.

(** ** Volume statistics *)

Lemma cache_get_Some {V} ttl now key (c c' : timed_cache V) v :
  cache_get ttl now key c = (Some v, c') → c' = c ∧ ∃ created, c !! key = Some (v, created).
Proof. unfold cache_get. destruct (c !! key) as [[v' t]|]; [|done]. destruct (_ <? _)%Z; [|done]. intros [= -> ->]. eauto. Qed.

Lemma volume_stats_stored d volumeId path s stats s1 :
  NodeGetVolumeStats d volumeId path s = (Ok stats, s1) → volumeId ≠ "" ∧ ∃ created, s_volStatsCache s1 !! volumeId = Some (stats, created).
Proof.
  unfold NodeGetVolumeStats. intros E. apply bind_inv_Ok in E as ([] & s2 & [Hv ->]%throw_if_inv_Ok & E).
  apply bool_decide_eq_false in Hv. split; [done|]. apply bind_inv_Ok in E as ([] & s2 & [_ ->]%throw_if_inv_Ok & E).
  apply bind_inv_Ok in E as (cache & s2 & Ec & E). destruct cache as [v|].
  - injection E as <- <-. unfold volStatsCache_get, read_cache in Ec. destruct (op_now _) as [now w].
    destruct (cache_get _ _ _ _) as [data c] eqn:Eg. injection Ec as -> <-. apply cache_get_Some in Eg as [-> ?]. done.
  - unfold with_metric in E. apply bind_inv_Ok in E as ([v b] & s3 & E & [= -> ->]). rewrite run_defer in E.
    set (body := wrap_err _ _ ≫= _) in E. destruct (body s2) as [r s4] eqn:Eb. simpl in E. injection E as -> <-. unfold body in Eb.
    apply bind_inv_Ok in Eb as (? & ? & _ & Eb). apply bind_inv_Ok in Eb as (? & ? & _ & Eb). apply bind_inv_Ok in Eb as (? & ? & _ & Eb).
    apply bind_inv_Ok in Eb as (? & ? & Ew & Eb). injection Eb as -> -> ->. unfold volStatsCache_set, write_cache in Ew.
    destruct (op_now _) as [now w]. injection Ew as _ <-. exists now. apply lookup_insert_eq.
Qed.

(** Cached statistics: an answer of NodeGetVolumeStats is stored under the volume, and until the entry expires a call for
    the same volume answers the same, whatever path it gives, and only reads the clock: no file system is asked and no
    operation is counted. *)
Theorem volume_stats_cached d volumeId path s stats s1 :
  NodeGetVolumeStats d volumeId path s = (Ok stats, s1) →
  ∃ created, s_volStatsCache s1 !! volumeId = Some (stats, created) ∧
    ∀ path' now w, path' ≠ "" → op_now (s_world s1) = (now, w) → (now - created < minutes (d_volStatsCacheMinutes d))%Z →
      NodeGetVolumeStats d volumeId path' s1 = (Ok stats, set_volStats (s_volStatsCache s1) (set_world w s1)).
Proof.
  intros [Hv [created Hc]]%volume_stats_stored. exists created. split; [done|]. intros path' now w Hp Hnow Ht.
  unfold NodeGetVolumeStats. rewrite run_bind, (bool_decide_eq_false_2 _ Hv). simpl.
  rewrite run_bind, (bool_decide_eq_false_2 _ Hp). simpl. rewrite run_bind. unfold volStatsCache_get, read_cache. rewrite Hnow.
  unfold cache_get. rewrite Hc, (proj2 (Z.ltb_lt _ _) Ht). done.
Qed.
End node_safety.

(** ** Witnesses *)

Definition mounted : toy := set_mounts (λ _, {[ "/mnt/a" ]}) calm.

Lemma ensureMountPoint_listed_witness :
  ensureMountPoint "/mnt/a" 511 false (toy_state ∅ mounted) = (Ok (true, None), set_world mounted (toy_state ∅ mounted)).
Proof.
  apply (ensureMountPoint_listed "/mnt/a" 511 (toy_state ∅ mounted) mounted).
  eapply (is_listed _ _ _ _ _ false); [vm_compute; reflexivity|vm_compute; reflexivity|vm_compute; reflexivity|by left].
Defined.

Lemma chmod_permission_bits_witness :
  chmodIfPermissionMismatch "/mnt/a" 493 (toy_state ∅ calm) = (Ok (), set_world calm (toy_state ∅ calm)).
Proof. apply (chmod_permission_bits "/mnt/a" 493 (toy_state ∅ calm) 493 calm); reflexivity. Defined.

Definition plain_params : stage_params := read_attributes toy_driver [].
Definition blobfuse_run : result (() * bool) * st toy :=
  mount_blobfuse (H0 := canonical_order) toy_driver "vol" "/mnt/a" "" "server" "account" "data" [] [] plain_params (toy_state ∅ calm).

Lemma blobfuse_success_is_mounted_witness : blobfuse_run.1 = Ok ((), true) ∧ ∃ w, op_is_likely_not_mnt "/mnt/a" w = ((false, None), s_world blobfuse_run.2).
Proof.
  assert (blobfuse_run.1 = Ok ((), true)) as E by (vm_compute; reflexivity). split; [exact E|].
  refine (proj2 (blobfuse_success_is_mounted (H0 := canonical_order) toy_driver "vol" "/mnt/a" "" "server" "account" "data" [] [] plain_params (toy_state ∅ calm) true
                   blobfuse_run.2 _) _).
  - unfold blobfuse_run in *. destruct (mount_blobfuse _ _ _ _ _ _ _ _ _ _ _) as [r s']. simpl in *. by rewrite E.
  - reflexivity.
Defined.

Definition stats_run : result volume_stats * st toy := NodeGetVolumeStats toy_driver "vol" "/mnt/a" (toy_state ∅ calm).

Lemma volume_stats_cached_witness :
  ∃ stats created, stats_run.1 = Ok stats ∧ s_volStatsCache stats_run.2 !! "vol" = Some (stats, created).
Proof.
  assert (match stats_run.1 with Ok _ => true | Err _ => false end = true) as Hok by (vm_compute; reflexivity).
  unfold stats_run in *. destruct (NodeGetVolumeStats _ _ _ _) as [[stats|e] s1] eqn:E; [|discriminate Hok].
  destruct (volume_stats_cached _ _ _ _ _ _ E) as (created & Hc & _). by exists stats, created.
Defined.
