(* ===== verification/InlineVolumes.v ===== *)
(** * InlineVolumes: the guard on the attributes of an inline volume

    Whoever may create a pod chooses the attributes of its inline volumes.  NodePublishVolume forces some of them before it
    stages such a volume; these theorems say that the forcing cannot be evaded by the spelling of a key, and what follows
    for the credentials that the driver obtains. *)
From S2P Require Import Prelude GoUnicode GoStrings GoErr Fields Attributes Util CsiCommon Predicates ContainerNames MountOptions Metrics.
From S2P Require Import Effects World Azcopy Auth Containers Proxy InlineServer Mounts Node DriverInit Interference Toy Frames.
From stdpp Require Import options.

(** Every entry whose key folds to [key] has the value [v]; some entry does. *)
Definition only (m : strmap) (key v : string) : Prop := ∀ k w, m !! k = Some w → ToLower k = key → w = v.
(** A field name: ASCII and in lower case. *)
Definition field_name (key : string) : Prop := is_ascii key = true ∧ ToLower key = key.

#[export] Instance field_name_dec key : Decision (field_name key).
Proof. unfold field_name. apply _. Defined.

(** Some entry that folds to [key] has the value [v]. *)
Definition forced (m : strmap) (key v : string) : Prop := ∃ k, m !! k = Some v ∧ ToLower k = key.

Lemma forced_insert m key v k w : forced m key v → ToLower k ≠ key → forced (<[k := w]> m) key v.
Proof. intros (k' & Hl & Hk) Hne. exists k'. split; [|done]. rewrite lookup_insert_ne; [done|]. by intros ->. Qed.
Lemma forced_inserted m k w : forced (<[k := w]> m) (ToLower k) w.
Proof. exists k. split; [apply lookup_insert_eq|done]. Qed.
Lemma forced_only m key v : keys_consistent (Some m) → forced m key v → only m key v.
Proof. intros Hc (k & Hl & Hk) k' w Hl' Hk'. apply (Hc m eq_refl k' k); [done..|congruence]. Qed.

Lemma only_insert m key v k w : only m key v → (ToLower k = key → w = v) → only (<[k := w]> m) key v.
Proof. intros Ho Hw k' w' [[<- <-]|[_ Hl]]%lookup_insert_Some Hk; [by apply Hw|by apply (Ho k')]. Qed.
(** What the checks accept does not mention the order of the range. *)
Lemma check_attributes_spec `{RangeOrder} handler n n' attrib r :
  check_attributes handler n n' attrib = Ok r ↔ r = attrib ∧ keys_consistent attrib ∧ (isEphemeralVolume attrib = true → keys_ascii attrib).
Proof.
  unfold check_attributes. split.
  - rewrite bind_Ok. intros ([] & Ha & E).
    destruct (ValidateVolumeAttributeKeys n' attrib) as [a|e] eqn:Ev; [|done]. injection E as <-.
    apply ValidateVolumeAttributeKeys_spec in Ev as [-> Hc]. split_and!; [done..|]. intros He. rewrite He in Ha.
    destruct (ValidateASCIIVolumeAttributeKeys n attrib) as [[]|e] eqn:Ea; [|done]. by apply ValidateASCII_spec in Ea.
  - intros (-> & Hc & Ha). rewrite (proj2 (ValidateVolumeAttributeKeys_spec n' attrib attrib) (conj eq_refl Hc)).
    destruct (isEphemeralVolume attrib); [|done]. by rewrite (proj2 (ValidateASCII_spec n attrib) (Ha eq_refl)).
Qed.

Section inline.
Context `{RangeOrder}.

Lemma fold_ascii k key : is_ascii k = true → field_name key → EqualFold k key = true ↔ ToLower k = key.
Proof. intros Ha [Hk Hl]. rewrite EqualFold_ascii, bool_decide_eq_true by done. by rewrite Hl. Qed.

Lemma consistent_only site m key : keys_ascii (Some m) → keys_consistent (Some m) → field_name key → only m key (getValueInMap site (Some m) key).
Proof.
  intros Ha Hc Hk k w Hl Hf. symmetry. apply (getValueInMap_unique site (Some m) m key k w Ha Hc); [by destruct Hk|done..|].
  apply fold_ascii; [by apply (Ha m eq_refl k w)|done..].
Qed.

(** Looking up a field whose entries agree. *)
Lemma getValueInMap_only site m key v : keys_ascii (Some m) → field_name key → only m key v → getValueInMap site (Some m) key = v ∨ getValueInMap site (Some m) key = "".
Proof.
  intros Ha Hk Ho. destruct (decide (getValueInMap site (Some m) key = "")) as [E|E]; [by right|]. left.
  destruct (getValueInMap_in site (Some m) key _ eq_refl E) as (m' & k & [= <-] & Hl & Hf).
  apply (Ho k); [done|]. apply (fold_ascii k key); [by apply (Ha m eq_refl k _ Hl)|done..].
Qed.

(** Forcing a field: one key that folds to it is written, and keys stay ASCII. *)
Lemma set_field site m key value :
  keys_ascii (Some m) → field_name key →
  ∃ k, setKeyValueInMap site (Some m) key value = Some (<[k := value]> m) ∧ ToLower k = key ∧ keys_ascii (Some (<[k := value]> m)).
Proof.
  intros Ha Hk. destruct (setKeyValueInMap_lookup site m key value) as (k & Hs & Hf & Hor). exists k. split; [done|].
  assert (is_ascii k = true) as Hka by (destruct Hor as [->|[w Hw]]; [by destruct Hk|by apply (Ha m eq_refl k w)]).
  split; [by apply (fold_ascii k key)|]. rewrite <- Hs. apply setKeyValueInMap_ascii; [done|by destruct Hk].
Qed.

(** Not using a workload identity, entry by entry. *)
Lemma no_workload_identity m :
  keys_ascii (Some m) → keys_consistent (Some m) → useWorkloadIdentity (Some m) = false →
  only m clientIDField "" ∧ ∃ v, v ≠ trueValue ∧ only m mountWithWITokenField v.
Proof.
  intros Ha Hc. unfold useWorkloadIdentity. intros [E1 E2]%orb_false_iff. apply negb_false_iff, bool_decide_eq_true in E1.
  apply bool_decide_eq_false in E2. split.
  - rewrite <- E1. apply consistent_only; [done..|by apply (bool_decide_unpack _); vm_compute].
  - exists (getValueInMap 1030 (Some m) mountWithWITokenField). split; [done|]. apply consistent_only; [done..|by apply (bool_decide_unpack _); vm_compute].
Qed.

Lemma no_workload_identity_back m v :
  keys_ascii (Some m) → only m clientIDField "" → v ≠ trueValue → only m mountWithWITokenField v → useWorkloadIdentity (Some m) = false.
Proof.
  intros Ha Hc Hv Hm. unfold useWorkloadIdentity. apply orb_false_iff. rewrite negb_false_iff, bool_decide_eq_true, bool_decide_eq_false. split.
  - by destruct (getValueInMap_only 1029 m clientIDField "" Ha) as [->| ->]; [apply (bool_decide_unpack _); vm_compute|..].
  - by destruct (getValueInMap_only 1030 m mountWithWITokenField v Ha) as [->| ->]; [apply (bool_decide_unpack _); vm_compute|..].
Qed.

(** ** The guard *)

Ltac field := apply (bool_decide_unpack _); vm_compute; exact I.

Lemma guard_forces d m :
  keys_ascii (Some m) → keys_consistent (Some m) → d_allowInlineVolumeKeyAccessWithIdentity d = false → useWorkloadIdentity (Some m) = false →
  ∃ g, guard_ephemeral d (Some m) = Some g ∧ keys_ascii (Some g) ∧
       forced g getAccountKeyFromSecretField trueValue ∧ forced g storageAccountField "" ∧ forced g storageAccountNameField "" ∧
       forced g secretNamespaceField (mget (Some m) podNamespaceField).
Proof.
  intros Ha Hc Hd Hw. destruct (no_workload_identity m Ha Hc Hw) as [Ho (v & Hv & Hm)].
  destruct (set_field 126 m secretNamespaceField (mget (Some m) podNamespaceField) Ha) as (k1 & E1 & L1 & A1); [field|].
  set (m1 := <[k1 := mget (Some m) podNamespaceField]> m) in *.
  assert (useWorkloadIdentity (Some m1) = false) as Hw1.
  { apply (no_workload_identity_back m1 v A1); [|done|]; apply only_insert; try done; rewrite L1; discriminate. }
  destruct (set_field 129 m1 getAccountKeyFromSecretField trueValue A1) as (k2 & E2 & L2 & A2); [field|].
  destruct (set_field 130 _ storageAccountField "" A2) as (k3 & E3 & L3 & A3); [field|].
  destruct (set_field 131 _ storageAccountNameField "" A3) as (k4 & E4 & L4 & A4); [field|].
  eexists. split; [|split; [exact A4|]].
  - unfold guard_ephemeral. cbv zeta. rewrite E1. fold m1. rewrite Hd, Hw1. cbn [negb andb]. by rewrite E2, E3, E4.
  - split_and!.
    + apply forced_insert; [apply forced_insert|]; [rewrite <- L2; apply forced_inserted|rewrite L3; discriminate|rewrite L4; discriminate].
    + apply forced_insert; [rewrite <- L3; apply forced_inserted|rewrite L4; discriminate].
    + rewrite <- L4. apply forced_inserted.
    + do 3 (apply forced_insert; [|first [rewrite L4|rewrite L3|rewrite L2]; discriminate]). rewrite <- L1. apply forced_inserted.
Qed.

Lemma check_attributes_inv handler n n' attrib r :
  check_attributes handler n n' attrib = Ok r → r = attrib ∧ keys_consistent attrib ∧ (isEphemeralVolume attrib = true → keys_ascii attrib).
Proof. apply check_attributes_spec. Qed.

End inline.

(** ** The keys of accounts *)

Section identity.
Context {W : Type} `{Ops W} `{RangeOrder}.
Context (f : string → string → string → bool → W → result string * W).

(** When the key must come from a secret, GetAuthEnv does not list the keys of the account. *)
Lemma GetAuthEnv_from_secret d volumeID protocol attrib secrets :
  EqualFold (last_of [getAccountKeyFromSecretField] (mrange 671 attrib) "") trueValue = true →
  same (GetAuthEnv (H := with_list_keys H f) d volumeID protocol attrib secrets) (GetAuthEnv d volumeID protocol attrib secrets).
Proof.
  intros E. unfold GetAuthEnv. cbv zeta. apply same_bind; [reflexivity|]. intros _. destruct (decide (protocol = NFS)); [reflexivity|].
  destruct (parsed_bool _); [reflexivity|]. destruct (negb _); [reflexivity|]. rewrite E. unfold auth_from_credentials.
  apply same_bind; [|intros [c err]; reflexivity]. destruct (negb _); [reflexivity|]. destruct (_ =? _); [|reflexivity].
  unfold kubernetes_credentials. cbv zeta. destruct (decide _); [reflexivity|]. apply same_bind; [reflexivity|].
  intros [info|e]; [reflexivity|]. destruct (EqualFold _ storageAuthTypeMSI); reflexivity.
Qed.

Lemma forced_last site g key v :
  only g key v → forced g key v → last_of [key] (mrange site (Some g)) "" = v.
Proof.
  intros Ho (k & Hl & Hk). unfold last_of.
  destruct (find_last _ _) as [[k' w]|] eqn:E.
  - apply find_last_Some in E as [Hin Hm]. apply bool_decide_eq_true, list_elem_of_singleton in Hm.
    apply elem_of_mrange in Hin as (? & [= <-] & Hin). by apply (Ho k').
  - apply (find_last_None _ _) with (x := (k, v)) in E; [|apply elem_of_mrange; eauto].
    apply bool_decide_eq_false in E. destruct E. simpl. rewrite Hk. by left.
Qed.

Lemma with_token_forced tokens g key v :
  ToLower serviceAccountTokenField ≠ key → only g key v → forced g key v →
  ∃ g', with_token tokens (Some g) = Some g' ∧ only g' key v ∧ forced g' key v.
Proof.
  intros Hk Ho Hf. unfold with_token. destruct (_ && _); [|by exists g]. eexists. split; [done|].
  split; [by apply only_insert|by apply forced_insert].
Qed.

Lemma stage_from_secret d req :
  (∀ g, check_attributes "NodeStageVolume" 379 385 (ns_VolumeContext req) = Ok g →
        ∃ m, g = Some m ∧ keys_consistent g ∧ forced m getAccountKeyFromSecretField trueValue) →
  same (NodeStageVolume (H := with_list_keys H f) d req) (NodeStageVolume d req).
Proof.
  intros Hg. unfold NodeStageVolume. apply same_bind; [reflexivity|]. intros _. apply same_bind; [reflexivity|]. intros _.
  destruct (ns_VolumeCapability req) as [vc|]; [|reflexivity]. apply same_with_lock; [reflexivity|]. unfold stage_locked.
  apply same_from_result. intros g Eg. destruct (Hg g Eg) as (m & -> & Hc & Hf). cbv zeta. destruct (_ && _); [reflexivity|].
  destruct (with_token_forced (getServiceAccountTokens (ns_Secrets req) (Some m)) m getAccountKeyFromSecretField trueValue)
    as (g' & -> & Ho' & Hf'); [vm_compute; discriminate|by apply forced_only|done|].
  apply same_bind; [reflexivity|]. intros _. apply same_bind; [reflexivity|]. intros suffix. apply same_with_metric. unfold stage_mount. cbv zeta.
  apply same_bind; [reflexivity|]. intros [mnt err]. apply same_bind; [reflexivity|]. intros _.
  apply same_bind; [|intros env; reflexivity]. apply same_attempt, GetAuthEnv_from_secret.
  rewrite (forced_last 671 g' _ _ Ho' Hf'). reflexivity.
Qed.

(** C1 - An inline volume cannot read account keys with the driver's identity: publishing an inline volume, on a driver that
    does not allow it and without workload identity, never lists the keys of a storage account with the credentials of the
    driver: from every state NodePublishVolume does the same whatever that call would answer. *)
Theorem inline_volume_lists_no_keys d req :
  isEphemeralVolume (np_VolumeContext req) = true → d_allowInlineVolumeKeyAccessWithIdentity d = false →
  useWorkloadIdentity (np_VolumeContext req) = false →
  same (NodePublishVolume (H := with_list_keys H f) d req) (NodePublishVolume d req).
Proof.
  intros He Hd Hw. unfold NodePublishVolume. destruct (np_VolumeCapability req) as [vc|]; [|reflexivity].
  apply same_bind; [reflexivity|]. intros _. apply same_bind; [reflexivity|]. intros _. cbv zeta.
  apply same_from_result. intros context Ec. apply check_attributes_inv in Ec as (-> & Hc & Ha). specialize (Ha He).
  destruct (np_VolumeContext req) as [m|] eqn:Em; [|reflexivity]. rewrite Hw, andb_false_r, He. unfold stage_unless_mounted.
  apply same_bind; [reflexivity|]. intros [|]; [reflexivity|]. apply stage_from_secret. intros g Eg. simpl in Eg.
  destruct (guard_forces d m Ha Hc Hd Hw) as (g' & Eg' & _ & F1 & _). rewrite Eg' in Eg.
  apply check_attributes_inv in Eg as (-> & Hgc & _). by exists g'.
Qed.
End identity.

(** ** Witnesses *)

(** An inline volume that names an account of its own choice. *)
Definition inline_attributes : gomap :=
  Some {[ ephemeralField := "true"; "containerName" := "data"; "StorageAccount" := "victim"; "secretNamespace" := "kube-system";
          podNamespaceField := "tenant" ]}.
Definition inline_request : NodePublishVolumeRequest :=
  {| np_VolumeId := "csi-1"; np_TargetPath := "/mnt/pod"; np_StagingTargetPath := ""; np_VolumeCapability := Some (mount_capability [] "");
     np_VolumeContext := inline_attributes; np_Secrets := None; np_Readonly := false |}.

Lemma inline_volume_lists_no_keys_witness :
  same (NodePublishVolume (H := with_list_keys toy_ops (λ _ _ _ _ w, (Ok "stolen", logged "listed" w))) (H0 := canonical_order) toy_driver inline_request)
       (NodePublishVolume (H := toy_ops) (H0 := canonical_order) toy_driver inline_request).
Proof. apply (inline_volume_lists_no_keys (H0 := canonical_order)); vm_compute; reflexivity. Defined.

Lemma check_attributes_passes `{RangeOrder} handler n n' attrib :
  match check_attributes handler n n' attrib with Ok _ => true | Err _ => false end = true → check_attributes handler n n' attrib = Ok attrib.
Proof. destruct (check_attributes handler n n' attrib) as [r|] eqn:E; [|done]. by apply check_attributes_inv in E as [-> _]. Qed.

Definition guarded_attributes : gomap := guard_ephemeral (H := canonical_order) toy_driver inline_attributes.

