(* ===== verification/AuthSafety.v ===== *)
(** * AuthSafety: where the credentials of a mount come from

    Properties of GetAuthEnv: which calls each of its branches makes, and the file that holds a workload identity token. *)
From S2P Require Import Prelude GoUnicode GoStrings GoErr Fields Attributes CsiCommon Predicates VolumeIDs MountOptions Metrics Effects World.
From S2P Require Import Auth Proxy DriverInit Toy.
From stdpp Require Import options.

(** A letter, a digit or a hyphen. *)
Definition token_byte (c : ascii) : bool := token_rune (byte_val c).

Lemma token_rune_ascii r : token_rune r = true → (r < 128)%N.
Proof. unfold token_rune, in_range. intros H. bools. repeat match goal with H : _ ∨ _ |- _ => destruct H; bools end; rewrite ?N.leb_le, ?N.eqb_eq in *; lia. Qed.

(** A string of such runes is a string of such bytes: no rune of several bytes hides in it. *)
Lemma token_runes_bytes s : forallb (λ c, token_rune (c_rune c)) (runes s) = forallb token_byte (chars s).
Proof.
  apply (runes_ind (λ s l, forallb (λ c, token_rune (c_rune c)) l = forallb token_byte (chars s))); clear s.
  - done.
  - intros c s _ IH. cbn [forallb ascii_chunk c_rune chars]. by rewrite IH.
  - intros c s Hc _. cbn [forallb c_rune chars]. apply N.ltb_ge in Hc.
    assert (token_rune rune_error = false) as -> by done. unfold token_byte at 1.
    destruct (token_rune (byte_val c)) eqn:E; [apply token_rune_ascii in E; lia|done].
  - intros t r s Hne Ht Hr _. cbn [forallb c_rune]. rewrite chars_app.
    destruct (token_rune r) eqn:E; [apply token_rune_ascii in E; lia|]. simpl. symmetry.
    destruct t as [|c t]; [done|]. cbn [chars app forallb]. apply Forall_cons in Ht as [Hc _]. unfold token_byte at 1.
    destruct (token_rune (byte_val c)) eqn:E'; [apply token_rune_ascii in E'; lia|done].
Qed.

Lemma isValidTokenFileName_spec name : isValidTokenFileName name = true ↔ name ≠ "" ∧ ∀ c, c ∈ chars name → token_byte c = true.
Proof.
  unfold isValidTokenFileName. destruct (decide (name = "")) as [->|Hn]; [by split; [|intros [? _]]|].
  rewrite token_runes_bytes, forallb_forall. setoid_rewrite <- list_elem_of_In. tauto.
Qed.

Section auth_safety.
Context {W : Type} `{Ops W} `{RangeOrder}.
Implicit Types s : st W.

(** C29 - The token file stays in its directory: the client id and the account name, which a user may choose, make up the name of
    the file that a workload identity token is written to.  When workload_identity_env succeeds, that name holds letters,
    digits and hyphens only, so neither a slash nor a dot, and the environment points at the file of that name in the
    token directory; when the name holds anything else no file is read or written. *)
Theorem workload_token_file clientID tenantID account token authEnv s :
  let name := clientID +:+ "-" +:+ account in
  let run := workload_identity_env clientID tenantID account token authEnv s in
  (∀ env, run.1 = Ok env →
     (∀ c, c ∈ chars name → token_byte c = true) ∧
     env = authEnv ++ ["AZURE_STORAGE_SPN_CLIENT_ID=" +:+ clientID]
             ++ (if decide (tenantID = "") then [] else ["AZURE_STORAGE_SPN_TENANT_ID=" +:+ tenantID])
             ++ ["AZURE_OAUTH_TOKEN_FILE=" +:+ defaultAzureOAuthTokenDir +:+ "/" +:+ name]) ∧
  (∀ c, c ∈ chars name → token_byte c = false → run.2 = s ∧ ∃ e, run.1 = Err e).
Proof.
  cbv zeta. unfold workload_identity_env. set (name := clientID +:+ "-" +:+ account). rewrite run_bind. unfold from_result.
  destruct (parseServiceAccountToken token) as [t|e]; simpl; [|split; [done|eauto]]. cbv zeta. fold name. split.
  - intros env E. destruct (isValidTokenFileName name) eqn:Ev; [|done]. apply isValidTokenFileName_spec in Ev as [_ Hv]. split; [done|].
    simpl in E. match type of E with context [?m] => idtac end. revert E. rewrite run_bind. simpl. rewrite run_bind. unfold attempt at 1.
    destruct (call _ s) as [existing s1]. rewrite run_bind. destruct (bool_decide _); simpl; [by intros [= <-]|].
    unfold wrap_err. destruct (call_err _ s1) as [[[]|] s2]; simpl; [by intros [= <-]|done].
  - intros c Hc Hb. destruct (isValidTokenFileName name) eqn:Ev; [|by eauto].
    apply isValidTokenFileName_spec in Ev as [_ Hv]. rewrite (Hv c Hc) in Hb. done.
Qed.

(** The value that the attributes give a field. *)
Definition attribute (attrib : gomap) (field : string) : string := last_of [field] (mrange 671 attrib) "".

(** NFS needs no key: with the protocol nfs GetAuthEnv makes no call at all, and succeeds without an account key unless a
    boolean attribute is malformed; the environment then only has the variables that the attributes set. *)
Theorem nfs_needs_no_key d volumeID attrib secrets s :
  let run := GetAuthEnv d volumeID NFS attrib secrets s in
  let entries := mrange 671 attrib in
  run.2 = s ∧
  match first_error attrib_error entries with
  | Some e => run.1 = Err e
  | None => ∃ env, run.1 = Ok env ∧ ae_accountKey env = "" ∧ ae_authEnv env = entries ≫= attrib_env
  end.
Proof.
  cbv zeta. unfold GetAuthEnv. cbv zeta. rewrite !run_bind. destruct (first_error _ _) as [e|]; [done|]. cbn [throw_some].
  destruct (decide (NFS = NFS)); [|done]. split; [done|]. by eexists.
Qed.

(** No workload identity, no client id and no NFS: the credentials are looked for. *)
Record plain_attributes (attrib : gomap) (protocol : string) : Prop := {
  plain_valid : first_error attrib_error (mrange 671 attrib) = None;
  plain_protocol : protocol ≠ NFS;
  plain_token : parsed_bool (attribute attrib mountWithWITokenField) = false;
  plain_client : attribute attrib clientIDField = "";
}.

Lemma GetAuthEnv_plain d volumeID protocol attrib secrets s :
  plain_attributes attrib protocol →
  ∃ subsID rg account container secretName ns authType b1 b2 init missing authEnv,
    GetAuthEnv d volumeID protocol attrib secrets s =
    auth_from_credentials d subsID rg account container secretName ns authType b1 b2 secrets (attribute attrib keyVaultURLField)
      (attribute attrib keyVaultSecretNameField) (attribute attrib keyVaultSecretVersionField) init missing authEnv s.
Proof.
  intros [He Hp Hw Hc]. unfold attribute in *. unfold GetAuthEnv. cbv zeta. rewrite run_bind, He. cbn [throw_some].
  destruct (decide (protocol = NFS)); [done|]. unfold mret at 1, io_ret at 1. rewrite Hw, (bool_decide_eq_true_2 _ Hc). cbn [negb].
  do 12 eexists. reflexivity.
Qed.

(** Credentials in the request suffice: without a key vault, a client id or a workload identity, when the request carries
    secrets GetAuthEnv makes no call: it reads neither a Kubernetes secret nor the keys of the account, and the key of the
    mount is the one that the secrets give, or none. *)
Theorem request_secrets_suffice d volumeID protocol attrib secrets s :
  plain_attributes attrib protocol → attribute attrib keyVaultURLField = "" → 0 < mlen secrets →
  let run := GetAuthEnv d volumeID protocol attrib secrets s in
  run.2 = s ∧ ∀ env, run.1 = Ok env → ae_accountKey env = last_of [accountKeyField; defaultSecretAccountKey] (trimmed (mrange 846 secrets)) "".
Proof.
  intros Hplain Hk Hs. cbv zeta.
  destruct (GetAuthEnv_plain d volumeID protocol attrib secrets s Hplain) as (? & ? & ? & container & ? & ? & ? & ? & ? & ? & ? & ? & ->).
  unfold auth_from_credentials. rewrite (bool_decide_eq_true_2 _ Hk). cbn [negb]. rewrite (proj2 (Nat.eqb_neq _ _)) by lia.
  rewrite run_bind. unfold mret at 1 3, io_ret at 1 3. cbv beta iota. rewrite run_bind. destruct (decide (container = "")); [done|].
  split; [done|]. by intros env [= <-].
Qed.

(** C36 - The key vault comes before secrets: take attributes that name a key vault and no client id, do not ask for a
    workload identity token and have well-formed booleans, and a protocol other than nfs.  Then the key of the mount is asked
    of the vault and nowhere else, whatever secrets the request carries: that is all GetAuthEnv does to the outside, its
    error is the vault's when the vault fails, and its key the vault's when it succeeds; a value that starts as a SAS token
    is used as one. *)
Theorem keyvault_first d volumeID protocol attrib secrets s :
  plain_attributes attrib protocol → attribute attrib keyVaultURLField ≠ "" →
  let asked := getKeyVaultSecretContent (attribute attrib keyVaultURLField) (attribute attrib keyVaultSecretNameField)
                 (attribute attrib keyVaultSecretVersionField) s in
  let run := GetAuthEnv d volumeID protocol attrib secrets s in
  run.2 = asked.2 ∧
  (∀ e, asked.1 = Err e → run.1 = Err e) ∧
  ∀ env, run.1 = Ok env →
    ∃ key, asked.1 = Ok key ∧ ae_accountKey env = (if HasPrefix key "?" then "" else key) ∧
           (HasPrefix key "?" = true → key ≠ "" → ("AZURE_STORAGE_SAS_TOKEN=" +:+ key) ∈ ae_authEnv env).
Proof.
  intros Hplain Hk. cbv zeta.
  destruct (GetAuthEnv_plain d volumeID protocol attrib secrets s Hplain) as (? & ? & ? & container & ? & ? & ? & ? & ? & ? & ? & ? & ->).
  unfold auth_from_credentials. rewrite (bool_decide_eq_false_2 _ Hk). cbn [negb]. rewrite !run_bind.
  destruct (getKeyVaultSecretContent _ _ _ _) as [[key|e] w]; [|split_and!; [done|by intros ? [= <-]|done]].
  unfold mret at 1 3, io_ret at 1 3. cbv beta iota. rewrite run_bind.
  destruct (decide (container = "")); [done|]. split_and!; [done..|]. intros env [= <-]. exists key. split; [done|]. split; [done|].
  intros Hsas Hne. cbn [ae_authEnv]. rewrite !elem_of_app. left. right. unfold credentials_env, env_unless_empty, keyvault_credentials, isSASToken.
  cbn [si_accountKey si_accountSasToken]. rewrite Hsas, !elem_of_app. right. left. rewrite (decide_False _ _ Hne). by left.
Qed.
End auth_safety.

(** The NFS protocols do not agree: isNFSProtocol holds of nfs, aznfs and nfsv3, and NodeStageVolume mounts each of them with
    NFS, but GetAuthEnv compares with nfs alone: for a volume of the other two, without any attribute, it lists the keys of
    the account, and fails when that is denied. *)
Theorem aznfs_lists_keys :
  ∀ protocol, protocol ∈ [AZNFS; NFSv3] →
    isNFSProtocol protocol = true ∧
    t_log (s_world (GetAuthEnv (H0 := canonical_order) toy_driver "rg#account#container" protocol None None (toy_state ∅ calm)).2) =
      ["account client "; "list keys account"] ∧
    t_log (s_world (GetAuthEnv (H0 := canonical_order) toy_driver "rg#account#container" NFS None None (toy_state ∅ calm)).2) = [].
Proof. intros protocol [->|[->|[]%elem_of_nil]%elem_of_cons]%elem_of_cons; vm_compute; done. Qed.

Lemma aznfs_lists_keys_witness :
  t_log (s_world (GetAuthEnv (H0 := canonical_order) toy_driver "rg#account#container" AZNFS None None (toy_state ∅ calm)).2) =
    ["account client "; "list keys account"].
Proof. apply (aznfs_lists_keys AZNFS). by left. Defined.

Lemma workload_token_file_witness :
  (∀ c, c ∈ chars "id-account" → token_byte c = true) ∧
  (workload_identity_env "../etc" "" "account" "token" [] (toy_state ∅ calm)).2 = toy_state ∅ calm.
Proof.
  split.
  - eapply (workload_token_file "id" "" "account" "token" [] (toy_state ∅ calm)). vm_compute. reflexivity.
  - refine (proj1 (proj2 (workload_token_file "../etc" "" "account" "token" [] (toy_state ∅ calm)) "."%char _ _)).
    + apply (bool_decide_unpack _). vm_compute. exact I.
    + vm_compute. reflexivity.
Defined.

Lemma plain_none : plain_attributes (H0 := canonical_order) None Fuse2.
Proof. split; [vm_compute; reflexivity|discriminate|vm_compute; reflexivity|vm_compute; reflexivity]. Defined.

Lemma request_secrets_suffice_witness :
  let secrets := Some {[ accountKeyField := " key " ]} in
  (GetAuthEnv (H0 := canonical_order) toy_driver "rg#account#container" Fuse2 None secrets (toy_state ∅ calm)).2 = toy_state ∅ calm.
Proof. apply (request_secrets_suffice (H0 := canonical_order)); [apply plain_none|vm_compute; reflexivity|vm_compute; lia]. Defined.

Definition vault_attributes : gomap := Some {[ keyVaultURLField := "https://vault" ]}.

Lemma keyvault_first_witness :
  (GetAuthEnv (H0 := canonical_order) toy_driver "rg#account#container" Fuse2 vault_attributes None (toy_state ∅ calm)).2 =
  (getKeyVaultSecretContent "https://vault" "" "" (toy_state ∅ calm)).2.
Proof.
  apply (keyvault_first (H0 := canonical_order) toy_driver "rg#account#container" Fuse2 vault_attributes None (toy_state ∅ calm)).
  - split; [vm_compute; reflexivity|discriminate|vm_compute; reflexivity|vm_compute; reflexivity].
  - vm_compute. discriminate.
Defined.
