(* ===== verification/StageSafety.v ===== *)
(** * StageSafety: the mount that NodeStageVolume makes *)
From S2P Require Import Prelude GoUnicode GoStrings GoErr Fields Attributes Util CsiCommon Predicates MountOptions MountSafety Metrics Effects World.
From S2P Require Import Auth Containers Proxy Mounts Node DriverInit Toy.
From stdpp Require Import options.

(** ** Read-only volumes *)

Lemma fallback_step_keeps st o x : x ∈ fb_options st → x ∈ fb_options (fallback_step st o).
Proof.
  intros Hx. unfold fallback_step. destruct (Cut _ "=") as [[f v] hv]. destruct (decide _); [destruct (fb_enabled st); [done|]; apply elem_of_app; by left|].
  destruct (negb _); [apply elem_of_app; by left|]. destruct (translate_flag f); [|done]. destruct (_ && _); [apply elem_of_app; by left|done].
Qed.

(** An option that has nothing to do with the caches survives the fallback. *)
Lemma fallback_keeps os o :
  o ∈ os → is_distributed (flag_name o) = false → flag_name o ≠ "--block-cache" → o ∈ fallbackToLocalBlockCache os.
Proof.
  intros Ho Hd Hb. unfold fallbackToLocalBlockCache.
  assert (∀ st, o ∈ fb_options st ∨ o ∈ os → o ∈ fb_options (foldl fallback_step st os)) as Hkeep.
  { clear Ho. induction os as [|o' os IH]; intros st Hor; simpl; [destruct Hor as [?|[]%elem_of_nil]; done|]. apply IH.
    destruct Hor as [Hin|[->|Hin]%elem_of_cons]; [left; by apply fallback_step_keeps| |by right]. left.
    unfold fallback_step, flag_name in *. destruct (Cut (TrimSpace o') "=") as [[f v] hv]. simpl in *.
    rewrite (decide_False _ _ Hb), Hd. apply elem_of_app. right. by left. }
  specialize (Hkeep {| fb_local := local_flags os; fb_options := []; fb_enabled := false |} (or_intror Ho)).
  destruct (fb_enabled _); [done|]. apply elem_of_app. by left.
Qed.

Section stage.
Context `{RangeOrder}.

Lemma stage_options_keeps e hns opts group flags r o : o ∈ flags → o ≠ "" → stage_options e hns opts group flags = Ok r → o ∈ r.
Proof.
  intros Ho Hne. unfold stage_options. rewrite bind_Ok. intros (l & E & Er).
  assert (o ∈ l) as Hl.
  { destruct e; [|by injection E as <-]. destruct (SanitizeMountOptions _) as [sanitized|]; [|done].
    destruct (ValidateMountArgValues sanitized); [done|]. injection E as <-. apply elem_of_JoinMountOptions. by left. }
  set (l' := if hns then JoinMountOptions l ["--use-adls=true"] else l) in *.
  assert (o ∈ l') as Hl' by (unfold l'; destruct hns; [apply elem_of_JoinMountOptions; by left|done]).
  destruct (_ && _); [|by injection Er as <-]. destruct (ParseUint _ _ _); [|done]. injection Er as <-. apply elem_of_app. by left.
Qed.

(** What is among the staged options reaches the mount, unless the distributed cache is asked for without being supported
    and the option is about the caches. *)
Lemma finish_options_keeps site supported opts tmp container o :
  o ∈ opts →
  o ∈ finish_options site supported opts tmp container ∨
  (supported = false ∧ hasDistributedCacheMountOptions opts = true ∧ (is_distributed (flag_name o) = true ∨ flag_name o = "--block-cache")).
Proof.
  intros Ho. unfold finish_options. rewrite appendDefaultMountOptions_eq.
  destruct (hasDistributedCacheMountOptions opts) eqn:Ed; [|left; apply elem_of_app; by left].
  destruct supported; [left; apply elem_of_app; by left|]. cbn [negb andb].
  destruct (is_distributed (flag_name o)) eqn:Eo; [by right; auto|]. destruct (decide (flag_name o = "--block-cache")); [by right; auto|].
  left. apply elem_of_app. left. by apply fallback_keeps.
Qed.

(** C28 - A read-only volume is mounted read-only: when the access mode of the capability is read-only, the options of an NFS
    mount contain ro, and those of a blobfuse mount contain "-o ro", whatever the flags of the request and the options of
    an inline volume, also after the fallback from the distributed cache.  Every flag that the capability gives, but the
    empty one, stays: among the options of an NFS mount, and among those of a blobfuse mount with one exception, that the
    options ask for the distributed cache, it is not supported, and the flag is one of the distributed cache or
    "--block-cache", which the fallback rewrites. *)
Theorem readonly_mounts vc :
  isReadOnlyFromCapability vc = true →
  "ro" ∈ nfs_options (stage_flags vc true) ∧
  (∀ flag, flag ∈ mount_flags vc → flag ≠ "" → flag ∈ nfs_options (stage_flags vc true)) ∧
  ∀ ephemeral hns inline group opts site supported tmp container,
    stage_options ephemeral hns inline group (stage_flags vc false) = Ok opts →
    "-o ro" ∈ finish_options site supported opts tmp container ∧
    ∀ flag, flag ∈ mount_flags vc → flag ≠ "" →
      flag ∈ finish_options site supported opts tmp container ∨
      (supported = false ∧ hasDistributedCacheMountOptions opts = true ∧ (is_distributed (flag_name flag) = true ∨ flag_name flag = "--block-cache")).
Proof.
  intros Hro. unfold stage_flags. rewrite Hro. split_and!.
  - apply elem_of_JoinMountOptions. left. split; [|done]. apply elem_of_JoinMountOptions. right. by left.
  - intros flag Hflag Hne. apply elem_of_JoinMountOptions. left. split; [|done]. apply elem_of_JoinMountOptions. by left.
  - intros ephemeral hns inline group opts site supported tmp container E. split.
    + assert ("-o ro" ∈ opts) as Hin.
      { eapply stage_options_keeps; [|done|exact E]. apply elem_of_JoinMountOptions. right. by left. }
      destruct (finish_options_keeps site supported opts tmp container _ Hin) as [?|(_ & _ & [Hd|Hb])]; [done|by vm_compute in Hd|by vm_compute in Hb].
    + intros flag Hflag Hne. apply finish_options_keeps. eapply stage_options_keeps; [|done|exact E]. apply elem_of_JoinMountOptions. by left.
Qed.
End stage.

Definition readonly_capability : VolumeCapability :=
  {| vc_access_type := MountType {| mv_fs_type := ""; mv_flags := ["-o allow_other"]; mv_mount_group := "1000" |}; vc_access_mode := Some MULTI_NODE_READER_ONLY |}.

Lemma readonly_mounts_witness :
  "-o allow_other" ∈ nfs_options (stage_flags readonly_capability true) ∧
  match stage_options true false "--distributed-cache-discovery-endpoint=x" "1000" (stage_flags readonly_capability false) with
  | Ok opts => "-o ro" ∈ finish_options (H := canonical_order) 0 false opts "/mnt/v" "c" ∧
               "-o allow_other" ∈ finish_options (H := canonical_order) 0 false opts "/mnt/v" "c"
  | Err _ => False
  end.
Proof.
  destruct (readonly_mounts (H := canonical_order) readonly_capability eq_refl) as (_ & Hnfs & Hfuse).
  split; [apply Hnfs; [by left|discriminate]|].
  destruct (stage_options _ _ _ _ _) as [opts|e] eqn:E; [|vm_compute in E; discriminate E].
  destruct (Hfuse true false _ _ opts 0 false "/mnt/v" "c" E) as [Hro Hflag]. split; [exact Hro|].
  destruct (Hflag "-o allow_other") as [Hin|(_ & _ & [Hd|Hb])]; [by left|discriminate|exact Hin|vm_compute in Hd; discriminate Hd|vm_compute in Hb; discriminate Hb].
Defined.

(** ** Waiting for a token *)

Section waiting.
Context {W : Type} `{Ops W} `{RangeOrder}.
Implicit Types s : st W.

(** Staging with a workload identity waits for its token: when the attributes pass the checks and ask for a workload
    identity but neither they nor the secrets carry a token, NodeStageVolume succeeds at once and changes nothing, so that
    the mount is left to NodePublishVolume, which gets the token of the pod. *)
Theorem stage_waits_for_token d req vc attrib s :
  ns_VolumeId req ≠ "" → ns_StagingTargetPath req ≠ "" → ns_VolumeCapability req = Some vc →
  check_attributes "NodeStageVolume" 379 385 (ns_VolumeContext req) = Ok attrib → useWorkloadIdentity attrib = true →
  getServiceAccountTokens (ns_Secrets req) attrib = "" → (stage_lock_key (ns_VolumeId req) (ns_StagingTargetPath req) ∉ s_locks s) →
  NodeStageVolume d req s = (Ok (), s).
Proof.
  intros Hv Ht Hvc Ha Hw Htok Hl. unfold NodeStageVolume. rewrite run_bind, (bool_decide_eq_false_2 _ Hv). cbn [throw_if].
  unfold mret at 1, io_ret at 1. rewrite run_bind, (bool_decide_eq_false_2 _ Ht). cbn [throw_if]. unfold mret at 1, io_ret at 1. rewrite Hvc.
  assert (∀ s0 : st W, stage_locked d req vc s0 = (Ok (), s0)) as Hbody.
  { intros s0. unfold stage_locked. rewrite Ha, run_bind. unfold from_result at 1. cbv zeta. by rewrite Hw, Htok, bool_decide_eq_true_2. }
  unfold with_volume_lock. rewrite run_bind. unfold TryAcquire. rewrite decide_False by done. rewrite run_defer, Hbody. cbn [fst snd].
  f_equal. by apply Release_acquired.
Qed.
End waiting.

Definition waiting_request : NodeStageVolumeRequest :=
  {| ns_VolumeId := "vol"; ns_StagingTargetPath := "/mnt/a"; ns_VolumeCapability := Some readonly_capability;
     ns_VolumeContext := Some {[ mountWithWITokenField := "true" ]}; ns_Secrets := None |}.

Lemma stage_waits_for_token_witness :
  NodeStageVolume (H0 := canonical_order) toy_driver waiting_request (toy_state ∅ calm) = (Ok (), toy_state ∅ calm).
Proof.
  apply (stage_waits_for_token (H0 := canonical_order) _ _ readonly_capability (Some {[ mountWithWITokenField := "true" ]}));
    [discriminate|discriminate|reflexivity|vm_compute; reflexivity|vm_compute; reflexivity|vm_compute; reflexivity|].
  apply (bool_decide_unpack _). vm_compute. exact I.
Defined.
