(* ===== verification/SubnetSafety.v ===== *)
(** * SubnetSafety: what updateSubnetServiceEndpoints does to a virtual network, and what it caches *)
From S2P Require Import Prelude GoUnicode GoStrings GoErr Fields Attributes CsiCommon Metrics Effects World Auth Subnets DriverInit Toy.
From stdpp Require Import options.

Section subnet_safety.
Context {W : Type} `{Ops W}.
Implicit Types s : st W.

(** The subnet with the storage endpoint at the end. *)
Definition with_storage_service (location : string) (subnet : Subnet) : Subnet :=
  {| sn_Name := sn_Name subnet; sn_ServiceEndpoints := sn_ServiceEndpoints subnet ++ [(Some storageService, [location])] |}.

(** A service endpoint of a subnet for storage: its service is Microsoft.Storage, or a name that starts so, such as
    Microsoft.Storage.Global. *)
Definition has_storage_endpoint (subnet : Subnet) : Prop :=
  ∃ suffix locations, (Some ("Microsoft.Storage" +:+ suffix), locations) ∈ sn_ServiceEndpoints subnet.

Lemma storageServiceExists_spec subnet : storageServiceExists subnet = true ↔ has_storage_endpoint subnet.
Proof.
  unfold storageServiceExists, has_storage_endpoint. rewrite existsb_exists. split.
  - intros ([[service|] locations] & Hin%list_elem_of_In & Hp); [|done]. apply HasPrefix_spec in Hp as [suffix Hs]. simpl in Hs. subst service. by exists suffix, locations.
  - intros (suffix & locations & Hin%list_elem_of_In). eexists. split; [exact Hin|]. apply HasPrefix_app.
Qed.

Lemma storageServiceExists_false subnet : storageServiceExists subnet = false ↔ ¬ has_storage_endpoint subnet.
Proof. rewrite <- storageServiceExists_spec. by destruct (storageServiceExists subnet). Qed.

(** Every subnet of the list that lacks the storage endpoint gets it, one successful update each, in order; the ids of all
    the subnets are collected. *)
Inductive updates (c : CloudConfig) (rg vnet location : string) : list Subnet → W → W → list string → Prop :=
| updates_nil w : updates c rg vnet location [] w w []
| updates_present name subnet subnets w w' ids :
    sn_Name subnet = Some name → has_storage_endpoint subnet → updates c rg vnet location subnets w w' ids →
    updates c rg vnet location (subnet :: subnets) w w' (getSubnetResourceID c rg vnet name :: ids)
| updates_absent name subnet subnets w w1 w' ids :
    sn_Name subnet = Some name → ¬ has_storage_endpoint subnet →
    op_subnet_update rg vnet name (with_storage_service location subnet) w = (None, w1) → updates c rg vnet location subnets w1 w' ids →
    updates c rg vnet location (subnet :: subnets) w w' (getSubnetResourceID c rg vnet name :: ids).

Lemma update_subnet_Ok d rg vnet location ids subnet s ids' s' :
  update_subnet d rg vnet location ids subnet s = (Ok ids', s') ↔
  ∃ name, sn_Name subnet = Some name ∧ ids' = ids ++ [getSubnetResourceID (d_cloud d) rg vnet name] ∧
    if storageServiceExists subnet then s' = s
    else ∃ w, op_subnet_update rg vnet name (with_storage_service location subnet) (s_world s) = (None, w) ∧ s' = set_world w s.
Proof.
  unfold update_subnet. destruct (sn_Name subnet) as [name|] eqn:En; [|split; [done|by intros (? & ? & _)]].
  destruct (storageServiceExists subnet).
  - split; [by intros [= <- <-]; eauto|]. by intros (? & [= <-] & -> & ->).
  - unfold with_storage_service. rewrite En. rewrite run_bind. unfold wrap_err, call_err. rewrite run_bind. unfold ask.
    destruct (op_subnet_update _ _ _ _ _) as [[e|] w] eqn:Eu; simpl; (split; [try done|]).
    + intros (? & [= <-] & _ & w' & E & _). rewrite Eu in E. done.
    + intros [= <- <-]. exists name. split_and!; [done..|]. by exists w.
    + intros (? & [= <-] & -> & w' & E & ->). rewrite Eu in E. by injection E as <-.
Qed.

Lemma set_world_twice w w' s : set_world w (set_world w' s) = set_world w s.
Proof. done. Qed.
Lemma set_world_id s : set_world (s_world s) s = s.
Proof. by destruct s. Qed.

Lemma update_subnets_Ok d rg vnet location subnets ids0 s ids s' :
  for_each (update_subnet d rg vnet location) ids0 subnets s = (Ok ids, s') ↔
  ∃ l w, updates (d_cloud d) rg vnet location subnets (s_world s) w l ∧ ids = ids0 ++ l ∧ s' = set_world w s.
Proof.
  revert ids0 s. induction subnets as [|subnet subnets IH]; intros ids0 s; cbn [for_each].
  - split.
    + intros [= <- <-]. exists [], (s_world s). rewrite app_nil_r, set_world_id. by split; [constructor|].
    + intros (l & w & Hu & -> & ->). inversion Hu; subst. by rewrite app_nil_r, set_world_id.
  - rewrite run_bind. split.
    + destruct (update_subnet _ _ _ _ _ _ _) as [[ids1|] s1] eqn:E1; [|done]. apply update_subnet_Ok in E1 as (name & Hn & -> & Hs).
      intros (l & w & Hu & -> & ->)%IH. rewrite <- app_assoc. exists (getSubnetResourceID (d_cloud d) rg vnet name :: l), w.
      destruct (storageServiceExists subnet) eqn:Es; [subst s1|destruct Hs as (w1 & Ew & ->)]; (split; [|done]).
      * by apply updates_present; [|apply storageServiceExists_spec|].
      * by apply (updates_absent _ _ _ _ _ _ _ _ w1); [|apply storageServiceExists_false|..].
    + intros (l & w & Hu & -> & ->). inversion Hu as [|name ? ? ? ? l' Hn Hs Hu'|name ? ? ? w1 ? l' Hn Hs Ew Hu']; subst.
      * apply storageServiceExists_spec in Hs. rewrite (proj2 (update_subnet_Ok _ _ _ _ _ _ s _ s)) by (exists name; by rewrite Hs).
        apply IH. exists l', w. by rewrite <- app_assoc.
      * apply storageServiceExists_false in Hs. rewrite (proj2 (update_subnet_Ok _ _ _ _ _ _ s _ (set_world w1 s))) by (exists name; rewrite Hs; eauto).
        apply IH. exists l', w. by rewrite <- app_assoc.
Qed.

(** An endpoint that was added is one for storage, so that a second update of the subnet is not asked. *)
Lemma with_storage_service_has location subnet : has_storage_endpoint (with_storage_service location subnet).
Proof. exists "", [location]. apply elem_of_app. right. by left. Qed.

(** C32 - Each subnet gets the endpoint once: the loop of updateSubnetServiceEndpoints over the subnets succeeds exactly when every
    subnet has a name and every subnet without an endpoint whose service starts with Microsoft.Storage was updated, in the
    order of the list, to its endpoints followed by one of Microsoft.Storage at the location; it answers the resource ids of
    all the subnets in that order, and has no other effect.  A subnet as it was written is not written again. *)
Theorem subnets_updated d rg vnet location subnets s ids s' :
  (for_each (update_subnet d rg vnet location) [] subnets s = (Ok ids, s') ↔
   ∃ w, updates (d_cloud d) rg vnet location subnets (s_world s) w ids ∧ s' = set_world w s) ∧
  ∀ subnet name ids0, sn_Name subnet = Some name →
    update_subnet d rg vnet location ids0 (with_storage_service location subnet) s =
    (Ok (ids0 ++ [getSubnetResourceID (d_cloud d) rg vnet name]), s).
Proof.
  rewrite update_subnets_Ok. split; [split|].
  - intros (l & w & Hu & -> & ->). eauto.
  - intros (w & Hu & ->). by exists ids, w.
  - intros subnet name ids0 Hn. apply update_subnet_Ok. exists name.
    by rewrite (proj2 (storageServiceExists_spec _) (with_storage_service_has location subnet)).
Qed.

(** ** The cache *)

Lemma subnets_cached d rg vnet subnet s ids s' :
  updateSubnetServiceEndpoints d rg vnet subnet s = (Ok ids, s') →
  let c := d_cloud d in
  let rg := or_default rg (or_default (c_VnetResourceGroup c) (c_ResourceGroup c)) in
  let vnet := or_default vnet (c_VnetName c) in
  ∃ created, s_subnetCache s' !! (rg +:+ vnet +:+ subnet) = Some (ids, created).
Proof.
  cbv zeta. unfold updateSubnetServiceEndpoints. cbv zeta. intros E. apply bind_inv_Ok in E as ([] & s1 & [_ ->]%throw_if_inv_Ok & E).
  apply bind_inv_Ok in E as ([] & s1 & [_ ->]%throw_if_inv_Ok & E). apply bind_inv_Ok in E as (cache & s1 & Ec & E). destruct cache as [v|].
  - injection E as <- <-. unfold subnetCache_get, read_cache in Ec. destruct (op_now _) as [now w]. unfold cache_get in Ec.
    destruct (s_subnetCache s !! _) as [[v' t]|] eqn:El; [|done]. destruct (_ <? _)%Z; [|done]. injection Ec as -> <-. by exists t.
  - apply bind_inv_Ok in E as (subnets & s2 & _ & E). apply bind_inv_Ok in E as (ids' & s3 & _ & E).
    apply bind_inv_Ok in E as ([] & s4 & Ew & E). injection E as <- <-. unfold subnetCache_set, write_cache in Ew.
    destruct (op_now _) as [now w]. injection Ew as <-. exists now. apply lookup_insert_eq.
Qed.

(** C33 - The cache of subnets confuses virtual networks: its key joins resource group, network and subnet names without a
    separator.  After a call that succeeded, a call for other names with the same concatenation answers, for ten minutes,
    the resource ids of the first network, and updates no subnet of the second. *)
Theorem subnet_cache_confusion d rg1 vnet1 subnet1 rg2 vnet2 subnet2 s ids s1 now w :
  updateSubnetServiceEndpoints d rg1 vnet1 subnet1 s = (Ok ids, s1) →
  rg1 ≠ "" → vnet1 ≠ "" → rg2 ≠ "" → vnet2 ≠ "" → rg1 +:+ vnet1 +:+ subnet1 = rg2 +:+ vnet2 +:+ subnet2 →
  op_now (s_world s1) = (now, w) →
  ∃ created, s_subnetCache s1 !! (rg1 +:+ vnet1 +:+ subnet1) = Some (ids, created) ∧
    ((now - created < minutes 10)%Z →
     updateSubnetServiceEndpoints d rg2 vnet2 subnet2 s1 = (Ok ids, set_subnets (s_subnetCache s1) (set_world w s1))).
Proof.
  intros E Hr1 Hv1 Hr2 Hv2 Hkey Hnow. pose proof (subnets_cached _ _ _ _ _ _ _ E) as [created Hc].
  unfold or_default in Hc. rewrite (decide_False _ _ Hr1), (decide_False _ _ Hv1) in Hc. exists created. split; [done|]. intros Ht.
  unfold updateSubnetServiceEndpoints in *. cbv zeta in *.
  apply bind_inv_Ok in E as ([] & s2 & [E1 ->]%throw_if_inv_Ok & E). apply bind_inv_Ok in E as ([] & s2 & [E2 ->]%throw_if_inv_Ok & _).
  rewrite run_bind, E1. cbn [throw_if]. unfold mret at 1, io_ret at 1. rewrite run_bind.
  apply orb_false_iff in E2 as [_ E2]. unfold or_default. rewrite (decide_False _ _ Hr2), (decide_False _ _ Hv2), E2, (bool_decide_eq_false_2 _ Hv2).
  cbn [orb throw_if]. unfold mret at 1, io_ret at 1. rewrite run_bind. unfold subnetCache_get, read_cache. rewrite Hnow.
  unfold cache_get. rewrite <- Hkey, Hc, (proj2 (Z.ltb_lt _ _) Ht). done.
Qed.
End subnet_safety.

(** Two subnets, the second without a storage endpoint. *)
Definition two_subnets : list Subnet :=
  [{| sn_Name := Some "a"; sn_ServiceEndpoints := [(Some "Microsoft.Storage.Global", ["*"])] |};
   {| sn_Name := Some "b"; sn_ServiceEndpoints := [(Some "Microsoft.Sql", ["eastus"])] |}].

Lemma subnets_updated_witness :
  ∃ ids, updates (d_cloud toy_driver) "rg" "vnet" "eastus" two_subnets calm (logged "update subnet b" calm) ids ∧ length ids = 2.
Proof.
  set (run := for_each (update_subnet toy_driver "rg" "vnet" "eastus") [] two_subnets (toy_state ∅ calm)).
  assert (match run.1 with Ok ids => length ids | Err _ => 0 end = 2) as Hlen by (vm_compute; reflexivity).
  assert (s_world run.2 = logged "update subnet b" calm) as Hw by (vm_compute; reflexivity).
  destruct run as [[ids|e] s'] eqn:E; [|discriminate Hlen].
  destruct (proj1 (proj1 (subnets_updated toy_driver "rg" "vnet" "eastus" two_subnets (toy_state ∅ calm) ids s')) E) as (w & Hu & Hs).
  exists ids. split; [|exact Hlen]. simpl in Hw. rewrite <- Hw, Hs. exact Hu.
Defined.

(** The group ab with the network c, then the group a with the network bc. *)
Definition after_first_network : st toy := (updateSubnetServiceEndpoints toy_driver "ab" "c" "" (toy_state ∅ calm)).2.

Lemma subnet_cache_confusion_witness :
  updateSubnetServiceEndpoints toy_driver "a" "bc" "" after_first_network =
  (Ok ["/subscriptions/sub/resourceGroups/ab/providers/Microsoft.Network/virtualNetworks/c/subnets/default"], after_first_network).
Proof.
  assert (updateSubnetServiceEndpoints toy_driver "ab" "c" "" (toy_state ∅ calm) =
    (Ok ["/subscriptions/sub/resourceGroups/ab/providers/Microsoft.Network/virtualNetworks/c/subnets/default"], after_first_network)) as E
    by (vm_compute; reflexivity).
  destruct (subnet_cache_confusion _ _ _ _ "a" "bc" "" _ _ _ 0 (s_world after_first_network) E) as (created & Hc & Hrun);
    [discriminate..|reflexivity|vm_compute; reflexivity|].
  vm_compute in Hc. injection Hc as <-. rewrite Hrun; [|vm_compute; reflexivity]. vm_compute. reflexivity.
Defined.
