(* ===== verification/DriverSafety.v ===== *)
(** * DriverSafety: the driver that NewDriver builds, and the sizes it rounds *)
From S2P Require Import Prelude GoUnicode GoStrings GoErr Fields Attributes Util CsiCommon Predicates MountOptions Metrics Effects World Auth Containers.
From S2P Require Import Proxy DriverInit Toy.
From stdpp Require Import options.

(** ** Options *)

Definition set_append_timestamp (b : bool) (o : DriverOptions) : DriverOptions :=
  {| o_NodeID := o_NodeID o; o_DriverName := o_DriverName o; o_BlobfuseProxyEndpoint := o_BlobfuseProxyEndpoint o;
     o_EnableBlobfuseProxy := o_EnableBlobfuseProxy o; o_EnableBlobMockMount := o_EnableBlobMockMount o;
     o_AllowInlineVolumeKeyAccessWithIdentity := o_AllowInlineVolumeKeyAccessWithIdentity o; o_EnableGetVolumeStats := o_EnableGetVolumeStats o;
     o_AppendMountErrorHelpLink := o_AppendMountErrorHelpLink o; o_MountPermissions := o_MountPermissions o; o_AppendTimeStampInCacheDir := b;
     o_EnableAznfsMount := o_EnableAznfsMount o; o_VolStatsCacheExpireInMinutes := o_VolStatsCacheExpireInMinutes o;
     o_SasTokenExpirationMinutes := o_SasTokenExpirationMinutes o; o_WaitForAzCopyTimeoutMinutes := o_WaitForAzCopyTimeoutMinutes o;
     o_EnableVolumeMountGroup := o_EnableVolumeMountGroup o; o_FSGroupChangePolicy := o_FSGroupChangePolicy o |}.

(** What NewDriver keeps of its options: the controller capabilities are the four declared ones, so that a request is
    accepted for exactly those and the unknown one; the statistics cache lives ten minutes unless a positive time is given;
    the option to append a time stamp to the cache directory is lost: the driver is the same with and without it, and never
    appends one. *)
Theorem NewDriver_options o version hasKube c :
  (∀ cap, ValidateControllerServiceRequest (d_csi (NewDriver o version hasKube c)) cap = None ↔
     cap ∈ [RPC_UNKNOWN; CREATE_DELETE_VOLUME; EXPAND_VOLUME; CTRL_SINGLE_NODE_MULTI_WRITER; CLONE_VOLUME]) ∧
  (0 < d_volStatsCacheMinutes (NewDriver o version hasKube c))%Z ∧
  (∀ b, NewDriver (set_append_timestamp b o) version hasKube c = NewDriver o version hasKube c) ∧
  d_appendTimeStampInCacheDir (NewDriver (set_append_timestamp true o) version hasKube c) = false.
Proof.
  split_and!; [|simpl; destruct (Z.leb_spec (o_VolStatsCacheExpireInMinutes o) 0); lia|done|done].
  intros cap. rewrite ValidateControllerServiceRequest_None. simpl. unfold driver_controller_caps. by rewrite (elem_of_cons _ cap RPC_UNKNOWN).
Qed.

(** ** Sizes *)

Lemma GiB_pow : GiB = (2 ^ 30)%Z.
Proof. reflexivity. Qed.

(** C40 - Sizes are rounded up to whole GiB: for a size of zero or more bytes that fits 64 bits, RoundUpGiB is the least number of
    GiB that holds it; RoundUpBytes is that number in bytes while the result fits, up to 2^63 - 2^30 bytes, and beyond that
    it wraps around to the smallest 64-bit integer. *)
Theorem rounded_sizes b :
  (0 ≤ b)%Z → in_int64 b →
  (b ≤ RoundUpGiB b * 2 ^ 30)%Z ∧ (∀ g, (b ≤ g * 2 ^ 30)%Z → (RoundUpGiB b ≤ g)%Z) ∧
  RoundUpBytes b = (if (b <=? 2 ^ 63 - 2 ^ 30)%Z then RoundUpGiB b * 2 ^ 30 else - 2 ^ 63)%Z.
Proof.
  intros Hb Hr. destruct (RoundUpGiB_least b Hb Hr) as [H1 H2]. rewrite GiB_pow in H1, H2. split_and!; [done|done|].
  unfold RoundUpBytes. change (roundUpSize b GiB) with (RoundUpGiB b). rewrite GiB_pow. set (g := RoundUpGiB b) in *.
  assert (0 ≤ g)%Z as Hg by lia. unfold in_int64, int64_min, int64_max in Hr. destruct (Z.leb_spec b (2 ^ 63 - 2 ^ 30)) as [Hle|Hgt].
  - assert (g ≤ 2 ^ 33 - 1)%Z by (apply H2; lia). apply wrap_signed_64_id. unfold in_int64, int64_min, int64_max. lia.
  - assert (g ≤ 2 ^ 33)%Z by (apply H2; lia). assert (g = 2 ^ 33)%Z as -> by lia. vm_compute. reflexivity.
Qed.

Lemma rounded_sizes_witness : RoundUpBytes (2 ^ 63 - 1) = (- 2 ^ 63)%Z ∧ RoundUpBytes 1 = (RoundUpGiB 1 * 2 ^ 30)%Z.
Proof.
  split.
  - destruct (rounded_sizes (2 ^ 63 - 1)) as (_ & _ & E); [lia|unfold in_int64, int64_min, int64_max; lia|exact E].
  - destruct (rounded_sizes 1) as (_ & _ & E); [lia|unfold in_int64, int64_min, int64_max; lia|exact E].
Defined.

(** ** The proxy monitor *)

(** Every health check is counted once: a monitor stopped after some ticks of its timer has made one check more than the
    ticks, each recorded under blobfuse_proxy_health, and touches nothing else of the driver. *)
Theorem monitor_counts {W} `{Ops W} endpoint ticks (s : st W) :
  ∃ answers w, length answers = S ticks ∧
    monitor_run endpoint ticks s =
    (Ok (), add_samples (answers ≫= λ ok, Observe (WithLogLevel (NewCSIMetricContext "blobfuse_proxy_health") 6) ok) (set_world w s)).
Proof.
  assert (∀ s : st W, ∃ ok w, checkHealth endpoint s = (Ok (), add_samples (Observe (WithLogLevel (NewCSIMetricContext "blobfuse_proxy_health") 6) ok) (set_world w s))) as Hone.
  { intros s0. unfold checkHealth, isProxyReachable. rewrite run_bind, run_bind. unfold ask. destruct (op_dial_unix _ _) as [err w].
    by exists (bool_decide (err = None)), w. }
  induction ticks as [|ticks (answers & w & Hlen & E)]; cbn [monitor_run].
  - destruct (Hone s) as (ok & w & ->). exists [ok], w. split; [done|]. simpl. by rewrite app_nil_r.
  - rewrite run_bind, E. destruct (Hone (add_samples (answers ≫= λ ok, Observe (WithLogLevel (NewCSIMetricContext "blobfuse_proxy_health") 6) ok) (set_world w s)))
      as (ok & w' & ->). exists (answers ++ [ok]), w'. rewrite length_app, Hlen. split; [simpl; lia|]. f_equal. rewrite bind_app.
    unfold add_samples, set_world. simpl. by rewrite app_nil_r, app_assoc.
Qed.
