(* ===== verification/Startup.v ===== *)
(** * Startup: the cloud configuration, the listener and the two programs

    GetCloudProvider of pkg/blob/azure.go, GetKubeClient and GetOSInfo of pkg/util/util.go,
    Listen of pkg/csi-common/utils.go, AddFlags and Run of pkg/blob/blob.go, pkg/blobplugin/main.go and the main
    function of pkg/blobfuse-proxy/main.go.  The process that klog.Fatal or a panic ends is a thrown error.  The loaders,
    clients and servers that the libraries provide are the operations of the class [Host]. *)
From S2P Require Import Prelude GoUnicode GoStrings GoErr Fields Attributes CsiCommon Metrics Effects World Proxy DriverInit.
From stdpp Require Import options.

Definition DefaultAzureCredentialFileEnv : string := "AZURE_CREDENTIAL_FILE".
Definition DefaultCredFilePath : string := "/etc/kubernetes/azure.json".

(** azureconfig.Config: the fields that the code sets; the others are a value of the library, [X]. *)
Record AzureConfig (X : Type) := {
  az_UserAgent : string; az_CloudProviderBackoff : bool; az_TenantID : string; az_AADClientID : string; az_AADFederatedTokenFile : string;
  az_UseFederatedWorkloadIdentityExtension : bool; az_UseInstanceMetadata : bool; az_rest : X;
}.
Arguments az_UserAgent {X}. Arguments az_CloudProviderBackoff {X}. Arguments az_TenantID {X}. Arguments az_AADClientID {X}.
Arguments az_AADFederatedTokenFile {X}. Arguments az_UseFederatedWorkloadIdentityExtension {X}. Arguments az_UseInstanceMetadata {X}.
Arguments az_rest {X}.

(** azclient.Environment and storage.AccountRepo, whose Environment may be nil. *)
Record Environment (X : Type) := { en_StorageEndpointSuffix : string; en_rest : X }.
Arguments en_StorageEndpointSuffix {X}. Arguments en_rest {X}.
Record AccountRepo (X : Type) := { ar_Config : AzureConfig X; ar_Environment : option (Environment X); ar_rest : X }.
Arguments ar_Config {X}. Arguments ar_Environment {X}. Arguments ar_rest {X}.

(** rest.Config, as far as it is set here; the QPS is a float32. *)
Record KubeConfig (X : Type) := { kc_QPS : X; kc_Burst : Z; kc_UserAgent : string; kc_rest : X }.
Arguments kc_QPS {X}. Arguments kc_Burst {X}. Arguments kc_UserAgent {X}. Arguments kc_rest {X}.

(** A kubernetes.Interface: nil, a *Clientset that is nil, or one to call. *)
Inductive kube (X : Type) := NilInterface | NilClientset | Clientset (c : X).
Arguments NilInterface {X}.
Arguments NilClientset {X}.
Arguments Clientset {X} c.

(** What the start-up asks of the platform and the libraries. *)
Class Host (W X : Type) := {
  host_zero : X;                                                                  (* the zero value of what a library owns *)
  host_env : string → option string;                                              (* os.LookupEnv *)
  host_load_secret : X → string → string → string → W → (option (AzureConfig X) * option error) * W;  (* client, name, namespace, key *)
  host_load_file : string → W → (option (AzureConfig X) * option error) * W;
  host_initialize : AzureConfig X → bool → bool → W → (AzureConfig X * X * option error) * W;     (* InitializeCloudFromConfig *)
  host_env_config : AzureConfig X → W → (AzureConfig X * result (option (Environment X))) * W;    (* GetAzureCloudConfigAndEnvConfig *)
  host_new_repository : AzureConfig X → option (Environment X) → X → W → result (AccountRepo X) * W;
  host_cloud : AccountRepo X → CloudConfig;                                       (* the fields that the driver reads *)
  host_float32 : X → X;                                                           (* the conversion of a float64 *)
  host_build_config : string → string → W → result (option (KubeConfig X)) * W;   (* clientcmd.BuildConfigFromFlags *)
  host_in_cluster : W → result (KubeConfig X) * W;
  host_new_kube : KubeConfig X → W → result X * W;
  host_ini_load : string → W → result (gmap string string) * W;                   (* ini.Load, the keys of the default section *)
  host_remove : string → W → option error * W;
  host_is_not_exist : error → bool;
  host_listen : string → string → W → result X * W;                               (* network, address *)
  host_yaml : VersionInfo → result string;                                        (* yaml.Marshal *)
  host_driverVersion : string; host_gitCommit : string; host_buildDate : string;  (* set by the linker *)
  host_goVersion : string; host_compiler : string; host_goos : string; host_goarch : string;
  host_start_monitor : string → W → W;                                            (* go monitor.Start *)
  host_addr : X → string;                                                         (* the address of a listener *)
  host_serve : X → W → option error * W;                                          (* Serve on the listener, until it ends *)
  host_server_stopped : error → bool;                                             (* errors.Is(err, grpc.ErrServerStopped) *)
}.

Section startup.
Context {W X : Type} `{Host W X}.

Definition panic_nil : error := errorf "runtime error: invalid memory address or nil pointer dereference" [].
Definition getenv (k : string) : string := default "" (host_env k).

(** A call that returns a value or an error. *)
Definition host {A} (op : W → result A * W) : io W A := λ w, op w.

(** ** Cloud configuration *)

(** [config.X = v] when [v] is set in the environment, and what else that sets. *)
Definition prepare_config (userAgent : string) (c : AzureConfig X) : AzureConfig X :=
  let file := getenv "AZURE_FEDERATED_TOKEN_FILE" in
  {| az_UserAgent := userAgent; az_CloudProviderBackoff := true;
     az_TenantID := if decide (getenv "AZURE_TENANT_ID" = "") then az_TenantID c else getenv "AZURE_TENANT_ID";
     az_AADClientID := if decide (getenv "AZURE_CLIENT_ID" = "") then az_AADClientID c else getenv "AZURE_CLIENT_ID";
     az_AADFederatedTokenFile := if decide (file = "") then az_AADFederatedTokenFile c else file;
     az_UseFederatedWorkloadIdentityExtension := if decide (file = "") then az_UseFederatedWorkloadIdentityExtension c else true;
     az_UseInstanceMetadata := az_UseInstanceMetadata c; az_rest := az_rest c |}.

Definition set_instance_metadata (b : bool) (c : AzureConfig X) : AzureConfig X :=
  {| az_UserAgent := az_UserAgent c; az_CloudProviderBackoff := az_CloudProviderBackoff c; az_TenantID := az_TenantID c;
     az_AADClientID := az_AADClientID c; az_AADFederatedTokenFile := az_AADFederatedTokenFile c;
     az_UseFederatedWorkloadIdentityExtension := az_UseFederatedWorkloadIdentityExtension c; az_UseInstanceMetadata := b; az_rest := az_rest c |}.

Definition empty_config : AzureConfig X :=
  {| az_UserAgent := ""; az_CloudProviderBackoff := false; az_TenantID := ""; az_AADClientID := ""; az_AADFederatedTokenFile := "";
     az_UseFederatedWorkloadIdentityExtension := false; az_UseInstanceMetadata := false; az_rest := host_zero |}.
Definition empty_repo : AccountRepo X := {| ar_Config := empty_config; ar_Environment := None; ar_rest := host_zero |}.

(** The deferred function: the suffix of a repository that has none. *)
Definition ensure_suffix (r : AccountRepo X) : AccountRepo X :=
  if decide (default "" (en_StorageEndpointSuffix <$> ar_Environment r) = "") then
    {| ar_Config := ar_Config r; ar_Environment := Some {| en_StorageEndpointSuffix := defaultStorageEndPointSuffix; en_rest := host_zero |};
       ar_rest := ar_rest r |}
  else r.

(** The configuration that the secret gave, else the one of the file, with its error. *)
Definition or_file (config : option (AzureConfig X)) (err : option error) (fromSecret : bool) : io W (option (AzureConfig X) * option error * bool) :=
  match config with
  | Some c => mret (Some c, err, fromSecret)
  | None =>
    let credFile := match host_env DefaultAzureCredentialFileEnv with
                    | Some f => if decide (TrimSpace f = "") then DefaultCredFilePath else f
                    | None => DefaultCredFilePath
                    end in
    '(config, err) ← lift (host_load_file credFile);
    mret (config, err, fromSecret)
  end.

(** The configuration from the secret, else from the file; its error; whether it is from the secret. *)
Definition load_config (kubeClient : kube X) (secretName secretNamespace : string) : io W (option (AzureConfig X) * option error * bool) :=
  if bool_decide (secretName = "") || bool_decide (secretNamespace = "") then or_file None None false
  else match kubeClient with
       | NilInterface => or_file None None false
       | NilClientset => throw panic_nil
       | Clientset c =>
         '(config, err) ← lift (host_load_secret c secretName secretNamespace "cloud-config");
         or_file config err (bool_decide (err = None) && bool_decide (is_Some config))
       end.

(** What the function returns at its end or in the middle: the repository or nil, and an error; and the variable [repo],
    on which the deferred function works. *)
Record leaving := { lv_repo : option (AccountRepo X); lv_returns_repo : bool; lv_err : option error }.

Definition cloud_provider (kubeClient : kube X) (nodeID secretName secretNamespace userAgent : string) (allowEmptyCloudConfig : bool) : io W leaving :=
  '(config, err, fromSecret) ← load_config kubeClient secretName secretNamespace;
  match config with
  | None =>
    mret {| lv_repo := Some empty_repo; lv_returns_repo := true;
            lv_err := if allowEmptyCloudConfig then None else Some (errorf "no cloud config provided, error: %w" [match err with Some e => Error e | None => "%!w(<nil>)" end]) |}
  | Some config =>
    let config := prepare_config userAgent config in
    '(config, az, err) ← lift (host_initialize config fromSecret false);
    '(config, env) ← lift (host_env_config config);
    match env with
    | Err e => mret {| lv_repo := Some empty_repo; lv_returns_repo := false; lv_err := Some (errorf "failed to get AzureCloudConfigAndEnvConfig: %v" [Error e]) |}
    | Ok env =>
      let config := if decide (nodeID = "") then set_instance_metadata false config else config in
      repo ← lift (host_new_repository config env az);
      match repo with
      | Err e => mret {| lv_repo := None; lv_returns_repo := false; lv_err := Some (errorf "failed to create storage repository: %v" [Error e]) |}
      | Ok repo => mret {| lv_repo := Some repo; lv_returns_repo := true; lv_err := None |}
      end
    end
  end.

(** GetCloudProvider: the repository or nil, and the error; the deferred function panics on a nil [repo]. *)
Definition GetCloudProvider (kubeClient : kube X) (nodeID secretName secretNamespace userAgent : string) (allowEmptyCloudConfig : bool) :
    io W (option (AccountRepo X) * option error) :=
  l ← cloud_provider kubeClient nodeID secretName secretNamespace userAgent allowEmptyCloudConfig;
  match lv_repo l with
  | None => throw panic_nil
  | Some repo => mret (if lv_returns_repo l then Some (ensure_suffix repo) else None, lv_err l)
  end.

(** ** Operating system *)

Definition GetOSInfo (f : string) : io W OsInfo :=
  cfg ← wrap_err (λ e, errorf "failed to read %q: %v" [f; Error e]) (host (host_ini_load f));
  let key k := default "" (cfg !! k) in
  mret {| os_Distro := key "ID"; os_Version := key "VERSION_ID"; os_Variant := key "VARIANT_ID" |}.

(** NewMountServiceServer reads the version once; exec.Command is a field for the tests. *)
Definition NewMountServiceServer : io W BlobfuseVersion :=
  osinfo ← attempt (GetOSInfo "/etc/os-release");
  mret (getBlobfuseVersion osinfo).

(** ** Kubernetes *)

(** GetKubeClient: a client and an error.  The client of a failed NewForConfig is a nil *Clientset, which is an interface
    that is not nil. *)
Definition GetKubeClient (kubeconfig : string) (kubeAPIQPS : X) (kubeAPIBurst : Z) (userAgent : string) : io W (kube X * option error) :=
  if decide (kubeconfig = "no-need-kubeconfig") then mret (NilInterface, None)
  else
    r ← attempt
      (kubeCfg ← host (host_build_config "" kubeconfig);
       match kubeCfg with Some c => mret c | None => host host_in_cluster end);
    match r with
    | Err e => mret (NilInterface, Some e)
    | Ok c =>
      client ← lift (host_new_kube {| kc_QPS := host_float32 kubeAPIQPS; kc_Burst := kubeAPIBurst; kc_UserAgent := userAgent; kc_rest := kc_rest c |});
      mret (match client with Ok c => (Clientset c, None) | Err e => (NilClientset, Some e) end)
    end.

(** ** Listening *)

(** The socket of an earlier run is removed before the address is listened on. *)
Definition remove_stale (proto addr : string) : io W () :=
  when (bool_decide (proto = "unix"))
    (err ← lift (host_remove addr);
     match err with
     | Some e => if host_is_not_exist e then mret () else throw e
     | None => mret ()
     end).

Definition Listen (endpoint : string) : io W X :=
  '(proto, addr) ← from_result (ParseEndpoint endpoint);
  let addr := listen_address proto addr in
  _ ← remove_stale proto addr;
  host (host_listen proto addr).

(** The main function of blobfuse-proxy, from the parsed flags. *)
Definition proxy_main (blobfuseProxyEndpoint : string) : io W () :=
  '(proto, addr) ← wrap_err (λ e, errorf "failed to  parse endpoint %v" [Error e]) (from_result (ParseEndpoint blobfuseProxyEndpoint));
  let addr := listen_address proto addr in
  _ ← wrap_err (λ e, errorf "Failed to remove %s, error: %s" [addr; Error e]) (remove_stale proto addr);
  listener ← wrap_err (λ e, errorf "cannot start server:%v" [Error e]) (host (host_listen proto addr));
  _ ← NewMountServiceServer;
  err ← lift (host_serve listener);
  match err with Some e => throw (errorf "Error running grpc server %v. Error: %v" [host_addr listener; Error e]) | None => mret () end.

(** ** The driver *)

(** AddFlags: the options without any flag. *)
Definition default_options : DriverOptions :=
  {| o_NodeID := ""; o_DriverName := DefaultDriverName; o_BlobfuseProxyEndpoint := "unix://tmp/blobfuse-proxy.sock";
     o_EnableBlobfuseProxy := false; o_EnableBlobMockMount := false; o_AllowInlineVolumeKeyAccessWithIdentity := false;
     o_EnableGetVolumeStats := false; o_AppendMountErrorHelpLink := true; o_MountPermissions := 511; o_AppendTimeStampInCacheDir := false;
     o_EnableAznfsMount := false; o_VolStatsCacheExpireInMinutes := 10; o_SasTokenExpirationMinutes := 1440;
     o_WaitForAzCopyTimeoutMinutes := 18; o_EnableVolumeMountGroup := true; o_FSGroupChangePolicy := "" |}.

Definition GetVersionYAML (driverName : string) : result string :=
  marshalled ← host_yaml (GetVersion host_driverVersion host_gitCommit host_buildDate host_goVersion host_compiler host_goos host_goarch driverName);
  Ok (TrimSpace marshalled).

(** Run returns the error of the server, unless the server was stopped; a failure before is fatal. *)
Definition Run (d : Driver) (endpoint : string) : io W (option error) :=
  _ ← from_result (GetVersionYAML (csi_Name (d_csi d)));
  _ ← when (d_enableBlobfuseProxy d && negb (bool_decide (d_blobfuseProxyEndpoint d = "")))
        (modify (host_start_monitor (d_blobfuseProxyEndpoint d)));
  listener ← wrap_err (λ e, errorf "failed to listen to endpoint, error: %v" [Error e]) (Listen endpoint);
  err ← lift (host_serve listener);
  mret (match err with
        | Some e => if host_server_stopped e then None else Some e
        | None => None
        end).

(** The flags of the plugin; the number of processors is left out. *)
Record Flags := {
  f_metricsAddress : string; f_version : bool;
  f_kubeconfig : string; f_cloudConfigSecretName : string; f_cloudConfigSecretNamespace : string; f_customUserAgent : string;
  f_userAgentSuffix : string; f_allowEmptyCloudConfig : bool; f_kubeAPIQPS : X; f_kubeAPIBurst : Z; f_endpoint : string;
}.

Definition not_nil (c : kube X) : bool := match c with NilInterface => false | _ => true end.

(** handle: the error of the Kubernetes client is only logged, a missing cloud is fatal; the fields of the cloud are logged before
    the driver is built. *)
Definition handle (f : Flags) (o : DriverOptions) : io W () :=
  let userAgent := GetUserAgent host_driverVersion (o_DriverName o) (f_customUserAgent f) (f_userAgentSuffix f) in
  '(kubeClient, err) ← GetKubeClient (f_kubeconfig f) (f_kubeAPIQPS f) (f_kubeAPIBurst f) userAgent;
  '(cloud, err) ← GetCloudProvider kubeClient (o_NodeID o) (f_cloudConfigSecretName f) (f_cloudConfigSecretNamespace f) userAgent (f_allowEmptyCloudConfig f);
  _ ← throw_some ((λ e, errorf "failed to get Azure Cloud Provider, error: %v" [Error e]) <$> err);
  cloud ← match cloud with Some c => mret c | None => throw panic_nil end;
  err ← Run (NewDriver o host_driverVersion (not_nil kubeClient) (host_cloud cloud)) (f_endpoint f);
  throw_some ((λ e, errorf "Failed to run Azure Blob Storage CSI driver: %v" [Error e]) <$> err).

(** ** The metrics server and the main function *)

Definition trapClosedConnErr (err : option error) : option error :=
  match err with
  | Some e => if Contains (Error e) "use of closed network connection" then None else Some e
  | None => None
  end.

Definition serveMetrics (l : X) : io W (option error) :=
  err ← lift (host_serve l);
  mret (trapClosedConnErr err).

(** What the goroutine of the metrics server does with its listener. *)
Definition serve_on (l : X) : io W () :=
  err ← serveMetrics l;
  match err with Some e => throw (errorf "serve failure(%v), address(%v)" [Error e; host_addr l]) | None => mret () end.

(** exportMetrics: the listener of the goroutine that it starts, if any. *)
Definition exportMetrics (metricsAddress : string) : io W (option X) :=
  if decide (metricsAddress = "") then mret None
  else
    l ← attempt (host (host_listen "tcp" metricsAddress));
    mret (match l with Ok l => Some l | Err _ => None end).

(** main: the version is printed, or the driver runs. *)
Definition main (f : Flags) (o : DriverOptions) : io W (option string) :=
  if f_version f then
    info ← from_result (GetVersionYAML (o_DriverName o));
    mret (Some info)
  else
    _ ← exportMetrics (f_metricsAddress f);
    _ ← handle f o;
    mret None.
End startup.
Arguments Flags X : clear implicits.

(** ** What the start-up promises *)

Section startup_facts.
Context {W X : Type} `{Host W X}.

Definition repo_suffix (r : AccountRepo X) : string := default "" (en_StorageEndpointSuffix <$> ar_Environment r).

Lemma ensure_suffix_set r : repo_suffix (ensure_suffix r) ≠ "".
Proof. unfold ensure_suffix. destruct (decide _) as [|Hne]; [done|exact Hne]. Qed.

Lemma host_run {A} (f : W → A * W) w : lift f w = (Ok (f w).1, (f w).2).
Proof. unfold lift. by destruct (f w). Qed.

Lemma or_file_returns c err b w : ∃ r w', or_file c err b w = (Ok r, w').
Proof. unfold or_file. destruct c as [c|]; [by do 2 eexists|]. rewrite run_bind, host_run. destruct (host_load_file _ _) as [[c' err'] w']. by do 2 eexists. Qed.

(** The secret is only read with a client that is not nil. *)
Lemma load_config_dies kubeClient secretName secretNamespace w e w' :
  load_config kubeClient secretName secretNamespace w = (Err e, w') →
  e = panic_nil ∧ kubeClient = NilClientset ∧ secretName ≠ "" ∧ secretNamespace ≠ "".
Proof.
  assert (∀ c err b w, or_file c err b w ≠ (Err e, w')) as Hfile by (intros c err b w1; destruct (or_file_returns c err b w1) as (? & ? & ->); done).
  unfold load_config. destruct (_ || _) eqn:E1; [by intros ?%Hfile|]. bools. destruct kubeClient as [| |c].
  - by intros ?%Hfile.
  - by intros [= <- _].
  - rewrite run_bind, host_run. destruct (host_load_secret _ _ _ _ _) as [[c' err'] w2]. by intros ?%Hfile.
Qed.

(** What [cloud_provider] leaves to the deferred function. *)
Lemma cloud_provider_leaves kubeClient nodeID sn sns userAgent allow w l w' :
  cloud_provider kubeClient nodeID sn sns userAgent allow w = (Ok l, w') →
  (lv_repo l = None → ∃ c env az w1 e w2, host_new_repository c env az w1 = (Err e, w2)) ∧ (lv_err l = None → lv_returns_repo l = true).
Proof.
  unfold cloud_provider. intros ([[config err] fromSecret] & w1 & _ & E)%bind_inv_Ok. destruct config as [c|]; [|by injection E as <- _].
  apply bind_inv_Ok in E as ([[c1 az] err1] & w2 & _ & E). apply bind_inv_Ok in E as ([c2 env] & w3 & _ & E).
  destruct env as [env|e]; [|by injection E as <- _]. apply bind_inv_Ok in E as (repo & w4 & Er & E). rewrite host_run in Er.
  destruct (host_new_repository _ _ _ _) as [r w5] eqn:En. injection Er as -> ->. destruct repo as [repo|e]; [by injection E as <- _|].
  injection E as <- _. split; [|done]. intros _. by repeat eexists.
Qed.

Lemma cloud_provider_dies kubeClient nodeID sn sns userAgent allow w e w' :
  cloud_provider kubeClient nodeID sn sns userAgent allow w = (Err e, w') → e = panic_nil ∧ kubeClient = NilClientset ∧ sn ≠ "" ∧ sns ≠ "".
Proof.
  unfold cloud_provider. rewrite run_bind. destruct (load_config _ _ _ _) as [[[[config err] fromSecret]|e1] w1] eqn:El;
    [|intros [= -> _]; by apply load_config_dies in El].
  destruct config as [c|]; [|done]. rewrite run_bind, host_run. destruct (host_initialize _ _ _ _) as [[[c1 az] err1] w2].
  simpl. rewrite run_bind, host_run. destruct (host_env_config _ _) as [[c2 env] w3]. destruct env as [env|e2]; [|done].
  simpl. rewrite run_bind, host_run. destruct (host_new_repository _ _ _ _) as [[repo|e3] w4]; done.
Qed.

(** C21 - The cloud configuration always ends in a repository to work with, in an error, or in a panic of which there are two
    kinds: without an error GetCloudProvider returns a repository, and every repository it returns has a storage endpoint
    suffix; it panics only when the Kubernetes client is a nil *Clientset and the secret is to be read, or when
    NewRepository fails, whose error the deferred function never lets through. *)
Theorem GetCloudProvider_result kubeClient nodeID sn sns userAgent allow w :
  match GetCloudProvider kubeClient nodeID sn sns userAgent allow w with
  | (Ok (repo, err), _) => (err = None → is_Some repo) ∧ (∀ r, repo = Some r → repo_suffix r ≠ "")
  | (Err e, _) => e = panic_nil ∧ ((kubeClient = NilClientset ∧ sn ≠ "" ∧ sns ≠ "") ∨
                                   ∃ c env az w1 e' w2, host_new_repository c env az w1 = (Err e', w2))
  end.
Proof.
  unfold GetCloudProvider. rewrite run_bind. destruct (cloud_provider _ _ _ _ _ _ w) as [[l|e] w1] eqn:El.
  - apply cloud_provider_leaves in El as [Hnone Herr]. destruct (lv_repo l) as [r|]; simpl; [|by split; [|right; auto]].
    split; [by intros ->%Herr; eexists|]. intros r'. destruct (lv_returns_repo l); [|done]. intros [= <-]. apply ensure_suffix_set.
  - apply cloud_provider_dies in El as (-> & Hk). by split; [|left].
Qed.

(** A Kubernetes client that cannot be made ends the plugin: when NewForConfig fails (as with a burst of zero) and the
    cloud configuration is to be read from a secret, handle panics, although the error of the client is meant to be logged
    and the configuration file to be read. *)
Theorem nil_clientset_panics f o w c w1 e w2 :
  f_kubeconfig f ≠ "no-need-kubeconfig" → f_cloudConfigSecretName f ≠ "" → f_cloudConfigSecretNamespace f ≠ "" →
  host_build_config "" (f_kubeconfig f) w = (Ok (Some c), w1) →
  (∀ k, kc_QPS k = host_float32 (f_kubeAPIQPS f) → kc_Burst k = f_kubeAPIBurst f → host_new_kube k w1 = (Err e, w2)) →
  handle f o w = (Err panic_nil, w2).
Proof.
  intros Hk Hn Hns Hb Hnew. unfold handle. cbv zeta. rewrite run_bind.
  assert (∀ ua, GetKubeClient (f_kubeconfig f) (f_kubeAPIQPS f) (f_kubeAPIBurst f) ua w = (Ok (NilClientset, Some e), w2)) as ->.
  { intros ua. unfold GetKubeClient. rewrite decide_False by done. rewrite run_bind. unfold attempt. rewrite run_bind. unfold host at 1. rewrite Hb. simpl.
    rewrite run_bind, host_run, Hnew by done. done. }
  rewrite run_bind. unfold GetCloudProvider, cloud_provider, load_config. rewrite !run_bind, (bool_decide_eq_false_2 _ Hn), (bool_decide_eq_false_2 _ Hns).
  done.
Qed.

(** A scheme in capitals is parsed but not recognised: the address stays relative and the old socket is not removed. *)
Theorem Listen_in_capitals w : Listen "UNIX://tmp/csi.sock" w = host_listen "UNIX" "tmp/csi.sock" w.
Proof. unfold Listen. rewrite run_bind. vm_compute ParseEndpoint. simpl. done. Qed.
End startup_facts.

(** ** Witness *)

(** A platform on which NewForConfig refuses a burst that is not positive. *)
Definition plain_cloud : CloudConfig :=
  {| c_Cloud := ""; c_DisableAzureStackCloud := false; c_ResourceGroup := "rg"; c_SubscriptionID := "sub"; c_TenantID := "";
     c_Location := ""; c_VnetName := ""; c_VnetResourceGroup := ""; c_SubnetName := ""; c_NetworkResourceSubscriptionID := "";
     c_StorageEndpointSuffix := ""; c_UseManagedIdentityExtension := false; c_UserAssignedIdentityID := ""; c_AADClientID := "";
     c_AADClientSecret := ""; c_CloudProviderBackoffRetries := 0; c_has_compute_factory := false; c_has_network_factory := false |}.
Definition burst_error : error := errorf "burst is required to be greater than 0 when RateLimiter is not set and QPS is set to greater than 0" [].

Definition toy_host : Host () () := {|
  host_zero := (); host_env _ := None; host_load_secret _ _ _ _ w := ((None, Some (errorf "not found" [])), w);
  host_load_file _ w := ((None, Some (errorf "no such file" [])), w); host_initialize c _ _ w := ((c, (), None), w);
  host_env_config c w := ((c, Ok None), w); host_new_repository c env _ w := (Ok {| ar_Config := c; ar_Environment := env; ar_rest := () |}, w);
  host_cloud _ := plain_cloud; host_float32 x := x;
  host_build_config _ _ w := (Ok (Some {| kc_QPS := (); kc_Burst := 0; kc_UserAgent := ""; kc_rest := () |}), w);
  host_in_cluster w := (Err (errorf "not in a cluster" []), w);
  host_new_kube k w := (if (kc_Burst k <=? 0)%Z then Err burst_error else Ok (), w);
  host_ini_load _ w := (Ok ∅, w); host_remove _ w := (None, w); host_is_not_exist _ := false; host_listen _ _ w := (Ok (), w);
  host_yaml v := Ok (DriverName v); host_driverVersion := "v1"; host_gitCommit := ""; host_buildDate := ""; host_goVersion := ""; host_compiler := ""; host_goos := "linux"; host_goarch := "amd64";
  host_start_monitor _ w := w; host_addr _ := ""; host_serve _ w := (None, w); host_server_stopped _ := false;
|}.

Definition flags (burst : Z) : Flags () :=
  {| f_metricsAddress := ""; f_version := false; f_kubeconfig := ""; f_cloudConfigSecretName := "azure-cloud-provider"; f_cloudConfigSecretNamespace := "kube-system"; f_customUserAgent := "";
     f_userAgentSuffix := ""; f_allowEmptyCloudConfig := true; f_kubeAPIQPS := (); f_kubeAPIBurst := burst; f_endpoint := "unix://tmp/csi.sock" |}.

(** With the default burst the same plugin runs. *)
Lemma nil_clientset_panics_witness :
  handle (H := toy_host) (flags 0) default_options () = (Err panic_nil, ()) ∧ handle (H := toy_host) (flags 50) default_options () = (Ok (), ()).
Proof.
  split; [|vm_compute; reflexivity].
  apply (nil_clientset_panics (H := toy_host) (flags 0) default_options () {| kc_QPS := (); kc_Burst := 0; kc_UserAgent := ""; kc_rest := () |} () burst_error);
    [discriminate|discriminate|discriminate|reflexivity|]. intros k _ Hb. simpl. rewrite Hb. reflexivity.
Defined.
