(* ===== verification/Logging.v ===== *)
(** * Logging: LogGRPC and stripSensitiveValueByKey of pkg/csi-common/utils.go

    The interceptor around every RPC.  What it writes to the log is a list of lines; the sanitizer that removes the CSI
    secrets from a message is a library, and so are the readers and printers of JSON. *)
From S2P Require Import Prelude GoUnicode GoStrings GoErr CsiCommon Effects.
From stdpp Require Import options.

(** What json.Unmarshal builds: a number is kept as it is printed. *)
#[warnings="-register-all"]
Inductive json :=
| JNull
| JBool (b : bool)
| JNumber (n : string)
| JString (s : string)
| JArray (l : list json)
| JObject (m : gmap string json).

(** Unmarshal into a map, which stays nil for null; Marshal, which does not fail on values of this type. *)
Class Json := {
  unmarshal_object : string → result (option (gmap string json));
  marshal : json → result string;
  marshal_ok v : ∃ b, marshal v = Ok b;
}.

Definition serviceAccountTokens : string := "csi.storage.k8s.io/serviceAccount.tokens".
Definition stripped : json := JString "***stripped***".

Section logging.
Context `{Json}.

(** The message [req] is the JSON text that the sanitizer prints. *)
Definition stripSensitiveValueByKey (req key : string) : string :=
  match unmarshal_object req with
  | Ok (Some parsed) =>
    match parsed !! "volume_context" with
    | Some (JObject volumeContext) =>
      match volumeContext !! key with
      | Some _ =>
        match marshal (JObject (<["volume_context" := JObject (<[key := stripped]> volumeContext)]> parsed)) with
        | Ok b => b
        | Err _ => req
        end
      | None => req
      end
    | _ => req
    end
  | _ => req
  end.

(** A line at a verbosity level; errors are always logged. *)
Definition vlog (verbosity level : Z) (line : string) : list string := if (level <=? verbosity)%Z then [line] else [].

(** The interceptor: the handler's answer and the lines that are logged around it. *)
Definition LogGRPC {W Req Resp} (verbosity : Z) (sanitize_req : Req → string) (sanitize_resp : Resp → string) (FullMethod : string)
    (handler : Req → io W Resp) (req : Req) (w : W) : (result Resp * W) * list string :=
  let level := getLogLevel FullMethod in
  let before := vlog verbosity level (Sprintf "GRPC call: %s" [FullMethod])
                ++ vlog verbosity level (Sprintf "GRPC request: %s" [stripSensitiveValueByKey (sanitize_req req) serviceAccountTokens]) in
  let '(r, w') := handler req w in
  let after :=
    match r with
    | Err e => [Sprintf "GRPC error: %v" [Error e]]
    | Ok resp =>
      if (level <=? verbosity)%Z then
        let respStr := sanitize_resp resp in
        let respLevel := if decide (respStr = "{}") then 6%Z else level in
        vlog verbosity respLevel (Sprintf "GRPC response: %s" [respStr])
      else []
    end in
  ((r, w'), before ++ after).

(** Two objects that differ in the value of [key] in their volume context, and in nothing else. *)
Record differ_at (key : string) (o1 o2 : gmap string json) : Prop := {
  differ_context : ∃ vc1 vc2, o1 !! "volume_context" = Some (JObject vc1) ∧ o2 !! "volume_context" = Some (JObject vc2) ∧
                              is_Some (vc1 !! key) ∧ is_Some (vc2 !! key) ∧ delete key vc1 = delete key vc2;
  differ_rest : delete "volume_context" o1 = delete "volume_context" o2;
}.

Lemma insert_same_delete {A} (m1 m2 : gmap string A) k v : delete k m1 = delete k m2 → <[k := v]> m1 = <[k := v]> m2.
Proof. intros Hd. by rewrite <- (insert_delete_eq m1), <- (insert_delete_eq m2), Hd. Qed.

Lemma strip_hides r1 r2 o1 o2 key :
  unmarshal_object r1 = Ok (Some o1) → unmarshal_object r2 = Ok (Some o2) → differ_at key o1 o2 →
  stripSensitiveValueByKey r1 key = stripSensitiveValueByKey r2 key.
Proof.
  intros E1 E2 [(vc1 & vc2 & H1 & H2 & [v1 K1] & [v2 K2] & Hvc) Hrest]. unfold stripSensitiveValueByKey.
  rewrite E1, E2, H1, H2, K1, K2, (insert_same_delete vc1 vc2 key stripped Hvc), (insert_same_delete o1 o2 _ _ Hrest).
  by destruct (marshal_ok (JObject (<["volume_context":=JObject (<[key:=stripped]> vc2)]> o2))) as [b ->].
Qed.

(** C20 - The interceptor is transparent and keeps the service account tokens out of the log: it returns the handler's answer,
    and two requests that differ only in the tokens of their volume context, and that the handler answers alike, leave the
    same lines in the log, at every verbosity. *)
Theorem LogGRPC_hides_tokens {W Req Resp} verbosity (sanitize_req : Req → string) (sanitize_resp : Resp → string) method (handler : Req → io W Resp) r1 r2 w o1 o2 :
  unmarshal_object (sanitize_req r1) = Ok (Some o1) → unmarshal_object (sanitize_req r2) = Ok (Some o2) → differ_at serviceAccountTokens o1 o2 →
  handler r1 w = handler r2 w →
  (LogGRPC verbosity sanitize_req sanitize_resp method handler r1 w).1 = handler r1 w ∧
  LogGRPC verbosity sanitize_req sanitize_resp method handler r1 w = LogGRPC verbosity sanitize_req sanitize_resp method handler r2 w.
Proof.
  intros E1 E2 Hd Hh. unfold LogGRPC. rewrite (strip_hides _ _ _ _ _ E1 E2 Hd), Hh. destruct (handler r2 w). done.
Qed.
End logging.

(** ** Witness *)

(** Two tokens, and a printer that shows the tokens of a volume context. *)
Definition request_with (token : string) : gmap string json :=
  {[ "volume_context" := JObject {[ serviceAccountTokens := JString token ]} ]}.

Definition toy_json : Json.
Proof.
  refine {| unmarshal_object s := Ok (Some (request_with s));
            marshal v := Ok match v with
                            | JObject m => match m !! "volume_context" with
                                           | Some (JObject vc) => match vc !! serviceAccountTokens with Some (JString t) => t | _ => "" end
                                           | _ => ""
                                           end
                            | _ => ""
                            end |}.
  intros v. by eexists.
Defined.

Lemma LogGRPC_hides_tokens_witness :
  LogGRPC (H := toy_json) 2 id id "/csi.v1.Node/NodePublishVolume" (λ _ w, (Ok "{}", w)) "secret-1" () =
  LogGRPC (H := toy_json) 2 id id "/csi.v1.Node/NodePublishVolume" (λ _ w, (Ok "{}", w)) "secret-2" () ∧
  (LogGRPC (H := toy_json) 2 id id "/csi.v1.Node/NodePublishVolume" (λ _ w, (Ok "{}", w)) "secret-1" ()).2 =
  ["GRPC call: /csi.v1.Node/NodePublishVolume"; "GRPC request: ***stripped***"].
Proof.
  split; [|vm_compute; reflexivity].
  apply (LogGRPC_hides_tokens (H := toy_json) 2 id id _ _ _ _ _ (request_with "secret-1") (request_with "secret-2")); [reflexivity|reflexivity| |reflexivity].
  split.
  - exists {[ serviceAccountTokens := JString "secret-1" ]}, {[ serviceAccountTokens := JString "secret-2" ]}.
    split; [apply lookup_insert_eq|]. split; [apply lookup_insert_eq|]. split; [eexists; apply lookup_insert_eq|].
    split; [eexists; apply lookup_insert_eq|]. by rewrite !delete_singleton_eq.
  - unfold request_with. by rewrite !delete_singleton_eq.
Defined.
