(* ===== verification/Privileges.v ===== *)
(** * Privileges: which service makes which calls

    The controller and the node service are one program with the same code for credentials, but they run with different
    rights.  No node RPC calls anything that changes the cloud, nor starts a process other than blobfuse; no controller RPC
    calls anything that changes the files or the mounts of its host, nor starts a process other than azcopy. *)
From S2P Require Import Prelude GoUnicode GoStrings GoErr Attributes CsiCommon Metrics Effects World Azcopy Auth Containers CreateVolume.
From S2P Require Import DriverInit Interference Toy Frames Server.
From stdpp Require Import options.

Section privileges.
Context {W : Type}.

(** Other answers and effects of the calls that create, delete or change something in the cloud or the cluster, of every
    command of a shell, and of every process other than blobfuse. *)
Definition with_cloud_calls (H : Ops W)
    (secret_create' : string → string → strmap → W → option error * W)
    (ensure_account' : AccountOptions → string → W → result (string * string) * W)
    (create_container' : string → string → string → string → strmap → W → option error * W)
    (delete_container' : string → string → string → string → W → option error * W)
    (dp_create' : ContainerRef → strmap → W → option error * W) (dp_delete' : ContainerRef → W → option error * W)
    (subnet_update' : string → string → string → Subnet → W → option error * W)
    (shell' : string → list string → W → (string * option error) * W)
    (exec' : string → list string → list string → W → (string * option error) * W) : Ops W :=
  {|
    op_now := op_now; op_uuid := op_uuid; op_secret_get := op_secret_get; op_secret_create := secret_create';
    is_already_exists := is_already_exists; op_auth_provider := op_auth_provider; op_vault_client := op_vault_client;
    op_vault_secret := op_vault_secret; op_account_client := op_account_client; op_storage_accesskey := op_storage_accesskey;
    op_accesskey_from_token := op_accesskey_from_token; op_ensure_account := ensure_account'; op_blob_client := op_blob_client;
    op_create_container := create_container'; op_delete_container := delete_container'; op_get_container := op_get_container;
    op_new_client := op_new_client; op_dp_create := dp_create'; op_dp_delete := dp_delete'; op_dp_exists := op_dp_exists;
    op_subnet_get := op_subnet_get; op_subnet_list := op_subnet_list; op_subnet_update := subnet_update';
    op_shared_key_credential := op_shared_key_credential; op_service_client := op_service_client; op_sas_url := op_sas_url;
    url_parse_error := url_parse_error; op_shell := shell';
    op_exec := λ name, if decide (name ∈ ["blobfuse"; "blobfuse2"]) then op_exec name else exec' name;
    op_timer_fires := op_timer_fires; op_proxy_dial := op_proxy_dial; op_dial_unix := op_dial_unix; op_proxy_mount := op_proxy_mount;
    op_proxy_capabilities := op_proxy_capabilities; is_not_exist := is_not_exist; is_exist := is_exist;
    is_corrupted_mnt := is_corrupted_mnt; op_read_file := op_read_file; op_write_file := op_write_file; op_lstat := op_lstat;
    op_chmod := op_chmod; op_mkdir_all := op_mkdir_all; op_remove := op_remove; op_setenv := op_setenv;
    op_path_exists := op_path_exists; op_is_likely_not_mnt := op_is_likely_not_mnt; op_mount_list := op_mount_list; op_abs := op_abs;
    op_mount := op_mount; op_unmount := op_unmount; op_probe_mount := op_probe_mount; op_cleanup_mount_point := op_cleanup_mount_point;
    op_set_ownership := op_set_ownership; op_fs_metrics := op_fs_metrics; op_unmarshal_token := op_unmarshal_token
  |}.

(** Other answers and effects of the calls that mount, unmount or change files, of every process other than azcopy
    and of every shell command that does not begin with it. *)
Definition with_host_calls (H : Ops W)
    (mount' : string → string → string → list string → W → option error * W) (unmount' : string → W → option error * W)
    (cleanup_mount_point' : string → W → option error * W)
    (proxy_mount' : string → string → list string → W → (string * option error) * W) (mkdir_all' : string → N → W → option error * W)
    (chmod' : string → N → W → option error * W) (remove' : string → W → option error * W)
    (write_file' : string → string → W → option error * W) (setenv' : string → string → W → W)
    (set_ownership' : string → Z → string → W → option error * W) (shell' : string → list string → W → (string * option error) * W)
    (exec' : string → list string → list string → W → (string * option error) * W) : Ops W :=
  {|
    op_now := op_now; op_uuid := op_uuid; op_secret_get := op_secret_get; op_secret_create := op_secret_create;
    is_already_exists := is_already_exists; op_auth_provider := op_auth_provider; op_vault_client := op_vault_client;
    op_vault_secret := op_vault_secret; op_account_client := op_account_client; op_storage_accesskey := op_storage_accesskey;
    op_accesskey_from_token := op_accesskey_from_token; op_ensure_account := op_ensure_account; op_blob_client := op_blob_client;
    op_create_container := op_create_container; op_delete_container := op_delete_container; op_get_container := op_get_container;
    op_new_client := op_new_client; op_dp_create := op_dp_create; op_dp_delete := op_dp_delete; op_dp_exists := op_dp_exists;
    op_subnet_get := op_subnet_get; op_subnet_list := op_subnet_list; op_subnet_update := op_subnet_update;
    op_shared_key_credential := op_shared_key_credential; op_service_client := op_service_client; op_sas_url := op_sas_url;
    url_parse_error := url_parse_error; op_shell := λ cmd, if HasPrefix cmd "azcopy " then op_shell cmd else shell' cmd;
    op_exec := λ name, if decide (name = "azcopy") then op_exec name else exec' name; op_timer_fires := op_timer_fires;
    op_proxy_dial := op_proxy_dial; op_dial_unix := op_dial_unix; op_proxy_mount := proxy_mount';
    op_proxy_capabilities := op_proxy_capabilities; is_not_exist := is_not_exist; is_exist := is_exist;
    is_corrupted_mnt := is_corrupted_mnt; op_read_file := op_read_file; op_write_file := write_file'; op_lstat := op_lstat;
    op_chmod := chmod'; op_mkdir_all := mkdir_all'; op_remove := remove'; op_setenv := setenv'; op_path_exists := op_path_exists;
    op_is_likely_not_mnt := op_is_likely_not_mnt; op_mount_list := op_mount_list; op_abs := op_abs; op_mount := mount';
    op_unmount := unmount'; op_probe_mount := op_probe_mount; op_cleanup_mount_point := cleanup_mount_point';
    op_set_ownership := set_ownership'; op_fs_metrics := op_fs_metrics; op_unmarshal_token := op_unmarshal_token
  |}.

Context `{H0 : Ops W} `{RangeOrder}.

(** The RPCs of the node service. *)
Definition of_node (c : rpc) : bool :=
  match c with
  | NodeStageVolumeCall _ | NodeUnstageVolumeCall _ _ | NodePublishVolumeCall _ | NodeUnpublishVolumeCall _ _ | NodeGetVolumeStatsCall _ _ => true
  | _ => false
  end.

(** ** CreateVolume starts no process but azcopy

    Every other RPC makes the calls by name, so that both sides are convertible; the commands of CreateVolume are computed,
    and its parts are compared one by one. *)
Section azcopy_only.
Context (mount' : string → string → string → list string → W → option error * W)
  (unmount' : string → W → option error * W)
  (cleanup_mount_point' : string → W → option error * W)
  (proxy_mount' : string → string → list string → W → (string * option error) * W)
  (mkdir_all' : string → N → W → option error * W)
  (chmod' : string → N → W → option error * W)
  (remove' : string → W → option error * W)
  (write_file' : string → string → W → option error * W)
  (setenv' : string → string → W → W)
  (set_ownership' : string → Z → string → W → option error * W)
  (shell' : string → list string → W → (string * option error) * W)
  (exec' : string → list string → list string → W → (string * option error) * W).
Abbreviation other := (with_host_calls H0 mount' unmount' cleanup_mount_point' proxy_mount' mkdir_all' chmod' remove' write_file' setenv' set_ownership' shell' exec').

Lemma same_shell cmd env : HasPrefix cmd "azcopy " = true → same (ask (op_shell (Ops := other) cmd env)) (ask (op_shell cmd env)).
Proof. intros E s. unfold ask. cbn [op_shell with_host_calls]. by rewrite E. Qed.
Lemma same_exec args env : same (ask (op_exec (Ops := other) "azcopy" args env)) (ask (op_exec "azcopy" args env)).
Proof. intros s. unfold ask. cbn [op_exec with_host_calls]. by rewrite decide_True. Qed.
#[local] Hint Resolve same_exec : same.

Lemma same_GetAzcopyJob c env : same (GetAzcopyJob (H := other) c env) (GetAzcopyJob c env).
Proof.
  unfold GetAzcopyJob. apply same_bind; [by apply same_shell|]. intros [out err]. destruct (list_failed err); [reflexivity|].
  destruct (parseAzcopyJobList out) as [[jobid jobState] perr]. destruct (parse_failed _ _); [reflexivity|].
  destruct (is_completed _); [reflexivity|]. destruct (decide _); [reflexivity|].
  apply same_bind; [by apply same_shell|reflexivity].
Qed.
Lemma same_CleanJobs : same (CleanJobs (H := other)) CleanJobs.
Proof. by apply same_shell. Qed.
#[local] Hint Resolve same_GetAzcopyJob same_CleanJobs : same.

Lemma same_poll n e c c' : same c c' → same (PollUntilContextTimeout (W := W) n e c) (PollUntilContextTimeout n e c').
Proof.
  intros Hc. induction n as [|n IH]; (apply same_bind; [done|]; intros [|]; [reflexivity|]); [reflexivity|].
  apply same_bind; [reflexivity|]. by intros [|].
Qed.

Lemma same_getAzcopyAuth d a k suffix ao secrets s ns sas :
  same (getAzcopyAuth (H := other) d a k suffix ao secrets s ns sas) (getAzcopyAuth d a k suffix ao secrets s ns sas).
Proof. reflexivity. Qed.
Lemma same_cleanup d b subs rg a c secrets env :
  same (cleanupContainerOnFailure (H := other) d b subs rg a c secrets env) (cleanupContainerOnFailure d b subs rg a c secrets env).
Proof.
  unfold cleanupContainerOnFailure. destruct (negb b); [reflexivity|]. apply same_bind; [apply same_GetAzcopyJob|reflexivity].
Qed.
#[local] Hint Resolve same_getAzcopyAuth same_cleanup : same.

Lemma same_copyVolume d vs t a tok env c ns ao e :
  same (copyVolume (H := other) d vs t a tok env c ns ao e) (copyVolume d vs t a tok env c ns ao e).
Proof.
  unfold copyVolume. destruct vs; [reflexivity| |reflexivity].
  unfold copyBlobContainer, wait_for_job, WaitUntilTimeout, execAzcopyCopy. same_code. apply same_poll. same_code.
Qed.
#[local] Hint Resolve same_copyVolume : same.

Lemma same_copy_source d pl source t on a k c b secrets :
  same (copy_source (H := other) d pl source t on a k c b secrets) (copy_source d pl source t on a k c b secrets).
Proof. unfold copy_source. same_code. Qed.

Lemma same_provision d req pl c params a k :
  same (provision (H := other) d req pl c params a k) (provision d req pl c params a k).
Proof.
  unfold provision. cbv zeta. apply same_bind; [reflexivity|]. intros [[acc key] secrets].
  apply same_bind; [reflexivity|]. intros _. apply same_bind; [|reflexivity].
  destruct (cv_VolumeContentSource req); [apply same_copy_source|reflexivity].
Qed.

Lemma same_CreateVolume d req : same (CreateVolume (H := other) d req) (CreateVolume d req).
Proof.
  unfold CreateVolume. do 2 (apply same_bind; [reflexivity|]; intros []). cbv zeta. apply same_bind; [reflexivity|]. intros [].
  do 2 (apply same_bind; [reflexivity|]; intros ?). apply same_bind; [reflexivity|]. intros [c params]. apply same_with_lock.
  - unfold create_volume_aborted. destruct (cv_VolumeContentSource req); [|reflexivity].
    apply same_bind; [apply same_GetAzcopyJob|reflexivity].
  - apply same_with_metric, same_bind; [reflexivity|]. intros [[account key] deferred]. apply same_defer, same_provision.
Qed.
End azcopy_only.

(** C5 - The services are separated: an RPC of the node service behaves the same from every state whatever the calls do that
    search for or create accounts, create or delete containers, change subnets or create secrets, and whatever a shell or a
    process other than blobfuse and blobfuse2 does, so it makes none of these calls.  An RPC of the controller service behaves
    the same whatever the calls do that mount (itself or through the proxy), unmount, change files, the environment or
    ownership, and whatever a process other than azcopy, or a shell command that does not begin with it, does: it makes none of
    these calls, and in particular it does not start blobfuse. *)
Theorem services_separated d c :
  if of_node c then
    ∀ secret_create' ensure_account' create_container' delete_container' dp_create' dp_delete' subnet_update' shell' exec',
      same (serve (H := with_cloud_calls H0 secret_create' ensure_account' create_container' delete_container' 
        dp_create' dp_delete' subnet_update' shell' exec') d c) (serve d c)
  else
    ∀ mount' unmount' cleanup_mount_point' proxy_mount' mkdir_all' chmod' remove' write_file' setenv' set_ownership' shell' exec',
      same (serve (H := with_host_calls H0 mount' unmount' cleanup_mount_point' proxy_mount' mkdir_all' 
        chmod' remove' write_file' setenv' set_ownership' shell' exec') d c) (serve d c).
Proof. destruct c; cbv beta iota delta [of_node]; intros; [apply same_bind; [apply same_CreateVolume|reflexivity]|reflexivity..]. Qed.
End privileges.
